(* ===== verification/_CoqProject ===== *)
-Q . S2P
Prelude.v
Fmt.v
Mem.v
CStr.v
Lua.v
LuaStack.v
Dbl.v
Ar.v
Sendbuf.v
Recvbuf.v
Ae.v
AeSelect.v
AeEpoll.v
AeKqueue.v
AeInv.v
Proc.v
Ltimer.v
Lport.v
Lae.v
Net.v
Bson.v
BsonBuild.v
BsonIter.v
Lbson.v
Strlib.v
Dates.v
Files.v
Redis.v
Mysql.v
Sys.v
Actordb.v
ActordbProps.v
Log.v
Json.v
JsonText.v
JsonParse.v
Ljson.v
JsonHeap.v
Srvproto.v
SrvDispatch.v
SrvLink.v
Pblua.v
PbluaProps.v
