(* ===== verification/Prelude.v ===== *)
(** * A verification development of the lua333 server engine

    lua333 is a game server engine: C modules loaded into a Lua interpreter give
    scripts an event loop over sockets and timers, buffers for the bytes that come
    and go, typed serialisation, BSON and JSON documents, protobuf messages, clients for
    redis and MySQL, and small libraries.  This library
    models these modules as they are written and proves what makes them correct.

    ** The program

    Scripts create an event loop (Ae.create) and open ports.  The loop polls the
    descriptors of all ports; a readable socket is received into its receive buffer
    and the script's read function, found by its dotted name, is called; the script
    parses the bytes through an archive.  To answer, it takes a block of the socket's
    send queue, writes into it through an archive and flushes it; the loop calls the
    write handler while the queue holds bytes.  Timers call script functions and
    are rescheduled by what these return.

    ** Files

    - Prelude: results of C calls, machine integers, little-endian bytes, tactics.
      Fmt: decimal and hexadecimal text, atoi.
    - Mem: the flat memory raw pointers reach; malloc and realloc as classes with
      their documented laws; static buffers that grow.  CStr: strlen and strcat on it.
    - Lua: the part of the Lua C API the modules use; resolving a dotted name; tables as
      trees.  LuaStack: the stack of a C function, where its depth matters: the stack itself
      for the encoders and decoders, the free slots for the tables of messages and replies.
      Dbl: double arithmetic and the conversion to float.
    - Ar: src/src/ar/ar.cc, archives (one record per entry of the table s_ars).
    - Sendbuf: src/src/ae/lsendbuf.cc.  The block queues of the sockets, with the
      blocks' structures in a heap and their bytes in the memory.
    - Recvbuf: src/src/ae/lrecvbuf.cc, one growing buffer per socket.
    - Ae: src/src/ae/ae.cc, the loop, over the interface [AeApi] of a polling layer.
      AeSelect, AeEpoll, AeKqueue: the three layers ae_select.cc, ae_epoll.cc and
      ae_kqueue.cc; the first two discharge the contract [AeApiOk] of the interface.
    - Proc: the state the network modules share, and the operating system.
    - Ltimer: src/src/ae/ltimer.cc; Lport: lport.cc; Lae: lae.cc, with the linking
      of the C functions to the pointers the loop calls.
      AeInv: what every function of ae.cc keeps, over the interface.  Net: the process as a
      whole, the scripts' calls as a step relation.
    - Bson, BsonBuild, BsonIter: src/src/bson/bson.c, the builder, what it builds,
      and the iterators.  Lbson: bson_encode.cpp and cBson.cpp, BSON for scripts.
    - Json: src/src/json/cJSON.cc, items, parsing and printing; JsonText: what is printed;
      JsonParse: what is parsed; Ljson: json.cc, JSON for scripts; JsonHeap: the items as they
      lie in memory, with every function that links, unlinks or frees them.
    - Pblua: src/src/pblua/pblua.cc, protobuf messages for scripts, over the reflection of
      protobuf; PbluaProps: its theorems.
    - Actordb: src/src/lstrc/actordb.cc, records for scripts; ActordbProps: its theorems.
    - Redis: src/src/redis; Mysql: src/src/mysql.
    - Log: src/3rd/common/log.c, the logger, and src/src/log.
    - Strlib: src/src/stringpatch and src/src/bitpatch; Dates: src/src/date;
      Files: src/src/file; Sys: src/src/system, src/src/srvmain and src/src/socket.
    - Srvproto: src/mod/srvproto/srvproto.lua, the script by which servers send each other
      messages: the buffers, archives and ports working together.  SrvDispatch: its loop over
      received messages, with a handler that sends.  SrvLink: two such servers with the write
      handler of Lport and a network between them.

    A Lua function lfoo of the C code is a definition of the same name that takes the
    list of its arguments and the state of its module and returns the list of its
    results and the new state.  A result is [Ret], or [Undef] where the C program has
    undefined behaviour, [Raise] where a Lua error or exit leaves the function, and
    [NoFuel] where a loop did not end within its fuel.

    ** What the theorems show

    - The buffers refine simple objects.  Sendbuf.sendbuf_fifo: any history of
      calls acts on a socket as on a queue of bytes.  Recvbuf.recvbuf_stream: as on
      a stream of bytes.  Both start from states of which an invariant says that
      blocks and buffers are live, disjoint and within their bounds.
      PbluaProps.repeated_refines_list: any history of calls acts on a repeated field as
      on a list.  Log.log_no_loss: the old files and the current one together hold every
      line that was logged, if every rotation finds a free name; log_print_returns: a failed
      one is logged and does not recurse.  JsonHeap.json_edits: any edits of an item in memory are edits of
      the value it represents, and deleting it leaves no block behind; json_encode_heap: so it
      is for the encoder.
    - Round trips: Ar.archive_roundtrip (typed values through an archive),
      BsonIter.bson_roundtrip (documents of any nesting through the builder and the
      iterators), Lbson.bson_script_roundtrip and Ljson.json_script_roundtrip (Lua values
      through the codecs), JsonText.json_roundtrip, PbluaProps.field_set_get,
      BsonIter.oid_roundtrip, Strlib.split_join_char.
    - Equivalence with a reference: JsonText.json_print_text (the two passes of the printer
      give the text of a recursive definition), PbluaProps.totable_view.
    - The loop: registering and deleting events keep maxfd and the masks right
      (create_file_event_spec; delete_file_event_spec, with everything else as it was); the poll fires exactly what
      the system reported (sel_poll_fired, epoll_poll_fired); a round of time events
      ends and runs every due timer (time_round_terminates); the nearest timer and
      the time-out of the poll are right for timers not overdue (nearest_timer_minimal,
      poll_timeout_exact, add_milliseconds_exact).
    - Timers and sockets: laddtimer_spec, timer_proc_interval, stop_timer_counts,
      write_loop_in_order (the write handler hands the queue to send in order).
    - Messages between servers: Srvproto.send_frame (a message is queued whole or not at all),
      SrvDispatch.messages_received (however TCP cuts the stream, the handler gets the messages
      whole and in order), messages_answered (also when it sends answers from within),
      SrvLink.link_fifo (two servers that take turns in any order refine a queue of messages),
      link_drains (every message that was sent is handled in the end).
    - The process: Net.process_loops_ok, the loops stay right and their handlers known under
      any sequence of the scripts' calls, scripts called back by handlers included, over a
      polling layer that does not forget a closed descriptor by itself;
      Net.real_close_clean, behind the script's close handler closing a socket ends its watch
      and changes nothing else of the loops.
    - Invariants and safety: ar_write_in_bounds, api_cursor_inv, ar_create_spec,
      recvbuf_create_spec, hash_least (the size class loop ends), lfind_first;
      PbluaProps.api_refs_ok and ActordbProps.api_owned: whatever a script calls, the
      objects behind its handles are live and owned once, for pblua as long as the collector
      takes no object another one refers to; JsonParse.json_parse_typed and
      json_parse_ends: what the parser makes of any text is a well-formed item, in time, and
      with whole escapes and exponents it is never undefined;
      Mysql.escape_spec: when the static buffer is large enough.
    - Clients: Redis.mset_command and reply_table, Mysql.select_rows: the command sent is
      the script's, the table returned is the server's answer, while the stack has room.
    - Scripts' libraries: join_spec, mkdirs_spec, basename_spec, same_week_spec,
      Sys.cmd_spec, ActordbProps.user_tostring_spec.
    - Behaviour at the edges, where the code does less than it means to:
      failed_connect_watched, closed_twice, select_fd_overflow, overdue_timer_sleeps, timer_self_delete_undefined,
      unflushed_block_stalls, zero_length_spins, negative_length_rewinds,
      table_arrives_as_text, message_not_skipped, no_archive_queues_garbage, alloc_overflow, ensure_space_overflow,
      find_never_ends, unpack_never_ends, long_string_lost, writeint_full_silent,
      same_second_overwrites, log_recursion, reply_too_deep, collected_message, parse_exponent,
      getuint32_truncates, lfind_misses_whole, split_long_separator, and examples at the
      end of the files.

    ** Bounds and fuel

    Integers have the width of the C type on x86-64 Linux; signed arithmetic that
    overflows is undefined, conversions wrap.  The capacities are those of the code
    (MAX_AR, MAX_SOCKET, MAX_TABLE, MAX_SOCK, MAX_FILE_DATA, the stack of a bson).
    Loops over a table or a list are structural.  The loops with fuel are those that
    follow links or data: the block chains and the hash of Sendbuf, the links of JsonHeap, the time events,
    the main loop, the write loop and the loop over received messages, the walk over a BSON
    document, split, strlen.
    Where a theorem is about such a loop it states how much fuel is enough: the
    number of blocks, of pending and due timers, of the elements of a document, the
    length of the string, the size of the memory; the tables of messages need more fuel than
    the stack has slots, beyond which the run is undefined.  main_loop and a walk over a damaged
    document need not end; find_never_ends proves the latter.

    ** What is not modelled

    - The operating system, the allocator, the Lua interpreter, the C library's
      calendar and number formats, the functions of bson's missing encoding.h, the
      reflection of protobuf, hiredis and the MySQL connector: they are parameters, with
      documented laws where a theorem needs them.
    - printf and log output of the modules, and the text BSON printing formats (the model
      gives its items); the functions named test, which print.
    - pblua's find, which changes nothing and has no result, and its import of enums behind
      a return; cJSON's allocation hooks, which nothing sets.
    - src/src/luaexe/luaexe.c, a copy of the interpreter of the Lua distribution; vendored
      libraries, generated code and the scripts other than srvproto.lua. *)
From stdpp Require Export base list list_numbers gmap sets strings.
From Stdlib Require Export ZArith Lia.

Declare Scope c_scope.
Delimit Scope c_scope with c.
Local Open Scope Z_scope.

(** ** Results of a C call *)

(** [Ret a]: the call returns [a].  [Undef]: the C program has undefined
    behaviour (it dereferences NULL, a freed object or memory it does not own).
    [Raise]: a Lua error leaves the C function by longjmp.  [NoFuel]: a loop did
    not end within the iterations it was given. *)
Inductive res (A : Type) : Type :=
| Ret (a : A)
| Undef
| Raise
| NoFuel.
Arguments Ret {A} a.
Arguments Undef {A}.
Arguments Raise {A}.
Arguments NoFuel {A}.

#[export] Instance res_ret : MRet res := @Ret.
#[export] Instance res_bind : MBind res := fun A B f m =>
  match m with Ret a => f a | Undef => Undef | Raise => Raise | NoFuel => NoFuel end.

Definition of_option {A} (o : option A) : res A :=
  match o with Some a => Ret a | None => Undef end.

(** A value read through a pointer that must be mapped. *)
Notation "'deref!' o" := (of_option o) (at level 20) : c_scope.

Lemma bind_Ret_inv {A B} (m : res A) (f : A -> res B) b :
  m ≫= f = Ret b -> exists a, m = Ret a /\ f a = Ret b.
Proof. destruct m; cbn; intros H; [eauto | discriminate..]. Qed.

Lemma of_option_Ret {A} (o : option A) a : of_option o = Ret a <-> o = Some a.
Proof. destruct o; cbn; split; congruence. Qed.

Lemma bind_Ret_l {A B} (a : A) (f : A -> res B) : Ret a ≫= f = f a.
Proof. reflexivity. Qed.

(** A call of whose result [Q] holds if it returns one. *)
Definition returns {A} (Q : A -> Prop) (m : res A) : Prop := match m with Ret a => Q a | _ => True end.

Lemma returns_iff {A} (Q : A -> Prop) m : returns Q m <-> forall a, m = Ret a -> Q a.
Proof. destruct m; cbn; split; intros H; [by intros ? [= <-]|by apply H|done..]. Qed.
Lemma returns_bind {A B} (Q : B -> Prop) (m : res A) (f : A -> res B) :
  returns (fun a => returns Q (f a)) m -> returns Q (m ≫= f).
Proof. by destruct m. Qed.
Lemma returns_mono {A} (P Q : A -> Prop) m : returns P m -> (forall a, P a -> Q a) -> returns Q m.
Proof. destruct m; cbn; auto. Qed.
Lemma returns_true {A} (m : res A) : returns (fun _ => True) m.
Proof. by destruct m. Qed.
Lemma returns_eq {A} (m : res A) : returns (fun a => m = Ret a) m.
Proof. by destruct m. Qed.

(** A call that ends, with a result of which [Q] holds when it returns one. *)
Definition within {A} (Q : A -> Prop) (m : res A) : Prop :=
  match m with Ret a => Q a | NoFuel => False | _ => True end.

Lemma within_bind {A B} (R : A -> Prop) (Q : B -> Prop) (m : res A) (f : A -> res B) :
  within R m -> (forall a, R a -> within Q (f a)) -> within Q (m ≫= f).
Proof. destruct m; cbn; auto. Qed.
Lemma within_mono {A} (R Q : A -> Prop) (m : res A) : within R m -> (forall a, R a -> Q a) -> within Q m.
Proof. destruct m; cbn; auto. Qed.
Lemma within_of_option {A} (o : option A) : within (fun a => o = Some a) (of_option o).
Proof. by destruct o. Qed.

(** [res_inv] takes apart every hypothesis that says a composed call returned. *)
Ltac res_inv_step :=
  match goal with
  | H : mbind _ _ = Ret _ |- _ =>
      let a := fresh "v" in let H1 := fresh H in
      apply bind_Ret_inv in H; destruct H as (a & H1 & H)
  | H : mret _ = Ret _ |- _ => unfold mret, res_ret in H
  | H : Ret _ = Ret _ |- _ => injection H as H; subst
  | H : Undef = Ret _ |- _ => discriminate H
  | H : NoFuel = Ret _ |- _ => discriminate H
  | H : Raise = Ret _ |- _ => discriminate H
  | H : of_option _ = Ret _ |- _ => apply of_option_Ret in H
  | H : (_, _) = (_, _) |- _ => simplify_eq H
  end.
Ltac res_inv := repeat (res_inv_step; simplify_eq).

(** [res_cases] also splits the tests and pattern matches a returning call went
    through: one goal per path of the C function that returns. *)
Ltac res_case_step :=
  match goal with
  | H : match ?x with _ => _ end = Ret _ |- _ => destruct x eqn:?
  end.
Ltac res_cases := repeat (first [res_inv_step | res_case_step]; simplify_eq).

(** Split every boolean test of the goal or a hypothesis into its two cases,
    with the comparison as an arithmetic fact. *)
Ltac destr_if :=
  match goal with
  | |- context [if ?b then _ else _] =>
      first [ destruct b eqn:? | case_decide ]
  | H : context [if ?b then _ else _] |- _ => destruct b eqn:?
  end.
Ltac b2p :=
  repeat match goal with
  | H : (_ =? _) = true |- _ => apply Z.eqb_eq in H
  | H : (_ =? _) = false |- _ => apply Z.eqb_neq in H
  | H : (_ <? _) = true |- _ => apply Z.ltb_lt in H
  | H : (_ <? _) = false |- _ => apply Z.ltb_ge in H
  | H : (_ <=? _) = true |- _ => apply Z.leb_le in H
  | H : (_ <=? _) = false |- _ => apply Z.leb_gt in H
  | H : (_ >=? _) = _ |- _ => rewrite Z.geb_leb in H
  | H : (_ >? _) = _ |- _ => rewrite Z.gtb_ltb in H
  | H : _ && _ = true |- _ => apply andb_true_iff in H; destruct H
  | H : _ && _ = false |- _ => apply andb_false_iff in H
  | H : _ || _ = true |- _ => apply orb_true_iff in H
  | H : _ || _ = false |- _ => apply orb_false_iff in H; destruct H
  | H : negb _ = true |- _ => apply negb_true_iff in H
  | H : negb _ = false |- _ => apply negb_false_iff in H
  | H : bool_decide _ = true |- _ => apply bool_decide_eq_true in H
  | H : bool_decide _ = false |- _ => apply bool_decide_eq_false in H
  end.

(** ** Machine integers *)

(** [wrapU w z]: the value of [z] stored in an unsigned [w]-bit integer;
    [wrapS w z]: in a signed two's complement one. *)
Definition wrapU (w z : Z) : Z := z mod 2 ^ w.
Definition wrapS (w z : Z) : Z := (z + 2 ^ (w - 1)) mod 2 ^ w - 2 ^ (w - 1).

Abbreviation u8 := (wrapU 8).
Abbreviation u16 := (wrapU 16).
Abbreviation u32 := (wrapU 32).
Abbreviation u64 := (wrapU 64).
Abbreviation i8 := (wrapS 8).
Abbreviation i16 := (wrapS 16).
Abbreviation i32 := (wrapS 32).
Abbreviation i64 := (wrapS 64).

Definition in_u (w z : Z) : Prop := 0 <= z < 2 ^ w.
Definition in_s (w z : Z) : Prop := - 2 ^ (w - 1) <= z < 2 ^ (w - 1).

Definition INT_MAX : Z := 2147483647.
Definition INT_MIN : Z := -2147483648.
Definition INT32_MAX : Z := 2147483647.

(** Signed [int] arithmetic: overflow is undefined. *)
Definition sint (z : Z) : res Z :=
  if (INT_MIN <=? z) && (z <=? INT_MAX) then Ret z else Undef.

Lemma sint_Ret z v : sint z = Ret v <-> v = z /\ INT_MIN <= z <= INT_MAX.
Proof.
  unfold sint. destruct (Z.leb_spec INT_MIN z), (Z.leb_spec z INT_MAX); cbn;
    split; try discriminate; intros; try (injection H1 as <-); intuition (subst; auto; lia).
Qed.

Lemma sint_ok z : INT_MIN <= z <= INT_MAX -> sint z = Ret z.
Proof. intros. by apply sint_Ret. Qed.

Lemma within_sint z : within (fun v => v = z) (sint z).
Proof. unfold sint. by destruct (_ && _). Qed.

Lemma bind_sint {B} z (f : Z -> res B) : INT_MIN <= z <= INT_MAX -> sint z ≫= f = f z.
Proof. intros. by rewrite sint_ok. Qed.

(** [sint_step]: the outermost signed operation does not overflow.
    [ret_step]: the first step of the call returned. *)
Ltac sint_step :=
  match goal with
  | |- context [sint ?z ≫= ?f] =>
      rewrite (bind_sint z f) by (unfold INT_MIN, INT_MAX in *; lia); cbv beta
  end.
Ltac ret_step := cbn [of_option]; rewrite bind_Ret_l.

Lemma wrapU_range w z : 0 <= w -> in_u w (wrapU w z).
Proof. intros. apply Z.mod_pos_bound. lia. Qed.

Lemma wrapU_id w z : in_u w z -> wrapU w z = z.
Proof. apply Z.mod_small. Qed.

Lemma pow2_half w : 0 < w -> 2 ^ w = 2 * 2 ^ (w - 1).
Proof. intros. rewrite <- Z.pow_succ_r by lia. f_equal. lia. Qed.

Lemma wrapS_range w z : 0 < w -> in_s w (wrapS w z).
Proof.
  intros Hw. unfold in_s, wrapS.
  pose proof (Z.mod_pos_bound (z + 2 ^ (w - 1)) (2 ^ w) ltac:(lia)).
  pose proof (pow2_half w Hw). lia.
Qed.

Lemma wrapS_id w z : 0 < w -> in_s w z -> wrapS w z = z.
Proof.
  unfold in_s, wrapS. intros Hw H. pose proof (pow2_half w Hw).
  rewrite Z.mod_small; lia.
Qed.

Lemma wrapS_mod w z : wrapS w (z mod 2 ^ w) = wrapS w z.
Proof. unfold wrapS. rewrite Zplus_mod_idemp_l. reflexivity. Qed.

Lemma wrapU_wrapS w z : 0 < w -> wrapU w (wrapS w z) = wrapU w z.
Proof.
  intros Hw. unfold wrapU, wrapS.
  rewrite Zminus_mod_idemp_l. f_equal. lia.
Qed.

Lemma wrapS_wrapS w z : 0 < w -> wrapS w (wrapS w z) = wrapS w z.
Proof. intros. apply wrapS_id; [done | by apply wrapS_range]. Qed.

(** A map changed at one key. *)
Definition upd {A} `{EqDecision A} {B} (g : A -> B) (k : A) (v : B) (x : A) : B :=
  if decide (x = k) then v else g x.
Lemma upd_eq {A} `{EqDecision A} {B} (g : A -> B) k v : upd g k v k = v.
Proof. unfold upd. by rewrite decide_True. Qed.
Lemma upd_ne {A} `{EqDecision A} {B} (g : A -> B) k v x : x <> k -> upd g k v x = g x.
Proof. intros. unfold upd. by rewrite decide_False. Qed.

(** A test that all the numbers of a range pass. *)
Lemma range_cases (f : Z -> bool) n : forallb f (seqZ 0 n) = true -> forall x, 0 <= x < n -> f x = true.
Proof.
  intros H x Hx. apply (proj1 (List.forallb_forall f _) H). apply list_elem_of_In, elem_of_seqZ. lia.
Qed.

(** ** Little-endian byte strings *)

(** A byte is an integer of [0, 256); [bytes] is the contents of a buffer. *)
Abbreviation bytes := (list Z).
Definition byte_ok (b : Z) : Prop := 0 <= b < 256.

Fixpoint le_enc (n : nat) (z : Z) : bytes :=
  match n with O => [] | S n => z mod 256 :: le_enc n (z / 256) end.
Fixpoint le_dec (l : bytes) : Z :=
  match l with [] => 0 | b :: l => b + 256 * le_dec l end.

(** The byte strings with the separator between them. *)
Fixpoint joined (sep : bytes) (l : list bytes) : bytes :=
  match l with [] => [] | [x] => x | x :: l => x ++ sep ++ joined sep l end.

Lemma joined_cons sep x l : l <> [] -> joined sep (x :: l) = x ++ sep ++ joined sep l.
Proof. by destruct l. Qed.

(** The character does not occur. *)
Definition none_in (c : Z) (t : bytes) : Prop := Forall (fun x => x <> c) t.

Lemma le_enc_length n z : length (le_enc n z) = n.
Proof. revert z; induction n; intros; cbn; auto. Qed.

Lemma le_enc_bytes n z : Forall byte_ok (le_enc n z).
Proof.
  revert z; induction n; intros; cbn; constructor; auto.
  apply Z.mod_pos_bound; lia.
Qed.

Lemma pow256_succ n : 256 ^ Z.of_nat (S n) = 256 * 256 ^ Z.of_nat n.
Proof. rewrite Nat2Z.inj_succ, Z.pow_succ_r; lia. Qed.

Lemma le_dec_enc n z : le_dec (le_enc n z) = z mod 256 ^ Z.of_nat n.
Proof.
  revert z; induction n; intros z; cbn [le_enc le_dec].
  - change (256 ^ Z.of_nat 0) with 1. by rewrite Z.mod_1_r.
  - rewrite IHn, pow256_succ, Z.rem_mul_r by lia. lia.
Qed.

Lemma le_enc_mod n z : le_enc n (z mod 256 ^ Z.of_nat n) = le_enc n z.
Proof.
  revert z; induction n; intros z; [done|].
  cbn [le_enc]. rewrite pow256_succ. f_equal.
  - rewrite Z.rem_mul_r by lia.
    rewrite (Z.mul_comm 256), Z_mod_plus_full, Z.mod_mod by lia. done.
  - rewrite <- (IHn (z / 256)). f_equal. rewrite Z.rem_mul_r by lia.
    rewrite (Z.mul_comm 256), Z_div_plus_full by lia.
    rewrite Z.div_small by (apply Z.mod_pos_bound; lia). lia.
Qed.

Lemma le_enc_dec l : Forall byte_ok l -> le_enc (length l) (le_dec l) = l.
Proof.
  induction 1 as [|b l Hb Hl IH]; [done|]. cbn [length le_dec le_enc].
  unfold byte_ok in Hb.
  rewrite (Z.mul_comm 256), Z_mod_plus_full, Z.mod_small by lia.
  rewrite Z_div_plus_full, Z.div_small by lia. by rewrite Z.add_0_l, IH.
Qed.

Lemma le_dec_range l : Forall byte_ok l -> 0 <= le_dec l < 256 ^ Z.of_nat (length l).
Proof.
  induction 1 as [|b l Hb Hl IH]; [cbn; lia|].
  cbn [length le_dec]. rewrite pow256_succ. unfold byte_ok in Hb. lia.
Qed.

(** The integer a [w]-byte object holds, read as an unsigned or signed value. *)
Lemma wrapU_le n z : le_dec (le_enc n z) = wrapU (8 * Z.of_nat n) z.
Proof.
  rewrite le_dec_enc. unfold wrapU. by rewrite Z.pow_mul_r by lia.
Qed.

Lemma wrapS_le n z : wrapS (8 * Z.of_nat n) (le_dec (le_enc n z)) = wrapS (8 * Z.of_nat n) z.
Proof. rewrite wrapU_le. apply wrapS_mod. Qed.

Lemma wrapU_byte z : byte_ok (wrapU 8 z).
Proof. apply (wrapU_range 8); lia. Qed.

Create HintDb cint.
#[export] Hint Resolve wrapU_range wrapS_range wrapU_byte le_enc_bytes : cint.
#[export] Hint Extern 1 (0 <= _) => lia : cint.
#[export] Hint Extern 1 (0 < _) => lia : cint.
Create Rewrite HintDb crw.
#[export] Hint Rewrite @le_enc_length : crw.
