(* ===== verification/Fmt.v ===== *)
(** * Fmt: decimal numbers as printf writes them

    The conversions %d, %0wd and %04x, and the value of a string of digits. *)
From S2P Require Import Prelude.
From Stdlib Require Ascii String.
Local Open Scope Z_scope.

(** The bytes of a literal. *)
Definition lit (s : String.string) : bytes :=
  map (fun a => Z.of_N (Ascii.N_of_ascii a)) (String.list_ascii_of_string s).
Arguments lit s%_string.

Definition is_digit (c : Z) : bool := (48 <=? c) && (c <=? 57).

Fixpoint dec_loop (fuel : nat) (z : Z) : bytes :=
  match fuel with
  | O => []
  | S fuel => if z <? 10 then [48 + z] else dec_loop fuel (z / 10) ++ [48 + z mod 10]
  end.
(** The digits of a number that is not negative; it has fewer than its binary digits. *)
Definition dec (z : Z) : bytes := dec_loop (S (Z.to_nat (Z.log2 z))) z.

(** %d and %0wd: the sign counts in the width. *)
Definition fmt_d (z : Z) : bytes := if z <? 0 then 45 :: dec (- z) else dec z.
Definition zeros (n : nat) (t : bytes) : bytes := replicate (n - length t) 48 ++ t.
Definition fmt_0d (w : nat) (z : Z) : bytes := if z <? 0 then 45 :: zeros (w - 1) (dec (- z)) else zeros w (dec z).

(** %x of one digit, %04x of a 16-bit number. *)
Definition hex_digit (n : Z) : Z := if n <? 10 then 48 + n else 87 + n.
Definition fmt_04x (z : Z) : bytes :=
  [hex_digit (z / 4096); hex_digit (z / 256 mod 16); hex_digit (z / 16 mod 16); hex_digit (z mod 16)].

(** The number a string of digits denotes, after the digits of [acc]. *)
Definition dec_val (acc : Z) (t : bytes) : Z := fold_left (fun n c => n * 10 + (c - 48)) t acc.

(** ** atoi *)

Definition hd0 (p : bytes) : Z := match p with [] => 0 | c :: _ => c end.
Definition is_space (c : Z) : bool := (c =? 32) || ((9 <=? c) && (c <=? 13)).
Fixpoint skip_space (p : bytes) : bytes := match p with c :: r => if is_space c then skip_space r else p | [] => [] end.
Fixpoint digits_prefix (p : bytes) : bytes :=
  match p with c :: r => if is_digit c then c :: digits_prefix r else [] | [] => [] end.
(** atoi; a number that is not an int is undefined. *)
Definition atoi (p : bytes) : res Z :=
  let p := skip_space p in
  let '(neg, p) := if hd0 p =? 45 then (true, tail p) else if hd0 p =? 43 then (false, tail p) else (false, p) in
  let v := dec_val 0 (digits_prefix p) in
  sint (if neg : bool then - v else v).

Section Dec.

Lemma dec_val_app acc a b : dec_val acc (a ++ b) = dec_val (dec_val acc a) b.
Proof. apply fold_left_app. Qed.

Lemma log2_div10 z : 10 <= z -> Z.log2 (z / 10) < Z.log2 z.
Proof.
  intros Hz. assert (Hd : 0 < z / 10) by (apply Z.div_str_pos; lia).
  apply Z.log2_lt_pow2; [done|]. pose proof (Z.log2_spec z ltac:(lia)) as [_ Hs].
  rewrite Z.pow_succ_r in Hs by apply Z.log2_nonneg. apply Z.div_lt_upper_bound; lia.
Qed.

Lemma dec_loop_spec fuel : forall z, 0 <= z -> (Z.to_nat (Z.log2 z) < fuel)%nat ->
  dec_val 0 (dec_loop fuel z) = z /\ Forall (fun c => is_digit c = true) (dec_loop fuel z) /\
  exists c t, dec_loop fuel z = c :: t /\ (c = 48 -> z = 0 /\ t = []).
Proof.
  induction fuel as [|fuel IH]; intros z Hz Hf; [lia|]. cbn [dec_loop].
  destruct (Z.ltb_spec z 10) as [Hlt|Hge].
  - split; [cbn; lia|]. split.
    + constructor; [|done]. unfold is_digit. apply andb_true_iff. split; apply Z.leb_le; lia.
    + exists (48 + z), []. split; [done|]. intros. split; [lia|done].
  - pose proof (log2_div10 z Hge). pose proof (Z.log2_nonneg (z / 10)).
    pose proof (Z.mod_pos_bound z 10 ltac:(lia)). pose proof (Z.div_mod z 10 ltac:(lia)).
    destruct (IH (z / 10)) as (Hv & Hd & c & t & Ht & Hc); [lia|lia|]. split; [|split].
    + rewrite dec_val_app, Hv. cbn. lia.
    + apply Forall_app. split; [done|]. constructor; [|done].
      unfold is_digit. apply andb_true_iff. split; apply Z.leb_le; lia.
    + exists c, (t ++ [48 + z mod 10]). rewrite Ht. split; [done|]. intros ->. lia.
Qed.

(** The digits of a number denote it, and the first one is 0 only for zero. *)
Lemma dec_spec z : 0 <= z ->
  dec_val 0 (dec z) = z /\ Forall (fun c => is_digit c = true) (dec z) /\
  exists c t, dec z = c :: t /\ (c = 48 -> z = 0 /\ t = []).
Proof. intros Hz. apply dec_loop_spec; lia. Qed.

Lemma is_digit_range c : is_digit c = true <-> 48 <= c <= 57.
Proof. unfold is_digit. rewrite andb_true_iff, !Z.leb_le. done. Qed.
End Dec.

Lemma digits_prefix_all l : Forall (fun c => is_digit c = true) l -> digits_prefix l = l.
Proof. induction 1 as [|c l Hc Hl IH]; [done|]. cbn. by rewrite Hc, IH. Qed.

Lemma atoi_dec n : 0 <= n <= INT_MAX -> atoi (dec n) = Ret n.
Proof.
  intros Hn. destruct (dec_spec n ltac:(lia)) as (Hv & Hds & c & ds & E & _). unfold atoi.
  assert (Hh : is_digit c = true) by (rewrite E in Hds; by apply Forall_cons in Hds as [? _]). apply is_digit_range in Hh.
  assert (Hsk : skip_space (dec n) = dec n).
  { rewrite E. cbn. unfold is_space. destruct (Z.eqb_spec c 32); [lia|].
    destruct (Z.leb_spec 9 c), (Z.leb_spec c 13); cbn; try done; lia. }
  rewrite Hsk. assert (H0 : hd0 (dec n) = c) by (by rewrite E). rewrite H0.
  destruct (Z.eqb_spec c 45); [lia|]. destruct (Z.eqb_spec c 43); [lia|].
  rewrite digits_prefix_all, Hv by done. apply sint_ok. unfold INT_MIN, INT_MAX in *. lia.
Qed.
