(* ===== verification/Mem.v ===== *)
(** * Memory: the bytes the program's raw pointers reach, and the C allocator

    Buffers cross the C modules as raw pointers (Lua light userdata), so their
    contents live in one flat byte-addressed memory.  [malloc] belongs to the C
    library: it is a parameter of the models, with its documented behaviour as
    the law of the class [AllocatorOk]. *)
From S2P Require Import Prelude.
Local Open Scope Z_scope.

(** Addresses are integers; NULL is 0. *)
Definition NULL : Z := 0.

Record heap := Heap { h_mem : gmap Z Z; h_blk : gmap Z Z }.

Fixpoint mload (m : gmap Z Z) (a : Z) (n : nat) : option bytes :=
  match n with
  | O => Some []
  | S n => match m !! a, mload m (a + 1) n with
           | Some b, Some l => Some (b :: l)
           | _, _ => None
           end
  end.

Fixpoint mstore (m : gmap Z Z) (a : Z) (l : bytes) : option (gmap Z Z) :=
  match l with
  | [] => Some m
  | b :: l => match m !! a with
              | Some _ => mstore (<[a := b]> m) (a + 1) l
              | None => None
              end
  end.

(** [mapped m a n]: the [n] bytes from [a] on are memory of the program. *)
Definition mapped (m : gmap Z Z) (a : Z) (n : Z) : Prop :=
  forall x, a <= x < a + n -> is_Some (m !! x).

(** The C library's allocator. *)
Class Allocator := {
  malloc : heap -> Z -> option (Z * heap);
}.

Definition malloc_spec (h : heap) (n : Z) (p : Z) (h' : heap) : Prop :=
  0 < p /\
  h_blk h !! p = None /\ h_blk h' = <[p := n]> (h_blk h) /\
  (forall x, p <= x < p + n -> h_mem h !! x = None /\ is_Some (h_mem h' !! x)) /\
  (forall x, ~ (p <= x < p + n) -> h_mem h' !! x = h_mem h !! x).

Class AllocatorOk (A : Allocator) : Prop := {
  malloc_ok : forall h n p h', 0 <= n -> malloc h n = Some (p, h') -> malloc_spec h n p h';
}.

Fixpoint unmap (m : gmap Z Z) (a : Z) (n : nat) : gmap Z Z :=
  match n with O => m | S n => delete a (unmap m (a + 1) n) end.

(** [free]: NULL is ignored, a pointer that is not a live block is undefined. *)
Definition free (h : heap) (p : Z) : res heap :=
  if p =? NULL then Ret h
  else match h_blk h !! p with
       | Some n => Ret (Heap (unmap (h_mem h) p (Z.to_nat n)) (delete p (h_blk h)))
       | None => Undef
       end.

(** An allocator that always finds room above everything mapped: it shows that
    the law can hold and lets examples run. *)
Definition fresh_above (h : heap) : Z :=
  1 + Z.max (map_fold (fun k _ r => Z.max k r) 0 (h_mem h))
            (map_fold (fun k _ r => Z.max k r) 0 (h_blk h)).
Fixpoint map_zeros (m : gmap Z Z) (a : Z) (n : nat) : gmap Z Z :=
  match n with O => m | S n => <[a := 0]> (map_zeros m (a + 1) n) end.
Definition bump_malloc (h : heap) (n : Z) : option (Z * heap) :=
  let p := fresh_above h in
  Some (p, Heap (map_zeros (h_mem h) p (Z.to_nat n)) (<[p := n]> (h_blk h))).
Definition Bump : Allocator := {| malloc := bump_malloc |}.

(** ** Loads and stores *)

Lemma mload_length m a n l : mload m a n = Some l -> length l = n.
Proof.
  revert a l; induction n as [|n IH]; intros a l; cbn; [by intros [= <-]|].
  destruct (m !! a); [|done]. destruct (mload m (a + 1) n) eqn:E; [|done].
  intros [= <-]. cbn. f_equal. eauto.
Qed.

Lemma mload_lookup m a n l :
  mload m a n = Some l <->
  length l = n /\ forall i, (i < n)%nat -> m !! (a + Z.of_nat i) = l !! i.
Proof.
  revert a l; induction n as [|n IH]; intros a l; cbn.
  { split; [intros [= <-]; split; [done|lia]|]. intros [Hl _]. by destruct l. }
  destruct l as [|b l]; cbn.
  { split; [|intros [? _]; lia].
    clear IH. destruct (m !! a), (mload m (a + 1) n); discriminate. }
  transitivity (m !! a = Some b /\ mload m (a + 1) n = Some l).
  { clear IH. destruct (m !! a), (mload m (a + 1) n);
      (split; [intros [=]; subst; auto | intros [? ?]; congruence]). }
  rewrite IH. split.
  - intros (H0 & Hl & H). split; [lia|]. intros [|i] Hi; cbn.
    + by replace (a + Z.of_nat 0) with a by lia.
    + etransitivity; [|exact (H i ltac:(lia))]. f_equal. lia.
  - intros (Hl & H). split_and!; [|lia|].
    + specialize (H O ltac:(lia)). by replace (a + Z.of_nat 0) with a in H by lia.
    + intros i Hi. etransitivity; [|exact (H (S i) ltac:(lia))]. f_equal. lia.
Qed.

Lemma mstore_lookup m a l m' :
  mstore m a l = Some m' ->
  forall x, m' !! x = if decide (a <= x < a + Z.of_nat (length l))
                      then l !! Z.to_nat (x - a) else m !! x.
Proof.
  revert m a; induction l as [|b l IH]; intros m a; cbn [mstore].
  { intros [= <-] x. cbn. case_decide; [lia|done]. }
  destruct (m !! a); [|done]. intros H x. rewrite (IH _ _ H x). cbn [length].
  case_decide as H1; case_decide as H2; try lia.
  - replace (Z.to_nat (x - a)) with (S (Z.to_nat (x - (a + 1)))) by lia. done.
  - assert (x = a) as -> by lia.
    rewrite lookup_insert_eq. by replace (a - a) with 0 by lia.
  - rewrite lookup_insert_ne by lia. done.
Qed.

Lemma mstore_mapped m a l :
  mapped m a (Z.of_nat (length l)) -> exists m', mstore m a l = Some m'.
Proof.
  revert m a; induction l as [|b l IH]; intros m a Hm; cbn [mstore]; [eauto|].
  cbn [length] in Hm. destruct (Hm a ltac:(lia)) as [v Hv]. rewrite Hv.
  apply IH. intros x Hx. destruct (decide (x = a)) as [->|].
  - rewrite lookup_insert_eq. eauto.
  - rewrite lookup_insert_ne by done. apply Hm. lia.
Qed.

Lemma mload_mapped m a n : mapped m a (Z.of_nat n) -> exists l, mload m a n = Some l.
Proof.
  revert a; induction n as [|n IH]; intros a Hm; cbn [mload]; [eauto|].
  destruct (Hm a ltac:(lia)) as [v Hv]. rewrite Hv.
  destruct (IH (a + 1)) as [l Hl]; [intros x Hx; apply Hm; lia|].
  rewrite Hl. eauto.
Qed.

Lemma mload_Some_mapped m a n l : mload m a n = Some l -> mapped m a (Z.of_nat n).
Proof.
  rewrite mload_lookup. intros [Hl H] x Hx.
  specialize (H (Z.to_nat (x - a)) ltac:(lia)).
  replace (a + Z.of_nat (Z.to_nat (x - a))) with x in H by lia. rewrite H.
  apply lookup_lt_is_Some. lia.
Qed.

Lemma mstore_mapped_same m a l m' b n :
  mstore m a l = Some m' -> mapped m b n -> mapped m' b n.
Proof.
  intros H Hm x Hx. rewrite (mstore_lookup _ _ _ _ H). case_decide; [|by apply Hm].
  apply lookup_lt_is_Some. lia.
Qed.

Lemma mload_mstore_same m a l m' :
  mstore m a l = Some m' -> mload m' a (length l) = Some l.
Proof.
  intros H. apply mload_lookup. split; [done|]. intros i Hi.
  rewrite (mstore_lookup _ _ _ _ H). rewrite decide_True by lia. f_equal. lia.
Qed.

Lemma mload_agree m m' a n :
  (forall x, a <= x < a + Z.of_nat n -> m' !! x = m !! x) -> mload m' a n = mload m a n.
Proof.
  revert a; induction n as [|n IH]; intros a H; [done|].
  cbn [mload]. rewrite (H a) by lia. rewrite IH; [done|]. intros x Hx; apply H; lia.
Qed.

Lemma mload_mstore_disj m a l m' b n :
  mstore m a l = Some m' ->
  b + Z.of_nat n <= a \/ a + Z.of_nat (length l) <= b ->
  mload m' b n = mload m b n.
Proof.
  intros H D. apply mload_agree. intros x Hx.
  rewrite (mstore_lookup _ _ _ _ H), decide_False by lia. done.
Qed.

Lemma mload_app m a n1 n2 l1 l2 :
  mload m a n1 = Some l1 -> mload m (a + Z.of_nat n1) n2 = Some l2 ->
  mload m a (n1 + n2) = Some (l1 ++ l2).
Proof.
  rewrite !mload_lookup. intros [H1 H1'] [H2 H2']. rewrite length_app. split; [lia|].
  intros i Hi. destruct (decide (i < n1)%nat).
  - rewrite lookup_app_l by lia. apply H1'. lia.
  - rewrite lookup_app_r by lia. rewrite <- H2' by lia. f_equal. lia.
Qed.

Lemma mload_app_inv m a n1 n2 l :
  mload m a (n1 + n2) = Some l ->
  mload m a n1 = Some (take n1 l) /\ mload m (a + Z.of_nat n1) n2 = Some (drop n1 l).
Proof.
  rewrite !mload_lookup. intros [Hl H]. rewrite length_take, length_drop. split.
  - split; [lia|]. intros i Hi. rewrite lookup_take_lt by lia. apply H. lia.
  - split; [lia|]. intros i Hi. rewrite lookup_drop. rewrite <- H by lia. f_equal. lia.
Qed.

(** ** The example allocator satisfies the law *)

Lemma map_fold_max_ge (m : gmap Z Z) k v :
  m !! k = Some v -> k <= map_fold (fun k _ r => Z.max k r) 0 m.
Proof.
  revert k v. induction m as [|i x m Hi Hfold IH] using map_first_key_ind.
  { intros k v. by rewrite lookup_empty. }
  intros k v. rewrite map_fold_insert_first_key by done.
  rewrite lookup_insert. case_decide; [intros; subst; lia|].
  intros H'. specialize (IH _ _ H'). lia.
Qed.

Lemma map_zeros_lookup m a n x :
  map_zeros m a n !! x =
  if decide (a <= x < a + Z.of_nat n) then Some 0 else m !! x.
Proof.
  revert a; induction n as [|n IH]; intros a; cbn [map_zeros].
  { by rewrite decide_False by lia. }
  rewrite lookup_insert, IH.
  repeat case_decide; try lia; done.
Qed.

Lemma fresh_above_spec h : 0 < fresh_above h /\
  (forall x v, h_mem h !! x = Some v -> x < fresh_above h) /\
  (forall x v, h_blk h !! x = Some v -> x < fresh_above h).
Proof.
  unfold fresh_above. split_and!.
  - assert (0 <= map_fold (fun k _ r => Z.max k r) 0 (h_blk h)); [|lia].
    apply (map_fold_weak_ind (fun r _ => 0 <= r)); [done|]. intros; lia.
  - intros x v H. apply map_fold_max_ge in H. lia.
  - intros x v H. apply map_fold_max_ge in H. lia.
Qed.

#[export] Instance Bump_ok : AllocatorOk Bump.
Proof.
  constructor. intros h n p h' Hn [= <- <-]. unfold malloc_spec. cbn.
  destruct (fresh_above_spec h) as (Hp0 & Hp1 & Hp2). set (p := fresh_above h) in *.
  split_and!; [done| |done| |].
  - destruct (h_blk h !! p) eqn:E; [|done]. apply Hp2 in E. lia.
  - intros x Hx. rewrite map_zeros_lookup, decide_True by lia. split; [|eauto].
    destruct (h_mem h !! x) eqn:E; [|done]. apply Hp1 in E. lia.
  - intros x Hx. by rewrite map_zeros_lookup, decide_False by lia.
Qed.

(** ** Reading a counted block

    A count larger than all mapped memory cannot be satisfied; testing that
    first keeps the read executable for the huge counts an underflowed size_t
    gives. *)
Definition loadz (m : gmap Z Z) (a n : Z) : option bytes :=
  if n <=? Z.of_nat (size m) then mload m a (Z.to_nat n) else None.

Lemma mapped_size m a n : mapped m a n -> n <= Z.of_nat (size m).
Proof.
  intros Hm. destruct (Z.le_gt_cases n 0); [lia|].
  set (X := list_to_set (C := gset Z) (seqZ a n)).
  assert (HX : X ⊆ dom m).
  { intros x Hx. apply elem_of_list_to_set, elem_of_seqZ in Hx.
    apply elem_of_dom, Hm. lia. }
  apply subseteq_size in HX. rewrite size_dom in HX.
  unfold X in HX. rewrite size_list_to_set, length_seqZ in HX by apply NoDup_seqZ. lia.
Qed.

Lemma loadz_mapped m a n : 0 <= n -> mapped m a n -> loadz m a n = mload m a (Z.to_nat n).
Proof.
  intros Hn Hm. unfold loadz. destruct (Z.leb_spec n (Z.of_nat (size m))); [done|].
  apply mapped_size in Hm. lia.
Qed.

Lemma loadz_mload m a l : mload m a (length l) = Some l -> loadz m a (Z.of_nat (length l)) = Some l.
Proof.
  intros H. pose proof (mload_Some_mapped _ _ _ _ H) as Hm.
  rewrite loadz_mapped by (done || lia). by rewrite Nat2Z.id.
Qed.

Lemma mstore_app m a l1 l2 :
  mstore m a (l1 ++ l2) = (m1 ← mstore m a l1; mstore m1 (a + Z.of_nat (length l1)) l2).
Proof.
  revert m a; induction l1 as [|b l1 IH]; intros m a; cbn [app mstore length].
  - cbn. by rewrite Z.add_0_r.
  - destruct (m !! a); [|done]. rewrite IH. f_equal.
    replace (a + 1 + Z.of_nat (length l1)) with (a + Z.of_nat (S (length l1))) by lia. done.
Qed.

(** ** Live blocks

    Every live block is memory, and no two blocks share a byte. *)
Record heap_ok (h : heap) : Prop := {
  heap_mapped : forall p n, h_blk h !! p = Some n -> 0 < p /\ mapped (h_mem h) p n;
  heap_disj : forall p n p' n' x, h_blk h !! p = Some n -> h_blk h !! p' = Some n' ->
    p <= x < p + n -> p' <= x < p' + n' -> p = p';
}.

Lemma malloc_keep h n p h' x b :
  malloc_spec h n p h' -> h_mem h !! x = Some b -> h_mem h' !! x = Some b.
Proof.
  intros (_ & _ & _ & Hin & Hout) Hx.
  destruct (decide (p <= x < p + n)) as [H|H]; [|by rewrite Hout].
  destruct (Hin _ H) as [? _]. congruence.
Qed.

Lemma malloc_mload h n p h' a k l :
  malloc_spec h n p h' -> mload (h_mem h) a k = Some l -> mload (h_mem h') a k = Some l.
Proof.
  intros Hm. rewrite !mload_lookup. intros [Hl H]. split; [done|]. intros i Hi.
  specialize (H i Hi). destruct (lookup_lt_is_Some_2 l i ltac:(lia)) as [b Hb].
  rewrite Hb in *. by eapply malloc_keep.
Qed.

Lemma malloc_heap_ok h n p h' : malloc_spec h n p h' -> heap_ok h -> heap_ok h'.
Proof.
  intros Hm Hh. pose proof Hm as (Hp & Hnew & Hblk & Hin & Hout). split.
  - intros p' n'. rewrite Hblk. destruct (decide (p = p')) as [<-|Hne].
    + rewrite lookup_insert_eq. intros [= <-]. split; [done|]. intros x Hx. by apply Hin.
    + rewrite lookup_insert_ne by done. intros H. destruct (heap_mapped _ Hh _ _ H) as [H0 H1].
      split; [done|]. intros x Hx. destruct (H1 x Hx) as [b Hb]. exists b. by eapply malloc_keep.
  - assert (Hfresh : forall p' n' x, h_blk h !! p' = Some n' -> p <= x < p + n -> p' <= x < p' + n' -> False).
    { intros p' n' x H Hx Hx'. destruct (heap_mapped _ Hh _ _ H) as [_ H1].
      destruct (H1 x Hx') as [b Hb]. destruct (Hin x Hx). congruence. }
    intros p1 n1 p2 n2 x. rewrite Hblk.
    destruct (decide (p = p1)) as [<-|H1], (decide (p = p2)) as [<-|H2];
      rewrite ?lookup_insert_eq, ?lookup_insert_ne by done.
    + done.
    + intros [= <-] H. intros. by exfalso; eapply Hfresh.
    + intros H [= <-]. intros. by exfalso; eapply Hfresh.
    + intros. by eapply heap_disj.
Qed.

Lemma mstore_heap_ok h a l m :
  mstore (h_mem h) a l = Some m -> heap_ok h -> heap_ok (Heap m (h_blk h)).
Proof.
  intros Hm [Hh1 Hh2]. split; cbn; [|done]. intros p n H. destruct (Hh1 _ _ H).
  split; [done|]. by eapply mstore_mapped_same.
Qed.

(** ** realloc *)

(** The C library's realloc of a live block. *)
Class Reallocator := { realloc : heap -> Z -> Z -> option (Z * heap) }.

(** The new block starts with the bytes the old one began with; it is the old place
    or fresh memory, and what was the old block and is not the new one is gone. *)
Record realloc_spec (h : heap) (p m n p' : Z) (h' : heap) : Prop := {
  re_pos : 0 < p';
  re_blk : h_blk h' = <[p' := n]> (delete p (h_blk h));
  re_new : delete p (h_blk h) !! p' = None;
  re_mapped : mapped (h_mem h') p' n;
  re_copy : forall i, 0 <= i < Z.min m n -> h_mem h' !! (p' + i) = h_mem h !! (p + i);
  re_fresh : forall x, p' <= x < p' + n -> ~ (p <= x < p + m) -> h_mem h !! x = None;
  re_out : forall x, ~ (p' <= x < p' + n) ->
    h_mem h' !! x = if decide (p <= x < p + m) then None else h_mem h !! x;
}.
Class ReallocatorOk (R : Reallocator) : Prop := {
  realloc_ok : forall h p m n p' h', heap_ok h -> h_blk h !! p = Some m -> 0 <= n ->
    realloc h p n = Some (p', h') -> realloc_spec h p m n p' h';
}.

Lemma realloc_heap_ok h p m n p' h' :
  realloc_spec h p m n p' h' -> h_blk h !! p = Some m -> heap_ok h -> heap_ok h'.
Proof.
  intros R Hp [H1 H2].
  assert (Hother : forall q k x, delete p (h_blk h) !! q = Some k -> q <= x < q + k ->
    is_Some (h_mem h !! x) /\ ~ (p <= x < p + m) /\ ~ (p' <= x < p' + n)).
  { intros q k x Hq Hx. apply lookup_delete_Some in Hq as [Hne Hq].
    destruct (H1 _ _ Hq) as [_ Hm]. specialize (Hm x Hx).
    assert (Hnp : ~ (p <= x < p + m)) by (intros Hx'; by apply Hne, (H2 p m q k x)).
    split_and!; [done|done|]. intros Hx'. destruct Hm as [v Hv]. by rewrite (re_fresh _ _ _ _ _ _ R) in Hv. }
  split.
  - intros q k. rewrite (re_blk _ _ _ _ _ _ R), lookup_insert_Some.
    intros [[<- <-]|[Hne Hq]]; [split; [by eapply re_pos|by eapply re_mapped]|].
    split; [by apply lookup_delete_Some in Hq as [_ Hq]; destruct (H1 _ _ Hq)|].
    intros x Hx. destruct (Hother _ _ _ Hq Hx) as (Hm & Hnp & Hnp').
    rewrite (re_out _ _ _ _ _ _ R) by done. by rewrite decide_False.
  - intros q k q' k' x. rewrite (re_blk _ _ _ _ _ _ R), !lookup_insert_Some.
    intros [[<- <-]|[Hne Hq]] [[<- <-]|[Hne' Hq']] Hx Hx'; try done.
    + by destruct (Hother _ _ _ Hq' Hx') as (_ & _ & ?).
    + by destruct (Hother _ _ _ Hq Hx) as (_ & _ & ?).
    + apply lookup_delete_Some in Hq as [_ Hq]. apply lookup_delete_Some in Hq' as [_ Hq'].
      by eapply H2.
Qed.

(** Growing keeps the bytes of the block. *)
Lemma realloc_mload h p m n p' h' k l :
  realloc_spec h p m n p' h' -> Z.of_nat k <= Z.min m n ->
  mload (h_mem h) p k = Some l -> mload (h_mem h') p' k = Some l.
Proof.
  intros R Hk. rewrite !mload_lookup. intros [Hl H]. split; [done|]. intros i Hi.
  rewrite <- H by done. apply (re_copy _ _ _ _ _ _ R). lia.
Qed.

Lemma unmap_lookup m a n x :
  unmap m a n !! x = if decide (a <= x < a + Z.of_nat n) then None else m !! x.
Proof.
  revert a; induction n as [|n IH]; intros a; cbn [unmap]; [by rewrite decide_False by lia|].
  rewrite lookup_delete, IH. repeat case_decide; try lia; done.
Qed.

Lemma free_heap_ok h p n : heap_ok h -> h_blk h !! p = Some n ->
  exists h', free h p = Ret h' /\ heap_ok h' /\ h_blk h' = delete p (h_blk h) /\
    forall x, ~ (p <= x < p + n) -> h_mem h' !! x = h_mem h !! x.
Proof.
  intros Hh Hp. destruct (heap_mapped _ Hh _ _ Hp) as [Hp0 Hm].
  assert (U : forall k m a x, ~ (a <= x < a + Z.of_nat k) -> unmap m a k !! x = m !! x).
  { intros. by rewrite unmap_lookup, decide_False. }
  unfold free. destruct (Z.eqb_spec p NULL); [unfold NULL in *; lia|]. rewrite Hp.
  eexists. split; [done|]. split; [|split; [done|intros x Hx; apply U; lia]].
  split; cbn.
  - intros p' n' H'. apply lookup_delete_Some in H' as [Hne H'].
    destruct (heap_mapped _ Hh _ _ H') as [? Hm']. split; [done|]. intros x Hx.
    rewrite U; [by apply Hm'|]. intros Hin. apply Hne. eapply heap_disj; try done. lia.
  - intros p1 n1 p2 n2 x [_ H1]%lookup_delete_Some [_ H2]%lookup_delete_Some. by eapply heap_disj.
Qed.

(** Two blocks do not overlap. *)
Lemma blocks_apart h p n q k : heap_ok h -> h_blk h !! p = Some n -> h_blk h !! q = Some k -> p <> q ->
  p + n <= q \/ q + k <= p \/ n <= 0 \/ k <= 0.
Proof.
  intros Hh Hp Hq Hne. destruct (Z.le_gt_cases (p + n) q), (Z.le_gt_cases (q + k) p), (Z.le_gt_cases n 0), (Z.le_gt_cases k 0);
    auto 6. destruct Hne. apply (heap_disj _ Hh p n q k (Z.max p q)); (done || lia).
Qed.

Definition bump_realloc (h : heap) (p n : Z) : option (Z * heap) :=
  match h_blk h !! p with
  | None => None
  | Some m =>
      let p' := fresh_above h in
      match mload (h_mem h) p (Z.to_nat (Z.min m n)) with
      | None => None
      | Some v =>
          match mstore (map_zeros (unmap (h_mem h) p (Z.to_nat m)) p' (Z.to_nat n)) p' v with
          | None => None
          | Some mm => Some (p', Heap mm (<[p' := n]> (delete p (h_blk h))))
          end
      end
  end.
Definition BumpRe : Reallocator := {| realloc := bump_realloc |}.

#[export] Instance BumpRe_ok : ReallocatorOk BumpRe.
Proof.
  constructor. intros h p m n p' h' Hh Hp Hn. cbn. unfold bump_realloc. rewrite Hp.
  destruct (heap_mapped _ Hh _ _ Hp) as [Hp0 Hmap].
  destruct (mload _ p _) as [v|] eqn:Ev; [|done].
  destruct (mstore _ _ v) as [mm|] eqn:Em; [|done]. intros [= <- <-].
  destruct (fresh_above_spec h) as (Hf0 & Hf1 & Hf2). set (p' := fresh_above h) in *.
  pose proof (mload_length _ _ _ _ Ev) as Hlen. apply mload_lookup in Ev as [_ Ev].
  pose proof (mstore_lookup _ _ _ _ Em) as Hmm.
  assert (Hfresh : forall x, p' <= x -> h_mem h !! x = None).
  { intros x Hx. destruct (h_mem h !! x) eqn:E; [|done]. apply Hf1 in E. lia. }
  assert (Hz : forall x, p' <= x < p' + n -> is_Some (mm !! x)).
  { intros x Hx. rewrite Hmm. case_decide.
    - apply lookup_lt_is_Some. lia.
    - rewrite map_zeros_lookup, decide_True by lia. eauto. }
  constructor; cbn [h_mem h_blk]; try done.
  - rewrite lookup_delete_None. right. destruct (h_blk h !! p') eqn:E; [|done]. apply Hf2 in E. lia.
  - intros i Hi. rewrite Hmm, decide_True by lia. replace (p' + i - p') with i by lia.
    rewrite <- Ev by lia. f_equal. lia.
  - intros x Hx _. apply Hfresh. lia.
  - intros x Hx. rewrite Hmm, decide_False by lia.
    rewrite map_zeros_lookup, decide_False by lia. rewrite unmap_lookup.
    repeat case_decide; try lia; done.
Qed.

(** Memory does not run out. *)
Class MemoryEnough (A : Allocator) (R : Reallocator) : Prop := {
  malloc_some : forall h n, 0 <= n <= 2 ^ 32 -> is_Some (malloc h n);
  realloc_some : forall h p m n, heap_ok h -> h_blk h !! p = Some m -> 0 <= n <= 2 ^ 32 ->
    is_Some (realloc h p n);
}.

#[export] Instance Bump_enough : MemoryEnough Bump BumpRe.
Proof.
  constructor; [cbn; unfold bump_malloc; eauto|]. intros h p m n Hh Hp Hn. cbn. unfold bump_realloc. rewrite Hp.
  destruct (heap_mapped _ Hh _ _ Hp) as [_ Hmap].
  destruct (mload_mapped (h_mem h) p (Z.to_nat (Z.min m n))) as [v Hv].
  { intros x Hx. apply Hmap. lia. }
  rewrite Hv. apply mload_length in Hv.
  destruct (mstore_mapped (map_zeros (unmap (h_mem h) p (Z.to_nat m)) (fresh_above h) (Z.to_nat n)) (fresh_above h) v) as [mm Hmm].
  { intros x Hx. rewrite map_zeros_lookup, decide_True by lia. eauto. }
  rewrite Hmm. eauto.
Qed.

(** ** Static buffers

    A module that keeps a static buffer for its results makes it larger when a call needs
    more: the old block is freed and a new one taken; what was in it is not kept.  false:
    malloc failed, and there is no buffer. *)
Section Static.
Context {A : Allocator}.

Definition regrow (h : heap) (p len need : Z) : res (bool * (heap * Z * Z)) :=
  if len <? need then
    '(h, len) ← (if negb (p =? NULL) then h ← free h p; Ret (h, 0) else Ret (h, len));
    match malloc h (wrapU 64 need) with
    | None => Ret (false, (h, NULL, len))
    | Some (p, h) => Ret (true, (h, p, need))
    end
  else Ret (true, (h, p, len)).

(** The buffer is a block of its length, or NULL. *)
Definition buffer_ok (h : heap) (p len : Z) : Prop :=
  heap_ok h /\ 0 <= len /\ (p = NULL /\ len = 0 \/ h_blk h !! p = Some len).

(** The blocks but the one at [p], and what is in them. *)
Definition others_kept (p : Z) (h h' : heap) : Prop := forall q n k d,
  h_blk h !! q = Some n -> q <> p -> Z.of_nat k <= n -> mload (h_mem h) q k = Some d ->
  h_blk h' !! q = Some n /\ mload (h_mem h') q k = Some d.
Lemma free_others h p n h' : heap_ok h -> h_blk h !! p = Some n -> free h p = Ret h' -> others_kept p h h'.
Proof.
  intros Hh Hp Hf q k i d Hq Hne Hi Hd. destruct (free_heap_ok _ _ _ Hh Hp) as (h1 & Hf1 & _ & Hblk & Hmem).
  rewrite Hf in Hf1. injection Hf1 as <-. rewrite Hblk, lookup_delete_ne by done. split; [done|].
  rewrite mload_lookup in *. destruct Hd as [Hl Hd]. split; [done|]. intros j Hj. rewrite Hmem; [by apply Hd|].
  destruct (blocks_apart _ _ _ _ _ Hh Hp Hq) as [|[|[|]]]; (done || lia).
Qed.
Lemma malloc_others h n p h' p0 : malloc_spec h n p h' -> others_kept p0 h h'.
Proof.
  intros Hm q k i d Hq Hne Hi Hd. split; [|by eapply malloc_mload]. destruct Hm as (_ & Hnew & Hblk & _).
  rewrite Hblk, lookup_insert_ne; [done|]. congruence.
Qed.
Lemma mstore_others h p n v m : heap_ok h -> h_blk h !! p = Some n -> Z.of_nat (length v) <= n -> mstore (h_mem h) p v = Some m ->
  others_kept p h (Heap m (h_blk h)).
Proof.
  intros Hh Hp Hn Hm q k i d Hq Hne Hi Hd. split; [done|]. cbn. destruct v as [|b v]; [by injection Hm as <-|]. destruct i as [|i]; [done|].
  erewrite mload_mstore_disj; [exact Hd|exact Hm|]. destruct (blocks_apart _ _ _ _ _ Hh Hp Hq) as [|[|[|]]]; cbn [length] in *; (done || lia).
Qed.
Lemma others_trans p h1 h2 h3 : others_kept p h1 h2 -> others_kept p h2 h3 -> others_kept p h1 h3.
Proof. intros H12 H23 q n k d Hq Hne Hk Hd. destruct (H12 q n k d Hq Hne Hk Hd). by apply H23. Qed.

(** A call that needs [need] bytes gets a buffer: the old one is large enough, or malloc has
    a block once the old one is freed. *)
Definition room_for (h : heap) (p len need : Z) : bool :=
  (need <=? len) || match free h p with Ret h => (match malloc h need with Some _ => true | None => false end) | _ => false end.

Lemma regrow_ok {AOk : AllocatorOk A} h p len need : buffer_ok h p len -> 0 < need < 2 ^ 64 ->
  let grown := room_for h p len need in
  exists h' p' len', regrow h p len need = Ret (grown, (h', p', len')) /\ buffer_ok h' p' len' /\
    others_kept p h h' /\ len' = (if grown then Z.max len need else 0) /\
    (grown = true -> h_blk h' !! p' = Some len' /\ forall q n, h_blk h !! q = Some n -> q <> p -> q <> p').
Proof.
  intros (Hh & Hl & Hb) Hn grown. unfold regrow, grown, room_for. rewrite wrapU_id by (unfold in_u; lia). destruct (Z.ltb_spec len need) as [Hlt|Hge].
  2:{ destruct Hb as [[_ H0]|Hb]; [lia|]. rewrite (proj2 (Z.leb_le _ _)) by lia. exists h, p, len. split; [done|]. split; [by split_and!; [..|right]|].
      split; [by intros q n k d|]. cbn [orb]. split; [lia|]. intros _. by split. }
  rewrite (proj2 (Z.leb_gt _ _)) by lia. cbn [orb].
  assert (Hfree : exists h1 len1, (if negb (p =? NULL) then h ← free h p; Ret (h, 0) else Ret (h, len)) = Ret (h1, len1) /\
    free h p = Ret h1 /\ heap_ok h1 /\ len1 = 0 /\ others_kept p h h1 /\ forall q n, h_blk h !! q = Some n -> q <> p -> is_Some (h_blk h1 !! q)).
  { destruct Hb as [[-> ->]|Hb]; [by eexists _, _; split_and!; [| | | |intros q n k d|eauto]|]. destruct (heap_mapped _ Hh _ _ Hb) as [Hp _].
    destruct (Z.eqb_spec p NULL); [unfold NULL in *; lia|]. cbn [negb].
    destruct (free_heap_ok _ _ _ Hh Hb) as (h1 & Hf & Hh1 & Hblk & _). rewrite Hf. eexists _, _. split_and!; [done|done|done|done| |].
    - by eapply free_others.
    - intros q m Hq Hne. rewrite Hblk, lookup_delete_ne by done. eauto. }
  destruct Hfree as (h1 & len1 & -> & Hf & Hh1 & -> & Hk1 & Hlive). rewrite Hf, bind_Ret_l. destruct (malloc h1 need) as [[p' h']|] eqn:Em.
  - apply malloc_ok in Em; [|lia]. pose proof Em as (Hp & Hnew & Hblk & _). do 3 eexists. split; [done|]. unfold buffer_ok.
    rewrite Hblk, lookup_insert_eq. split; [split_and!; [by eapply malloc_heap_ok|lia|by right]|].
    split; [eapply others_trans; [exact Hk1|by eapply malloc_others]|]. split; [lia|]. intros _. split; [done|].
    intros q m Hq Hne ->. destruct (Hlive _ _ Hq Hne). congruence.
  - do 3 eexists. split; [done|]. unfold buffer_ok. split; [split_and!; [done|lia|by left]|]. done.
Qed.
End Static.
