(* ===== verification/CStr.v ===== *)
(** * CStr: C strings in memory

    The C library's string functions on raw addresses (strlen, strcat), and the
    predicates that say what the memory holds. *)
From S2P Require Import Prelude Mem.
Local Open Scope Z_scope.

Fixpoint strlen_loop (fuel : nat) (m : gmap Z Z) (p : Z) : res Z :=
  match fuel with
  | O => NoFuel
  | S fuel =>
      c ← of_option (m !! p);
      if c =? 0 then Ret 0 else n ← strlen_loop fuel m (p + 1); Ret (n + 1)
  end.
(** A string cannot be longer than the memory: the fuel is always enough. *)
Definition strlen (m : gmap Z Z) (p : Z) : res Z := strlen_loop (S (size m)) m p.
Definition c_string (m : gmap Z Z) (p : Z) : res bytes :=
  n ← strlen m p; of_option (mload m p (Z.to_nat n)).

Definition nozero (t : bytes) : Prop := Forall (fun c => c <> 0) t.

(** The memory holds the bytes [v] at [p]. *)
Definition holds (m : gmap Z Z) (p : Z) (v : bytes) : Prop := mload m p (length v) = Some v.

Section Lemmas.
Variable m : gmap Z Z.

Lemma holds_app p v w : holds m p (v ++ w) <-> holds m p v /\ holds m (p + Z.of_nat (length v)) w.
Proof.
  unfold holds. rewrite length_app. split.
  - intros H. apply mload_app_inv in H as [H1 H2]. rewrite take_app_length in H1. by rewrite drop_app_length in H2.
  - intros [H1 H2]. by apply mload_app.
Qed.
Lemma holds_cons p c v : holds m p (c :: v) <-> m !! p = Some c /\ holds m (p + 1) v.
Proof.
  change (c :: v) with ([c] ++ v). rewrite holds_app. cbn [length]. apply and_iff_compat_r. unfold holds. cbn.
  destruct (m !! p); split; congruence.
Qed.

Lemma strlen_loop_ok fuel p t : (length t < fuel)%nat -> holds m p (t ++ [0]) -> nozero t ->
  strlen_loop fuel m p = Ret (Z.of_nat (length t)).
Proof.
  revert fuel p; induction t as [|c t IH]; intros [|fuel] p Hf H Hz; cbn [length] in *; try lia; cbn [strlen_loop].
  - apply holds_cons in H as [-> _]. done.
  - rewrite <- app_comm_cons in H. apply holds_cons in H as [-> H].
    apply Forall_cons in Hz as [Hc Hz]. cbn [of_option]. rewrite bind_Ret_l.
    destruct (Z.eqb_spec c 0); [done|]. rewrite IH by (done || lia). rewrite bind_Ret_l. f_equal. lia.
Qed.
Lemma strlen_ok p t : holds m p (t ++ [0]) -> nozero t -> strlen m p = Ret (Z.of_nat (length t)).
Proof.
  intros H. apply strlen_loop_ok; [|done]. apply mload_Some_mapped, mapped_size in H.
  rewrite length_app in H. cbn in H. lia.
Qed.
Lemma c_string_ok p t : holds m p (t ++ [0]) -> nozero t -> c_string m p = Ret t.
Proof.
  intros H Hz. unfold c_string. rewrite (strlen_ok _ _ H Hz), bind_Ret_l, Nat2Z.id.
  apply holds_app in H as [H _]. by rewrite H.
Qed.
End Lemmas.
Arguments strlen_ok {m} p t.
Arguments c_string_ok {m} p t.
Arguments holds_app {m} p v w.
Arguments holds_cons {m} p c v.

(** strcat: the bytes of the C string [src] and a terminator at the end of [dst]. *)
Definition strcat (m : gmap Z Z) (dst : Z) (src : bytes) : res (gmap Z Z) :=
  n ← strlen m dst; of_option (mstore m (dst + n) (src ++ [0])).
