(* ===== verification/Lua.v ===== *)
(** * The Lua C API, as far as the modules use it

    Source: src/3rd/lua/src/lapi.c, lobject.c, luaconf.h.  A C function called
    from Lua sees its arguments as a list of values (index 1 first) and returns
    the list of values it pushes.  Numbers are binary64 ([spec_float] of the
    Standard Library, prec 53, emax 1024); the conversion between numbers and
    strings (strtod, printf "%.14g") is the class [LuaFmt]; the script side (the
    global table, table lookup and running a Lua function) is the class
    [LuaScript], over a world [W] that a script may change. *)
From Stdlib Require Import SpecFloat.
From S2P Require Import Prelude.
Local Open Scope Z_scope.

(** ** Values *)

Definition lnumber : Type := spec_float.

Inductive lval :=
| LNone                      (* no value at this index *)
| LNil
| LBool (b : bool)
| LLight (p : Z)             (* light userdata: a raw pointer *)
| LNum (d : lnumber)
| LStr (s : bytes)
| LTab (id : Z)
| LFun (id : Z)
| LUser (p : Z).             (* full userdata: the address of its block *)

#[export] Instance lnumber_eq_dec : EqDecision spec_float.
Proof. solve_decision. Defined.
#[export] Instance lval_eq_dec : EqDecision lval.
Proof. intros x y. unfold Decision. decide equality; apply (decide (_ = _)). Defined.

Definition is_nil (v : lval) : bool := match v with LNil => true | _ => false end.

(** lua_Integer, the cast to lua_Number and back (x86-64: a value with no
    64-bit integer image converts to the least one). *)
Definition d_of_Z (z : Z) : lnumber := binary_normalize 53 1024 z 0 false.
Definition d_trunc (d : lnumber) : option Z :=
  match d with
  | S754_zero _ => Some 0
  | S754_finite s m e =>
      let a := if 0 <=? e then Z.pos m * 2 ^ e else Z.pos m / 2 ^ (- e) in
      Some (if s then - a else a)
  | _ => None
  end.
Definition d_cast (w : Z) (d : lnumber) : Z :=
  match d_trunc d with
  | Some z => if (- 2 ^ (w - 1) <=? z) && (z <? 2 ^ (w - 1)) then z else - 2 ^ (w - 1)
  | None => - 2 ^ (w - 1)
  end.
Definition d2i64 : lnumber -> Z := d_cast 64.
Definition d2i32 : lnumber -> Z := d_cast 32.

(** The cast to an unsigned 64-bit integer. *)
Definition d2u64 (d : lnumber) : Z :=
  match d_trunc d with
  | Some z => if (0 <=? z) && (z <? 2 ^ 64) then z else wrapU 64 (d2i64 d)
  | None => wrapU 64 (d2i64 d)
  end.

Class LuaFmt := {
  str2d : bytes -> option lnumber;   (* luaO_str2d, through strtod *)
  d2str : lnumber -> bytes;          (* lua_number2str, through sprintf *)
}.

(** A concrete instance of the script-visible formats, for examples. *)
Definition NoFmt : LuaFmt := {| str2d := fun _ => None; d2str := fun _ => [] |}.

Section Args.
Context {F : LuaFmt}.

(** ** Reading arguments *)

Definition index2adr (L : list lval) (i : Z) : lval :=
  if 0 <? i then default LNone (L !! Z.to_nat (i - 1))
  else default LNone (L !! Z.to_nat (Z.of_nat (length L) + i)).

Definition lua_gettop (L : list lval) : Z := Z.of_nat (length L).

Definition tonumber (o : lval) : option lnumber :=
  match o with LNum d => Some d | LStr s => str2d s | _ => None end.

Definition lua_isnumber (L : list lval) (i : Z) : bool :=
  match tonumber (index2adr L i) with Some _ => true | None => false end.
Definition lua_isstring (L : list lval) (i : Z) : bool :=
  match index2adr L i with LStr _ | LNum _ => true | _ => false end.
Definition lua_isuserdata (L : list lval) (i : Z) : bool :=
  match index2adr L i with LUser _ | LLight _ => true | _ => false end.
Definition lua_isnil (L : list lval) (i : Z) : bool :=
  match index2adr L i with LNil => true | _ => false end.
Definition lua_istable (L : list lval) (i : Z) : bool :=
  match index2adr L i with LTab _ => true | _ => false end.

Definition lua_tonumber (L : list lval) (i : Z) : lnumber :=
  default (S754_zero false) (tonumber (index2adr L i)).
Definition lua_tointeger (L : list lval) (i : Z) : Z :=
  match tonumber (index2adr L i) with Some d => d2i64 d | None => 0 end.
Definition lua_toboolean (L : list lval) (i : Z) : bool :=
  match index2adr L i with LNone | LNil | LBool false => false | _ => true end.
Definition lua_touserdata (L : list lval) (i : Z) : Z :=
  match index2adr L i with LUser p | LLight p => p | _ => 0 end.
Definition lua_tolstring (L : list lval) (i : Z) : option bytes :=
  match index2adr L i with LStr s => Some s | LNum d => Some (d2str d) | _ => None end.

(** The characters of a Lua string that C's string functions see. *)
Fixpoint cstr (s : bytes) : bytes :=
  match s with [] => [] | c :: s => if c =? 0 then [] else c :: cstr s end.

Lemma cstr_nozero t : Forall (fun c => c <> 0) t -> cstr t = t.
Proof.
  induction 1 as [|c t Hc _ IH]; [done|]. cbn [cstr]. destruct (Z.eqb_spec c 0); [done|]. by rewrite IH.
Qed.

(** ** Pushing results *)

Definition lua_pushinteger (n : Z) : lval := LNum (d_of_Z n).
Definition lua_pushnumber (d : lnumber) : lval := LNum d.
Definition lua_pushboolean (b : bool) : lval := LBool b.
Definition lua_pushlightuserdata (p : Z) : lval := LLight p.
Definition lua_pushlstring (s : bytes) : lval := LStr s.
Definition lua_pushstring (s : bytes) : lval := LStr (cstr s).

End Args.

(** ** The script side *)

Class LuaScript (W : Type) := {
  getglobal : W -> bytes -> lval;
  (** [None]: indexing a value that is not a table raises a Lua error. *)
  gettable : W -> lval -> bytes -> option lval;
  (** A protected call: the world after it, and its results, or [None] when the
      callee raised an error (calling nil does). *)
  pcall : lval -> list lval -> W -> W * option (list lval);
}.

(** lua_pushluafunction: resolve a dotted name ("login.hello_world") and push
    the value.  The stack is a list, top first.  [first]: class_name == start;
    [cls]: the characters from class_name to pfunc.  The bool is the C return
    value; on failure the values pushed so far stay on the stack, as in the
    code. *)
Section PushFunction.
Context {W : Type} {S : LuaScript W}.

Definition DOT : Z := 46.

Definition push_step (w : W) (first : bool) (cls : bytes) (stk : list lval)
    : res (bool * list lval) :=
  if first then
    let v := getglobal w cls in
    Ret (negb (is_nil v), v :: stk)
  else
    match stk with
    | [] => Undef
    | tab :: stk' =>
        match gettable w tab cls with
        | None => Raise
        | Some v => Ret (if is_nil v then (false, v :: tab :: stk') else (true, v :: stk'))
        end
    end.

Fixpoint push_walk (w : W) (first : bool) (cls : bytes) (rest : bytes) (stk : list lval)
    : res (bool * list lval) :=
  match rest with
  | [] => push_step w first cls stk
  | c :: rest =>
      if c =? DOT then
        '(ok, stk) ← push_step w first cls stk;
        if (ok : bool) then push_walk w false [] rest stk else Ret (false, stk)
      else push_walk w first (cls ++ [c]) rest stk
  end.

Definition pushluafunction (w : W) (func : bytes) (stk : list lval) : res (bool * list lval) :=
  push_walk w true [] func stk.

(** Reference definition: split the name at its dots and look the parts up one
    in the other. *)
Fixpoint split_dot (cls : bytes) (s : bytes) : list bytes :=
  match s with
  | [] => [cls]
  | c :: s => if c =? DOT then cls :: split_dot [] s else split_dot (cls ++ [c]) s
  end.
Fixpoint lookup_path (w : W) (v : lval) (path : list bytes) : option lval :=
  match path with
  | [] => Some v
  | k :: path => match gettable w v k with
                 | None => None
                 | Some v' => if is_nil v' then None else lookup_path w v' path
                 end
  end.
Definition resolve_path (w : W) (parts : list bytes) : option lval :=
  match parts with
  | [] => None
  | g :: path => if is_nil (getglobal w g) then None
                 else lookup_path w (getglobal w g) path
  end.
Definition resolve (w : W) (func : bytes) : option lval :=
  resolve_path w (split_dot [] func).

End PushFunction.

(** Running a resolved function: push the name, the arguments, call; the stack is
    cleared afterwards.  When the name does not resolve, the value left on top
    (nil) is what gets called. *)
Definition call_named {W} {S : LuaScript W} (func : bytes) (args : list lval) (w : W)
    : res (W * option (list lval)) :=
  '(_, stk) ← pushluafunction w func [];
  match stk with
  | f :: _ => Ret (pcall f args w)
  | [] => Undef
  end.

(** ** Numbers: an integer of at most 53 bits survives the stack *)

Lemma iter_xO_digits p k : digits2_pos (Pos.iter xO p k) = (digits2_pos p + k)%positive.
Proof.
  induction k as [|k IH] using Pos.peano_ind; [cbn; lia|].
  rewrite Pos.iter_succ. cbn [digits2_pos]. rewrite IH. lia.
Qed.

Lemma iter_xO_val p k : Z.pos (Pos.iter xO p k) = Z.pos p * 2 ^ Z.pos k.
Proof.
  induction k as [|k IH] using Pos.peano_ind; [cbn; lia|].
  rewrite Pos.iter_succ, Pos2Z.inj_xO, IH, Pos2Z.inj_succ, Z.pow_succ_r by lia. lia.
Qed.

Lemma digits2_pos_bound p : 2 ^ (Z.pos (digits2_pos p) - 1) <= Z.pos p < 2 ^ Z.pos (digits2_pos p).
Proof.
  assert (E : forall d, 2 ^ Z.pos (Pos.succ d) = 2 * 2 ^ Z.pos d).
  { intros. rewrite Pos2Z.inj_succ, Z.pow_succ_r; lia. }
  assert (E' : forall d, 2 ^ (Z.pos (Pos.succ d) - 1) = 2 * 2 ^ (Z.pos d - 1)).
  { intros. rewrite Pos2Z.inj_succ. rewrite <- Z.pow_succ_r by lia. f_equal. lia. }
  induction p as [p IH|p IH|]; cbn [digits2_pos].
  - rewrite E, E'. lia.
  - rewrite E, E'. lia.
  - cbn. lia.
Qed.

(** A mantissa already aligned to its exponent is not rounded. *)
Lemma binary_round_aux_exact s m e :
  fexp 53 1024 (Z.pos (digits2_pos m) + e) = e -> e <= 1024 - 53 ->
  binary_round_aux 53 1024 s (Z.pos m) e loc_Exact = S754_finite s m e.
Proof.
  intros He Hmax. unfold binary_round_aux, shr_fexp, Zdigits2.
  rewrite He, Z.sub_diag. cbn [shr shr_record_of_loc shr_m shr_r shr_s loc_of_shr_record round_nearest_even].
  rewrite He, Z.sub_diag. cbn [shr shr_record_of_loc shr_m shr_r shr_s].
  destruct (Z.leb_spec e (1024 - 53)); [done|lia].
Qed.

Lemma d_of_pos s p :
  Z.pos p < 2 ^ 53 ->
  exists m e, binary_round 53 1024 s p 0 = S754_finite s m e /\ e <= 0 /\
              Z.pos m = Z.pos p * 2 ^ (- e).
Proof.
  intros Hp. pose proof (digits2_pos_bound p) as [Hlo _].
  assert (Hd : Z.pos (digits2_pos p) <= 53).
  { destruct (Z.le_gt_cases (Z.pos (digits2_pos p)) 53); [done|].
    assert (2 ^ 53 <= 2 ^ (Z.pos (digits2_pos p) - 1)) by (apply Z.pow_le_mono_r; lia). lia. }
  unfold binary_round. set (d := digits2_pos p) in *.
  assert (Hf : fexp 53 1024 (Z.pos d + 0) = Z.pos d - 53) by (unfold fexp, emin; lia).
  rewrite Hf. unfold shl_align. rewrite Z.sub_0_r.
  destruct (Z.pos d - 53) as [|k|k] eqn:Ek; [|lia|].
  - exists p, 0. rewrite binary_round_aux_exact; [split_and!; [done|lia|lia]| |lia].
    exact Hf.
  - exists (Pos.iter xO p k), (Z.neg k). rewrite binary_round_aux_exact.
    + split_and!; [done|lia|]. rewrite iter_xO_val. f_equal.
    + rewrite iter_xO_digits. unfold fexp, emin. fold d. lia.
    + lia.
Qed.

Lemma d_trunc_pos s p :
  Z.pos p < 2 ^ 53 ->
  d_trunc (binary_round 53 1024 s p 0) = Some (if s then Z.neg p else Z.pos p).
Proof.
  intros Hp. destruct (d_of_pos s p Hp) as (m & e & -> & He & Hm). cbn [d_trunc].
  rewrite Hm. destruct (Z.leb_spec 0 e).
  - assert (e = 0) as -> by lia. destruct s; f_equal; cbn; lia.
  - rewrite Z.div_mul by (apply Z.pow_nonzero; lia). by destruct s.
Qed.

Lemma d_trunc_of_Z z : - 2 ^ 53 < z < 2 ^ 53 -> d_trunc (d_of_Z z) = Some z.
Proof.
  intros Hz. unfold d_of_Z, binary_normalize. destruct z as [|p|p]; [done| |];
    rewrite d_trunc_pos by lia; done.
Qed.

Lemma d_cast_of_Z w z :
  0 < w -> - 2 ^ 53 < z < 2 ^ 53 -> in_s w z -> d_cast w (d_of_Z z) = z.
Proof.
  intros Hw Hz Hr. unfold d_cast. rewrite d_trunc_of_Z by done. unfold in_s in Hr.
  destruct (Z.leb_spec (- 2 ^ (w - 1)) z); [|lia].
  destruct (Z.ltb_spec z (2 ^ (w - 1))); [done|lia].
Qed.

Lemma d2i64_of_Z z : - 2 ^ 53 < z < 2 ^ 53 -> d2i64 (d_of_Z z) = z.
Proof. intros. apply d_cast_of_Z; [lia|done|unfold in_s; lia]. Qed.

Lemma d_of_Z_inj i j : - 2 ^ 53 < i < 2 ^ 53 -> - 2 ^ 53 < j < 2 ^ 53 -> d_of_Z i = d_of_Z j -> i = j.
Proof. intros Hi Hj H. rewrite <- (d2i64_of_Z i), <- (d2i64_of_Z j) by done. by rewrite H. Qed.

Lemma d2i32_of_Z z : in_s 32 z -> d2i32 (d_of_Z z) = z.
Proof. unfold in_s. intros. apply d_cast_of_Z; [lia|lia|done]. Qed.

(** An [int] pushed by one C function and read by the next one is unchanged. *)
Lemma lua_tointeger_int {F : LuaFmt} L i z :
  index2adr L i = lua_pushinteger z -> in_s 32 z -> i32 (lua_tointeger L i) = z.
Proof.
  intros H Hz. unfold lua_tointeger. rewrite H. cbn [tonumber lua_pushinteger].
  unfold in_s in Hz. rewrite d2i64_of_Z by lia. by apply wrapS_id.
Qed.

Lemma int_arg1 {F : LuaFmt} v L : in_s 32 v -> i32 (lua_tointeger (lua_pushinteger v :: L) 1) = v.
Proof. by apply lua_tointeger_int. Qed.
Lemma int_arg2 {F : LuaFmt} x v L : in_s 32 v -> i32 (lua_tointeger (x :: lua_pushinteger v :: L) 2) = v.
Proof. by apply lua_tointeger_int. Qed.
Lemma int_arg3 {F : LuaFmt} x y v L : in_s 32 v -> i32 (lua_tointeger (x :: y :: lua_pushinteger v :: L) 3) = v.
Proof. by apply lua_tointeger_int. Qed.

(** ** The name walk is the resolution of the dotted path *)

Lemma push_walk_spec {W} {S : LuaScript W} w rest : forall tab cls stk,
  match push_walk w false cls rest (tab :: stk) with
  | Ret (true, stk') => exists v, lookup_path w tab (split_dot cls rest) = Some v /\ stk' = v :: stk
  | Ret (false, stk') => lookup_path w tab (split_dot cls rest) = None /\ exists t, stk' = LNil :: t :: stk
  | Raise => lookup_path w tab (split_dot cls rest) = None
  | _ => False
  end.
Proof.
  induction rest as [|c rest IH]; intros tab cls stk; cbn [push_walk split_dot].
  - cbn. destruct (gettable w tab cls) as [v|]; [|done].
    destruct v; cbn; eauto.
  - destruct (c =? DOT); [|apply IH]. cbn.
    destruct (gettable w tab cls) as [v|]; [|done].
    destruct (is_nil v) eqn:Ev; cbn.
    + destruct v; try discriminate. eauto.
    + apply IH.
Qed.

(** What pushing a dotted name does to an arbitrary stack. *)
Lemma pushluafunction_spec {W} {S : LuaScript W} w func stk :
  match pushluafunction w func stk with
  | Ret (true, stk') => exists v, resolve w func = Some v /\ stk' = v :: stk
  | Ret (false, stk') => resolve w func = None /\ exists junk, stk' = LNil :: junk ++ stk
  | Raise => resolve w func = None
  | _ => False
  end.
Proof.
  unfold pushluafunction, resolve.
  generalize (@nil Z) as cls.
  induction func as [|c func IH]; intros cls; cbn [push_walk split_dot resolve_path].
  - cbn. destruct (is_nil (getglobal w cls)) eqn:E; cbn; [|eauto].
    destruct (getglobal w cls); try discriminate. split; [done|]. by exists [].
  - destruct (c =? DOT); [|apply IH]. cbn [push_step mbind res_bind resolve_path].
    destruct (is_nil (getglobal w cls)) eqn:E; cbn [negb].
    + destruct (getglobal w cls); try discriminate. split; [done|]. by exists [].
    + pose proof (push_walk_spec w func (getglobal w cls) [] stk) as H.
      destruct (push_walk w false [] func (getglobal w cls :: stk)) as [[[] ?]| | |]; try done.
      destruct H as (-> & t & ->). split; [done|]. by exists [t].
Qed.

(** [lua_guard] decides the argument checks at the head of a C function when the
    arguments are given constructors; [lua_str] reads a string argument. *)
Ltac lua_guard :=
  match goal with
  | |- context [if ?c then _ else _] => replace c with true by reflexivity
  end; cbv iota.
Ltac lua_str :=
  match goal with
  | |- context [of_option (lua_tolstring ?L ?i)] =>
      let v := eval hnf in (lua_tolstring L i) in
      match v with Some ?x => change (of_option (lua_tolstring L i)) with (Ret x) end
  end; rewrite ?bind_Ret_l.

(** ** Tables as trees

    A value with the tables it holds, for the functions that convert between Lua tables
    and other data: the entries of a table in the order lua_next visits them. *)
Inductive tree := Val (v : lval) | Tab (l : list (lval * tree)).

Fixpoint tree_get (k : lval) (l : list (lval * tree)) : option tree :=
  match l with [] => None | (x, v) :: l => if decide (x = k) then Some v else tree_get k l end.
Fixpoint tree_set (k : lval) (v : tree) (l : list (lval * tree)) : list (lval * tree) :=
  match l with [] => [(k, v)] | (x, w) :: l => if decide (x = k) then (k, v) :: l else (x, w) :: tree_set k v l end.
Fixpoint tree_del (k : lval) (l : list (lval * tree)) : list (lval * tree) :=
  match l with [] => [] | (x, w) :: l => if decide (x = k) then l else (x, w) :: tree_del k l end.

(** lua_settable; a nil value removes the entry. *)
Definition settable (k : lval) (v : tree) (l : list (lval * tree)) : list (lval * tree) :=
  match v with Val LNil => tree_del k l | _ => tree_set k v l end.

Lemma tree_get_app k a b : tree_get k (a ++ b) = match tree_get k a with Some v => Some v | None => tree_get k b end.
Proof. induction a as [|[x v] a IH]; [done|]. cbn. by destruct (decide (x = k)). Qed.

Lemma settable_new k v l : tree_get k l = None -> v <> Val LNil -> settable k v l = l ++ [(k, v)].
Proof.
  intros Hk Hv. assert (H : tree_set k v l = l ++ [(k, v)]).
  { induction l as [|[x w] l IH]; [done|]. cbn in *. destruct (decide (x = k)); [done|]. by rewrite IH. }
  unfold settable. by destruct v as [[]|].
Qed.
