(* ===== verification/LuaStack.v ===== *)
(** * LuaStack: the Lua stack of a C function, with tables as trees

    The modules that walk tables with lua_next keep their place on the Lua stack, and when
    they leave a loop early it is the stack that decides what the next loop does.  Here a
    stack is a list of values, its top first; a table is a tree ([tree] of Lua.v) whose
    entries are in the order they were made.  A C function may push LUA_MINSTACK values
    beyond its arguments: the modules never ask for more, and a push beyond that is
    undefined here.  A table that holds itself or is a key has no tree. *)
From Stdlib Require Import SpecFloat.
From S2P Require Import Prelude Lua.
Local Open Scope Z_scope.

Definition LUA_MINSTACK : nat := 20.
Definition frame (args : list tree) : nat := (length args + LUA_MINSTACK)%nat.
(** A table as an argument that is only looked at for its type. *)
Definition value_of (t : tree) : lval := match t with Val v => v | Tab _ => LTab 0 end.

(** The entries behind a key. *)
Fixpoint after (k : lval) (l : list (lval * tree)) : option (list (lval * tree)) :=
  match l with [] => None | (x, _) :: l => if decide (x = k) then Some l else after k l end.
Definition cursor (k : lval) (l : list (lval * tree)) : option (list (lval * tree)) :=
  if is_nil k then Some l else after k l.

(** nil and NaN are no keys. *)
Definition bad_key (k : lval) : bool := match k with LNil | LNum S754_nan => true | _ => false end.

(** The stack of a call, of at most [limit] values. *)
Section Stack.
Variable limit : nat.

Definition lua_push (v : tree) (stk : list tree) : res (list tree) :=
  if (length stk <? limit)%nat then Ret (v :: stk) else Undef.

(** lua_next(L, -2) *)
Definition lua_next (stk : list tree) : res (bool * list tree) :=
  match stk with
  | Val k :: Tab l :: stk =>
      match cursor k l with
      | None => Raise
      | Some [] => Ret (false, Tab l :: stk)
      | Some ((k, v) :: _) => stk ← lua_push (Val k) (Tab l :: stk); stk ← lua_push v stk; Ret (true, stk)
      end
  | _ => Undef
  end.

(** lua_settable(L, -3): a value that is no table cannot be indexed. *)
Definition lua_settable (stk : list tree) : res (list tree) :=
  match stk with
  | v :: Val k :: Tab l :: stk => if bad_key k then Raise else Ret (Tab (settable k v l) :: stk)
  | _ :: _ :: Val _ :: _ => Raise
  | _ => Undef
  end.

Lemma settable_ok k v l stk : bad_key k = false -> lua_settable (v :: Val k :: Tab l :: stk) = Ret (Tab (settable k v l) :: stk).
Proof. intros H. cbn. by rewrite H. Qed.
Lemma push_ok v stk : (length stk < limit)%nat -> lua_push v stk = Ret (v :: stk).
Proof. intros H. unfold lua_push. by destruct (Nat.ltb_spec (length stk) limit); [|lia]. Qed.
End Stack.

(** ** Free slots

    A function that builds a table by recursion is called with the slots that are free on the
    stack of the call: it needs some of them for what it pushes itself. *)
Definition with_slots {A} (room need : nat) (m : res A) : res A := if (room <? need)%nat then Undef else m.
(** The result of a computation that needs [need] slots and does nothing else that can fail. *)
Definition fits {A} (need room : nat) (x : A) : res A := if (need <=? room)%nat then Ret x else Undef.

Lemma fits_ok {A} need room (x : A) : (need <= room)%nat -> fits need room x = Ret x.
Proof. intros H. unfold fits. by destruct (Nat.leb_spec need room); [|lia]. Qed.
Lemma fits_not {A} need room (x : A) : (room < need)%nat -> fits need room x = Undef.
Proof. intros H. unfold fits. by destruct (Nat.leb_spec need room); [lia|]. Qed.
(** What is pushed below a computation. *)
Lemma with_slots_fits {A} room k n (m : res A) (x : A) : ((k <= room)%nat -> m = fits n (room - k) x) ->
  with_slots room k m = fits (k + n) room x.
Proof.
  intros H. unfold with_slots. destruct (Nat.ltb_spec room k); [by rewrite fits_not by lia|]. rewrite H by done.
  unfold fits. destruct (Nat.leb_spec n (room - k)), (Nat.leb_spec (k + n) room); (done || lia).
Qed.
(** Two computations one after the other. *)
Lemma bind_fits {A B} n1 n2 room (x : A) (y : B) (m : res A) (f : A -> res B) :
  m = fits n1 room x -> ((n1 <= room)%nat -> f x = fits n2 room y) -> m ≫= f = fits (Nat.max n1 n2) room y.
Proof.
  intros -> H. unfold fits in *. destruct (Nat.leb_spec n1 room).
  - rewrite bind_Ret_l, H by done. destruct (Nat.leb_spec n2 room), (Nat.leb_spec (Nat.max n1 n2) room); (done || lia).
  - by destruct (Nat.leb_spec (Nat.max n1 n2) room); [lia|].
Qed.
Lemma fits_map {A B} n room (x : A) (m : res A) (f : A -> B) : m = fits n room x -> (x ← m; Ret (f x)) = fits n room (f x).
Proof. intros ->. unfold fits. by destruct (_ <=? _)%nat. Qed.

(** The levels and entries of a tree, enough for the loops of an encoder. *)
Fixpoint tree_size (t : tree) : nat :=
  match t with
  | Val _ => 1
  | Tab l => 2 + fold_right (fun '(_, v) n => 1 + tree_size v + n)%nat 0%nat l
  end.
Fixpoint depth (t : tree) : nat :=
  match t with Val _ => 0 | Tab l => S (fold_right (fun '(_, v) n => Nat.max (depth v) n) 0%nat l) end.

Section Induction.
Variable P : tree -> Prop.
Hypothesis HVal : forall v, P (Val v).
Hypothesis HTab : forall l, Forall (fun e => P e.2) l -> P (Tab l).
Fixpoint tree_nest_ind (t : tree) : P t :=
  match t with
  | Val v => HVal v
  | Tab l => HTab l ((fix go (l : list (lval * tree)) : Forall (fun e => P e.2) l :=
      match l with [] => @List.Forall_nil _ _ | (k, v) :: l => @List.Forall_cons _ _ (k, v) l (tree_nest_ind v) (go l) end) l)
  end.
End Induction.

Lemma after_app k v pre rest : k ∉ map fst pre -> after k (pre ++ (k, v) :: rest) = Some rest.
Proof.
  induction pre as [|[x y] pre IH]; cbn; [by rewrite decide_True|]. intros [H1 H2]%not_elem_of_cons.
  rewrite decide_False by congruence. by apply IH.
Qed.

(** The place of lua_next behind an entry of a table whose keys are distinct. *)
Lemma cursor_app k v pre rest : NoDup (map fst (pre ++ (k, v) :: rest)) -> is_nil k = false ->
  cursor k (pre ++ (k, v) :: rest) = Some rest.
Proof.
  intros Hnd Hk. unfold cursor. rewrite Hk. apply after_app. rewrite map_app in Hnd.
  apply NoDup_app in Hnd as (_ & Hnd & _). intros Hin. specialize (Hnd _ Hin). set_solver.
Qed.

Lemma tree_get_fresh k (l : list (lval * tree)) : k ∉ map fst l -> tree_get k l = None.
Proof.
  induction l as [|[x v] l IH]; [done|]. cbn. intros [H1 H2]%not_elem_of_cons. rewrite decide_False by congruence. by apply IH.
Qed.
