(* ===== verification/Dbl.v ===== *)
(** * Dbl: binary64 arithmetic on integers

    Sums, products and comparisons of numbers that are integers below 2^53 are exact.
    Operations of C on double are those of the Standard Library's [SpecFloat] at
    precision 53. *)
From Stdlib Require Import SpecFloat.
From S2P Require Import Prelude Lua.
Local Open Scope Z_scope.

Definition dadd : lnumber -> lnumber -> lnumber := SFadd 53 1024.
Definition dsub : lnumber -> lnumber -> lnumber := SFsub 53 1024.
Definition dmul : lnumber -> lnumber -> lnumber := SFmul 53 1024.

(** The cast to float, as the double it is promoted to. *)
Definition to_float (d : lnumber) : lnumber :=
  match d with S754_finite s m e => binary_round 24 128 s m e | _ => d end.

Section Exact.

(** The number of binary digits of a positive number, and a number with as many. *)
Lemma digits_unique p d : 2 ^ (Z.pos d - 1) <= Z.pos p < 2 ^ Z.pos d -> digits2_pos p = d.
Proof.
  intros [H1 H2]. pose proof (digits2_pos_bound p) as [H3 H4].
  assert (Z.pos (digits2_pos p) - 1 < Z.pos d) by (apply (Z.pow_lt_mono_r_iff 2); lia).
  assert (Z.pos d - 1 < Z.pos (digits2_pos p)) by (apply (Z.pow_lt_mono_r_iff 2); lia).
  lia.
Qed.

Lemma digits_shift p M k : 0 <= k -> Z.pos M = Z.pos p * 2 ^ k -> Z.pos (digits2_pos M) = Z.pos (digits2_pos p) + k.
Proof.
  intros Hk HM. pose proof (digits2_pos_bound p) as [H1 H2].
  assert (H : digits2_pos M = Z.to_pos (Z.pos (digits2_pos p) + k)); [|rewrite H; lia].
  apply digits_unique. rewrite Z2Pos.id by lia. rewrite HM.
  replace (Z.pos (digits2_pos p) + k - 1) with ((Z.pos (digits2_pos p) - 1) + k) by lia.
  rewrite !Z.pow_add_r by lia. split; [apply Z.mul_le_mono_nonneg_r; lia|apply Z.mul_lt_mono_pos_r; lia].
Qed.

Lemma digits_mono p q : Z.pos p <= Z.pos q -> Z.pos (digits2_pos p) <= Z.pos (digits2_pos q).
Proof.
  intros H. pose proof (digits2_pos_bound p) as [H1 _]. pose proof (digits2_pos_bound q) as [_ H4].
  assert (Z.pos (digits2_pos p) - 1 < Z.pos (digits2_pos q)); [apply (Z.pow_lt_mono_r_iff 2)|]; lia.
Qed.

Lemma digits_53 p : Z.pos p < 2 ^ 53 -> Z.pos (digits2_pos p) <= 53.
Proof.
  intros H. pose proof (digits2_pos_bound p) as [H1 _].
  assert (Z.pos (digits2_pos p) - 1 < 53); [apply (Z.pow_lt_mono_r_iff 2)|]; lia.
Qed.

(** The canonical form of an integer: 53 binary digits. *)
Lemma d_of_pos_form s p : Z.pos p < 2 ^ 53 ->
  exists m, binary_round 53 1024 s p 0 = S754_finite s m (Z.pos (digits2_pos p) - 53) /\
            Z.pos m = Z.pos p * 2 ^ (53 - Z.pos (digits2_pos p)).
Proof.
  intros Hp. pose proof (digits_53 p Hp) as Hd. unfold binary_round. set (d := digits2_pos p) in *.
  assert (Hf : fexp 53 1024 (Z.pos d + 0) = Z.pos d - 53) by (unfold fexp, emin; lia).
  rewrite Hf. unfold shl_align. rewrite Z.sub_0_r.
  destruct (Z.pos d - 53) as [|k|k] eqn:Ek; [|lia|].
  - exists p. rewrite binary_round_aux_exact; [split; [done|]| |lia].
    + replace (53 - Z.pos d) with 0 by lia. lia.
    + exact Hf.
  - exists (Pos.iter xO p k). rewrite binary_round_aux_exact.
    + split; [done|]. rewrite iter_xO_val. do 2 f_equal. lia.
    + rewrite iter_xO_digits. unfold fexp, emin. fold d. lia.
    + lia.
Qed.

Lemma iter_shr n : forall m,
  SpecFloat.iter_pos shr_1 n (Build_shr_record (Z.pos (Pos.iter xO m n)) false false) = Build_shr_record (Z.pos m) false false.
Proof.
  induction n as [n IH|n IH|]; intros m; cbn [SpecFloat.iter_pos Pos.iter]; [|by rewrite !IH|done].
  cbn [shr_1 orb]. by rewrite !IH.
Qed.

(** An integer with more digits than its canonical form, all zeros, is brought to it. *)
Lemma round_exact s p M e :
  Z.pos p < 2 ^ 53 -> e <= Z.pos (digits2_pos p) - 53 -> Z.pos M = Z.pos p * 2 ^ (- e) ->
  binary_round_aux 53 1024 s (Z.pos M) e loc_Exact = binary_round 53 1024 s p 0.
Proof.
  intros Hp He HM. pose proof (digits_53 p Hp) as Hd.
  destruct (d_of_pos_form s p Hp) as (m & -> & Hm). set (d := Z.pos (digits2_pos p)) in *.
  assert (HdM : Z.pos (digits2_pos M) = d - e).
  { unfold d. rewrite (digits_shift p M (- e)) by lia. lia. }
  assert (Hdm : Z.pos (digits2_pos m) = 53).
  { rewrite (digits_shift p m (53 - d)) by lia. fold d. lia. }
  destruct (Z.eq_dec e (d - 53)) as [->|Hne].
  { replace M with m by (apply Pos2Z.inj; rewrite HM, Hm; do 2 f_equal; lia).
    apply binary_round_aux_exact; [rewrite Hdm; unfold fexp, emin; lia|lia]. }
  unfold binary_round_aux, shr_fexp at 1, Zdigits2. rewrite HdM.
  replace (fexp 53 1024 (d - e + e) - e) with (Z.pos (Z.to_pos (d - 53 - e))) by (unfold fexp, emin; lia).
  cbn [shr shr_record_of_loc].
  replace M with (Pos.iter xO m (Z.to_pos (d - 53 - e))).
  2:{ apply Pos2Z.inj. rewrite iter_xO_val, Z2Pos.id, HM, Hm, <- Z.mul_assoc, <- Z.pow_add_r by lia. do 2 f_equal. lia. }
  rewrite iter_shr, Z2Pos.id by lia. cbn [shr_m loc_of_shr_record shr_r shr_s round_nearest_even].
  replace (e + (d - 53 - e)) with (d - 53) by lia.
  unfold shr_fexp, Zdigits2. rewrite Hdm.
  replace (fexp 53 1024 (53 + (d - 53)) - (d - 53)) with 0 by (unfold fexp, emin; lia).
  cbn [shr shr_record_of_loc shr_m]. destruct (Z.leb_spec (d - 53) (1024 - 53)); [done|lia].
Qed.

Lemma d_of_Z_pos p : d_of_Z (Z.pos p) = binary_round 53 1024 false p 0.
Proof. done. Qed.
Lemma d_of_Z_neg p : d_of_Z (Z.neg p) = binary_round 53 1024 true p 0.
Proof. done. Qed.

Lemma d_of_Z_not_nan z : - 2 ^ 53 < z < 2 ^ 53 -> d_of_Z z <> S754_nan.
Proof.
  intros Hz. destruct z as [|p|p]; [done|rewrite d_of_Z_pos|rewrite d_of_Z_neg];
    [destruct (d_of_pos_form false p) as (m & -> & _)|destruct (d_of_pos_form true p) as (m & -> & _)]; (lia || done).
Qed.

Lemma dmul_pos s1 s2 p q : Z.pos p < 2 ^ 53 -> Z.pos q < 2 ^ 53 -> Z.pos (p * q) < 2 ^ 53 ->
  dmul (binary_round 53 1024 s1 p 0) (binary_round 53 1024 s2 q 0) = binary_round 53 1024 (xorb s1 s2) (p * q) 0.
Proof.
  intros Hp Hq Hpq. destruct (d_of_pos_form s1 p Hp) as (m & -> & Hm). destruct (d_of_pos_form s2 q Hq) as (n & -> & Hn).
  pose proof (digits_53 p Hp) as Hdp. pose proof (digits_53 q Hq) as Hdq. pose proof (digits_53 _ Hpq) as Hdpq.
  pose proof (digits_mono p (p * q) ltac:(rewrite Pos2Z.inj_mul; nia)) as H1. pose proof (digits_mono q (p * q) ltac:(rewrite Pos2Z.inj_mul; nia)) as H2.
  unfold dmul, SFmul. apply round_exact; [done|lia|].
  rewrite Pos2Z.inj_mul, Hm, Hn.
  replace (- (Z.pos (digits2_pos p) - 53 + (Z.pos (digits2_pos q) - 53)))
    with ((53 - Z.pos (digits2_pos p)) + (53 - Z.pos (digits2_pos q))) by lia.
  rewrite Z.pow_add_r by lia. lia.
Qed.

(** Multiplication and addition of integers that are not negative. *)
Lemma dmul_exact a b : 0 <= a < 2 ^ 53 -> 0 <= b < 2 ^ 53 -> 0 <= a * b < 2 ^ 53 ->
  dmul (d_of_Z a) (d_of_Z b) = d_of_Z (a * b).
Proof.
  intros Ha Hb Hab. destruct a as [|p|p]; [| |lia].
  - destruct b as [|q|q]; [done| |lia]. rewrite d_of_Z_pos. destruct (d_of_pos_form false q) as (m & -> & _); [lia|done].
  - destruct b as [|q|q]; [| |lia].
    + rewrite d_of_Z_pos. destruct (d_of_pos_form false p) as (m & -> & _); [lia|]. by rewrite Z.mul_0_r.
    + rewrite !d_of_Z_pos, dmul_pos by (rewrite ?Pos2Z.inj_mul; lia). done.
Qed.

Lemma shl_align_val p m e k : Z.pos m = Z.pos p * 2 ^ (- e) -> k <= e -> e <= 0 ->
  Z.pos (fst (shl_align m e k)) = Z.pos p * 2 ^ (- k).
Proof.
  intros Hm Hk He. unfold shl_align. destruct (k - e) as [|d|d] eqn:Ed; cbn [fst]; [|lia|].
  - rewrite Hm. do 2 f_equal. lia.
  - rewrite iter_xO_val, Hm, <- Z.mul_assoc, <- Z.pow_add_r by lia. do 2 f_equal. lia.
Qed.

Lemma binary_round_exact s p M e : Z.pos p < 2 ^ 53 -> e <= Z.pos (digits2_pos p) - 53 -> Z.pos M = Z.pos p * 2 ^ (- e) ->
  binary_round 53 1024 s M e = binary_round 53 1024 s p 0.
Proof.
  intros Hp He HM. pose proof (digits_53 p Hp). unfold binary_round at 1.
  rewrite (digits_shift p M (- e)) by lia. unfold shl_align.
  assert (Hn : forall d, fexp 53 1024 (Z.pos (digits2_pos p) + - e + e) - e <> Z.neg d) by (intros d; unfold fexp, emin; lia).
  destruct (fexp 53 1024 _ - e) as [|d|d] eqn:Ed; [| |by destruct (Hn d)]; by apply round_exact.
Qed.

Lemma dadd_exact a b : 0 <= a -> 0 <= b -> a + b < 2 ^ 53 -> dadd (d_of_Z a) (d_of_Z b) = d_of_Z (a + b).
Proof.
  intros Ha Hb Hab. destruct a as [|p|p]; [| |lia].
  - destruct b as [|q|q]; [done| |lia]. rewrite Z.add_0_l, d_of_Z_pos. destruct (d_of_pos_form false q) as (m & -> & _); [lia|done].
  - destruct b as [|q|q]; [| |lia].
    + rewrite d_of_Z_pos. rewrite Z.add_0_r. destruct (d_of_pos_form false p) as (m & Hm & _); [lia|]. rewrite d_of_Z_pos, Hm. done.
    + rewrite !d_of_Z_pos. destruct (d_of_pos_form false p) as (m & -> & Hm); [lia|]. destruct (d_of_pos_form false q) as (n & -> & Hn); [lia|].
      pose proof (digits_53 p ltac:(lia)). pose proof (digits_53 q ltac:(lia)).
      pose proof (digits_mono p (p + q) ltac:(lia)). pose proof (digits_mono q (p + q) ltac:(lia)).
      unfold dadd, SFadd. cbn [cond_Zopp]. set (k := Z.min _ _).
      assert (Hm' : Z.pos m = Z.pos p * 2 ^ (- (Z.pos (digits2_pos p) - 53))) by (rewrite Hm; do 2 f_equal; lia).
      assert (Hn' : Z.pos n = Z.pos q * 2 ^ (- (Z.pos (digits2_pos q) - 53))) by (rewrite Hn; do 2 f_equal; lia).
      pose proof (shl_align_val p m _ k Hm' ltac:(lia) ltac:(lia)) as Hp1.
      pose proof (shl_align_val q n _ k Hn' ltac:(lia) ltac:(lia)) as Hq1.
      destruct (shl_align m _ k) as [m1 e1]. destruct (shl_align n _ k) as [n1 e2]. cbn [fst] in *.
      cbn [binary_normalize Z.add]. apply binary_round_exact; [lia|lia|]. rewrite !Pos2Z.inj_add, Hp1, Hq1. lia.
Qed.

(** Comparison. *)
Lemma scaled_compare p q m n :
  Z.pos m = Z.pos p * 2 ^ (53 - Z.pos (digits2_pos p)) -> Z.pos n = Z.pos q * 2 ^ (53 - Z.pos (digits2_pos q)) ->
  Z.pos (digits2_pos p) <= 53 ->
  match Z.pos (digits2_pos p) - 53 ?= Z.pos (digits2_pos q) - 53 with
  | Eq => Pos.compare_cont Eq m n | Lt => Lt | Gt => Gt end = (Z.pos p ?= Z.pos q).
Proof.
  intros Hm Hn Hd. pose proof (digits_mono p q). pose proof (digits_mono q p).
  destruct (Z.compare_spec (Z.pos (digits2_pos p) - 53) (Z.pos (digits2_pos q) - 53)) as [He|He|He].
  - replace (Z.pos (digits2_pos q)) with (Z.pos (digits2_pos p)) in Hn by lia. fold (Pos.compare m n).
    change (Pos.compare m n) with (Z.pos m ?= Z.pos n). rewrite Hm, Hn. symmetry; apply Zmult_compare_compat_r. lia.
  - symmetry. apply Z.compare_lt_iff. lia.
  - symmetry. apply Z.compare_gt_iff. lia.
Qed.

Lemma dcompare_exact a b : - 2 ^ 53 < a < 2 ^ 53 -> - 2 ^ 53 < b < 2 ^ 53 ->
  SFcompare (d_of_Z a) (d_of_Z b) = Some (a ?= b).
Proof.
  intros Ha Hb. destruct a as [|p|p]; rewrite ?d_of_Z_pos, ?d_of_Z_neg;
    [|destruct (d_of_pos_form false p) as (m & -> & Hm); [lia|]|destruct (d_of_pos_form true p) as (m & -> & Hm); [lia|]];
    (destruct b as [|q|q]; rewrite ?d_of_Z_pos, ?d_of_Z_neg;
      [|destruct (d_of_pos_form false q) as (n & -> & Hn); [lia|]|destruct (d_of_pos_form true q) as (n & -> & Hn); [lia|]]);
    try done; cbn [SFcompare]; f_equal.
  - apply scaled_compare; [done|done|apply digits_53; lia].
  - change (Z.neg p ?= Z.neg q) with (CompOpp (Z.pos p ?= Z.pos q)).
    rewrite <- (scaled_compare p q m n) by (done || (apply digits_53; lia)). by destruct (_ ?= _).
Qed.

Lemma dsub_same z : - 2 ^ 53 < z < 2 ^ 53 -> dsub (d_of_Z z) (d_of_Z z) = S754_zero false.
Proof.
  intros Hz. destruct z as [|p|p]; [done| |]; rewrite ?d_of_Z_pos, ?d_of_Z_neg;
    [destruct (d_of_pos_form false p) as (m & -> & _); [lia|]|destruct (d_of_pos_form true p) as (m & -> & _); [lia|]];
    unfold dsub, SFsub; by rewrite Z.sub_diag.
Qed.

(** The sign of a product with one of the units. *)
Lemma dmul_unit s p : Z.pos p < 2 ^ 53 ->
  dmul (binary_round 53 1024 s 1 0) (binary_round 53 1024 false p 0) = binary_round 53 1024 s p 0 /\
  dmul (binary_round 53 1024 s p 0) (binary_round 53 1024 false 1 0) = binary_round 53 1024 s p 0.
Proof.
  intros Hp. split; rewrite dmul_pos by (rewrite ?Pos.mul_1_l, ?Pos.mul_1_r; lia).
  - by rewrite Pos.mul_1_l, xorb_false_r.
  - by rewrite Pos.mul_1_r, xorb_false_r.
Qed.
End Exact.
