(* ===== verification/Ar.v ===== *)
(** * Ar: typed reading and writing over a raw buffer

    Source: src/src/ar/ar.cc, ar.h.  The module keeps [MAX_AR] archives, each a
    pointer, its size and a cursor; scripts serialise messages into send buffers
    and parse them out of receive buffers through it. *)
From S2P Require Import Prelude Mem Lua.
Local Open Scope Z_scope.

(** ** State *)

Record ar_t := Ar_t { buf : Z; buf_len : Z; rptr : Z; used : Z }.

(** The static array s_ars and the memory the buffers point into. *)
Record st := St { s_ars : list ar_t; hp : heap }.

Definition MAX_AR : nat := 64.
Definition init_ars : list ar_t := replicate MAX_AR (Ar_t NULL 0 0 0).

Definition fd2ar (s : st) (fd : Z) : res ar_t :=
  if 0 <=? fd then of_option (s_ars s !! Z.to_nat fd) else Undef.
Definition set_ar (s : st) (fd : Z) (a : ar_t) : st :=
  St (<[Z.to_nat fd := a]> (s_ars s)) (hp s).
Definition set_rptr (a : ar_t) (p : Z) : ar_t := Ar_t (buf a) (buf_len a) p (used a).

(** ** Operations *)

(** The first slot from [i] on, of at most [n], that is not in use. *)
Fixpoint find_free (l : list ar_t) (i : nat) (n : nat) : option nat :=
  match n with
  | O => None
  | S n => match l !! i with
           | Some a => if used a =? 0 then Some i else find_free l (S i) n
           | None => None
           end
  end.

Definition ar_create (b : Z) (blen : Z) (s : st) : Z * st :=
  match find_free (s_ars s) 1 (MAX_AR - 1) with
  | Some i => (Z.of_nat i, St (<[i := Ar_t b (u64 blen) 0 1]> (s_ars s)) (hp s))
  | None => (0, s)
  end.

Definition ar_write (fd : Z) (vbuf : bytes) (n : Z) (s : st) : res (Z * st) :=
  self ← fd2ar s fd;
  if u64 (buf_len self - rptr self) <? n then Ret (0, s)
  else
    m ← of_option (mstore (h_mem (hp s)) (buf self + rptr self) vbuf);
    let s := St (s_ars s) (Heap m (h_blk (hp s))) in
    Ret (i32 n, set_ar s fd (set_rptr self (u64 (rptr self + n)))).

(** [None]: nothing was copied, the caller's variable keeps its value. *)
Definition ar_read (fd : Z) (n : Z) (s : st) : res (option bytes * st) :=
  self ← fd2ar s fd;
  if u64 (buf_len self - rptr self) <? n then Ret (None, s)
  else
    l ← of_option (loadz (h_mem (hp s)) (buf self + rptr self) n);
    Ret (Some l, set_ar s fd (set_rptr self (u64 (rptr self + n)))).

Section Api.
Context {F : LuaFmt} {A : Allocator}.

Definition lrewind (L : list lval) (s : st) : res (list lval * st) :=
  let fd := i32 (lua_tointeger L 1) in
  self ← fd2ar s fd;
  Ret ([], set_ar s fd (set_rptr self 0)).

Definition ldatalen (L : list lval) (s : st) : res (list lval * st) :=
  let fd := i32 (lua_tointeger L 1) in
  self ← fd2ar s fd;
  Ret ([lua_pushinteger (i64 (rptr self))], s).

Definition lremain (L : list lval) (s : st) : res (list lval * st) :=
  let fd := i32 (lua_tointeger L 1) in
  self ← fd2ar s fd;
  Ret ([lua_pushinteger (i64 (u64 (buf_len self - rptr self)))], s).

Definition lgetptr (L : list lval) (s : st) : res (list lval * st) :=
  let fd := i32 (lua_tointeger L 1) in
  self ← fd2ar s fd;
  Ret ([lua_pushlightuserdata (buf self + rptr self)], s).

Definition ltest (L : list lval) (s : st) : res (list lval * st) := Ret ([], s).

Definition lmalloc (L : list lval) (s : st) : res (list lval * st) :=
  let len := i32 (lua_tointeger L 1) in
  match malloc (hp s) (u64 len) with
  | Some (p, h) => Ret ([lua_pushlightuserdata p], St (s_ars s) h)
  | None => Ret ([lua_pushlightuserdata NULL], s)
  end.

Definition lfree (L : list lval) (s : st) : res (list lval * st) :=
  let fd := i32 (lua_tointeger L 1) in
  self ← fd2ar s fd;
  Ret ([], set_ar s fd (Ar_t (buf self) (buf_len self) (rptr self) 0)).

Definition lcreate (L : list lval) (s : st) : res (list lval * st) :=
  if (lua_gettop L =? 2) && lua_isuserdata L 1 && lua_isnumber L 2 then
    let b := lua_touserdata L 1 in
    let blen := i32 (lua_tointeger L 2) in
    let '(fd, s) := ar_create b blen s in
    Ret ([lua_pushinteger fd], s)
  else Ret ([], s).

Definition lwritestr (L : list lval) (s : st) : res (list lval * st) :=
  if (lua_gettop L =? 2) && lua_isnumber L 1 && lua_isstring L 2 then
    let fd := i32 (lua_tointeger L 1) in
    str ← of_option (lua_tolstring L 2);
    let str_len := Z.of_nat (length str) in
    self ← fd2ar s fd;
    if u64 (buf_len self - rptr self) <? str_len then Ret ([lua_pushinteger 0], s)
    else
      '(_, s) ← ar_write fd str str_len s;
      Ret ([lua_pushinteger str_len], s)
  else Ret ([], s).

Definition lwritelstr (L : list lval) (s : st) : res (list lval * st) :=
  if (lua_gettop L =? 2) && lua_isnumber L 1 && lua_isstring L 2 then
    let fd := i32 (lua_tointeger L 1) in
    str ← of_option (lua_tolstring L 2);
    let str_len := Z.of_nat (length str) in
    self ← fd2ar s fd;
    if u64 (buf_len self - rptr self) <? u64 (str_len + 2) then Ret ([lua_pushinteger 0], s)
    else
      let val := i16 str_len in
      '(_, s) ← ar_write fd (le_enc 2 val) 2 s;
      '(_, s) ← ar_write fd str str_len s;
      Ret ([lua_pushinteger str_len], s)
  else Ret ([], s).

Definition lwriteint8 (L : list lval) (s : st) : res (list lval * st) :=
  if (lua_gettop L =? 2) && lua_isnumber L 1 && lua_isnumber L 2 then
    let fd := i32 (lua_tointeger L 1) in
    let val := i8 (lua_tointeger L 2) in
    '(_, s) ← ar_write fd (le_enc 1 val) 1 s;
    Ret ([lua_pushinteger val], s)
  else Ret ([], s).

Definition lwriteint16 (L : list lval) (s : st) : res (list lval * st) :=
  if (lua_gettop L =? 2) && lua_isnumber L 1 && lua_isnumber L 2 then
    let fd := i32 (lua_tointeger L 1) in
    let val := i16 (lua_tointeger L 2) in
    '(_, s) ← ar_write fd (le_enc 2 val) 2 s;
    Ret ([lua_pushinteger val], s)
  else Ret ([], s).

Definition lwriteint32 (L : list lval) (s : st) : res (list lval * st) :=
  if (lua_gettop L =? 2) && lua_isnumber L 1 && lua_isnumber L 2 then
    let fd := i32 (lua_tointeger L 1) in
    let val := i32 (lua_tointeger L 2) in
    '(_, s) ← ar_write fd (le_enc 4 val) 4 s;
    Ret ([lua_pushinteger val], s)
  else Ret ([], s).

Definition lwriteint64 (L : list lval) (s : st) : res (list lval * st) :=
  if (lua_gettop L =? 2) && lua_isnumber L 1 && lua_isnumber L 2 then
    let fd := i32 (lua_tointeger L 1) in
    let val := i64 (lua_tointeger L 2) in
    '(_, s) ← ar_write fd (le_enc 8 val) 8 s;
    Ret ([lua_pushinteger val], s)
  else Ret ([], s).

Definition lreadstr (L : list lval) (s : st) : res (list lval * st) :=
  if (lua_gettop L =? 2) && lua_isnumber L 1 && lua_isnumber L 2 then
    let fd := i32 (lua_tointeger L 1) in
    let str_len := u64 (lua_tointeger L 2) in
    self ← fd2ar s fd;
    if u64 (buf_len self - rptr self) <? str_len then Ret ([], s)
    else
      l ← of_option (loadz (h_mem (hp s)) (buf self + rptr self) str_len);
      Ret ([lua_pushlstring l], set_ar s fd (set_rptr self (u64 (rptr self + str_len))))
  else Ret ([], s).

(** The length prefix is a signed 16-bit integer that is converted to size_t. *)
Definition lreadlstr (L : list lval) (s : st) : res (list lval * st) :=
  if (lua_gettop L =? 1) && lua_isnumber L 1 then
    let fd := i32 (lua_tointeger L 1) in
    self ← fd2ar s fd;
    if u64 (buf_len self - rptr self) <? 2 then Ret ([], s)
    else
      l2 ← of_option (loadz (h_mem (hp s)) (buf self + rptr self) 2);
      let str_len := i16 (le_dec l2) in
      if u64 (buf_len self - rptr self) <? u64 (str_len + 2) then Ret ([], s)
      else
        let p := u64 (rptr self + 2) in
        l ← of_option (loadz (h_mem (hp s)) (buf self + p) (u64 str_len));
        Ret ([lua_pushlstring l], set_ar s fd (set_rptr self (u64 (p + str_len))))
  else Ret ([], s).

(** The readers of one integer of [n] bytes; [conv] is the variable's type. *)
Definition lread_int (n : Z) (conv : Z -> Z) (L : list lval) (s : st) : res (list lval * st) :=
  if (lua_gettop L =? 1) && lua_isnumber L 1 then
    let fd := i32 (lua_tointeger L 1) in
    '(r, s) ← ar_read fd n s;
    let val := match r with Some l => conv (le_dec l) | None => 0 end in
    Ret ([lua_pushinteger val], s)
  else Ret ([], s).

Definition lreaduint8 := lread_int 1 (fun v => u8 v).
Definition lreadint8 := lread_int 1 (fun v => i8 v).
Definition lreadint16 := lread_int 2 (fun v => i16 v).
Definition lreadint32 := lread_int 4 (fun v => i32 v).
Definition lreadint64 := lread_int 8 (fun v => i64 v).

(** The registration table: what a script can call. *)
Open Scope string_scope.
Definition lua_lib : list (string * (list lval -> st -> res (list lval * st))) :=
  [("malloc", lmalloc); ("create", lcreate); ("free", lfree); ("datalen", ldatalen);
   ("remain", lremain); ("getptr", lgetptr); ("rewind", lrewind); ("test", ltest);
   ("readuint8", lreaduint8); ("readint8", lreadint8); ("readint16", lreadint16);
   ("readint32", lreadint32); ("readint64", lreadint64); ("readlstr", lreadlstr);
   ("readstr", lreadstr); ("writeint8", lwriteint8); ("writeint16", lwriteint16);
   ("writeint32", lwriteint32); ("writeint64", lwriteint64); ("writelstr", lwritelstr);
   ("writestr", lwritestr)].
Close Scope string_scope.

(** One call of a script into the module. *)
Inductive api_step : st -> st -> Prop :=
| api_call name f L s out s' :
    ((name, f) ∈ lua_lib) -> f L s = Ret (out, s') -> api_step s s'.

End Api.

(** ** Specification

    An item is one value a script puts into a message; [enc] is its wire form. *)
Inductive item :=
| I8 (v : Z) | I16 (v : Z) | I32 (v : Z) | I64 (v : Z)
| Str (s : bytes)            (* writestr / readstr: no length on the wire *)
| LStrI (s : bytes).         (* writelstr / readlstr: 16-bit length prefix *)

Definition enc (it : item) : bytes :=
  match it with
  | I8 v => le_enc 1 v | I16 v => le_enc 2 v | I32 v => le_enc 4 v | I64 v => le_enc 8 v
  | Str s => s
  | LStrI s => le_enc 2 (Z.of_nat (length s)) ++ s
  end.
Definition item_size (it : item) : Z := Z.of_nat (length (enc it)).

(** What a script can hand over exactly: an integer a Lua number holds, a string
    whose length fits the prefix. *)
Definition item_ok (it : item) : Prop :=
  match it with
  | I8 v | I16 v | I32 v | I64 v => - 2 ^ 53 < v < 2 ^ 53
  | Str s => Z.of_nat (length s) < 2 ^ 31
  | LStrI s => Z.of_nat (length s) < 2 ^ 15
  end.

(** A writer takes strings of any length: the prefix is silently reduced to 16
    bits. *)
Definition writable (it : item) : Prop :=
  match it with
  | I8 v | I16 v | I32 v | I64 v => - 2 ^ 53 < v < 2 ^ 53
  | Str _ | LStrI _ => True
  end.

(** The value the reader of the same type pushes. *)
Definition item_val (it : item) : lval :=
  match it with
  | I8 v => lua_pushinteger (i8 v) | I16 v => lua_pushinteger (i16 v)
  | I32 v => lua_pushinteger (i32 v) | I64 v => lua_pushinteger (i64 v)
  | Str s | LStrI s => LStr s
  end.

(** A slot whose cursor is inside its buffer and whose buffer is memory. *)
Definition cursor_ok (a : ar_t) : Prop := 0 <= rptr a <= buf_len a /\ buf_len a < 2 ^ 64.
Definition slot_ok (s : st) (fd : Z) (a : ar_t) : Prop :=
  0 <= fd < Z.of_nat MAX_AR /\ s_ars s !! Z.to_nat fd = Some a /\
  cursor_ok a /\ mapped (h_mem (hp s)) (buf a) (buf_len a).

Definition ars_ok (s : st) : Prop :=
  length (s_ars s) = MAX_AR /\ Forall cursor_ok (s_ars s).

Section Items.
Context {F : LuaFmt}.

Definition write_item (fd : Z) (it : item) (s : st) : res (list lval * st) :=
  let f := lua_pushinteger fd in
  match it with
  | I8 v => lwriteint8 [f; lua_pushinteger v] s
  | I16 v => lwriteint16 [f; lua_pushinteger v] s
  | I32 v => lwriteint32 [f; lua_pushinteger v] s
  | I64 v => lwriteint64 [f; lua_pushinteger v] s
  | Str b => lwritestr [f; LStr b] s
  | LStrI b => lwritelstr [f; LStr b] s
  end.

Definition read_item (fd : Z) (it : item) (s : st) : res (list lval * st) :=
  let f := lua_pushinteger fd in
  match it with
  | I8 _ => lreadint8 [f] s
  | I16 _ => lreadint16 [f] s
  | I32 _ => lreadint32 [f] s
  | I64 _ => lreadint64 [f] s
  | Str b => lreadstr [f; lua_pushinteger (Z.of_nat (length b))] s
  | LStrI _ => lreadlstr [f] s
  end.

Fixpoint write_items (fd : Z) (its : list item) (s : st) : res st :=
  match its with
  | [] => Ret s
  | it :: its => '(_, s) ← write_item fd it s; write_items fd its s
  end.

Fixpoint read_items (fd : Z) (its : list item) (s : st) : res (list lval * st) :=
  match its with
  | [] => Ret ([], s)
  | it :: its => '(v, s) ← read_item fd it s;
                 '(vs, s) ← read_items fd its s;
                 Ret (v ++ vs, s)
  end.
End Items.

(** ** Lemmas *)

Lemma fd_arg {F : LuaFmt} fd L :
  0 <= fd < Z.of_nat MAX_AR -> i32 (lua_tointeger (lua_pushinteger fd :: L) 1) = fd.
Proof.
  intros H. apply lua_tointeger_int; [done|]. unfold in_s, MAX_AR in *. lia.
Qed.

Lemma num_arg2 {F : LuaFmt} x v :
  - 2 ^ 53 < v < 2 ^ 53 -> lua_tointeger [x; lua_pushinteger v] 2 = v.
Proof. intros H. unfold lua_tointeger. cbn [index2adr]. cbn. by apply d2i64_of_Z. Qed.

Lemma fd2ar_slot s fd a : slot_ok s fd a -> fd2ar s fd = Ret a.
Proof.
  intros (H & Ha & _). unfold fd2ar. destruct (Z.leb_spec 0 fd); [|lia]. by rewrite Ha.
Qed.

Lemma room_sub a : cursor_ok a -> u64 (buf_len a - rptr a) = buf_len a - rptr a.
Proof. intros [? ?]. apply wrapU_id. unfold in_u. lia. Qed.

Lemma set_ar_lookup s fd a a' :
  s_ars s !! Z.to_nat fd = Some a -> s_ars (set_ar s fd a') !! Z.to_nat fd = Some a'.
Proof. intros H. apply list_lookup_insert_eq. by eapply lookup_lt_Some. Qed.

(** The state after [n] bytes were written or read at the cursor. *)
Definition advance (s : st) (fd : Z) (a : ar_t) (n : Z) : st :=
  set_ar s fd (set_rptr a (rptr a + n)).

Lemma slot_advance s fd a n :
  slot_ok s fd a -> 0 <= n <= buf_len a - rptr a ->
  slot_ok (advance s fd a n) fd (set_rptr a (rptr a + n)).
Proof.
  intros (H & Ha & [? ?] & Hm) Hn. split_and!; [lia|lia| |split; cbn; lia|done].
  by eapply set_ar_lookup.
Qed.

Definition set_mem (s : st) (m : gmap Z Z) : st := St (s_ars s) (Heap m (h_blk (hp s))).

Lemma slot_set_mem s fd a m :
  slot_ok s fd a -> (forall b n, mapped (h_mem (hp s)) b n -> mapped m b n) ->
  slot_ok (set_mem s m) fd a.
Proof. intros (H & Ha & Hc & Hm) Hmm. split_and!; try done; [lia..|]. by apply Hmm. Qed.

Lemma ar_write_fits s fd a v :
  slot_ok s fd a -> Z.of_nat (length v) <= buf_len a - rptr a ->
  exists m, mstore (h_mem (hp s)) (buf a + rptr a) v = Some m /\
    ar_write fd v (Z.of_nat (length v)) s =
    Ret (i32 (Z.of_nat (length v)), advance (set_mem s m) fd a (Z.of_nat (length v))).
Proof.
  intros Hs Hn. pose proof Hs as (H & Ha & Hc & Hm).
  destruct (mstore_mapped (h_mem (hp s)) (buf a + rptr a) v) as [m Hst].
  { intros x Hx. apply Hm. destruct Hc. lia. }
  exists m. split; [done|]. unfold ar_write. rewrite (fd2ar_slot _ _ _ Hs), bind_Ret_l.
  rewrite room_sub by done.
  destruct (Z.ltb_spec (buf_len a - rptr a) (Z.of_nat (length v))); [lia|].
  rewrite Hst. cbn [of_option]. rewrite bind_Ret_l.
  unfold advance. do 4 f_equal. apply wrapU_id. unfold in_u. destruct Hc. lia.
Qed.

Lemma ar_write_full s fd a v n :
  slot_ok s fd a -> buf_len a - rptr a < n -> ar_write fd v n s = Ret (0, s).
Proof.
  intros Hs Hn. pose proof Hs as (_ & _ & Hc & _).
  unfold ar_write. rewrite (fd2ar_slot _ _ _ Hs), bind_Ret_l, room_sub by done.
  by destruct (Z.ltb_spec (buf_len a - rptr a) n); [|lia].
Qed.

Lemma ar_read_fits s fd a l :
  slot_ok s fd a -> Z.of_nat (length l) <= buf_len a - rptr a ->
  mload (h_mem (hp s)) (buf a + rptr a) (length l) = Some l ->
  ar_read fd (Z.of_nat (length l)) s = Ret (Some l, advance s fd a (Z.of_nat (length l))).
Proof.
  intros Hs Hn Hl. pose proof Hs as (_ & _ & Hc & _).
  unfold ar_read. rewrite (fd2ar_slot _ _ _ Hs), bind_Ret_l, room_sub by done.
  destruct (Z.ltb_spec (buf_len a - rptr a) (Z.of_nat (length l))); [lia|].
  rewrite (loadz_mload _ _ _ Hl). cbn [of_option]. rewrite bind_Ret_l.
  unfold advance. do 4 f_equal. apply wrapU_id. unfold in_u. destruct Hc. lia.
Qed.

Lemma i16_len (s : bytes) : Z.of_nat (length s) < 2 ^ 15 -> i16 (Z.of_nat (length s)) = Z.of_nat (length s).
Proof. intros. apply wrapS_id; [lia|]. unfold in_s. lia. Qed.

Lemma advance_advance s fd a n1 n2 m :
  s_ars s !! Z.to_nat fd = Some a ->
  advance (set_mem (advance s fd a n1) m) fd (set_rptr a (rptr a + n1)) n2 =
  advance (set_mem s m) fd a (n1 + n2).
Proof.
  intros Ha. unfold advance, set_ar, set_mem. cbn. f_equal.
  rewrite list_insert_insert_eq. f_equal. unfold set_rptr; cbn. f_equal. lia.
Qed.

Section ItemLemmas.
Context {F : LuaFmt}.

Lemma item_ok_writable it : item_ok it -> writable it.
Proof. by destruct it. Qed.

Lemma write_item_ok s fd a it :
  slot_ok s fd a -> writable it -> item_size it <= buf_len a - rptr a ->
  exists m v, mstore (h_mem (hp s)) (buf a + rptr a) (enc it) = Some m /\
    write_item fd it s = Ret (v, advance (set_mem s m) fd a (item_size it)).
Proof.
  intros Hs Hit Hroom. pose proof Hs as (Hfd & Ha & Hc & _).
  unfold item_size in *.
  destruct it as [v|v|v|v|b|b]; cbn [write_item writable enc] in *;
  unfold lwriteint8, lwriteint16, lwriteint32, lwriteint64, lwritestr, lwritelstr;
  lua_guard; rewrite fd_arg, ?num_arg2 by done; try lua_str.
  1-4: match goal with |- context [ar_write _ (le_enc ?n ?x) ?k _] =>
    change k with (Z.of_nat n);
    assert (E : le_enc n x = le_enc n v) by
      (rewrite <- le_enc_mod, <- (le_enc_mod n v); f_equal; apply (wrapU_wrapS (8 * Z.of_nat n)); lia);
    rewrite E; destruct (ar_write_fits s fd a (le_enc n v) Hs) as (m & Hm & Hw);
      [by rewrite le_enc_length in * |]; rewrite le_enc_length in *;
    rewrite Hw; eauto end.
  - rewrite (fd2ar_slot _ _ _ Hs), bind_Ret_l, room_sub by done.
    destruct (Z.ltb_spec (buf_len a - rptr a) (Z.of_nat (length b))); [lia|].
    destruct (ar_write_fits s fd a b Hs) as (m & Hm & Hw); [done|].
    rewrite Hw, bind_Ret_l. eauto.
  - rewrite length_app, le_enc_length in *.
    rewrite (fd2ar_slot _ _ _ Hs), bind_Ret_l, room_sub by done.
    rewrite wrapU_id by (unfold in_u; destruct Hc; lia).
    destruct (Z.ltb_spec (buf_len a - rptr a) (Z.of_nat (length b) + 2)); [lia|].
    assert (E : le_enc 2 (i16 (Z.of_nat (length b))) = le_enc 2 (Z.of_nat (length b))) by
      (rewrite <- le_enc_mod, <- (le_enc_mod 2 (Z.of_nat _)); f_equal; apply (wrapU_wrapS 16); lia).
    rewrite E.
    destruct (ar_write_fits s fd a (le_enc 2 (Z.of_nat (length b))) Hs) as (m & Hm & Hw).
    { rewrite le_enc_length. lia. }
    rewrite le_enc_length in Hw. change (Z.of_nat 2) with 2 in Hw. rewrite Hw, bind_Ret_l.
    assert (Hs1 : slot_ok (advance (set_mem s m) fd a 2) fd (set_rptr a (rptr a + 2))).
    { apply slot_advance; [|lia]. apply slot_set_mem; [done|].
      intros ???. by eapply mstore_mapped_same. }
    destruct (ar_write_fits _ _ _ b Hs1) as (m2 & Hm2 & Hw2); [cbn; lia|].
    rewrite Hw2, bind_Ret_l. exists m2. eexists. split.
    + rewrite mstore_app, Hm, le_enc_length. cbn in *.
      by rewrite <- Hm2, Z.add_assoc.
    + rewrite advance_advance by done. do 3 f_equal. lia.
Qed.

Lemma read_int_ok (n : nat) conv s fd a v :
  slot_ok s fd a -> Z.of_nat n <= buf_len a - rptr a ->
  mload (h_mem (hp s)) (buf a + rptr a) n = Some (le_enc n v) ->
  lread_int (Z.of_nat n) conv [lua_pushinteger fd] s =
  Ret ([lua_pushinteger (conv (le_dec (le_enc n v)))], advance s fd a (Z.of_nat n)).
Proof.
  intros Hs Hn Hl. pose proof Hs as (Hfd & _). unfold lread_int. lua_guard.
  rewrite fd_arg by done.
  pose proof (ar_read_fits s fd a (le_enc n v) Hs) as Hr. rewrite le_enc_length in Hr.
  by rewrite Hr, bind_Ret_l.
Qed.

Lemma read_item_ok s fd a it :
  slot_ok s fd a -> item_ok it -> item_size it <= buf_len a - rptr a ->
  mload (h_mem (hp s)) (buf a + rptr a) (length (enc it)) = Some (enc it) ->
  read_item fd it s = Ret ([item_val it], advance s fd a (item_size it)).
Proof.
  intros Hs Hit Hroom Hl. pose proof Hs as (Hfd & Ha & Hc & Hm). unfold item_size in *.
  destruct it as [v|v|v|v|b|b]; cbn [read_item item_ok enc item_val] in *;
    rewrite ?le_enc_length in *.
  1-4: unfold lreadint8, lreadint16, lreadint32, lreadint64;
    match goal with Hl : mload _ _ ?n = Some (le_enc ?n ?v) |- lread_int ?k ?conv _ _ = _ =>
      change k with (Z.of_nat n); rewrite (read_int_ok n conv s fd a v) by done;
      do 4 f_equal; apply (wrapS_le n v) end.
  - unfold lreadstr. lua_guard. rewrite fd_arg by done. rewrite num_arg2 by lia.
    rewrite (fd2ar_slot _ _ _ Hs), bind_Ret_l, room_sub by done.
    rewrite wrapU_id by (unfold in_u; lia).
    destruct (Z.ltb_spec (buf_len a - rptr a) (Z.of_nat (length b))); [lia|].
    rewrite (loadz_mload _ _ _ Hl). cbn [of_option]. rewrite bind_Ret_l.
    unfold advance. do 4 f_equal. apply wrapU_id. unfold in_u. destruct Hc. lia.
  - rewrite length_app, le_enc_length in *.
    unfold lreadlstr. lua_guard. rewrite fd_arg by done.
    rewrite (fd2ar_slot _ _ _ Hs), bind_Ret_l, room_sub by done.
    destruct (Z.ltb_spec (buf_len a - rptr a) 2); [lia|].
    apply mload_app_inv in Hl. rewrite take_app_length', drop_app_length' in Hl
      by by rewrite le_enc_length.
    destruct Hl as [H2 Hb].
    rewrite (loadz_mload _ _ (le_enc 2 _)) by (by rewrite le_enc_length).
    cbn [of_option]. rewrite bind_Ret_l.
    pose proof (wrapS_le 2 (Z.of_nat (length b))) as E. change (8 * Z.of_nat 2) with 16 in E.
    rewrite E, i16_len by done. clear E.
    rewrite wrapU_id by (unfold in_u; lia).
    destruct (Z.ltb_spec (buf_len a - rptr a) (Z.of_nat (length b) + 2)); [lia|].
    destruct Hc. rewrite (wrapU_id 64 (rptr a + 2)), (wrapU_id 64 (Z.of_nat (length b))),
      (wrapU_id 64 (rptr a + 2 + _)) by (unfold in_u; lia).
    rewrite Z.add_assoc, (loadz_mload _ _ b) by done. cbn [of_option]. rewrite bind_Ret_l.
    unfold advance. do 4 f_equal. lia.
Qed.

Definition wire (its : list item) : bytes := concat (map enc its).

Lemma wire_cons it its : wire (it :: its) = enc it ++ wire its.
Proof. done. Qed.

Lemma write_items_ok its : forall s fd a,
  slot_ok s fd a -> Forall item_ok its ->
  Z.of_nat (length (wire its)) <= buf_len a - rptr a ->
  exists m, mstore (h_mem (hp s)) (buf a + rptr a) (wire its) = Some m /\
    write_items fd its s = Ret (advance (set_mem s m) fd a (Z.of_nat (length (wire its)))).
Proof.
  induction its as [|it its IH]; intros s fd a Hs Hok Hroom.
  { exists (h_mem (hp s)). split; [done|]. cbn. f_equal.
    destruct Hs as (? & Ha & ? & ?). destruct s as [l [m b]], a. unfold advance, set_ar; cbn in *.
    rewrite list_insert_id; [done|]. unfold set_rptr; cbn. by rewrite Z.add_0_r. }
  inversion_clear Hok as [|?? Hit Hits]. rewrite wire_cons, length_app in *.
  destruct (write_item_ok s fd a it Hs (item_ok_writable _ Hit)) as (m1 & v & Hm1 & Hw);
    [unfold item_size; lia|].
  cbn [write_items]. rewrite Hw, bind_Ret_l. unfold item_size in *.
  assert (Hs1 : slot_ok (advance (set_mem s m1) fd a (Z.of_nat (length (enc it)))) fd
                  (set_rptr a (rptr a + Z.of_nat (length (enc it))))).
  { apply slot_advance; [|lia]. apply slot_set_mem; [done|].
    intros ???. by eapply mstore_mapped_same. }
  destruct (IH _ _ _ Hs1 Hits) as (m & Hm & Hws); [cbn; lia|].
  exists m. rewrite mstore_app, Hm1, Hws. cbn in *. rewrite Z.add_assoc in Hm. split; [done|].
  destruct Hs as (? & Ha & _). f_equal. rewrite advance_advance by done. f_equal. lia.
Qed.

Lemma read_items_ok its : forall s fd a,
  slot_ok s fd a -> Forall item_ok its ->
  Z.of_nat (length (wire its)) <= buf_len a - rptr a ->
  mload (h_mem (hp s)) (buf a + rptr a) (length (wire its)) = Some (wire its) ->
  exists s', read_items fd its s = Ret (map item_val its, s').
Proof.
  induction its as [|it its IH]; intros s fd a Hs Hok Hroom Hl; [by eexists|].
  inversion_clear Hok as [|?? Hit Hits]. rewrite wire_cons, length_app in *.
  apply mload_app_inv in Hl. rewrite take_app_length, drop_app_length in Hl.
  destruct Hl as [H1 H2]. cbn [read_items].
  rewrite (read_item_ok s fd a it Hs Hit) by (done || unfold item_size; lia).
  rewrite bind_Ret_l. unfold item_size.
  destruct (IH _ fd _ (slot_advance s fd a (Z.of_nat (length (enc it))) Hs ltac:(lia)) Hits)
    as (s' & Hs'); [cbn; lia| |].
  { cbn. by rewrite Z.add_assoc. }
  rewrite Hs', bind_Ret_l. by eexists.
Qed.
End ItemLemmas.

(** ** Properties *)

(** C3.  Serialisation round trip: whatever sequence of integers and strings a
    script writes into an archive that has room for it, the integers below 2^53 in
    size, a string with a length prefix below 2^15 characters and one without below
    2^31, rewinding the archive and reading with the same sequence of types gives back
    every value - an integer reduced to the width it was written with, a string
    unchanged.  A longer string with a prefix does not come back: 2^15 characters or
    more are lost to the reader (long_string_lost). *)
Theorem archive_roundtrip {F : LuaFmt} s fd a its :
  slot_ok s fd a -> rptr a = 0 -> Forall item_ok its ->
  Z.of_nat (length (wire its)) <= buf_len a ->
  exists s1 s2 s3,
    write_items fd its s = Ret s1 /\
    lrewind [lua_pushinteger fd] s1 = Ret ([], s2) /\
    read_items fd its s2 = Ret (map item_val its, s3).
Proof.
  intros Hs H0 Hok Hroom.
  destruct (write_items_ok its s fd a Hs Hok) as (m & Hm & Hw); [lia|].
  pose proof Hs as (Hfd & Ha & [Hc Hlen] & Hmap).
  set (s1 := advance (set_mem s m) fd a (Z.of_nat (length (wire its)))) in *.
  assert (Hs1 : slot_ok s1 fd (set_rptr a (rptr a + Z.of_nat (length (wire its))))).
  { apply slot_advance; [|lia]. apply slot_set_mem; [done|].
    intros ???. by eapply mstore_mapped_same. }
  set (s2 := set_ar s1 fd (set_rptr (set_rptr a (rptr a + Z.of_nat (length (wire its)))) 0)).
  assert (Hs2 : slot_ok s2 fd (set_rptr a 0)).
  { destruct Hs1 as (? & Ha1 & ? & Hm1). split_and!; [lia|lia| |split; cbn; lia|done].
    by eapply set_ar_lookup. }
  assert (Hr : lrewind [lua_pushinteger fd] s1 = Ret ([], s2)).
  { unfold lrewind. rewrite fd_arg by done. by rewrite (fd2ar_slot _ _ _ Hs1), bind_Ret_l. }
  destruct (read_items_ok its s2 fd _ Hs2 Hok) as (s3 & Hs3); [cbn; lia| |eauto 10].
  cbn. rewrite H0 in Hm. by eapply mload_mstore_same.
Qed.

(** Archive 1 over a 64-byte buffer at address 4096. *)
Definition ex_state : st :=
  St (<[1%nat := Ar_t 4096 64 0 1]> init_ars) (Heap (map_zeros ∅ 4096 64) ∅).

Lemma ex_slot_ok : slot_ok ex_state 1 (Ar_t 4096 64 0 1).
Proof.
  split_and!; [done|done|done|split; cbn; lia|]. intros x Hx.
  change (h_mem (hp ex_state)) with (map_zeros ∅ 4096 64). cbn [buf buf_len] in Hx.
  rewrite map_zeros_lookup, decide_True by lia. eauto.
Qed.

(** Five values in an archive over 64 bytes. *)
Lemma archive_roundtrip_witness :
  exists s1 s2 s3,
    write_items (F := NoFmt) 1 [I8 200; I16 (-2); LStrI [104; 105]; I32 70000; Str [33]] ex_state = Ret s1 /\
    lrewind (F := NoFmt) [lua_pushinteger 1] s1 = Ret ([], s2) /\
    read_items (F := NoFmt) 1 [I8 200; I16 (-2); LStrI [104; 105]; I32 70000; Str [33]] s2
      = Ret (map item_val [I8 200; I16 (-2); LStrI [104; 105]; I32 70000; Str [33]], s3).
Proof.
  apply (@archive_roundtrip NoFmt ex_state 1 _ _ ex_slot_ok).
  - reflexivity.
  - repeat constructor; cbn; lia.
  - cbn. lia.
Defined.

(** *** The cursor stays inside the buffer *)

Lemma fd2ar_cursor s fd a : ars_ok s -> fd2ar s fd = Ret a -> cursor_ok a.
Proof.
  intros [_ H] Ha. unfold fd2ar in Ha. destruct (0 <=? fd); [|done].
  apply of_option_Ret in Ha. by eapply Forall_lookup_1.
Qed.

Lemma set_ar_ars_ok s fd a : ars_ok s -> cursor_ok a -> ars_ok (set_ar s fd a).
Proof.
  intros [Hl H] Ha. split; cbn; [by rewrite length_insert|]. by apply Forall_insert.
Qed.

Lemma set_mem_ars_ok s m : ars_ok s -> ars_ok (set_mem s m).
Proof. done. Qed.

Lemma cursor_rewind a : cursor_ok a -> cursor_ok (set_rptr a 0).
Proof. intros [? ?]. split; cbn; lia. Qed.

Lemma cursor_advance a n :
  cursor_ok a -> 0 <= n -> (u64 (buf_len a - rptr a) <? n) = false ->
  cursor_ok (set_rptr a (u64 (rptr a + n))).
Proof.
  intros Hc Hn H. rewrite room_sub in H by done. b2p. destruct Hc.
  rewrite wrapU_id by (unfold in_u; lia). split; cbn; lia.
Qed.

Lemma u64_nonneg z : 0 <= u64 z.
Proof. apply (wrapU_range 64). lia. Qed.

(** Skipping the prefix and a string of (possibly negative) length [l] is one
    advance by the wrapped sum the bound check used. *)
Lemma u64_skip2 p l : u64 (u64 (p + 2) + l) = u64 (p + u64 (l + 2)).
Proof.
  unfold wrapU. rewrite Zplus_mod_idemp_l, Zplus_mod_idemp_r. f_equal. lia.
Qed.

Create HintDb ars.
#[local] Hint Resolve set_ar_ars_ok fd2ar_cursor cursor_rewind cursor_advance u64_nonneg : ars.
#[local] Hint Extern 1 (0 <= _) => lia : ars.
#[local] Hint Extern 1 (ars_ok (St _ _)) => assumption : ars.

Lemma ar_write_ars_ok fd v n s r s' :
  ar_write fd v n s = Ret (r, s') -> ars_ok s -> 0 <= n -> ars_ok s'.
Proof.
  intros H Hs Hn. unfold ar_write in H. res_cases; [done|]. eauto with ars.
Qed.

Lemma ar_read_ars_ok fd n s r s' :
  ar_read fd n s = Ret (r, s') -> ars_ok s -> 0 <= n -> ars_ok s'.
Proof.
  intros H Hs Hn. unfold ar_read in H. res_cases; [done|]. eauto with ars.
Qed.

Lemma ar_create_ars_ok b n s fd s' : ars_ok s -> ar_create b n s = (fd, s') -> ars_ok s'.
Proof.
  intros [Hl Hs] H. unfold ar_create in H. destruct (find_free _ _ _); simplify_eq; [|done].
  split; cbn; [by rewrite length_insert|]. apply Forall_insert; [done|].
  pose proof (wrapU_range 64 n ltac:(lia)) as R. unfold in_u in R. split; cbn; lia.
Qed.

#[local] Hint Resolve ar_write_ars_ok ar_read_ars_ok ar_create_ars_ok : ars.

Section ApiLemmas.
Context {F : LuaFmt} {A : Allocator}.

Lemma lread_int_ars_ok n conv L s out s' :
  0 <= n -> ars_ok s -> lread_int n conv L s = Ret (out, s') -> ars_ok s'.
Proof. intros Hn Hs H. unfold lread_int in H. res_cases; eauto with ars. Qed.

Lemma api_ars_ok s s' : ars_ok s -> api_step s s' -> ars_ok s'.
Proof.
  intros Hs Hstep. inversion_clear Hstep as [name f L ? out ? Hin H]. unfold lua_lib in Hin.
  repeat (apply elem_of_cons in Hin as [Hin|Hin]; [injection Hin as -> ->|]); [..|by inversion Hin];
  try (unfold lreaduint8, lreadint8, lreadint16, lreadint32, lreadint64 in H;
       eapply lread_int_ars_ok; [|done|exact H]; lia);
  unfold lmalloc, lcreate, lfree, ldatalen, lremain, lgetptr, lrewind, ltest, lreadstr, lreadlstr,
    lwriteint8, lwriteint16, lwriteint32, lwriteint64, lwritestr, lwritelstr in H;
  res_cases; eauto 6 with ars.
  - apply set_ar_ars_ok; [done|]. apply (fd2ar_cursor _ _ _ Hs H0).
  - rewrite u64_skip2. eauto 6 with ars.
Qed.
End ApiLemmas.

(** C38.  However scripts call the module, no cursor ever passes the end of its
    buffer: every operation of the registration table preserves
    0 <= rptr <= buf_len for all archives. *)
Theorem api_cursor_inv {F : LuaFmt} {A : Allocator} s s' :
  ars_ok s -> rtc api_step s s' -> ars_ok s'.
Proof. intros Hs H. induction H; eauto using api_ars_ok. Qed.

(** Creating an archive over 16 bytes and writing an integer. *)
Lemma api_cursor_inv_witness :
  exists s', ars_ok s' /\ s_ars s' !! 1%nat = Some (Ar_t 4096 16 4 1).
Proof.
  set (s0 := St init_ars (Heap (map_zeros ∅ 4096 16) ∅)).
  destruct (@lcreate NoFmt [LLight 4096; lua_pushinteger 16] s0) as [[o1 s1]| | |] eqn:E1;
    [|by vm_compute in E1..].
  destruct (@lwriteint32 NoFmt [lua_pushinteger 1; lua_pushinteger 7] s1) as [[o2 s2]| | |] eqn:E2;
    [|vm_compute in E1; injection E1 as <- <-; by vm_compute in E2..].
  exists s2. split.
  - apply (@api_cursor_inv NoFmt Bump s0).
    + split; [done|]. by apply Forall_replicate.
    + apply rtc_l with s1; [|apply rtc_once].
      * apply (@api_call NoFmt Bump) with "create"%string (@lcreate NoFmt) [LLight 4096; lua_pushinteger 16] o1;
          [apply list_elem_of_In; cbn; tauto|exact E1].
      * apply (@api_call NoFmt Bump) with "writeint32"%string (@lwriteint32 NoFmt) [lua_pushinteger 1; lua_pushinteger 7] o2;
          [apply list_elem_of_In; cbn; tauto|exact E2].
  - vm_compute in E1; injection E1 as <- <-. vm_compute in E2. injection E2 as <- <-. reflexivity.
Defined.

(** C37.  Memory safety of writing: on an archive whose buffer is memory, a write of
    any length returns, changes no byte outside the free part of that buffer, and
    leaves the other archives alone. *)
Theorem ar_write_in_bounds s fd a v :
  slot_ok s fd a ->
  exists r s' a',
    ar_write fd v (Z.of_nat (length v)) s = Ret (r, s') /\
    slot_ok s' fd a' /\
    (forall x, ~ (buf a + rptr a <= x < buf a + buf_len a) ->
       h_mem (hp s') !! x = h_mem (hp s) !! x) /\
    (forall j, j <> Z.to_nat fd -> s_ars s' !! j = s_ars s !! j).
Proof.
  intros Hs. destruct (Z.le_gt_cases (Z.of_nat (length v)) (buf_len a - rptr a)) as [Hn|Hn].
  - destruct (ar_write_fits s fd a v Hs Hn) as (m & Hm & Hw).
    do 2 eexists. exists (set_rptr a (rptr a + Z.of_nat (length v))). split; [exact Hw|].
    split; [|split].
    + apply slot_advance; [|lia]. apply slot_set_mem; [done|].
      intros ???. by eapply mstore_mapped_same.
    + intros x Hx. cbn. rewrite (mstore_lookup _ _ _ _ Hm), decide_False by lia. done.
    + intros j Hj. cbn. by rewrite list_lookup_insert_ne.
  - do 2 eexists. exists a. split; [apply (ar_write_full s fd a v _ Hs Hn)|]. done.
Qed.

Lemma ar_write_in_bounds_witness :
  exists r s' a',
    ar_write 1 [1; 2; 3] 3 ex_state = Ret (r, s') /\ slot_ok s' 1 a' /\
    (forall x, ~ (4096 + 0 <= x < 4096 + 64) -> h_mem (hp s') !! x = h_mem (hp ex_state) !! x) /\
    (forall j, j <> 1%nat -> s_ars s' !! j = s_ars ex_state !! j).
Proof. exact (ar_write_in_bounds ex_state 1 _ [1; 2; 3] ex_slot_ok). Defined.

(** *** Creation and the two silent failures *)

Lemma find_free_spec l n : forall i,
  match find_free l i n with
  | Some k => (i <= k < i + n)%nat /\ (exists a, l !! k = Some a /\ used a = 0) /\
              forall j a, (i <= j < k)%nat -> l !! j = Some a -> used a <> 0
  | None => (i + n <= length l)%nat ->
            forall j a, (i <= j < i + n)%nat -> l !! j = Some a -> used a <> 0
  end.
Proof.
  induction n as [|n IH]; intros i; cbn [find_free]; [lia|].
  destruct (l !! i) as [a|] eqn:Ei.
  - destruct (Z.eqb_spec (used a) 0) as [Hu|Hu].
    + split; [lia|]. split; [eauto|lia].
    + specialize (IH (S i)). destruct (find_free l (S i) n) as [k|].
      * destruct IH as (Hk & Hf & Hl). split; [lia|]. split; [done|].
        intros j a' Hj Ha. destruct (decide (j = i)) as [->|]; [congruence|].
        apply (Hl j); [lia|done].
      * intros Hlen j a' Hj Ha. destruct (decide (j = i)) as [->|]; [congruence|].
        apply (IH ltac:(lia) j); [lia|done].
  - intros Hlen. apply lookup_ge_None in Ei. lia.
Qed.

(** ar_create hands out the lowest archive that is not in use, with the cursor
    at 0, and leaves all others alone; when every archive but 0 is in use it
    changes nothing and returns 0, which is itself an archive number. *)
Theorem ar_create_spec s b n :
  ars_ok s ->
  let '(fd, s') := ar_create b n s in
  (fd = 0 /\ s' = s /\
   forall j a, (1 <= j < MAX_AR)%nat -> s_ars s !! j = Some a -> used a <> 0) \/
  (1 <= fd < Z.of_nat MAX_AR /\ s' = set_ar s fd (Ar_t b (u64 n) 0 1) /\
   (exists a, s_ars s !! Z.to_nat fd = Some a /\ used a = 0) /\
   forall j a, (1 <= j < Z.to_nat fd)%nat -> s_ars s !! j = Some a -> used a <> 0).
Proof.
  intros [Hl _]. unfold ar_create.
  pose proof (find_free_spec (s_ars s) (MAX_AR - 1) 1) as H.
  destruct (find_free _ _ _) as [k|].
  - right. destruct H as (Hk & Hf & Hlow). unfold MAX_AR in *. unfold set_ar.
    rewrite Nat2Z.id. split_and!; try done; lia.
  - left. split_and!; [done..|]. apply H. rewrite Hl. unfold MAX_AR. lia.
Qed.

Lemma ar_create_spec_witness :
  (0 = 0 /\ ex_state = ex_state /\
   forall j a, (1 <= j < MAX_AR)%nat -> s_ars ex_state !! j = Some a -> used a <> 0) \/
  (1 <= 2 < Z.of_nat MAX_AR /\ snd (ar_create 8 9 ex_state) = set_ar ex_state 2 (Ar_t 8 (u64 9) 0 1) /\
   (exists a, s_ars ex_state !! Z.to_nat 2 = Some a /\ used a = 0) /\
   forall j a, (1 <= j < Z.to_nat 2)%nat -> s_ars ex_state !! j = Some a -> used a <> 0).
Proof.
  right. assert (ars_ok ex_state) as Hok.
  { split; [done|]. apply Forall_insert; [by apply Forall_replicate|split; cbn; lia]. }
  destruct (ar_create_spec ex_state 8 9 Hok) as [(H & _)|H]; [discriminate H|exact H].
Defined.

(** Writing an integer into an archive that is full changes nothing, yet the
    script is told the value was written: the result does not depend on the room
    that is left. *)
Theorem writeint_full_silent {F : LuaFmt} s fd a v :
  slot_ok s fd a -> - 2 ^ 53 < v < 2 ^ 53 -> buf_len a - rptr a < 4 ->
  lwriteint32 [lua_pushinteger fd; lua_pushinteger v] s = Ret ([lua_pushinteger (i32 v)], s).
Proof.
  intros Hs Hv Hroom. pose proof Hs as (Hfd & _). unfold lwriteint32. lua_guard.
  rewrite fd_arg, num_arg2 by done.
  by rewrite (ar_write_full s fd a _ _ Hs Hroom), bind_Ret_l.
Qed.

(** Archive 2 over a 2-byte buffer. *)
Definition ex_small : st := set_ar ex_state 2 (Ar_t 4096 2 0 1).

Lemma writeint_full_silent_witness :
  @lwriteint32 NoFmt [lua_pushinteger 2; lua_pushinteger 77] ex_small
    = Ret ([lua_pushinteger (i32 77)], ex_small).
Proof.
  apply (@writeint_full_silent NoFmt ex_small 2 (Ar_t 4096 2 0 1)); [|lia|cbn; lia].
  split_and!; [done|done|done|split; cbn; lia|]. intros x Hx.
  change (h_mem (hp ex_small)) with (map_zeros ∅ 4096 64). cbn [buf buf_len] in Hx.
  rewrite map_zeros_lookup, decide_True by lia. eauto.
Defined.

(** A length-prefixed string of 32768 to 65533 characters is written in full
    but cannot be read back: its prefix reads as a negative length, which the
    bound check takes for a huge one, so the reader returns no value and does not
    advance. *)
Theorem long_string_lost {F : LuaFmt} s fd a b :
  slot_ok s fd a -> 2 ^ 15 <= Z.of_nat (length b) < 2 ^ 16 - 2 ->
  Z.of_nat (length b) + 2 <= buf_len a - rptr a -> buf_len a < 2 ^ 63 ->
  exists s1 v, lwritelstr [lua_pushinteger fd; LStr b] s = Ret (v, s1) /\
    s_ars s1 !! Z.to_nat fd = Some (set_rptr a (rptr a + (Z.of_nat (length b) + 2))) /\
    let s2 := set_ar s1 fd a in
    lreadlstr [lua_pushinteger fd] s2 = Ret ([], s2).
Proof.
  intros Hs Hb Hroom Hlen.
  assert (Hsz : item_size (LStrI b) = Z.of_nat (length b) + 2).
  { unfold item_size; cbn [enc]. rewrite length_app, le_enc_length. lia. }
  destruct (write_item_ok s fd a (LStrI b) Hs) as (m & v & Hm & Hw); [done|lia|].
  rewrite Hsz in Hw. cbn [write_item] in Hw. eexists _, v. split; [exact Hw|].
  pose proof Hs as (Hfd & Ha & Hc & Hmap). split; [by eapply set_ar_lookup|].
  cbv zeta. set (s2 := set_ar _ fd a).
  assert (Hs2 : slot_ok s2 fd a).
  { split_and!; [lia|lia| |done|].
    - eapply set_ar_lookup. by eapply set_ar_lookup.
    - intros x Hx. cbn. eapply mstore_mapped_same; [exact Hm|exact Hmap|done]. }
  unfold lreadlstr. lua_guard. rewrite fd_arg by done.
  rewrite (fd2ar_slot _ _ _ Hs2), bind_Ret_l, room_sub by done.
  destruct (Z.ltb_spec (buf_len a - rptr a) 2); [lia|].
  pose proof (mload_mstore_same _ _ _ _ Hm) as Hl. cbn [enc] in Hl.
  rewrite length_app in Hl. apply mload_app_inv in Hl. destruct Hl as [Hl _].
  rewrite take_app_length in Hl.
  change (h_mem (hp s2)) with m. rewrite (loadz_mload m _ (le_enc 2 _)) by exact Hl.
  cbn [of_option]. rewrite bind_Ret_l.
  pose proof (wrapS_le 2 (Z.of_nat (length b))) as E. change (8 * Z.of_nat 2) with 16 in E.
  rewrite E. clear E.
  assert (Hneg : i16 (Z.of_nat (length b)) = Z.of_nat (length b) - 65536).
  { unfold wrapS. rewrite <- (Z_mod_plus_full _ (-1)), Z.mod_small; lia. }
  rewrite Hneg.
  replace (u64 (Z.of_nat (length b) - 65536 + 2)) with (2 ^ 64 + (Z.of_nat (length b) - 65534)).
  2:{ unfold wrapU. rewrite <- (Z_mod_plus_full (_ + 2) 1), Z.mod_small; lia. }
  destruct (Z.ltb_spec (buf_len a - rptr a) (2 ^ 64 + (Z.of_nat (length b) - 65534))); [done|].
  destruct Hc. lia.
Qed.

(** An archive over 40000 bytes. *)
Definition ex_big : st :=
  St (<[1%nat := Ar_t 4096 40000 0 1]> init_ars) (Heap (map_zeros ∅ 4096 (Z.to_nat 40000)) ∅).

Lemma long_string_lost_witness :
  exists s1 v, @lwritelstr NoFmt [lua_pushinteger 1; LStr (replicate (Z.to_nat 33000) 7)] ex_big = Ret (v, s1) /\
    s_ars s1 !! 1%nat = Some (set_rptr (Ar_t 4096 40000 0 1) (0 + (Z.of_nat (length (replicate (Z.to_nat 33000) 7)) + 2))) /\
    let s2 := set_ar s1 1 (Ar_t 4096 40000 0 1) in
    @lreadlstr NoFmt [lua_pushinteger 1] s2 = Ret ([], s2).
Proof.
  apply (@long_string_lost NoFmt ex_big 1 (Ar_t 4096 40000 0 1)); rewrite ?length_replicate;
    [|cbn [buf buf_len rptr]; lia..].
  split_and!; [done|done|done|split; cbn; lia|]. intros x Hx.
  change (h_mem (hp ex_big)) with (map_zeros ∅ 4096 (Z.to_nat 40000)). cbn [buf buf_len] in Hx.
  rewrite map_zeros_lookup, decide_True by lia. eauto.
Defined.
