(* ===== verification/Sendbuf.v ===== *)
(** * Sendbuf: the per-socket queues of outgoing bytes

    Source: src/src/ae/lsendbuf.cc, lsendbuf.h.  Every socket has a singly linked
    queue of blocks; a block is a header followed by its bytes.  Blocks come from
    a table of free lists, one per power of two, refilled by malloc.  Senders use
    alloc / write / flush, the event loop uses get_read_ptr / datalen /
    skip_read_ptr. *)
From S2P Require Import Prelude Mem Lua.
Local Open Scope Z_scope.

(** ** State *)

(** struct BBuf_Block, at the address of the block; its bytes follow the header.
    Headers are kept apart from the byte memory: no operation reaches them but
    through a block pointer. *)
Record block := Block { next : Z; buf_size : Z; buf_len : Z; rptr : Z }.
Definition SIZEOF_BLOCK : Z := 24.
Definition buf (b : Z) : Z := b + SIZEOF_BLOCK.

Record bbuf := BBuf { block_head : Z; block_tail : Z }.

Definition MAX_SOCKET : Z := 65536.
Definition MAX_TABLE : nat := 32.

(** The static arrays bbufs (an entry that is absent is still zero) and
    block_table, the headers, and the memory. *)
Record st := St { bbufs : gmap Z bbuf; block_table : list Z; hdr : gmap Z block; hp : heap }.
Definition init_st (h : heap) : st := St ∅ (replicate MAX_TABLE NULL) ∅ h.

Definition bbuf_of (s : st) (sockfd : Z) : bbuf := default (BBuf NULL NULL) (bbufs s !! sockfd).
Definition fd2bbuf (s : st) (sockfd : Z) : res bbuf :=
  if (0 <=? sockfd) && (sockfd <? MAX_SOCKET) then Ret (bbuf_of s sockfd) else Undef.
Definition set_bbuf (s : st) (sockfd : Z) (q : bbuf) : st :=
  St (<[sockfd := q]> (bbufs s)) (block_table s) (hdr s) (hp s).

(** Dereferencing a block pointer: NULL or anything that is no block is undefined. *)
Definition get_block (s : st) (b : Z) : res block := of_option (hdr s !! b).
Definition put_block (s : st) (b : Z) (blk : block) : st :=
  St (bbufs s) (block_table s) (<[b := blk]> (hdr s)) (hp s).
Definition get_table (s : st) (idx : Z) : res Z := of_option (block_table s !! Z.to_nat idx).
Definition set_table (s : st) (idx : Z) (b : Z) : st :=
  St (bbufs s) (<[Z.to_nat idx := b]> (block_table s)) (hdr s) (hp s).

Definition set_next (blk : block) (n : Z) : block := Block n (buf_size blk) (buf_len blk) (rptr blk).
Definition set_len (blk : block) (n : Z) : block := Block (next blk) (buf_size blk) n (rptr blk).
Definition set_rptr (blk : block) (n : Z) : block := Block (next blk) (buf_size blk) (buf_len blk) n.

(** ** Operations *)

(** while ((unsigned int)(1 << index) < size) index++; a shift by 32 is undefined. *)
Fixpoint hash_loop (fuel : nat) (index size : Z) : res Z :=
  match fuel with
  | O => NoFuel
  | S fuel => if 31 <? index then Undef
              else if 2 ^ index <? size then hash_loop fuel (index + 1) size
              else Ret index
  end.
Definition hash (size : Z) : res Z := hash_loop 33 0 (u32 size).

Definition bbuf_free_block (b : Z) (s : st) : res st :=
  blk ← get_block s b;
  idx ← hash (u64 (buf_size blk + SIZEOF_BLOCK));
  t ← get_table s idx;
  if t =? NULL then
    Ret (set_table (put_block s b (set_next blk NULL)) idx b)
  else
    Ret (set_table (put_block s b (set_next blk t)) idx b).

Definition sendbuf_create (sockfd : Z) (s : st) : res (Z * st) :=
  _ ← fd2bbuf s sockfd;
  Ret (0, set_bbuf s sockfd (BBuf NULL NULL)).

Fixpoint free_loop (fuel : nat) (b : Z) (s : st) : res st :=
  match fuel with
  | O => NoFuel
  | S fuel => if b =? NULL then Ret s
              else
                blk ← get_block s b;
                let next := next blk in
                s ← bbuf_free_block b s;
                free_loop fuel next s
  end.
(** The queue's own head and tail pointers are left as they are. *)
Definition sendbuf_free (sockfd : Z) (s : st) : res (Z * st) :=
  self ← fd2bbuf s sockfd;
  s ← free_loop (S (size (hdr s))) (block_head self) s;
  Ret (0, s).

Definition sendbuf_get_read_ptr (sockfd : Z) (s : st) : res Z :=
  self ← fd2bbuf s sockfd;
  if block_head self =? NULL then Ret NULL
  else
    blk ← get_block s (block_head self);
    Ret (buf (block_head self) + rptr blk).

Definition sendbuf_datalen (sockfd : Z) (s : st) : res Z :=
  self ← fd2bbuf s sockfd;
  if block_head self =? NULL then Ret 0
  else
    blk ← get_block s (block_head self);
    sint (buf_len blk - rptr blk).

Definition sendbuf_skip_read_ptr (sockfd len : Z) (s : st) : res (Z * st) :=
  self ← fd2bbuf s sockfd;
  if block_head self =? NULL then Ret (1, s)
  else
    let b := block_head self in
    blk ← get_block s b;
    p ← sint (rptr blk + len);
    let blk := set_rptr blk p in
    let s := put_block s b blk in
    if buf_len blk <=? rptr blk then
      let head := next blk in
      let tail := if head =? NULL then NULL else block_tail self in
      let s := set_bbuf s sockfd (BBuf head tail) in
      s ← bbuf_free_block b s;
      Ret (0, s)
    else Ret (0, s).

Definition sendbuf_flush (sockfd len : Z) (s : st) : res (Z * st) :=
  self ← fd2bbuf s sockfd;
  if block_tail self =? NULL then Ret (1, s)
  else
    blk ← get_block s (block_tail self);
    room ← sint (buf_size blk - buf_len blk);
    if room <? len then Ret (1, s)
    else
      l ← sint (buf_len blk + len);
      Ret (0, put_block s (block_tail self) (set_len blk l)).

(** The end of sendbuf_alloc: the new block becomes the last one of the queue. *)
Definition enqueue (s : st) (fd b : Z) : res st :=
  if block_tail (bbuf_of s fd) =? NULL then Ret (set_bbuf s fd (BBuf b b))
  else
    tl ← get_block s (block_tail (bbuf_of s fd));
    Ret (set_bbuf (put_block s (block_tail (bbuf_of s fd)) (set_next tl b)) fd
           (BBuf (block_head (bbuf_of s fd)) b)).

Section Alloc.
Context {A : Allocator}.

(** The refill of an empty free list: malloc a block of 1 << idx bytes (its
    header's rptr and buf_len are set when the block is handed out). *)
Definition refill (idx : Z) (s : st) : res (option st) :=
  t ← get_table s idx;
  if t =? NULL then
    let malloc_size := i32 (2 ^ idx) in
    match malloc (hp s) (u64 malloc_size) with
    | None => Ret None
    | Some (b, h) =>
        let s := St (bbufs s) (block_table s) (hdr s) h in
        let s := put_block s b (Block NULL (i32 (malloc_size - SIZEOF_BLOCK)) 0 0) in
        Ret (Some (set_table s idx b))
    end
  else Ret (Some s).

(** The queue's last block has no room: take a block from the free list of the
    right size and append it.  [real_size] is an int. *)
Definition alloc_block (sockfd need_size : Z) (s : st) : res (Z * st) :=
  let real_size := i32 (need_size + SIZEOF_BLOCK) in
  let real_size := if real_size <=? 4096 then 4096 else real_size in
  idx ← hash real_size;
  r ← refill idx s;
  match r with
  | None => Ret (NULL, s)
  | Some s =>
      b ← get_table s idx;
      blk ← get_block s b;
      let s := set_table s idx (next blk) in
      let s := put_block s b (Block NULL (buf_size blk) 0 0) in
      s ← enqueue s sockfd b;
      Ret (buf b, s)
  end.

Definition sendbuf_alloc (sockfd need_size : Z) (s : st) : res (Z * st) :=
  self ← fd2bbuf s sockfd;
  fit ← (if block_tail self =? NULL then Ret None
         else
           blk ← get_block s (block_tail self);
           room ← sint (buf_size blk - buf_len blk);
           Ret (if need_size <=? room then Some (buf (block_tail self) + buf_len blk) else None));
  match fit with
  | Some ptr => Ret (ptr, s)
  | None => alloc_block sockfd need_size s
  end.

(** *** The functions registered with Lua *)
Context {F : LuaFmt}.

Definition lcreate (L : list lval) (s : st) : res (list lval * st) :=
  let sockfd := i32 (lua_tointeger L 1) in
  '(_, s) ← sendbuf_create sockfd s;
  Ret ([], s).

Definition lfree (L : list lval) (s : st) : res (list lval * st) :=
  let sockfd := i32 (lua_tointeger L 1) in
  '(_, s) ← sendbuf_free sockfd s;
  Ret ([], s).

Definition lget_read_ptr (L : list lval) (s : st) : res (list lval * st) :=
  let sockfd := i32 (lua_tointeger L 1) in
  ptr ← sendbuf_get_read_ptr sockfd s;
  if ptr =? NULL then Ret ([], s) else Ret ([lua_pushlightuserdata ptr], s).

Definition ldatalen (L : list lval) (s : st) : res (list lval * st) :=
  let sockfd := i32 (lua_tointeger L 1) in
  len ← sendbuf_datalen sockfd s;
  Ret ([lua_pushinteger len], s).

Definition lskip_read_ptr (L : list lval) (s : st) : res (list lval * st) :=
  let sockfd := i32 (lua_tointeger L 1) in
  let len := i32 (lua_tointeger L 2) in
  '(r, s) ← sendbuf_skip_read_ptr sockfd len s;
  if r =? 0 then Ret ([lua_pushboolean true], s) else Ret ([], s).

Definition lflush (L : list lval) (s : st) : res (list lval * st) :=
  let sockfd := i32 (lua_tointeger L 1) in
  let len := i32 (lua_tointeger L 3) in
  '(r, s) ← sendbuf_flush sockfd len s;
  if r =? 0 then Ret ([lua_pushboolean true], s) else Ret ([], s).

Definition lalloc (L : list lval) (s : st) : res (list lval * st) :=
  let sockfd := i32 (lua_tointeger L 1) in
  let need_size := i32 (lua_tointeger L 2) in
  '(p, s) ← sendbuf_alloc sockfd need_size s;
  if p =? NULL then Ret ([], s) else Ret ([lua_pushlightuserdata p], s).

Definition ltest (L : list lval) (s : st) : res (list lval * st) := Ret ([], s).

(** lstat prints one line per non-empty free list, then the total in KB; the
    lines are returned here. *)
Fixpoint count_chain (fuel : nat) (s : st) (b : Z) : res Z :=
  match fuel with
  | O => NoFuel
  | S fuel => if b =? NULL then Ret 0
              else blk ← get_block s b; n ← count_chain fuel s (next blk); sint (n + 1)
  end.
Fixpoint stat_loop (tab : list Z) (i : Z) (sum : Z) (s : st) : res (list (Z * Z) * Z) :=
  match tab with
  | [] => Ret ([], sum)
  | head :: tab =>
      count ← count_chain (S (size (hdr s))) s head;
      d ← sint (i32 (2 ^ i) * count);
      sum ← sint (sum + d);
      '(out, sum) ← stat_loop tab (i + 1) sum s;
      Ret (if 0 <? count then (i, count) :: out else out, sum)
  end.
Definition lstat (L : list lval) (s : st) : res (list (Z * Z) * Z) :=
  '(out, sum) ← stat_loop (block_table s) 0 0 s;
  Ret (out, sum ÷ 1024).

Open Scope string_scope.
Definition lua_lib : list (string * (list lval -> st -> res (list lval * st))) :=
  [("test", ltest); ("create", lcreate); ("free", lfree); ("alloc", lalloc);
   ("flush", lflush); ("get_read_ptr", lget_read_ptr); ("datalen", ldatalen);
   ("skip_read_ptr", lskip_read_ptr)].
Close Scope string_scope.
End Alloc.

(** ** Specification

    A queue is a chain of blocks; what it still has to send is the concatenation
    of the unread parts of its blocks. *)
Fixpoint lseg (h : gmap Z block) (p : Z) (l : list Z) : Prop :=
  match l with
  | [] => p = NULL
  | b :: l => p = b /\ b <> NULL /\ exists blk, h !! b = Some blk /\ lseg h (next blk) l
  end.

Definition chunk (s : st) (b : Z) : option bytes :=
  blk ← hdr s !! b;
  mload (h_mem (hp s)) (buf b + rptr blk) (Z.to_nat (buf_len blk - rptr blk)).
Fixpoint pending (s : st) (l : list Z) : option bytes :=
  match l with
  | [] => Some []
  | b :: l => d ← chunk s b; r ← pending s l; Some (d ++ r)
  end.

(** A block of bucket [i]: it owns 2^i bytes of the heap, header included. *)
Definition sized (s : st) (b : Z) (i : Z) : Prop :=
  exists blk, hdr s !! b = Some blk /\ buf_size blk + SIZEOF_BLOCK = 2 ^ i /\
    12 <= i <= 30 /\ h_blk (hp s) !! b = Some (2 ^ i).
Definition in_use (s : st) (b : Z) : Prop :=
  exists blk, hdr s !! b = Some blk /\ 0 <= rptr blk <= buf_len blk /\ buf_len blk <= buf_size blk.

(** The cursors of a block; blocks none of which is read to its end. *)
Definition lens (s : st) (b : Z) : option (Z * Z) := (fun blk => (rptr blk, buf_len blk)) <$> hdr s !! b.
Definition solid (s : st) (l : list Z) : Prop := Forall (fun b => exists r n, lens s b = Some (r, n) /\ r < n) l.

(** [Rep s q f]: the queues are the chains [q], the free lists the chains [f];
    every block is in at most one of them. *)
Record Rep (s : st) (q : Z -> list Z) (f : nat -> list Z) : Prop := {
  r_heap : heap_ok (hp s);
  r_queue : forall fd, lseg (hdr s) (block_head (bbuf_of s fd)) (q fd) /\
                       block_tail (bbuf_of s fd) = default NULL (last (q fd)) /\ NoDup (q fd);
  r_tablen : length (block_table s) = MAX_TABLE;
  r_table : forall i b, block_table s !! i = Some b -> lseg (hdr s) b (f i) /\ NoDup (f i);
  r_tout : forall i, (MAX_TABLE <= i)%nat -> f i = [];
  r_free : forall i b, b ∈ f i -> sized s b (Z.of_nat i);
  r_sized : forall b blk, hdr s !! b = Some blk -> exists i, sized s b i;
  r_use : forall fd b, b ∈ q fd -> in_use s b;
  r_qq : forall fd fd' b, b ∈ q fd -> b ∈ q fd' -> fd = fd';
  r_qf : forall fd i b, b ∈ q fd -> b ∈ f i -> False;
}.

Definition unowned (q : Z -> list Z) (f : nat -> list Z) (b : Z) : Prop :=
  (forall fd, b ∉ q fd) /\ (forall i, b ∉ f i).

(** ** Lemmas *)

Lemma hash_loop_spec size n fuel i :
  0 <= i -> (forall j, 0 <= j < i -> 2 ^ j < size) -> 0 <= n <= 31 -> size <= 2 ^ n ->
  n - i < Z.of_nat fuel -> i <= n ->
  exists k, hash_loop fuel i size = Ret k /\ i <= k <= n /\ size <= 2 ^ k /\
            forall j, 0 <= j < k -> 2 ^ j < size.
Proof.
  revert i; induction fuel as [|fuel IH]; intros i Hi Hlow Hn Hsz Hf Hin; [lia|].
  cbn [hash_loop]. destruct (Z.ltb_spec 31 i); [lia|].
  destruct (Z.ltb_spec (2 ^ i) size) as [Hlt|Hge].
  - assert (i <> n) by (intros ->; lia).
    destruct (IH (i + 1)) as (k & Hk & Hr & ? & ?); [lia| |done|done|lia|lia|].
    + intros j Hj. destruct (decide (j = i)) as [->|]; [done|]. apply Hlow. lia.
    + exists k. split_and!; try done; lia.
  - exists i. split_and!; try done; lia.
Qed.

(** For sizes up to 2^31 the loop ends at the least exponent that fits. *)
Lemma hash_spec size :
  0 <= size <= 2 ^ 31 ->
  exists k, hash size = Ret k /\ 0 <= k <= 31 /\ size <= 2 ^ k /\
            forall j, 0 <= j < k -> 2 ^ j < size.
Proof.
  intros H. unfold hash. rewrite wrapU_id by (unfold in_u; lia).
  apply (hash_loop_spec size 31 33 0); lia.
Qed.

Lemma hash_pow2 i : 0 <= i <= 31 -> hash (2 ^ i) = Ret i.
Proof.
  intros Hi. assert (2 ^ i <= 2 ^ 31) by (apply Z.pow_le_mono_r; lia).
  destruct (hash_spec (2 ^ i)) as (k & -> & Hk & Hle & Hlow); [lia|].
  f_equal. apply Z.pow_le_mono_r_iff in Hle; [|lia..].
  destruct (decide (k = i)); [done|]. specialize (Hlow i). lia.
Qed.

Lemma lseg_put h p l b blk : b ∉ l -> lseg (<[b := blk]> h) p l <-> lseg h p l.
Proof.
  revert p; induction l as [|c l IH]; intros p Hb; cbn; [done|].
  apply not_elem_of_cons in Hb as [Hne Hb].
  rewrite lookup_insert_ne by done. setoid_rewrite IH; done.
Qed.

Lemma lseg_put_same_next h p l b blk blk' :
  h !! b = Some blk -> next blk' = next blk -> lseg h p l -> lseg (<[b := blk']> h) p l.
Proof.
  intros Hb Hn. revert p; induction l as [|c l IH]; intros p; cbn; [done|].
  intros (-> & Hc & blk1 & H1 & H2). split_and!; [done..|].
  destruct (decide (b = c)) as [->|].
  - rewrite lookup_insert_eq. eexists; split; [done|]. rewrite Hn. simplify_eq. auto.
  - rewrite lookup_insert_ne by done. eauto.
Qed.

Lemma lseg_last h p l t : lseg h p (l ++ [t]) -> t <> NULL /\ exists blk, h !! t = Some blk /\ next blk = NULL.
Proof.
  revert p; induction l as [|c l IH]; intros p; cbn.
  - intros (_ & ? & blk & ? & ?). eauto.
  - intros (_ & _ & blk & _ & H). eauto.
Qed.

(** Appending a block whose next is NULL behind the last one. *)
Lemma lseg_snoc h p l t b tl blk :
  lseg h p (l ++ [t]) -> NoDup (l ++ [t]) -> b ∉ l ++ [t] -> b <> NULL ->
  h !! t = Some tl -> h !! b = Some blk -> next blk = NULL ->
  lseg (<[t := set_next tl b]> h) p (l ++ [t; b]).
Proof.
  revert p; induction l as [|c l IH]; intros p; cbn.
  - intros (-> & Ht & _) _ Hb Hb0 H1 H2 H3. split_and!; [done..|].
    eexists. rewrite lookup_insert_eq. split; [done|]. cbn. split_and!; [done..|].
    exists blk. rewrite lookup_insert_ne; [done|]. set_solver.
  - intros (-> & Hc & blk1 & Hb1 & Hl) Hnd Hb Hb0 H1 H2 H3. split_and!; [done..|].
    apply NoDup_cons in Hnd as [Hc' Hnd].
    exists blk1. rewrite lookup_insert_ne by set_solver. split; [done|].
    apply IH; auto. set_solver.
Qed.

Lemma lseg_nil_inv h l : lseg h NULL l -> l = [].
Proof. destruct l; [done|]. intros (<- & ? & _). done. Qed.

Lemma lseg_cons_inv h p l : lseg h p l -> p <> NULL ->
  exists l' blk, l = p :: l' /\ h !! p = Some blk /\ lseg h (next blk) l'.
Proof. destruct l; [done|]. intros (-> & ? & blk & ? & ?) _. eauto 6. Qed.

Lemma pending_ext s s' l : (forall b, b ∈ l -> chunk s' b = chunk s b) -> pending s' l = pending s l.
Proof.
  induction l as [|b l IH]; intros H; [done|]. cbn [pending].
  rewrite (H b) by set_solver. rewrite IH; [done|]. set_solver.
Qed.

Lemma solid_ext s s' l : (forall b, b ∈ l -> lens s' b = lens s b) -> solid s l -> solid s' l.
Proof. intros H. unfold solid. rewrite !Forall_forall. intros Hs b Hb. rewrite H by done. auto. Qed.
Lemma lens_put_ne s b blk c : c <> b -> lens (put_block s b blk) c = lens s c.
Proof. intros H. unfold lens. cbn. by rewrite lookup_insert_ne. Qed.
Lemma lens_put s b blk : lens (put_block s b blk) b = Some (rptr blk, buf_len blk).
Proof. unfold lens. cbn. by rewrite lookup_insert_eq. Qed.
Lemma pending_same s s' l : hdr s' = hdr s -> hp s' = hp s -> pending s' l = pending s l.
Proof. intros H1 H2. apply pending_ext. intros b _. unfold chunk. by rewrite H1, H2. Qed.

Lemma pending_app s l1 l2 :
  pending s (l1 ++ l2) = (d1 ← pending s l1; d2 ← pending s l2; Some (d1 ++ d2)).
Proof.
  induction l1 as [|b l1 IH]; cbn [app pending]; [by destruct (pending s l2)|].
  destruct (chunk s b); cbn; [|done]. rewrite IH.
  destruct (pending s l1); cbn; [|done]. destruct (pending s l2); cbn; [|done].
  by rewrite app_assoc.
Qed.

(** *** The elementary changes of state and [Rep] *)

Lemma chunk_put_ne s b blk c : c <> b -> chunk (put_block s b blk) c = chunk s c.
Proof. intros. unfold chunk. cbn. by rewrite lookup_insert_ne. Qed.

Lemma sized_put s b blk blk' c i :
  hdr s !! b = Some blk -> buf_size blk' = buf_size blk -> sized s c i -> sized (put_block s b blk') c i.
Proof.
  intros Hb Hsz (blk1 & H1 & H2 & H3 & H4). unfold sized. cbn.
  destruct (decide (b = c)) as [->|].
  - exists blk'. rewrite lookup_insert_eq. simplify_eq. rewrite Hsz. done.
  - exists blk1. by rewrite lookup_insert_ne.
Qed.

Lemma in_use_put_ne s b blk c : c <> b -> in_use s c -> in_use (put_block s b blk) c.
Proof. intros Hne (blk1 & H). exists blk1. cbn. by rewrite lookup_insert_ne. Qed.

Lemma sized_det s b i j : sized s b i -> sized s b j -> i = j.
Proof.
  intros (k & H1 & H2 & H3 & _) (k' & H4 & H5 & H6 & _). simplify_eq.
  rewrite H2 in H5. by apply Z.pow_inj_r in H5; [|lia..].
Qed.

(** Changing a block nobody owns. *)
Lemma Rep_put_unowned s q f b blk blk' :
  Rep s q f -> unowned q f b -> hdr s !! b = Some blk -> buf_size blk' = buf_size blk ->
  Rep (put_block s b blk') q f.
Proof.
  intros [] [Hq Hf] Hb Hsz. constructor; cbn; try done.
  - intros fd. destruct (r_queue0 fd) as (H1 & H2 & H3). rewrite lseg_put; auto.
  - intros i t Ht. destruct (r_table0 i t Ht). rewrite lseg_put; auto.
  - intros i c Hc. eapply sized_put; eauto.
  - intros c blk1 Hc. destruct (decide (b = c)) as [->|].
    + destruct (r_sized0 _ _ Hb) as [i Hi]. exists i. eapply sized_put; eauto.
    + rewrite lookup_insert_ne in Hc by done. destruct (r_sized0 _ _ Hc) as [i Hi].
      exists i. eapply sized_put; eauto.
  - intros fd c Hc. apply in_use_put_ne; [|eauto]. intros ->. by eapply Hq.
Qed.

(** Changing a queued block but not its place in the chain. *)
Lemma Rep_put_queued s q f b blk blk' :
  Rep s q f -> hdr s !! b = Some blk -> buf_size blk' = buf_size blk -> next blk' = next blk ->
  0 <= rptr blk' <= buf_len blk' -> buf_len blk' <= buf_size blk' ->
  Rep (put_block s b blk') q f.
Proof.
  intros [] Hb Hsz Hn H1 H2. constructor; cbn; try done.
  - intros fd. destruct (r_queue0 fd) as (? & ? & ?). split; [|done].
    by eapply lseg_put_same_next.
  - intros i t Ht. destruct (r_table0 i t Ht). split; [|done]. by eapply lseg_put_same_next.
  - intros i c Hc. eapply sized_put; eauto.
  - intros c blk1 Hc. destruct (decide (b = c)) as [->|].
    + destruct (r_sized0 _ _ Hb) as [i Hi]. exists i. eapply sized_put; eauto.
    + rewrite lookup_insert_ne in Hc by done. destruct (r_sized0 _ _ Hc) as [i Hi].
      exists i. eapply sized_put; eauto.
  - intros fd c Hc. destruct (decide (c = b)) as [->|].
    + exists blk'. cbn. by rewrite lookup_insert_eq.
    + apply in_use_put_ne; eauto.
Qed.

Lemma table_is_Some s q f i : Rep s q f -> (i < MAX_TABLE)%nat -> exists t, block_table s !! i = Some t.
Proof. intros H Hi. apply lookup_lt_is_Some. by rewrite (r_tablen _ _ _ H). Qed.

(** Linking a block in front of its free list. *)
Lemma Rep_push s q f b i t blk :
  Rep s q f -> unowned q f b -> b <> NULL -> sized s b (Z.of_nat i) ->
  hdr s !! b = Some blk -> block_table s !! i = Some t -> next blk = t ->
  Rep (set_table s (Z.of_nat i) b) q (upd f i (b :: f i)).
Proof.
  intros [] [Hq Hf] Hb0 Hs Hb Ht Hn.
  assert (Hi : (i < MAX_TABLE)%nat) by (rewrite <- r_tablen0; by eapply lookup_lt_Some).
  constructor; cbn; try done.
  - by rewrite length_insert.
  - intros j c. rewrite Nat2Z.id. destruct (decide (i = j)) as [->|Hne].
    + rewrite list_lookup_insert_eq by lia. intros [= <-]. rewrite upd_eq.
      destruct (r_table0 _ _ Ht). split; [|by constructor]. cbn. subst t. eauto 6.
    + rewrite list_lookup_insert_ne, upd_ne by done. auto.
  - intros j Hj. rewrite upd_ne by lia. auto.
  - intros j c. destruct (decide (j = i)) as [->|Hne].
    + rewrite upd_eq. intros [->|Hc]%elem_of_cons; [done|]. by apply r_free0.
    + rewrite upd_ne by done. apply r_free0.
  - intros fd j c Hc. destruct (decide (j = i)) as [->|Hne].
    + rewrite upd_eq. intros [->|?]%elem_of_cons; [by eapply Hq|by eapply r_qf0].
    + rewrite upd_ne by done. by eapply r_qf0.
Qed.

(** Unlinking the first block of a free list. *)
Lemma Rep_pop s q f i b :
  Rep s q f -> block_table s !! i = Some b -> b <> NULL ->
  exists l blk, f i = b :: l /\ hdr s !! b = Some blk /\
    Rep (set_table s (Z.of_nat i) (next blk)) q (upd f i l) /\ unowned q (upd f i l) b.
Proof.
  intros HR Ht Hb0. pose proof HR as []. destruct (r_table0 _ _ Ht) as [Hl Hnd].
  destruct (lseg_cons_inv _ _ _ Hl Hb0) as (l & blk & Hfi & Hb & Hl').
  assert (Hi : (i < MAX_TABLE)%nat) by (rewrite <- r_tablen0; by eapply lookup_lt_Some).
  rewrite Hfi in Hnd. apply NoDup_cons in Hnd as [Hbl Hnd].
  exists l, blk. split_and!; [done|done| |].
  - constructor; cbn; try done.
    + by rewrite length_insert.
    + intros j c. rewrite Nat2Z.id. destruct (decide (i = j)) as [->|Hne].
      * rewrite list_lookup_insert_eq by lia. intros [= <-]. by rewrite upd_eq.
      * rewrite list_lookup_insert_ne, upd_ne by done. auto.
    + intros j Hj. rewrite upd_ne by lia. auto.
    + intros j c. destruct (decide (j = i)) as [->|Hne].
      * rewrite upd_eq. intros Hc. apply r_free0. rewrite Hfi. by right.
      * rewrite upd_ne by done. apply r_free0.
    + intros fd j c Hc. destruct (decide (j = i)) as [->|Hne].
      * rewrite upd_eq. intros Hc'. apply (r_qf0 fd i c Hc). rewrite Hfi. by right.
      * rewrite upd_ne by done. by eapply r_qf0.
  - split.
    + intros fd Hb'. apply (r_qf0 fd i b Hb'). rewrite Hfi. by left.
    + intros j. destruct (decide (j = i)) as [->|Hne]; [by rewrite upd_eq|].
      rewrite upd_ne by done. intros Hb'. apply Hne.
      pose proof (r_free0 _ _ Hb') as S1. assert (b ∈ f i) as Hbi by (rewrite Hfi; by left).
      pose proof (sized_det _ _ _ _ S1 (r_free0 _ _ Hbi)). lia.
Qed.

(** Unlinking the first block of a queue. *)
Lemma Rep_dequeue s q f fd b l blk :
  Rep s q f -> q fd = b :: l -> hdr s !! b = Some blk ->
  Rep (set_bbuf s fd (BBuf (next blk) (if next blk =? NULL then NULL else block_tail (bbuf_of s fd))))
      (upd q fd l) f /\
  unowned (upd q fd l) f b.
Proof.
  intros HR Hq Hb. pose proof HR as [].
  destruct (r_queue0 fd) as (Hl & Htl & Hnd). rewrite Hq in *.
  cbn in Hl. destruct Hl as (_ & Hb0 & blk1 & H1 & Hl). simplify_eq.
  apply NoDup_cons in Hnd as [Hbl Hnd].
  assert (Htail : (if next blk =? NULL then NULL else block_tail (bbuf_of s fd)) = default NULL (last l)).
  { destruct (Z.eqb_spec (next blk) NULL) as [E|E].
    - rewrite E in Hl. by rewrite (lseg_nil_inv _ _ Hl).
    - rewrite Htl. destruct (lseg_cons_inv _ _ _ Hl E) as (l' & ? & -> & _).
      by rewrite (last_cons_cons b). }
  assert (Hsub : forall fd' c, c ∈ upd q fd l fd' -> c ∈ q fd').
  { intros fd' c. destruct (decide (fd' = fd)) as [->|Hne].
    - rewrite upd_eq, Hq. by right.
    - by rewrite upd_ne. }
  split.
  - constructor; cbn; eauto.
    intros fd'. unfold bbuf_of. cbn. destruct (decide (fd = fd')) as [->|Hne].
    + rewrite lookup_insert_eq, upd_eq. cbn. auto.
    + rewrite lookup_insert_ne, upd_ne by done. apply r_queue0.
  - split.
    + intros fd' Hb'. destruct (decide (fd' = fd)) as [->|Hne].
      * by rewrite upd_eq in Hb'.
      * apply Hne. apply (r_qq0 fd' fd b (Hsub _ _ Hb')). rewrite Hq. by left.
    + intros i Hb'. apply (r_qf0 fd i b); [rewrite Hq; by left|done].
Qed.

(** Appending a fresh block. *)
Lemma Rep_enqueue s q f fd b blk :
  Rep s q f -> unowned q f b -> b <> NULL -> hdr s !! b = Some blk -> next blk = NULL ->
  in_use s b ->
  exists s', enqueue s fd b = Ret s' /\ Rep s' (upd q fd (q fd ++ [b])) f /\ hp s' = hp s /\
    hdr s' !! b = Some blk /\ (forall c, chunk s' c = chunk s c) /\ (forall c, lens s' c = lens s c).
Proof.
  intros HR [Hq Hf] Hb0 Hb Hn Hu. pose proof HR as [].
  destruct (r_queue0 fd) as (Hl & Htl & Hnd). unfold enqueue.
  assert (Hqq : forall fd1 fd2 c, c ∈ upd q fd (q fd ++ [b]) fd1 -> c ∈ upd q fd (q fd ++ [b]) fd2 -> fd1 = fd2).
  { intros fd1 fd2 c. unfold upd. repeat case_decide; subst; try done;
      rewrite ?elem_of_app, ?list_elem_of_singleton; intros Hc Hc'; intuition (subst; eauto; by exfalso; eapply Hq). }
  assert (Hqf : forall fd1 i c, c ∈ upd q fd (q fd ++ [b]) fd1 -> c ∈ f i -> False).
  { intros fd1 i c. unfold upd. case_decide; subst; [|eauto].
    rewrite elem_of_app, list_elem_of_singleton. intros [?| ->]; [eauto|apply Hf]. }
  destruct (last (q fd)) as [t|] eqn:Elast.
  - apply last_Some in Elast as [l1 El]. cbn in Htl. rewrite Htl. rewrite El in *.
    destruct (lseg_last _ _ _ _ Hl) as (Ht0 & tl & Ht & Htn).
    destruct (Z.eqb_spec t NULL); [done|]. unfold get_block. rewrite Ht. cbn [of_option]. rewrite bind_Ret_l.
    assert (Hbt : b <> t).
    { intros ->. apply (Hq fd). rewrite El. set_solver. }
    eexists. split; [done|]. split_and!; [|done|cbn; by rewrite lookup_insert_ne| |].
    2, 3: intros c; unfold chunk, lens; cbn; destruct (decide (t = c)) as [->|];
      [rewrite lookup_insert_eq; cbn; by rewrite Ht|by rewrite lookup_insert_ne].
    constructor; cbn; try done.
    + intros fd'. unfold bbuf_of. cbn. destruct (decide (fd = fd')) as [<-|Hne].
      * rewrite lookup_insert_eq, upd_eq. cbn. rewrite last_snoc. rewrite <- app_assoc. split_and!; [|done|].
        -- eapply lseg_snoc; eauto. rewrite <- El. apply Hq.
        -- rewrite app_assoc. apply NoDup_app. split_and!; [done| |apply NoDup_singleton].
           intros x Hx ->%list_elem_of_singleton. apply (Hq fd). by rewrite El.
      * rewrite lookup_insert_ne, upd_ne by done. destruct (r_queue0 fd') as (? & ? & ?).
        rewrite lseg_put; [done|]. intros Ht'. apply Hne. apply (r_qq0 fd fd' t); [rewrite El; set_solver|done].
    + intros i c Hc. destruct (r_table0 i c Hc). rewrite lseg_put; [done|].
      intros Ht'. apply (r_qf0 fd i t); [rewrite El; set_solver|done].
    + intros i c Hc. eapply sized_put; eauto.
    + intros c blk1. destruct (decide (t = c)) as [->|].
      * intros _. destruct (r_sized0 _ _ Ht) as [i Hi]. exists i. eapply sized_put; eauto.
      * rewrite lookup_insert_ne by done. intros Hc. destruct (r_sized0 _ _ Hc) as [i Hi].
        exists i. eapply sized_put; eauto.
    + intros fd' c Hc.
      assert (Hu' : in_use s c).
      { unfold upd in Hc. case_decide; subst; [|by eapply r_use0].
        apply elem_of_app in Hc as [Hc| ->%list_elem_of_singleton]; [|done].
        apply (r_use0 fd). by rewrite El. }
      destruct Hu' as (blk1 & H1 & H2). destruct (decide (t = c)) as [->|].
      * exists (set_next blk1 b). cbn. rewrite lookup_insert_eq. simplify_eq. done.
      * exists blk1. cbn. by rewrite lookup_insert_ne.
  - apply last_None in Elast. rewrite Elast in *. cbn in Htl, Hl. rewrite Htl.
    change (NULL =? NULL) with true. cbv iota.
    eexists. split; [done|]. split_and!; [|done|done|done|done].
    constructor; cbn; try done.
    + intros fd'. unfold bbuf_of. cbn. destruct (decide (fd = fd')) as [<-|Hne].
      * rewrite lookup_insert_eq, upd_eq. cbn. split_and!; [done|done| |done|apply NoDup_singleton].
        exists blk. done.
      * rewrite lookup_insert_ne, upd_ne by done. apply r_queue0.
    + intros fd' c Hc. unfold upd in Hc. case_decide; subst; [|by eapply r_use0].
      apply list_elem_of_singleton in Hc as ->. done.
Qed.

(** *** The operations *)

Lemma Rep_null s q f b blk : Rep s q f -> hdr s !! b = Some blk -> b <> NULL.
Proof.
  intros HR Hb. destruct (r_sized _ _ _ HR _ _ Hb) as (i & blk' & _ & _ & _ & H).
  destruct (heap_mapped _ (r_heap _ _ _ HR) _ _ H). unfold NULL. lia.
Qed.

(** The bytes of a block are memory. *)
Lemma Rep_block_mem s q f b blk :
  Rep s q f -> hdr s !! b = Some blk ->
  mapped (h_mem (hp s)) (buf b) (buf_size blk) /\ 4072 <= buf_size blk < 2 ^ 30.
Proof.
  intros HR Hb. destruct (r_sized _ _ _ HR _ _ Hb) as (i & blk' & Hb' & Hsz & Hi & H).
  simplify_eq. destruct (heap_mapped _ (r_heap _ _ _ HR) _ _ H) as [_ Hm]. unfold SIZEOF_BLOCK in *.
  assert (2 ^ 12 <= 2 ^ i <= 2 ^ 30) by (split; apply Z.pow_le_mono_r; lia).
  split; [|lia]. intros x Hx. apply Hm. unfold buf, SIZEOF_BLOCK in Hx. lia.
Qed.

Lemma chunk_some s q f fd b : Rep s q f -> b ∈ q fd -> exists d, chunk s b = Some d.
Proof.
  intros HR Hb. destruct (r_use _ _ _ HR _ _ Hb) as (blk & H1 & H2 & H3).
  destruct (Rep_block_mem _ _ _ _ _ HR H1) as [Hm Hs].
  unfold chunk. rewrite H1. cbn. apply mload_mapped. intros x Hx. apply Hm. lia.
Qed.

Lemma pending_some s q f fd l : Rep s q f -> (forall b, b ∈ l -> b ∈ q fd) -> exists d, pending s l = Some d.
Proof.
  intros HR. induction l as [|b l IH]; intros H; cbn; [eauto|].
  destruct (chunk_some s q f fd b HR) as [d ->]; [apply H; by left|]. cbn.
  destruct IH as [r ->]; [intros; apply H; by right|]. cbn. eauto.
Qed.

Lemma pending_put_unowned s q f b blk fd :
  unowned q f b -> pending (put_block s b blk) (q fd) = pending s (q fd).
Proof.
  intros [Hq _]. apply pending_ext. intros c Hc. apply chunk_put_ne. intros ->. by eapply Hq.
Qed.

Lemma bbuf_free_block_ok s q f b blk :
  Rep s q f -> unowned q f b -> hdr s !! b = Some blk ->
  exists s' f', bbuf_free_block b s = Ret s' /\ Rep s' q f' /\ hp s' = hp s /\ bbufs s' = bbufs s /\
    (forall c, c <> b -> hdr s' !! c = hdr s !! c) /\ size (hdr s') = size (hdr s) /\
    (forall i c, c ∈ f' i -> c = b \/ c ∈ f i) /\
    forall fd, pending s' (q fd) = pending s (q fd).
Proof.
  intros HR Hu Hb. pose proof (Rep_null _ _ _ _ _ HR Hb) as Hb0.
  destruct (r_sized _ _ _ HR _ _ Hb) as (i & Hs). pose proof Hs as (blk' & Hb' & Hsz & Hi & _). simplify_eq.
  unfold bbuf_free_block, get_block. rewrite Hb. cbn [of_option]. rewrite bind_Ret_l.
  rewrite Hsz, wrapU_id.
  2:{ assert (2 ^ i <= 2 ^ 30) by (apply Z.pow_le_mono_r; lia). unfold in_u. lia. }
  rewrite hash_pow2, bind_Ret_l by lia. unfold get_table.
  destruct (table_is_Some _ _ _ (Z.to_nat i) HR) as [t Ht]; [unfold MAX_TABLE; lia|].
  rewrite Ht. cbn [of_option]. rewrite bind_Ret_l.
  assert (E : (if t =? NULL then Ret (set_table (put_block s b (set_next blk NULL)) i b)
               else Ret (set_table (put_block s b (set_next blk t)) i b))
              = Ret (set_table (put_block s b (set_next blk t)) i b)).
  { by destruct (Z.eqb_spec t NULL) as [->|]. }
  rewrite E. do 2 eexists. split; [done|].
  rewrite <- (Z2Nat.id i) at 1 by lia. split_and!.
  - apply (Rep_push _ q f b (Z.to_nat i) t (set_next blk t)); try done.
    + by eapply Rep_put_unowned.
    + rewrite Z2Nat.id by lia. eapply sized_put; done.
    + cbn. by rewrite lookup_insert_eq.
  - done.
  - done.
  - intros c Hc. cbn. by rewrite lookup_insert_ne.
  - cbn. apply map_size_insert_Some. eauto.
  - intros j c. unfold upd. case_decide; subst; set_solver.
  - intros fd. rewrite <- (pending_put_unowned s q f b (set_next blk t) fd Hu). by apply pending_same.
Qed.

(** A loaded block is still there after malloc. *)
Lemma Rep_malloc s q f n p h :
  Rep s q f -> malloc_spec (hp s) n p h -> Rep (St (bbufs s) (block_table s) (hdr s) h) q f.
Proof.
  intros [] Hm. pose proof Hm as (Hp & Hnew & Hblk & _).
  assert (Hs : forall c i, sized s c i -> sized (St (bbufs s) (block_table s) (hdr s) h) c i).
  { intros c i (blk & H1 & H2 & H3 & H4). exists blk. split_and!; try done; try lia. cbn.
    rewrite Hblk, lookup_insert_ne; [done|]. congruence. }
  constructor; cbn; try done.
  - by eapply malloc_heap_ok.
  - eauto.
  - intros b blk Hb. destruct (r_sized0 _ _ Hb) as [i Hi]. eauto.
Qed.

Lemma pending_malloc s q f n p h fd :
  Rep s q f -> malloc_spec (hp s) n p h ->
  pending (St (bbufs s) (block_table s) (hdr s) h) (q fd) = pending s (q fd).
Proof.
  intros HR Hm. apply pending_ext. intros b Hb.
  destruct (chunk_some _ _ _ _ _ HR Hb) as [d Hd]. rewrite Hd.
  unfold chunk in *. cbn. destruct (hdr s !! b); [|done]. cbn in *. by eapply malloc_mload.
Qed.

Section AllocLemmas.
Context {A : Allocator} {AOk : AllocatorOk A}.

Lemma refill_ok s q f i :
  Rep s q f -> 12 <= i <= 30 ->
  exists r, refill i s = Ret r /\
    match r with
    | None => True
    | Some s' => exists f' b, Rep s' q f' /\ bbufs s' = bbufs s /\
                   block_table s' !! Z.to_nat i = Some b /\ b <> NULL /\
                   (forall fd, pending s' (q fd) = pending s (q fd)) /\
                   (forall fd c, c ∈ q fd -> lens s' c = lens s c)
    end.
Proof.
  intros HR Hi. assert (Hpow : 2 ^ 12 <= 2 ^ i <= 2 ^ 30) by (split; apply Z.pow_le_mono_r; lia).
  unfold refill, get_table.
  destruct (table_is_Some _ _ _ (Z.to_nat i) HR) as [t Ht]; [unfold MAX_TABLE; lia|].
  rewrite Ht. cbn [of_option]. rewrite bind_Ret_l.
  destruct (Z.eqb_spec t NULL) as [->|Hne]; [|eexists; split; [done|]; by exists f, t].
  rewrite (wrapS_id 32 (2 ^ i)), wrapU_id, wrapS_id by (unfold in_s, in_u, SIZEOF_BLOCK; lia).
  destruct (malloc (hp s) (2 ^ i)) as [[b h]|] eqn:E; [|by exists None].
  pose proof (malloc_ok (hp s) (2 ^ i) b h ltac:(lia) E) as Hm. pose proof Hm as (Hp & Hnew & Hblk & _).
  pose proof (Rep_malloc _ _ _ _ _ _ HR Hm) as HR1.
  set (s1 := St (bbufs s) (block_table s) (hdr s) h) in *.
  assert (Hfresh : hdr s !! b = None).
  { destruct (hdr s !! b) eqn:Eb; [|done].
    destruct (r_sized _ _ _ HR _ _ Eb) as (j & ? & _ & _ & _ & ?). congruence. }
  assert (Hu : unowned q f b).
  { split.
    - intros fd H. destruct (r_use _ _ _ HR _ _ H) as (? & ? & _). congruence.
    - intros j H. destruct (r_free _ _ _ HR _ _ H) as (? & ? & _). congruence. }
  set (blk := Block NULL (2 ^ i - SIZEOF_BLOCK) 0 0).
  assert (Hsz : sized (put_block s1 b blk) b (Z.of_nat (Z.to_nat i))).
  { exists blk. cbn. rewrite lookup_insert_eq, Z2Nat.id, Hblk, lookup_insert_eq by lia.
    split_and!; try done; lia. }
  assert (HR2 : Rep (put_block s1 b blk) q f).
  { pose proof HR1 as []. assert (Hold : forall c j, c <> b -> sized s1 c j -> sized (put_block s1 b blk) c j).
    { intros c j Hc (k & Hk). exists k. cbn. by rewrite lookup_insert_ne. }
    destruct Hu as [Hq Hf]. constructor; try done.
    - intros fd. destruct (r_queue0 fd) as (? & ? & ?). cbn. rewrite lseg_put; [done|]. apply Hq.
    - intros j c Hc. destruct (r_table0 j c Hc). cbn. rewrite lseg_put; [done|]. apply Hf.
    - intros j c Hc. apply Hold; [|eauto]. intros ->. by eapply Hf.
    - intros c k Hc. cbn in Hc. destruct (decide (b = c)) as [->|].
      + exists (Z.of_nat (Z.to_nat i)). done.
      + rewrite lookup_insert_ne in Hc by done. destruct (r_sized0 _ _ Hc) as [j Hj]. eauto.
    - intros fd c Hc. apply in_use_put_ne; [|eauto]. intros ->. by eapply Hq. }
  eexists. split; [done|]. do 2 eexists. split_and!.
  - rewrite <- (Z2Nat.id i) at 1 by lia.
    eapply (Rep_push _ _ _ b (Z.to_nat i) NULL blk); try done.
    + unfold NULL; lia.
    + cbn. by rewrite lookup_insert_eq.
  - done.
  - cbn. rewrite list_lookup_insert_eq; [done|]. rewrite (r_tablen _ _ _ HR). unfold MAX_TABLE. lia.
  - unfold NULL; lia.
  - intros fd. transitivity (pending s1 (q fd)); [|by eapply pending_malloc].
    rewrite <- (pending_put_unowned s1 q f b blk fd Hu). by apply pending_same.
  - intros fd c Hc. transitivity (lens (put_block s1 b blk) c); [done|]. rewrite lens_put_ne; [done|].
    intros ->. by destruct Hu as [Hu _]; apply (Hu fd).
Qed.

(** [p] is where the next [n] bytes of socket [fd] go. *)
Definition write_ptr (s : st) (q : Z -> list Z) (fd p n : Z) : Prop :=
  exists t blk, last (q fd) = Some t /\ hdr s !! t = Some blk /\ p = buf t + buf_len blk /\
                n <= buf_size blk - buf_len blk.

(** What both ways of allocating promise. *)
Definition alloc_post (s : st) (q : Z -> list Z) (fd n p : Z) (s' : st) : Prop :=
  if p =? NULL then s' = s
  else exists q' f', Rep s' q' f' /\ write_ptr s' q' fd p n /\
         (forall fd', fd' <> fd -> q' fd' = q fd') /\
         (forall fd', pending s' (q' fd') = pending s (q fd')) /\
         (solid s (q fd) -> solid s' (removelast (q' fd))).

Lemma buf_nonnull s q f b blk k :
  Rep s q f -> hdr s !! b = Some blk -> 0 <= k -> (buf b + k =? NULL) = false.
Proof.
  intros HR Hb Hk. destruct (r_sized _ _ _ HR _ _ Hb) as (? & ? & _ & _ & _ & Hh).
  destruct (heap_mapped _ (r_heap _ _ _ HR) _ _ Hh). apply Z.eqb_neq. unfold buf, SIZEOF_BLOCK, NULL. lia.
Qed.

Lemma alloc_block_ok s q f fd n :
  Rep s q f -> 0 <= n <= 2 ^ 30 - SIZEOF_BLOCK ->
  exists p s', alloc_block fd n s = Ret (p, s') /\ alloc_post s q fd n p s'.
Proof.
  intros HR Hn. unfold alloc_block, SIZEOF_BLOCK in *. rewrite wrapS_id by (unfold in_s; lia).
  set (rs := if n + 24 <=? 4096 then 4096 else n + 24).
  assert (Hrs : 4096 <= rs <= 2 ^ 30 /\ n + 24 <= rs) by (unfold rs; destruct (Z.leb_spec (n + 24) 4096); lia).
  destruct (hash_spec rs) as (k & Hk & Hk0 & Hle & Hlow); [lia|]. rewrite Hk, bind_Ret_l.
  assert (Hk12 : 12 <= k <= 30).
  { split.
    - apply (Z.pow_le_mono_r_iff 2); lia.
    - destruct (Z.le_gt_cases k 30); [done|]. specialize (Hlow 30). lia. }
  destruct (refill_ok s q f k HR Hk12) as (r & -> & Hr). rewrite bind_Ret_l.
  destruct r as [s1|]; [|by exists NULL, s].
  destruct Hr as (f1 & b & HR1 & Hbb & Ht & Hb0 & Hp1 & Hln).
  unfold get_table, get_block. rewrite Ht. cbn [of_option]. rewrite bind_Ret_l.
  destruct (Rep_pop _ _ _ _ _ HR1 Ht Hb0) as (l & blk & Hfl & Hb & HR2 & Hu).
  rewrite Z2Nat.id in HR2 by lia. rewrite Hb. cbn [of_option]. rewrite bind_Ret_l.
  set (s2 := set_table s1 k (next blk)) in *.
  set (nb := Block NULL (buf_size blk) 0 0).
  assert (HR3 : Rep (put_block s2 b nb) q (upd f1 (Z.to_nat k) l)) by (eapply Rep_put_unowned; done).
  assert (Hsz : buf_size blk + 24 = 2 ^ k).
  { destruct (r_free _ _ _ HR1 (Z.to_nat k) b) as (blk' & Hb' & Hsz & _); [rewrite Hfl; by left|].
    unfold SIZEOF_BLOCK in Hsz. rewrite Z2Nat.id in Hsz by lia. congruence. }
  destruct (Rep_enqueue _ _ _ fd b nb HR3 Hu Hb0) as (s4 & Hs4 & HR4 & Hhp & Hb4 & Hc & Hlc).
  { cbn. by rewrite lookup_insert_eq. }
  { done. }
  { exists nb. cbn. rewrite lookup_insert_eq. split_and!; [done|lia..]. }
  rewrite Hs4, bind_Ret_l. do 2 eexists. split; [done|].
  pose proof (buf_nonnull _ _ _ _ _ 0 HR1 Hb ltac:(lia)) as E. rewrite Z.add_0_r in E.
  unfold alloc_post. rewrite E.
  do 2 eexists. split; [exact HR4|]. split_and!.
  - exists b, nb. rewrite upd_eq, last_snoc. cbn. split_and!; [done|done|lia|lia].
  - intros fd' Hne. by rewrite upd_ne.
  - assert (Hpend : forall fd', pending s4 (q fd') = pending s (q fd')).
    { intros fd'. rewrite <- (Hp1 fd'). transitivity (pending s2 (q fd')); [|by apply pending_same].
      rewrite <- (pending_put_unowned s2 q _ b nb fd' Hu).
      apply pending_ext. intros c _. apply Hc. }
    intros fd'. unfold upd. case_decide; [subst|done]. rewrite pending_app, Hpend. cbn [pending].
    rewrite Hc. unfold chunk at 1. cbn. rewrite lookup_insert_eq. cbn.
    destruct (pending s (q fd)); cbn; [|done].
    change (Z.to_nat (0 - 0)) with O. cbn. by rewrite app_nil_r.
  - rewrite upd_eq, removelast_last. apply solid_ext. intros c Hcq. rewrite Hlc, lens_put_ne; [by apply (Hln fd)|].
    intros ->. by destruct Hu as [Hu _]; apply (Hu fd).
Qed.

Lemma alloc_ok s q f fd n :
  Rep s q f -> 0 <= fd < MAX_SOCKET -> 0 <= n <= 2 ^ 30 - SIZEOF_BLOCK ->
  exists p s', sendbuf_alloc fd n s = Ret (p, s') /\
    alloc_post s q fd n p s'.
Proof.
  intros HR Hfd Hn. destruct (r_queue _ _ _ HR fd) as (Hl & Htl & Hnd).
  unfold sendbuf_alloc, fd2bbuf. rewrite (proj2 (Z.leb_le 0 fd)), (proj2 (Z.ltb_lt fd _)) by lia.
  cbn [andb]. rewrite bind_Ret_l. pose proof (alloc_block_ok s q f fd n HR Hn) as Hnew.
  destruct (Z.eqb_spec (block_tail (bbuf_of s fd)) NULL) as [E|Hne]; [rewrite bind_Ret_l; exact Hnew|].
  destruct (last (q fd)) as [t|] eqn:El; [|done]. cbn in Htl. rewrite Htl in *.
  assert (Hin : t ∈ q fd) by (apply last_Some in El as [? ->]; set_solver).
  destruct (r_use _ _ _ HR _ _ Hin) as (blk & Hb & Hu1 & Hu2).
  destruct (Rep_block_mem _ _ _ _ _ HR Hb) as [_ Hsz].
  unfold get_block. rewrite Hb. cbn [of_option]. rewrite bind_Ret_l, sint_ok, bind_Ret_l by (unfold INT_MIN, INT_MAX; lia).
  rewrite bind_Ret_l.
  destruct (Z.leb_spec n (buf_size blk - buf_len blk)) as [Hroom|Hroom]; [|exact Hnew].
  do 2 eexists. split; [done|].
  unfold alloc_post. rewrite (buf_nonnull _ _ _ _ _ _ HR Hb) by lia.
  exists q, f. split_and!; [done| |done|done|]; [by exists t, blk|].
  apply last_Some in El as [l ->]. rewrite removelast_last. by intros [? _]%Forall_app.
Qed.
End AllocLemmas.

Definition set_mem (s : st) (m : gmap Z Z) : st :=
  St (bbufs s) (block_table s) (hdr s) (Heap m (h_blk (hp s))).

(** Filling the bytes that were allocated touches nothing that is queued. *)
Lemma write_ok s q f fd p v :
  Rep s q f -> write_ptr s q fd p (Z.of_nat (length v)) ->
  exists m, mstore (h_mem (hp s)) p v = Some m /\ Rep (set_mem s m) q f /\
    forall fd', pending (set_mem s m) (q fd') = pending s (q fd').
Proof.
  intros HR (t & blk & Hlast & Hb & -> & Hroom).
  assert (Ht : t ∈ q fd) by (apply last_Some in Hlast as [? ->]; set_solver).
  destruct (r_use _ _ _ HR _ _ Ht) as (? & ? & Hu & _). simplify_eq.
  destruct (Rep_block_mem _ _ _ _ _ HR Hb) as [Hm _].
  destruct (mstore_mapped (h_mem (hp s)) (buf t + buf_len blk) v) as [m Hst].
  { intros x Hx. apply Hm. lia. }
  exists m. split; [done|]. split.
  - destruct HR. constructor; cbn; try done. by eapply mstore_heap_ok.
  - intros fd'. apply pending_ext. intros c Hc. unfold chunk. cbn.
    destruct (hdr s !! c) as [blk'|] eqn:Ec; [|done]. cbn. apply mload_agree. intros x Hx.
    destruct (r_use _ _ _ HR _ _ Hc) as (? & ? & Hu' & Hu''). simplify_eq.
    rewrite (mstore_lookup _ _ _ _ Hst). case_decide as Hin; [exfalso|done].
    destruct (r_sized _ _ _ HR _ _ Hb) as (i & ? & ? & Hi & _ & Hbi).
    destruct (r_sized _ _ _ HR _ _ Ec) as (j & ? & ? & Hj & _ & Hcj). simplify_eq.
    unfold buf, SIZEOF_BLOCK in *.
    assert (c = t) as -> by (apply (heap_disj _ (r_heap _ _ _ HR) _ _ _ _ x Hcj Hbi); lia).
    simplify_eq. lia.
Qed.

Lemma write_ptr_set_mem s q fd p n m : write_ptr s q fd p n -> write_ptr (set_mem s m) q fd p n.
Proof. done. Qed.

Lemma fd2bbuf_ok s fd : 0 <= fd < MAX_SOCKET -> fd2bbuf s fd = Ret (bbuf_of s fd).
Proof.
  intros H. unfold fd2bbuf. rewrite (proj2 (Z.leb_le 0 fd)), (proj2 (Z.ltb_lt fd _)) by lia. done.
Qed.

(** Flushing makes the bytes after the queued ones queued. *)
Lemma flush_ok s q f fd p v d :
  Rep s q f -> 0 <= fd < MAX_SOCKET -> write_ptr s q fd p (Z.of_nat (length v)) ->
  mload (h_mem (hp s)) p (length v) = Some v -> pending s (q fd) = Some d ->
  exists s', sendbuf_flush fd (Z.of_nat (length v)) s = Ret (0, s') /\ Rep s' q f /\
    pending s' (q fd) = Some (d ++ v) /\
    (forall fd', fd' <> fd -> pending s' (q fd') = pending s (q fd')) /\
    (v <> [] -> solid s (removelast (q fd)) -> solid s' (q fd)).
Proof.
  intros HR Hfd (t & blk & Hlast & Hb & -> & Hroom) Hv Hd.
  destruct (r_queue _ _ _ HR fd) as (Hl & Htl & Hnd). rewrite Hlast in Htl. cbn in Htl.
  apply last_Some in Hlast as [l Hq].
  assert (Ht : t ∈ q fd) by (rewrite Hq; set_solver).
  destruct (r_use _ _ _ HR _ _ Ht) as (? & Hb' & Hu & Hu2). rewrite Hb in Hb'. injection Hb' as <-.
  destruct (Rep_block_mem _ _ _ _ _ HR Hb) as [_ Hsz].
  unfold sendbuf_flush. rewrite fd2bbuf_ok, bind_Ret_l, Htl by done.
  destruct (Z.eqb_spec t NULL) as [->|_]; [by destruct (Rep_null _ _ _ _ _ HR Hb)|].
  unfold get_block. rewrite Hb. cbn [of_option].
  rewrite bind_Ret_l, (sint_ok (buf_size blk - buf_len blk)), bind_Ret_l by (unfold INT_MIN, INT_MAX; lia).
  destruct (Z.ltb_spec (buf_size blk - buf_len blk) (Z.of_nat (length v))); [lia|].
  rewrite sint_ok, bind_Ret_l by (unfold INT_MIN, INT_MAX; lia).
  eexists. split; [done|]. split_and!.
  - eapply Rep_put_queued; try done; cbn; lia.
  - rewrite Hq in Hnd. apply NoDup_app in Hnd as (_ & Hnd & _). rewrite Hq, pending_app in *.
    set (s1 := put_block s t _). assert (Hpl : pending s1 l = pending s l).
    { apply pending_ext. intros c Hc. apply chunk_put_ne. intros ->. apply (Hnd t Hc). by left. }
    rewrite Hpl.
    destruct (pending s l) as [dl|]; [|done]. cbn [mbind option_bind pending] in *.
    unfold chunk in *. cbn. rewrite lookup_insert_eq. rewrite Hb in Hd. cbn in *.
    destruct (mload _ _ _) as [dt|] eqn:Edt in Hd; [|done]. cbn in Hd. injection Hd as <-.
    replace (Z.to_nat (buf_len blk + Z.of_nat (length v) - rptr blk))
      with (Z.to_nat (buf_len blk - rptr blk) + length v)%nat by lia.
    rewrite (mload_app _ _ _ _ dt v Edt).
    + cbn. by rewrite !app_nil_r, app_assoc.
    + rewrite <- Hv. f_equal. lia.
  - intros fd' Hne. apply pending_ext. intros c Hc. apply chunk_put_ne. intros ->.
    apply Hne. by eapply r_qq.
  - intros Hv0. rewrite Hq, removelast_last in *. apply NoDup_app in Hnd as (_ & Hnd & _). intros Hs. apply Forall_app. split.
    + eapply solid_ext; [|exact Hs]. intros c Hc. apply lens_put_ne. intros ->. apply (Hnd t Hc). by left.
    + constructor; [|constructor]. rewrite lens_put. do 2 eexists. split; [done|]. cbn. destruct v; [done|cbn; lia].
Qed.

(** What the event loop sees of a queue. *)
Lemma read_ok s q f fd d :
  Rep s q f -> 0 <= fd < MAX_SOCKET -> pending s (q fd) = Some d ->
  exists n p, sendbuf_datalen fd s = Ret n /\ sendbuf_get_read_ptr fd s = Ret p /\
    0 <= n <= Z.of_nat (length d) /\
    mload (h_mem (hp s)) p (Z.to_nat n) = Some (take (Z.to_nat n) d) /\
    (solid s (q fd) -> d <> [] -> 0 < n).
Proof.
  intros HR Hfd Hd. destruct (r_queue _ _ _ HR fd) as (Hl & _ & _).
  unfold sendbuf_datalen, sendbuf_get_read_ptr. rewrite fd2bbuf_ok, !bind_Ret_l by done.
  destruct (Z.eqb_spec (block_head (bbuf_of s fd)) NULL) as [E|E].
  { rewrite E in Hl. rewrite (lseg_nil_inv _ _ Hl) in *. injection Hd as <-. exists 0, NULL. by split_and!. }
  destruct (lseg_cons_inv _ _ _ Hl E) as (l & blk & Hq & Hb & _).
  assert (Hin : block_head (bbuf_of s fd) ∈ q fd) by (rewrite Hq; by left).
  destruct (r_use _ _ _ HR _ _ Hin) as (? & Hb' & Hu & Hu2). rewrite Hb in Hb'. injection Hb' as <-.
  destruct (Rep_block_mem _ _ _ _ _ HR Hb) as [_ Hsz].
  unfold get_block. rewrite Hb. cbn [of_option]. rewrite !bind_Ret_l.
  rewrite sint_ok by (unfold INT_MIN, INT_MAX; lia).
  do 2 eexists. split; [done|]. split; [done|].
  rewrite Hq in Hd. cbn [pending] in Hd. unfold chunk in Hd. rewrite Hb in Hd. cbn in Hd.
  destruct (mload _ _ _) as [dt|] eqn:Edt; [|done]. cbn in Hd.
  destruct (pending s l) as [dr|]; [|done]. cbn in Hd. injection Hd as <-.
  pose proof (mload_length _ _ _ _ Edt) as Hlen. rewrite length_app. split_and!; [lia|lia|by rewrite take_app_length' by lia|].
  rewrite Hq. intros [(r & n & Hn & Hlt) _]%Forall_cons _. unfold lens in Hn. rewrite Hb in Hn. injection Hn as <- <-. lia.
Qed.

(** Skipping at most datalen bytes removes them from the front of the queue. *)
Lemma skip_ok s q f fd d n k :
  Rep s q f -> 0 <= fd < MAX_SOCKET -> pending s (q fd) = Some d ->
  sendbuf_datalen fd s = Ret n -> 0 <= k <= n ->
  exists r s' q' f', sendbuf_skip_read_ptr fd k s = Ret (r, s') /\ Rep s' q' f' /\
    pending s' (q' fd) = Some (drop (Z.to_nat k) d) /\
    (forall fd', fd' <> fd -> pending s' (q' fd') = pending s (q fd')) /\
    (solid s (q fd) -> solid s' (q' fd)).
Proof.
  intros HR Hfd Hd Hn Hk. destruct (r_queue _ _ _ HR fd) as (Hl & _ & Hnd).
  unfold sendbuf_datalen in Hn. unfold sendbuf_skip_read_ptr.
  rewrite fd2bbuf_ok, bind_Ret_l in Hn by done. rewrite fd2bbuf_ok, bind_Ret_l by done.
  revert Hn. destruct (Z.eqb_spec (block_head (bbuf_of s fd)) NULL) as [E|E]; intros Hn.
  { rewrite E in Hl. apply lseg_nil_inv in Hl. rewrite Hl in Hd. injection Hd as <-.
    exists 1, s, q, f. rewrite Hl. injection Hn as <-. cbn. rewrite drop_nil. done. }
  destruct (lseg_cons_inv _ _ _ Hl E) as (l & blk & Hq & Hb & _).
  set (b := block_head (bbuf_of s fd)) in *.
  assert (Hin : b ∈ q fd) by (rewrite Hq; by left).
  destruct (r_use _ _ _ HR _ _ Hin) as (? & Hb' & Hu & Hu2). rewrite Hb in Hb'. injection Hb' as <-.
  destruct (Rep_block_mem _ _ _ _ _ HR Hb) as [_ Hsz].
  unfold get_block in Hn |- *. rewrite Hb in Hn |- *. cbn [of_option] in Hn |- *. rewrite bind_Ret_l in Hn. rewrite bind_Ret_l.
  apply sint_Ret in Hn as [-> _].
  rewrite sint_ok, bind_Ret_l by (unfold INT_MIN, INT_MAX; lia).
  rewrite Hq in Hd, Hnd. apply NoDup_cons in Hnd as [Hbl _].
  assert (HR1 : Rep (put_block s b (set_rptr blk (rptr blk + k))) q f).
  { eapply Rep_put_queued; try done; cbn; lia. }
  set (s1 := put_block s b (set_rptr blk (rptr blk + k))) in *.
  assert (Hb1 : hdr s1 !! b = Some (set_rptr blk (rptr blk + k))) by (cbn; by rewrite lookup_insert_eq).
  assert (Hoth : forall fd', fd' <> fd -> pending s1 (q fd') = pending s (q fd')).
  { intros fd' Hne. apply pending_ext. intros c Hc. apply chunk_put_ne. intros ->.
    apply Hne. by eapply r_qq. }
  assert (Hrest : pending s1 l = pending s l).
  { apply pending_ext. intros c Hc. apply chunk_put_ne. by intros ->. }
  cbn [pending] in Hd. unfold chunk in Hd. rewrite Hb in Hd. cbn in Hd.
  destruct (mload _ _ _) as [dt|] eqn:Edt; [|done]. cbn in Hd.
  destruct (pending s l) as [dr|] eqn:Edr; [|done]. cbn in Hd. injection Hd as <-.
  pose proof (mload_length _ _ _ _ Edt) as Hlen.
  cbn [buf_len set_rptr Sendbuf.rptr next]. destruct (Z.leb_spec (buf_len blk) (rptr blk + k)).
  - destruct (Rep_dequeue _ _ _ _ _ _ _ HR1 Hq Hb1) as [HR2 Hu'].
    edestruct (bbuf_free_block_ok _ _ _ _ _ HR2 Hu' Hb1) as (s3 & f3 & Hs3 & HR3 & _ & _ & Hh3 & _ & _ & Hp3).
    cbn [next set_rptr] in Hs3. change (bbuf_of s1 fd) with (bbuf_of s fd) in Hs3.
    rewrite Hs3, bind_Ret_l. do 4 eexists. split; [done|]. split; [exact HR3|].
    split_and!; [|intros fd' Hne|]; rewrite ?Hp3, ?upd_eq, ?upd_ne by done.
    + transitivity (pending s1 l); [by apply pending_same|].
      rewrite Hrest. f_equal. by rewrite drop_app_length' by lia.
    + rewrite <- Hoth by done. by apply pending_same.
    + rewrite Hq. intros [_ Hs]%Forall_cons. eapply solid_ext; [|exact Hs]. intros c Hc. assert (c <> b) by (by intros ->).
      transitivity (lens s1 c); [|by apply lens_put_ne]. unfold lens. by rewrite Hh3.
  - do 4 eexists. split; [done|]. split; [exact HR1|]. split_and!; [|exact Hoth|].
    2: { rewrite Hq. intros [_ Hs]%Forall_cons. constructor; [unfold s1; rewrite lens_put; do 2 eexists; split; [done|cbn; lia]|].
         eapply solid_ext; [|exact Hs]. intros c Hc. apply lens_put_ne. by intros ->. }
    rewrite Hq. cbn [pending]. rewrite Hrest. unfold chunk. rewrite Hb1. cbn.
    replace (Z.to_nat (buf_len blk - rptr blk))
      with (Z.to_nat k + Z.to_nat (buf_len blk - (rptr blk + k)))%nat in Edt by lia.
    apply mload_app_inv in Edt as [_ Edt].
    replace (buf b + rptr blk + Z.of_nat (Z.to_nat k)) with (buf b + (rptr blk + k)) in Edt by lia.
    rewrite Edt. cbn. by rewrite drop_app_le by lia.
Qed.

(** ** The module as a byte queue per socket

    [append_msg]: how the senders use the module (lport.cc, actordb.cc,
    lredis.cc): allocate, write the bytes, flush; the bool tells whether memory
    was found.  [transmit]: how the event loop uses it: hand the bytes at the
    read pointer to the socket, which takes at most [k], and skip what it took. *)
Section Queue.
Context {A : Allocator}.

Definition append_msg (fd : Z) (v : bytes) (s : st) : res (bool * st) :=
  '(p, s) ← sendbuf_alloc fd (Z.of_nat (length v)) s;
  if p =? NULL then Ret (false, s)
  else
    m ← of_option (mstore (h_mem (hp s)) p v);
    '(r, s) ← sendbuf_flush fd (Z.of_nat (length v)) (set_mem s m);
    Ret (r =? 0, s).

Definition transmit (fd k : Z) (s : st) : res (bytes * st) :=
  n ← sendbuf_datalen fd s;
  p ← sendbuf_get_read_ptr fd s;
  let k := Z.min k n in
  v ← of_option (mload (h_mem (hp s)) p (Z.to_nat k));
  '(_, s) ← sendbuf_skip_read_ptr fd k s;
  Ret (v, s).

Inductive ev := EAppend (fd : Z) (v : bytes) | ETransmit (fd k : Z).
Definition ev_ok (e : ev) : Prop :=
  match e with
  | EAppend fd v => 0 <= fd < MAX_SOCKET /\ Z.of_nat (length v) <= 2 ^ 30 - SIZEOF_BLOCK
  | ETransmit fd k => 0 <= fd < MAX_SOCKET /\ 0 <= k
  end.

(** A run: per socket, what was accepted and what left, in order. *)
Fixpoint run (evs : list ev) (s : st) (acc out : Z -> bytes) : res (st * (Z -> bytes) * (Z -> bytes)) :=
  match evs with
  | [] => Ret (s, acc, out)
  | EAppend fd v :: evs =>
      '(ok, s) ← append_msg fd v s;
      run evs s (if (ok : bool) then upd acc fd (acc fd ++ v) else acc) out
  | ETransmit fd k :: evs =>
      '(v, s) ← transmit fd k s;
      run evs s acc (upd out fd (out fd ++ v))
  end.

(** Every socket's accepted bytes are the ones that left, then the queued ones. *)
Definition fifo (s : st) (acc out : Z -> bytes) : Prop :=
  exists q f, Rep s q f /\ forall fd, exists d, pending s (q fd) = Some d /\ acc fd = out fd ++ d.
End Queue.

Section QueueLemmas.
Context {A : Allocator} {AOk : AllocatorOk A}.

Lemma append_msg_ok s q f fd v d :
  Rep s q f -> 0 <= fd < MAX_SOCKET -> Z.of_nat (length v) <= 2 ^ 30 - SIZEOF_BLOCK ->
  pending s (q fd) = Some d ->
  exists ok s' q' f', append_msg fd v s = Ret (ok, s') /\ Rep s' q' f' /\
    pending s' (q' fd) = Some (if (ok : bool) then d ++ v else d) /\
    forall fd', fd' <> fd -> pending s' (q' fd') = pending s (q fd').
Proof.
  intros HR Hfd Hv Hd.
  destruct (alloc_ok s q f fd (Z.of_nat (length v)) HR Hfd) as (p & s1 & Hs1 & Hpost); [lia|].
  unfold append_msg. rewrite Hs1, bind_Ret_l. unfold alloc_post in Hpost.
  destruct (p =? NULL); [subst s1; by exists false, s, q, f|].
  destruct Hpost as (q1 & f1 & HR1 & Hp & Hother & Hpend & _).
  destruct (write_ok _ _ _ _ _ _ HR1 Hp) as (m & Hm & HR2 & Hpend2).
  rewrite Hm. cbn [of_option]. rewrite bind_Ret_l.
  destruct (flush_ok _ _ _ _ _ v d HR2 Hfd Hp) as (s3 & Hs3 & HR3 & Hpend3 & Hother3 & _).
  { by eapply mload_mstore_same. }
  { by rewrite Hpend2, Hpend. }
  rewrite Hs3, bind_Ret_l. exists true, s3, q1, f1. split_and!; try done.
  intros fd' Hne. by rewrite Hother3, Hpend2, Hpend.
Qed.

Lemma transmit_ok s q f fd k d :
  Rep s q f -> 0 <= fd < MAX_SOCKET -> 0 <= k -> pending s (q fd) = Some d ->
  exists v s' q' f' d', transmit fd k s = Ret (v, s') /\ Rep s' q' f' /\
    d = v ++ d' /\ pending s' (q' fd) = Some d' /\
    forall fd', fd' <> fd -> pending s' (q' fd') = pending s (q fd').
Proof.
  intros HR Hfd Hk Hd.
  destruct (read_ok _ _ _ _ _ HR Hfd Hd) as (n & p & Hn & Hp & Hr & Hl & _).
  destruct (skip_ok _ _ _ _ _ n (Z.min k n) HR Hfd Hd Hn) as (r & s' & q' & f' & Hs & HR' & Hd' & Ho & _); [lia|].
  unfold transmit. rewrite Hn, bind_Ret_l, Hp, bind_Ret_l.
  replace (Z.to_nat n) with (Z.to_nat (Z.min k n) + Z.to_nat (n - Z.min k n))%nat in Hl by lia.
  apply mload_app_inv in Hl as [Hl _]. rewrite take_take, Nat.min_l in Hl by lia.
  rewrite Hl. cbn [of_option]. rewrite bind_Ret_l, Hs, bind_Ret_l.
  do 5 eexists. split_and!; [done|done| |done|done]. by rewrite take_drop.
Qed.

Lemma run_fifo evs : forall s acc out,
  Forall ev_ok evs -> fifo s acc out ->
  exists s' acc' out', run evs s acc out = Ret (s', acc', out') /\ fifo s' acc' out'.
Proof.
  induction evs as [|[fd v|fd k] evs IH]; intros s acc out Hok (q & f & HR & Hq).
  - do 3 eexists. split; [done|]. by exists q, f.
  - apply Forall_cons in Hok as [[Hfd Hv] Hoks]. destruct (Hq fd) as (d & Hd & Ha).
    destruct (append_msg_ok _ _ _ fd v d HR Hfd Hv Hd) as (ok & s1 & q1 & f1 & Hs1 & HR1 & Hd1 & Ho).
    cbn [run]. rewrite Hs1, bind_Ret_l. apply IH; [done|]. exists q1, f1. split; [done|].
    intros fd'. destruct (decide (fd' = fd)) as [->|Hne].
    + rewrite Hd1. eexists. split; [done|]. destruct ok; [|done]. by rewrite upd_eq, Ha, app_assoc.
    + rewrite Ho by done. destruct ok; rewrite ?upd_ne by done; apply Hq.
  - apply Forall_cons in Hok as [[Hfd Hk] Hoks]. destruct (Hq fd) as (d & Hd & Ha).
    destruct (transmit_ok _ _ _ fd k d HR Hfd Hk Hd) as (v & s1 & q1 & f1 & d1 & Hs1 & HR1 & Hd1 & Hp1 & Ho).
    cbn [run]. rewrite Hs1, bind_Ret_l. apply IH; [done|]. exists q1, f1. split; [done|].
    intros fd'. destruct (decide (fd' = fd)) as [->|Hne].
    + exists d1. split; [done|]. by rewrite upd_eq, Ha, Hd1, app_assoc.
    + rewrite Ho, upd_ne by done. apply Hq.
Qed.

Lemma init_Rep h : heap_ok h -> Rep (init_st h) (fun _ => []) (fun _ => []).
Proof.
  intros Hh. constructor; cbn; try done.
  - intros fd. split_and!; [done|done|constructor].
  - intros i b Hb. change (replicate MAX_TABLE NULL !! i = Some b) in Hb.
    apply lookup_replicate in Hb as [-> _]. split; [done|constructor].
  - intros i b H. inversion H.
  - intros fd b H. inversion H.
  - intros fd fd' b H. inversion H.
  - intros fd i b H. inversion H.
Qed.

Lemma init_fifo h : heap_ok h -> fifo (init_st h) (fun _ => []) (fun _ => []).
Proof.
  intros Hh. exists (fun _ => []), (fun _ => []). split; [by apply init_Rep|]. intros. by exists [].
Qed.
End QueueLemmas.

(** C1.  Functional refinement: the module is a byte queue per socket.  From the
    initial state, any sequence of appends and partial transmissions on any
    sockets runs without undefined behaviour, and on every socket the bytes
    accepted so far are exactly the bytes that left followed by the bytes still
    queued: nothing is lost, duplicated, reordered or moved to another socket.
    Sockets are below MAX_SOCKET, one append is of at most 2^30 - SIZEOF_BLOCK bytes (so
    that the block's int size does not overflow) and a transmission of at least 0. *)
Theorem sendbuf_fifo {A : Allocator} {AOk : AllocatorOk A} h evs :
  heap_ok h -> Forall ev_ok evs ->
  exists s acc out, run evs (init_st h) (fun _ => []) (fun _ => []) = Ret (s, acc, out) /\
    fifo s acc out.
Proof. intros Hh Hok. apply run_fifo; [done|by apply init_fifo]. Qed.

Definition empty_heap : heap := Heap ∅ ∅.
Lemma empty_heap_ok : heap_ok empty_heap.
Proof. split; intros; cbn in *; by rewrite lookup_empty in *. Qed.

Lemma sendbuf_fifo_witness :
  exists s acc out,
    @run Bump [EAppend 3 [104; 105]; EAppend 4 [1]; EAppend 3 [33]; ETransmit 3 2; ETransmit 3 9]
      (init_st empty_heap) (fun _ => []) (fun _ => []) = Ret (s, acc, out) /\ fifo s acc out.
Proof.
  apply (@sendbuf_fifo Bump Bump_ok); [exact empty_heap_ok|].
  repeat constructor; cbn; unfold MAX_SOCKET, SIZEOF_BLOCK; lia.
Defined.

(** The bucket of a size is the least power of two that holds it, and the
    search for it ends, for every size up to 2^31. *)
Theorem hash_least size :
  0 <= size <= 2 ^ 31 ->
  exists k, hash size = Ret k /\ 0 <= k <= 31 /\ size <= 2 ^ k /\ forall j, 0 <= j < k -> 2 ^ j < size.
Proof. apply hash_spec. Qed.

Lemma hash_least_witness :
  exists k, hash 5000 = Ret k /\ 0 <= k <= 31 /\ 5000 <= 2 ^ k /\ forall j, 0 <= j < k -> 2 ^ j < 5000.
Proof. apply (hash_least 5000). lia. Defined.

(** A request for more than INT_MAX - 24 bytes overflows the int [real_size]:
    whatever the request, a block of the smallest size class is handed out, so
    the caller that fills what it asked for runs past the block. *)
Theorem alloc_overflow {A : Allocator} {AOk : AllocatorOk A} s q f fd n p s' :
  Rep s q f -> q fd = [] -> 0 <= fd < MAX_SOCKET -> INT_MAX - SIZEOF_BLOCK < n <= INT_MAX ->
  sendbuf_alloc fd n s = Ret (p, s') -> p <> NULL ->
  exists b blk, p = buf b /\ hdr s' !! b = Some blk /\ buf_size blk = 4096 - SIZEOF_BLOCK.
Proof.
  intros HR Hq Hfd Hn H Hp. destruct (r_queue _ _ _ HR fd) as (_ & Htl & _). rewrite Hq in Htl. cbn in Htl.
  unfold sendbuf_alloc in H. rewrite fd2bbuf_ok, bind_Ret_l, Htl in H by done.
  change (NULL =? NULL) with true in H. cbv iota in H. rewrite bind_Ret_l in H.
  unfold alloc_block, INT_MAX, SIZEOF_BLOCK in *.
  assert (E : i32 (n + 24) = n + 24 - 2 ^ 32).
  { unfold wrapS. rewrite <- (Z_mod_plus_full _ (-1)), Z.mod_small; lia. }
  cbv zeta in H. rewrite E in H. revert H. destruct (Z.leb_spec (n + 24 - 2 ^ 32) 4096) as [_|]; [intros H|lia].
  change (hash 4096) with (Ret 12) in H. rewrite bind_Ret_l in H.
  destruct (refill_ok s q f 12 HR ltac:(lia)) as (r & Hr & Hr'). rewrite Hr, bind_Ret_l in H.
  destruct r as [s1|]; [|by injection H as <- <-].
  destruct Hr' as (f1 & b & HR1 & Hbb & Ht & Hb0 & _). unfold get_table, get_block in H.
  rewrite Ht in H. cbn [of_option] in H. rewrite bind_Ret_l in H.
  destruct (Rep_pop _ _ _ _ _ HR1 Ht Hb0) as (l & blk & Hfl & Hb & HR2 & Hu).
  rewrite Hb in H. cbn [of_option] in H. rewrite bind_Ret_l in H.
  destruct (r_free _ _ _ HR1 (Z.to_nat 12) b) as (blk' & Hb' & Hsz & _); [rewrite Hfl; by left|].
  unfold enqueue in H. change (bbuf_of _ fd) with (bbuf_of s1 fd) in H.
  unfold bbuf_of in H. rewrite Hbb in H. fold (bbuf_of s fd) in H. rewrite Htl in H. cbn in H.
  injection H as <- <-. eexists b, _. split; [done|]. cbn. rewrite lookup_insert_eq. split; [done|].
  cbn. rewrite Hb in Hb'. injection Hb' as <-. change (2 ^ Z.of_nat (Z.to_nat 12)) with 4096 in Hsz.
  unfold SIZEOF_BLOCK in *. lia.
Qed.

Definition ex_alloc := @sendbuf_alloc Bump 5 INT_MAX (init_st empty_heap).

Lemma alloc_overflow_witness :
  exists p s', ex_alloc = Ret (p, s') /\
    exists b blk, p = buf b /\ hdr s' !! b = Some blk /\ buf_size blk = 4096 - SIZEOF_BLOCK.
Proof.
  assert (H : match ex_alloc with Ret (p, _) => negb (p =? NULL) | _ => false end = true)
    by (vm_compute; reflexivity).
  destruct ex_alloc as [[p s']| | |] eqn:E; try discriminate H. exists p, s'. split; [reflexivity|].
  apply (@alloc_overflow Bump Bump_ok (init_st empty_heap) (fun _ => []) (fun _ => []) 5 INT_MAX);
    [apply init_Rep, empty_heap_ok|done|unfold MAX_SOCKET; lia|unfold INT_MAX, SIZEOF_BLOCK; lia|exact E|].
  intros ->. discriminate H.
Defined.
