(* ===== verification/Recvbuf.v ===== *)
(** * Recvbuf: the per-socket buffers of incoming bytes

    Source: src/src/ae/lrecvbuf.cc, lrecvbuf.h.  Every socket has one buffer with a
    read and a write cursor.  The event loop receives into getwptr and calls
    wskip; the script parses with readbuf / getint / find and calls buf2line to move
    the unread bytes to the front. *)
From S2P Require Import Prelude Mem Lua.
Local Open Scope Z_scope.

(** ** State *)

Record rbuf := RBuf { buf_len : Z; rptr : Z; wptr : Z; buf : Z }.
Definition MAX_SOCKET : Z := 1048576.

(** The static array rbufs (an absent entry is still zero), mem_total, memory. *)
Record st := St { rbufs : gmap Z rbuf; mem_total : Z; hp : heap }.
Definition init_st (h : heap) : st := St ∅ 0 h.

Definition rbuf_of (s : st) (sockfd : Z) : rbuf := default (RBuf 0 0 0 NULL) (rbufs s !! sockfd).
Definition fd2rbuf (s : st) (sockfd : Z) : res rbuf :=
  if (0 <=? sockfd) && (sockfd <? MAX_SOCKET) then Ret (rbuf_of s sockfd) else Undef.
Definition set_rbuf (s : st) (sockfd : Z) (r : rbuf) : st :=
  St (<[sockfd := r]> (rbufs s)) (mem_total s) (hp s).
Definition set_rptr (r : rbuf) (p : Z) : rbuf := RBuf (buf_len r) p (wptr r) (buf r).
Definition set_wptr (r : rbuf) (p : Z) : rbuf := RBuf (buf_len r) (rptr r) p (buf r).
Definition set_mem (s : st) (m : gmap Z Z) : st := St (rbufs s) (mem_total s) (Heap m (h_blk (hp s))).

(** assert_sockfd: the handlers that use it return no value for such a socket. *)
Definition assert_sockfd (sockfd : Z) : bool := negb ((sockfd <=? 0) || (MAX_SOCKET <=? sockfd)).

(** ** Operations *)

(** memcpy out of the buffer at the read cursor; no bound is checked. *)
Definition get_buf (sockfd n : Z) (s : st) : res bytes :=
  self ← fd2rbuf s sockfd;
  of_option (loadz (h_mem (hp s)) (buf self + rptr self) n).
Definition read_buf (sockfd n : Z) (s : st) : res (bytes * st) :=
  self ← fd2rbuf s sockfd;
  l ← of_option (loadz (h_mem (hp s)) (buf self + rptr self) n);
  p ← sint (rptr self + n);
  Ret (l, set_rbuf s sockfd (set_rptr self p)).

Definition recvbuf_free (sockfd : Z) (s : st) : Z * st := (0, s).

(** strncmp(p, str, strlen) == 0, reading memory up to the first difference. *)
Fixpoint strncmp_eq (m : gmap Z Z) (p : Z) (str : bytes) : res bool :=
  match str with
  | [] => Ret true
  | c :: str =>
      b ← of_option (m !! p);
      if negb (b =? c) then Ret false
      else if b =? 0 then Ret true
      else strncmp_eq m (p + 1) str
  end.

(** for (i = ...; i < wptr; i++); [n] is wptr - i. *)
Fixpoint find_loop (m : gmap Z Z) (base i : Z) (n : nat) (str : bytes) : res (option Z) :=
  match n with
  | O => Ret None
  | S n => eq ← strncmp_eq m (base + i) str;
           if (eq : bool) then Ret (Some i) else find_loop m base (i + 1) n str
  end.

Section Create.
Context {A : Allocator}.

(** The old buffer is freed.  buf_len is cleared before it is subtracted from
    mem_total. *)
Definition drop_buf (self : rbuf) (s : st) : res (rbuf * Z * heap) :=
  if buf self =? NULL then Ret (self, mem_total s, hp s)
  else
    h ← free (hp s) (buf self);
    let self := RBuf 0 (rptr self) (wptr self) NULL in
    total ← sint (mem_total s - buf_len self);
    Ret (self, total, h).

Definition recvbuf_create (sockfd size : Z) (s : st) : res (Z * st) :=
  self ← fd2rbuf s sockfd;
  if buf_len self <? size then
    '(self, total, h) ← drop_buf self s;
    match malloc h (u64 size) with
    | None => Ret (1, St (<[sockfd := RBuf (buf_len self) (rptr self) (wptr self) NULL]> (rbufs s)) total h)
    | Some (p, h) =>
        total ← sint (total + size);
        Ret (0, St (<[sockfd := RBuf size 0 0 p]> (rbufs s)) total h)
    end
  else Ret (0, set_rbuf s sockfd (RBuf (buf_len self) 0 0 (buf self))).
End Create.

(** *** The functions registered with Lua *)
Section Api.
Context {F : LuaFmt} {A : Allocator}.

Definition lfree (L : list lval) (s : st) : res (list lval * st) := Ret ([], s).
Definition ltest (L : list lval) (s : st) : res (list lval * st) := Ret ([], s).

Definition lbufremain (L : list lval) (s : st) : res (list lval * st) :=
  let sockfd := i32 (lua_tointeger L 1) in
  if assert_sockfd sockfd then
    self ← fd2rbuf s sockfd;
    n ← sint (buf_len self - wptr self);
    Ret ([lua_pushinteger n], s)
  else Ret ([], s).

(** It pushes nothing and returns buf_len as the number of its results: Lua takes
    that many values from the top of the stack. *)
Definition lbuflen (L : list lval) (s : st) : res (list lval * st) :=
  let sockfd := i32 (lua_tointeger L 1) in
  if assert_sockfd sockfd then
    self ← fd2rbuf s sockfd;
    let n := buf_len self in
    if (0 <=? n) && (n <=? lua_gettop L)
    then Ret (drop (Z.to_nat (lua_gettop L - n)) L, s) else Undef
  else Ret ([], s).

Definition ldatalen (L : list lval) (s : st) : res (list lval * st) :=
  let sockfd := i32 (lua_tointeger L 1) in
  if assert_sockfd sockfd then
    self ← fd2rbuf s sockfd;
    datalen ← sint (wptr self - rptr self);
    Ret ([lua_pushinteger datalen], s)
  else Ret ([], s).

Definition lgetrptr (L : list lval) (s : st) : res (list lval * st) :=
  let sockfd := i32 (lua_tointeger L 1) in
  if assert_sockfd sockfd then
    self ← fd2rbuf s sockfd;
    Ret ([lua_pushlightuserdata (buf self + rptr self)], s)
  else Ret ([], s).

Definition lfind (L : list lval) (s : st) : res (list lval * st) :=
  let sockfd := i32 (lua_tointeger L 1) in
  let str := lua_tolstring L 2 in
  let str_len := match str with Some str => Z.of_nat (length str) | None => 0 end in
  let startpos := if lua_isnumber L 3 then i32 (lua_tointeger L 3) else 0 in
  self ← fd2rbuf s sockfd;
  e ← sint (rptr self + i32 str_len);
  if wptr self <=? e then Ret ([], s)
  else
    i ← sint (rptr self + startpos);
    str ← of_option str;
    r ← find_loop (h_mem (hp s)) (buf self) i (Z.to_nat (wptr self - i)) str;
    match r with
    | Some i => k ← sint (i - rptr self); Ret ([lua_pushinteger k], s)
    | None => Ret ([], s)
    end.

Definition lgetwptr (L : list lval) (s : st) : res (list lval * st) :=
  let sockfd := i32 (lua_tointeger L 1) in
  self ← fd2rbuf s sockfd;
  Ret ([lua_pushlightuserdata (buf self + wptr self)], s).

Definition lrskip (L : list lval) (s : st) : res (list lval * st) :=
  let sockfd := i32 (lua_tointeger L 1) in
  let len := i32 (lua_tointeger L 2) in
  self ← fd2rbuf s sockfd;
  avail ← sint (wptr self - rptr self);
  if avail <? len then Ret ([], s)
  else
    p ← sint (rptr self + len);
    Ret ([lua_pushinteger len], set_rbuf s sockfd (set_rptr self p)).

Definition lwskip (L : list lval) (s : st) : res (list lval * st) :=
  let sockfd := i32 (lua_tointeger L 1) in
  let len := i32 (lua_tointeger L 2) in
  self ← fd2rbuf s sockfd;
  p ← sint (wptr self + len);
  Ret ([lua_pushinteger len], set_rbuf s sockfd (set_wptr self p)).

Definition lbuf2line (L : list lval) (s : st) : res (list lval * st) :=
  let sockfd := i32 (lua_tointeger L 1) in
  self ← fd2rbuf s sockfd;
  if rptr self =? 0 then Ret ([], s)
  else
    len ← sint (wptr self - rptr self);
    l ← of_option (loadz (h_mem (hp s)) (buf self + rptr self) (u64 len));
    m ← of_option (mstore (h_mem (hp s)) (buf self) l);
    Ret ([], set_rbuf (set_mem s m) sockfd (RBuf (buf_len self) 0 len (buf self))).

Definition lreadbuf (L : list lval) (s : st) : res (list lval * st) :=
  let sockfd := i32 (lua_tointeger L 1) in
  let buflen := i32 (lua_tointeger L 2) in
  self ← fd2rbuf s sockfd;
  avail ← sint (wptr self - rptr self);
  if avail <? buflen then Ret ([], s)
  else
    l ← of_option (loadz (h_mem (hp s)) (buf self + rptr self) (u64 buflen));
    p ← sint (rptr self + buflen);
    Ret ([lua_pushlstring l], set_rbuf s sockfd (set_rptr self p)).

Definition lreadint8 (L : list lval) (s : st) : res (list lval * st) :=
  '(l, s) ← read_buf (i32 (lua_tointeger L 1)) 1 s;
  Ret ([lua_pushinteger (i8 (le_dec l))], s).
Definition lreadint16 (L : list lval) (s : st) : res (list lval * st) :=
  '(l, s) ← read_buf (i32 (lua_tointeger L 1)) 2 s;
  Ret ([lua_pushinteger (i16 (le_dec l))], s).
Definition lreadint32 (L : list lval) (s : st) : res (list lval * st) :=
  '(l, s) ← read_buf (i32 (lua_tointeger L 1)) 4 s;
  Ret ([lua_pushinteger (i32 (le_dec l))], s).

Definition lgetint8 (L : list lval) (s : st) : res (list lval * st) :=
  l ← get_buf (i32 (lua_tointeger L 1)) 1 s;
  Ret ([lua_pushinteger (i8 (le_dec l))], s).
(** The macro uint32 of this file is [unsigned short]. *)
Definition lgetuint32 (L : list lval) (s : st) : res (list lval * st) :=
  l ← get_buf (i32 (lua_tointeger L 1)) 2 s;
  Ret ([lua_pushinteger (u16 (le_dec l))], s).
Definition lgetuint16 (L : list lval) (s : st) : res (list lval * st) :=
  l ← get_buf (i32 (lua_tointeger L 1)) 2 s;
  Ret ([lua_pushinteger (u16 (le_dec l))], s).
Definition lgetint16 (L : list lval) (s : st) : res (list lval * st) :=
  l ← get_buf (i32 (lua_tointeger L 1)) 2 s;
  Ret ([lua_pushinteger (i16 (le_dec l))], s).
Definition lgetint32 (L : list lval) (s : st) : res (list lval * st) :=
  l ← get_buf (i32 (lua_tointeger L 1)) 4 s;
  Ret ([lua_pushinteger (i32 (le_dec l))], s).

Definition lcreate (L : list lval) (s : st) : res (list lval * st) :=
  let sockfd := i32 (lua_tointeger L 1) in
  let size := i32 (lua_tointeger L 2) in
  '(r, s) ← recvbuf_create sockfd size s;
  if r =? 0 then Ret ([lua_pushboolean true], s) else Ret ([], s).

Open Scope string_scope.
Definition lua_lib : list (string * (list lval -> st -> res (list lval * st))) :=
  [("test", ltest); ("create", lcreate); ("free", lfree); ("readint8", lreadint8);
   ("readint16", lreadint16); ("readint32", lreadint32); ("readbuf", lreadbuf);
   ("getint8", lgetint8); ("getint16", lgetint16); ("getint32", lgetint32);
   ("getuint16", lgetuint16); ("getuint32", lgetuint32); ("buf2line", lbuf2line);
   ("wskip", lwskip); ("rskip", lrskip); ("getwptr", lgetwptr); ("getrptr", lgetrptr);
   ("datalen", ldatalen); ("buflen", lbuflen); ("find", lfind); ("bufremain", lbufremain)].
Close Scope string_scope.
End Api.

(** ** Specification *)

(** The bytes received but not yet read. *)
Definition unread (s : st) (fd : Z) : option bytes :=
  let r := rbuf_of s fd in mload (h_mem (hp s)) (buf r + rptr r) (Z.to_nat (wptr r - rptr r)).

Definition buf_ok (s : st) (r : rbuf) : Prop :=
  0 <= rptr r <= wptr r /\ wptr r <= buf_len r <= INT_MAX /\
  (buf r = NULL /\ buf_len r = 0 \/ h_blk (hp s) !! buf r = Some (buf_len r)).

(** Cursors are ordered, each buffer is a live block of its size, and no two
    sockets share one. *)
Record Inv (s : st) : Prop := {
  inv_heap : heap_ok (hp s);
  inv_buf : forall fd, buf_ok s (rbuf_of s fd);
  inv_own : forall fd fd', fd <> fd' -> buf (rbuf_of s fd) = buf (rbuf_of s fd') ->
    buf (rbuf_of s fd) = NULL;
}.

(** The event loop: the kernel delivers [v], of which at most bufremain bytes are
    copied to getwptr; then wskip. *)
Definition receive {F : LuaFmt} (fd : Z) (v : bytes) (s : st) : res (bytes * st) :=
  self ← fd2rbuf s fd;
  let v := take (Z.to_nat (buf_len self - wptr self)) v in
  m ← of_option (mstore (h_mem (hp s)) (buf self + wptr self) v);
  '(_, s) ← lwskip [lua_pushinteger fd; lua_pushinteger (Z.of_nat (length v))] (set_mem s m);
  Ret (v, s).

Inductive ev := EReceive (fd : Z) (v : bytes) | ERead (fd n : Z) | ESkip (fd n : Z) | ELine (fd : Z).
Definition ev_ok (e : ev) : Prop :=
  match e with
  | EReceive fd _ | ELine fd => 0 <= fd < MAX_SOCKET
  | ERead fd n | ESkip fd n => 0 <= fd < MAX_SOCKET /\ 0 <= n <= INT_MAX
  end.
Definition str_of (out : list lval) : bytes := match out with [LStr l] => l | _ => [] end.

Section Run.
Context {F : LuaFmt}.
(** Per socket, the bytes received and the bytes the script has read or skipped. *)
Fixpoint run (evs : list ev) (s : st) (inp got : Z -> bytes) : res (st * (Z -> bytes) * (Z -> bytes)) :=
  match evs with
  | [] => Ret (s, inp, got)
  | EReceive fd v :: evs =>
      '(v, s) ← receive fd v s;
      run evs s (upd inp fd (inp fd ++ v)) got
  | ERead fd n :: evs =>
      '(out, s) ← lreadbuf [lua_pushinteger fd; lua_pushinteger n] s;
      run evs s inp (upd got fd (got fd ++ str_of out))
  | ESkip fd n :: evs =>
      '(out, s') ← lrskip [lua_pushinteger fd; lua_pushinteger n] s;
      let skipped := match out with
                     | [] => []
                     | _ => take (Z.to_nat n) (default [] (unread s fd))
                     end in
      run evs s' inp (upd got fd (got fd ++ skipped))
  | ELine fd :: evs =>
      '(_, s) ← lbuf2line [lua_pushinteger fd] s;
      run evs s inp got
  end.
End Run.

(** The stream contract. *)
Definition stream (s : st) (inp got : Z -> bytes) : Prop :=
  Inv s /\ forall fd, exists d, unread s fd = Some d /\ inp fd = got fd ++ d.

(** ** Lemmas *)

Lemma fd2rbuf_ok s fd : 0 <= fd < MAX_SOCKET -> fd2rbuf s fd = Ret (rbuf_of s fd).
Proof.
  intros H. unfold fd2rbuf. rewrite (proj2 (Z.leb_le 0 fd)), (proj2 (Z.ltb_lt fd _)) by lia. done.
Qed.

Lemma fd_int fd : 0 <= fd < MAX_SOCKET -> in_s 32 fd.
Proof. unfold MAX_SOCKET, in_s. lia. Qed.
Lemma n_int n : 0 <= n <= INT_MAX -> in_s 32 n.
Proof. unfold INT_MAX, in_s. lia. Qed.

Lemma rbuf_of_set s fd r fd' : rbuf_of (set_rbuf s fd r) fd' = if decide (fd' = fd) then r else rbuf_of s fd'.
Proof.
  unfold rbuf_of. cbn. case_decide as H; [subst; by rewrite lookup_insert_eq|].
  by rewrite lookup_insert_ne.
Qed.

Lemma buf_mapped s fd : Inv s -> mapped (h_mem (hp s)) (buf (rbuf_of s fd)) (buf_len (rbuf_of s fd)).
Proof.
  intros [Hh Hb _]. destruct (Hb fd) as (_ & _ & [[-> ->]|H]); [intros x Hx; lia|].
  by apply (heap_mapped _ Hh).
Qed.

Lemma unread_some s fd : Inv s -> exists d, unread s fd = Some d /\
  Z.of_nat (length d) = wptr (rbuf_of s fd) - rptr (rbuf_of s fd).
Proof.
  intros HI. destruct (inv_buf _ HI fd) as (H1 & H2 & _). unfold unread.
  destruct (mload_mapped (h_mem (hp s)) (buf (rbuf_of s fd) + rptr (rbuf_of s fd))
    (Z.to_nat (wptr (rbuf_of s fd) - rptr (rbuf_of s fd)))) as [d Hd].
  { intros x Hx. apply (buf_mapped s fd HI). lia. }
  exists d. split; [done|]. apply mload_length in Hd. lia.
Qed.

(** Moving the cursors of one buffer. *)
Lemma Inv_set_cursors s fd p w :
  Inv s -> 0 <= p <= w -> w <= buf_len (rbuf_of s fd) ->
  Inv (set_rbuf s fd (RBuf (buf_len (rbuf_of s fd)) p w (buf (rbuf_of s fd)))).
Proof.
  intros [Hh Hb Ho] Hp Hw. constructor; [done| |].
  - intros fd'. rewrite rbuf_of_set. case_decide; [|apply Hb].
    destruct (Hb fd) as (? & ? & ?). split_and!; cbn; try done; lia.
  - intros fd1 fd2 Hne. rewrite !rbuf_of_set. repeat case_decide; subst; cbn; try done; exact (Ho _ _ Hne).
Qed.

Lemma Inv_set_mem s a l m : mstore (h_mem (hp s)) a l = Some m -> Inv s -> Inv (set_mem s m).
Proof. intros Hm [Hh Hb Ho]. constructor; [|done|done]. by eapply mstore_heap_ok. Qed.

(** A store inside one socket's buffer leaves what other sockets have to read. *)
Lemma unread_store_other s fd fd' a l m :
  Inv s -> fd' <> fd -> mstore (h_mem (hp s)) a l = Some m ->
  buf (rbuf_of s fd) <= a -> a + Z.of_nat (length l) <= buf (rbuf_of s fd) + buf_len (rbuf_of s fd) ->
  unread (set_mem s m) fd' = unread s fd'.
Proof.
  intros HI Hne Hm Ha Hl. apply mload_agree. intros x Hx.
  change (rbuf_of (set_mem s m) fd') with (rbuf_of s fd') in *.
  rewrite (mstore_lookup _ _ _ _ Hm), decide_False; [done|]. intros Hin.
  destruct (inv_buf _ HI fd) as (H1 & H2 & [[_ H3]|H3]); [lia|].
  destruct (inv_buf _ HI fd') as (H1' & H2' & [[_ H3']|H3']); [lia|].
  assert (E : buf (rbuf_of s fd') = buf (rbuf_of s fd)).
  { apply (heap_disj _ (inv_heap _ HI) _ _ _ _ x H3' H3); lia. }
  apply (inv_own _ HI fd' fd Hne) in E as E'.
  destruct (heap_mapped _ (inv_heap _ HI) _ _ H3'). unfold NULL in *. lia.
Qed.

Lemma unread_set_other s fd fd' r : fd' <> fd -> unread (set_rbuf s fd r) fd' = unread s fd'.
Proof. intros H. unfold unread. rewrite rbuf_of_set, decide_False by done. done. Qed.

Section OpLemmas.
Context {F : LuaFmt}.

Lemma receive_ok s fd v d :
  Inv s -> 0 <= fd < MAX_SOCKET -> unread s fd = Some d ->
  exists s', let v' := take (Z.to_nat (buf_len (rbuf_of s fd) - wptr (rbuf_of s fd))) v in
    receive fd v s = Ret (v', s') /\ Inv s' /\ unread s' fd = Some (d ++ v') /\
    forall fd', fd' <> fd -> unread s' fd' = unread s fd'.
Proof.
  intros HI Hfd Hd. destruct (inv_buf _ HI fd) as (Hc1 & Hc2 & _).
  set (r := rbuf_of s fd) in *. set (v' := take (Z.to_nat (buf_len r - wptr r)) v).
  assert (Hv' : Z.of_nat (length v') <= buf_len r - wptr r) by (unfold v'; rewrite length_take; lia).
  destruct (mstore_mapped (h_mem (hp s)) (buf r + wptr r) v') as [m Hm].
  { intros x Hx. apply (buf_mapped s fd HI). fold r. lia. }
  unfold receive. rewrite fd2rbuf_ok, bind_Ret_l by done. fold r v'. rewrite Hm. cbn [of_option].
  rewrite bind_Ret_l. unfold lwskip. rewrite int_arg1 by by apply fd_int.
  rewrite int_arg2 by (apply n_int; lia). rewrite fd2rbuf_ok, bind_Ret_l by done.
  change (rbuf_of (set_mem s m) fd) with r. rewrite sint_ok by (unfold INT_MIN; lia).
  rewrite !bind_Ret_l. eexists. split; [done|]. split; [|split].
  - apply (Inv_set_cursors (set_mem s m) fd); [by eapply Inv_set_mem|change (rbuf_of (set_mem s m) fd) with r; lia..].
  - unfold unread. rewrite rbuf_of_set, decide_True by done. cbn.
    replace (Z.to_nat (wptr r + Z.of_nat (length v') - rptr r))
      with (Z.to_nat (wptr r - rptr r) + length v')%nat by lia.
    apply mload_app.
    + unfold unread in Hd. fold r in Hd. rewrite <- Hd.
      eapply mload_mstore_disj; [exact Hm|]. left. lia.
    + replace (buf r + rptr r + Z.of_nat (Z.to_nat (wptr r - rptr r))) with (buf r + wptr r) by lia.
      by eapply mload_mstore_same.
  - intros fd' Hne. rewrite unread_set_other by done.
    eapply unread_store_other; try done; fold r; lia.
Qed.

(** The state after [n] bytes were consumed. *)
Lemma consume_ok s fd d n :
  Inv s -> unread s fd = Some d -> 0 <= n <= Z.of_nat (length d) ->
  let r := rbuf_of s fd in
  let s' := set_rbuf s fd (set_rptr r (rptr r + n)) in
  Inv s' /\ unread s' fd = Some (drop (Z.to_nat n) d) /\
  forall fd', fd' <> fd -> unread s' fd' = unread s fd'.
Proof.
  intros HI Hd Hn r s'. destruct (inv_buf _ HI fd) as (Hc1 & Hc2 & _). fold r in Hc1, Hc2.
  unfold unread in Hd. fold r in Hd. pose proof (mload_length _ _ _ _ Hd) as Hlen.
  split; [apply Inv_set_cursors; fold r; [done|lia..]|]. split.
  - unfold unread, s'. rewrite rbuf_of_set, decide_True by done. cbn.
    replace (Z.to_nat (wptr r - rptr r)) with (Z.to_nat n + Z.to_nat (wptr r - (rptr r + n)))%nat in Hd by lia.
    apply mload_app_inv in Hd as [_ Hd]. rewrite <- Hd. f_equal. lia.
  - intros fd' Hne. by apply unread_set_other.
Qed.

Lemma lreadbuf_ok s fd d n :
  Inv s -> 0 <= fd < MAX_SOCKET -> 0 <= n <= INT_MAX -> unread s fd = Some d ->
  lreadbuf [lua_pushinteger fd; lua_pushinteger n] s =
  if Z.of_nat (length d) <? n then Ret ([], s)
  else Ret ([LStr (take (Z.to_nat n) d)],
            set_rbuf s fd (set_rptr (rbuf_of s fd) (rptr (rbuf_of s fd) + n))).
Proof.
  intros HI Hfd Hn Hd. destruct (inv_buf _ HI fd) as (Hc1 & Hc2 & _).
  unfold lreadbuf. rewrite int_arg1, int_arg2 by (first [by apply fd_int | by apply n_int]).
  rewrite fd2rbuf_ok, bind_Ret_l by done.
  pose proof (mload_length _ _ _ _ Hd) as Hlen. set (r := rbuf_of s fd) in *.
  rewrite (sint_ok (wptr r - rptr r)), bind_Ret_l by (unfold INT_MIN; lia).
  replace (wptr r - rptr r) with (Z.of_nat (length d)) by lia.
  destruct (Z.ltb_spec (Z.of_nat (length d)) n); [done|].
  unfold INT_MAX in *. rewrite wrapU_id by (unfold in_u; lia).
  unfold unread in Hd. fold r in Hd.
  replace (Z.to_nat (wptr r - rptr r)) with (Z.to_nat n + Z.to_nat (wptr r - rptr r - n))%nat in Hd by lia.
  apply mload_app_inv in Hd as [Hd _].
  rewrite loadz_mapped, Hd; [|lia|eapply mload_Some_mapped in Hd; by rewrite Z2Nat.id in Hd by lia].
  cbn [of_option]. rewrite bind_Ret_l, sint_ok by (unfold INT_MIN, INT_MAX; lia). done.
Qed.

Lemma lrskip_ok s fd d n :
  Inv s -> 0 <= fd < MAX_SOCKET -> 0 <= n <= INT_MAX -> unread s fd = Some d ->
  lrskip [lua_pushinteger fd; lua_pushinteger n] s =
  if Z.of_nat (length d) <? n then Ret ([], s)
  else Ret ([lua_pushinteger n],
            set_rbuf s fd (set_rptr (rbuf_of s fd) (rptr (rbuf_of s fd) + n))).
Proof.
  intros HI Hfd Hn Hd. destruct (inv_buf _ HI fd) as (Hc1 & Hc2 & _).
  unfold lrskip. rewrite int_arg1, int_arg2 by (first [by apply fd_int | by apply n_int]).
  rewrite fd2rbuf_ok, bind_Ret_l by done.
  pose proof (mload_length _ _ _ _ Hd) as Hlen. set (r := rbuf_of s fd) in *.
  rewrite (sint_ok (wptr r - rptr r)), bind_Ret_l by (unfold INT_MIN; lia).
  replace (wptr r - rptr r) with (Z.of_nat (length d)) by lia.
  destruct (Z.ltb_spec (Z.of_nat (length d)) n); [done|].
  rewrite sint_ok by (unfold INT_MIN; lia). done.
Qed.

(** buf2line moves the unread bytes to the front. *)
Lemma lbuf2line_ok s fd d :
  Inv s -> 0 <= fd < MAX_SOCKET -> unread s fd = Some d ->
  exists s', lbuf2line [lua_pushinteger fd] s = Ret ([], s') /\ Inv s' /\
    unread s' fd = Some d /\ rptr (rbuf_of s' fd) = 0 /\
    wptr (rbuf_of s' fd) = Z.of_nat (length d) /\
    forall fd', fd' <> fd -> unread s' fd' = unread s fd'.
Proof.
  intros HI Hfd Hd. destruct (inv_buf _ HI fd) as (Hc1 & Hc2 & _).
  pose proof (mload_length _ _ _ _ Hd) as Hlen. set (r := rbuf_of s fd) in *.
  unfold lbuf2line. rewrite int_arg1 by by apply fd_int. rewrite fd2rbuf_ok, bind_Ret_l by done. fold r.
  destruct (Z.eqb_spec (rptr r) 0) as [E|E].
  { exists s. split_and!; try done. fold r. lia. }
  rewrite sint_ok, bind_Ret_l by (unfold INT_MIN; lia).
  unfold INT_MAX in *. rewrite wrapU_id by (unfold in_u; lia).
  pose proof Hd as Hd'. unfold unread in Hd'. fold r in Hd'.
  rewrite loadz_mapped, Hd'; [|lia|eapply mload_Some_mapped in Hd'; by rewrite Z2Nat.id in Hd' by lia].
  cbn [of_option]. rewrite bind_Ret_l.
  destruct (mstore_mapped (h_mem (hp s)) (buf r) d) as [m Hm].
  { intros x Hx. apply (buf_mapped s fd HI). fold r. lia. }
  rewrite Hm. cbn [of_option]. rewrite bind_Ret_l. eexists. split; [done|].
  split; [|split; [|split; [|split]]].
  - apply (Inv_set_cursors (set_mem s m) fd); [by eapply Inv_set_mem|change (rbuf_of (set_mem s m) fd) with r; lia..].
  - unfold unread. rewrite rbuf_of_set, decide_True by done. cbn. rewrite Z.add_0_r.
    replace (Z.to_nat (wptr r - rptr r - 0)) with (length d) by lia. by eapply mload_mstore_same.
  - rewrite rbuf_of_set, decide_True by done. done.
  - rewrite rbuf_of_set, decide_True by done. cbn. lia.
  - intros fd' Hne. rewrite unread_set_other by done.
    eapply unread_store_other; try done; fold r; lia.
Qed.
End OpLemmas.

Section RunLemmas.
Context {F : LuaFmt}.

(** Consuming [n] bytes keeps the stream contract. *)
Lemma stream_consume s inp got fd d n :
  stream s inp got -> unread s fd = Some d -> 0 <= n <= Z.of_nat (length d) ->
  stream (set_rbuf s fd (set_rptr (rbuf_of s fd) (rptr (rbuf_of s fd) + n))) inp
         (upd got fd (got fd ++ take (Z.to_nat n) d)).
Proof.
  intros [HI Hq] Hd Hn. destruct (consume_ok s fd d n HI Hd Hn) as (HI' & Hd' & Ho).
  split; [done|]. intros fd'. destruct (decide (fd' = fd)) as [->|Hne].
  - eexists. split; [exact Hd'|]. destruct (Hq fd) as (d0 & Hd0 & ->).
    rewrite Hd in Hd0. injection Hd0 as <-. by rewrite upd_eq, <- app_assoc, take_drop.
  - rewrite Ho, upd_ne by done. apply Hq.
Qed.

Lemma stream_same_got s inp got fd : stream s inp got -> stream s inp (upd got fd (got fd ++ [])).
Proof.
  intros [HI Hq]. split; [done|]. intros fd'. destruct (decide (fd' = fd)) as [->|Hne];
    [rewrite upd_eq, app_nil_r|rewrite upd_ne by done]; apply Hq.
Qed.

Lemma run_stream evs : forall s inp got,
  Forall ev_ok evs -> stream s inp got ->
  exists s' inp' got', run evs s inp got = Ret (s', inp', got') /\ stream s' inp' got'.
Proof.
  induction evs as [|e evs IH]; intros s inp got Hok HS; [by do 3 eexists|].
  apply Forall_cons in Hok as [He Hoks]. pose proof HS as [HI Hq].
  destruct e as [fd v|fd n|fd n|fd]; cbn [run ev_ok] in *.
  - destruct (Hq fd) as (d & Hd & Hi).
    destruct (receive_ok s fd v d HI He Hd) as (s1 & Hs1 & HI1 & Hd1 & Ho).
    rewrite Hs1, bind_Ret_l. apply IH; [done|]. split; [done|]. intros fd'.
    destruct (decide (fd' = fd)) as [->|Hne].
    + eexists. split; [exact Hd1|]. by rewrite upd_eq, Hi, app_assoc.
    + rewrite Ho, upd_ne by done. apply Hq.
  - destruct He as [Hfd Hn], (Hq fd) as (d & Hd & Hi).
    rewrite (lreadbuf_ok s fd d n) by done.
    destruct (Z.ltb_spec (Z.of_nat (length d)) n); rewrite bind_Ret_l; apply IH; try done;
      [by apply stream_same_got|]. apply (stream_consume _ _ _ fd d n); [done|done|lia].
  - destruct He as [Hfd Hn], (Hq fd) as (d & Hd & Hi).
    rewrite (lrskip_ok s fd d n) by done. rewrite Hd. cbn [default].
    destruct (Z.ltb_spec (Z.of_nat (length d)) n); rewrite bind_Ret_l; apply IH; try done;
      [by apply stream_same_got|]. apply (stream_consume _ _ _ fd d n); [done|done|lia].
  - destruct (Hq fd) as (d & Hd & Hi).
    destruct (lbuf2line_ok s fd d HI He Hd) as (s1 & Hs1 & HI1 & Hd1 & _ & _ & Ho).
    rewrite Hs1, bind_Ret_l. apply IH; [done|]. split; [done|]. intros fd'.
    destruct (decide (fd' = fd)) as [->|Hne]; [by exists d|]. rewrite Ho by done. apply Hq.
Qed.
End RunLemmas.

(** *** Creation *)

Section CreateLemmas.
Context {A : Allocator} {AOk : AllocatorOk A}.

(** A heap that keeps every byte and block of the other sockets keeps [Inv] and what
    they have to read. *)
Lemma Inv_new_heap s fd r h total :
  Inv s -> heap_ok h -> buf_ok (St (rbufs s) total h) r ->
  (forall fd' n, fd' <> fd -> h_blk (hp s) !! buf (rbuf_of s fd') = Some n ->
     h_blk h !! buf (rbuf_of s fd') = Some n /\ (buf r = buf (rbuf_of s fd') -> False)) ->
  Inv (St (<[fd := r]> (rbufs s)) total h).
Proof.
  intros HI Hh Hr Hk.
  assert (E : forall fd', rbuf_of (St (<[fd := r]> (rbufs s)) total h) fd' =
                          if decide (fd' = fd) then r else rbuf_of s fd') by exact (rbuf_of_set s fd r).
  assert (Hown : forall fd', fd' <> fd -> buf r = buf (rbuf_of s fd') -> buf r = NULL).
  { intros fd' Hne Heq. destruct (inv_buf _ HI fd') as (_ & _ & [[H _]|H]); [congruence|].
    by destruct (Hk fd' _ Hne H). }
  constructor; [done| |].
  - intros fd'. rewrite E. case_decide as Hd; [done|].
    destruct (inv_buf _ HI fd') as (H1 & H2 & H3). split_and!; try done; try lia.
    destruct H3 as [?|H3]; [by left|]. right. by apply (Hk fd').
  - intros fd1 fd2 Hne. rewrite !E. repeat case_decide; subst; try done.
    + by apply Hown.
    + intros Heq. rewrite Heq. apply (Hown fd1); done.
    + by apply (inv_own _ HI).
Qed.
End CreateLemmas.

(** Dropping the old buffer keeps every other socket's block and bytes. *)
Lemma drop_buf_ok s fd :
  Inv s -> 0 <= mem_total s <= INT_MAX ->
  exists h, drop_buf (rbuf_of s fd) s
      = Ret (RBuf 0 (rptr (rbuf_of s fd)) (wptr (rbuf_of s fd)) NULL, mem_total s, h) /\ heap_ok h /\
    forall fd' n, fd' <> fd -> h_blk (hp s) !! buf (rbuf_of s fd') = Some n ->
      h_blk h !! buf (rbuf_of s fd') = Some n /\
      forall x, buf (rbuf_of s fd') <= x < buf (rbuf_of s fd') + n -> h_mem h !! x = h_mem (hp s) !! x.
Proof.
  intros HI Ht. destruct (inv_buf _ HI fd) as (Hc1 & Hc2 & Hc3). unfold drop_buf.
  set (r := rbuf_of s fd) in *.
  destruct (Z.eqb_spec (buf r) NULL) as [E|E].
  - exists (hp s). split; [|split; [apply HI|done]].
    destruct r as [l p w b]; cbn in *. subst b. do 3 f_equal.
    destruct Hc3 as [[_ ->]|Hb]; [done|]. destruct (heap_mapped _ (inv_heap _ HI) _ _ Hb). unfold NULL in *. lia.
  - destruct Hc3 as [[? _]|Hb]; [done|].
    destruct (free_heap_ok _ _ _ (inv_heap _ HI) Hb) as (h & Hf & Hh & Hblk & Hmem).
    exists h. rewrite Hf, bind_Ret_l. cbn [buf_len]. rewrite Z.sub_0_r, sint_ok by (unfold INT_MIN, INT_MAX in *; lia).
    split; [done|]. split; [done|]. intros fd' n Hne Hb'.
    assert (Hd : buf r <> buf (rbuf_of s fd')) by (intros Heq; apply E; by apply (inv_own _ HI fd fd')).
    split; [by rewrite Hblk, lookup_delete_ne|]. intros x Hx. apply Hmem. intros Hx'.
    apply Hd. by eapply (heap_disj _ (inv_heap _ HI)).
Qed.

(** C2.  Functional refinement: the module is a byte stream per socket.  From any
    state where the buffers are live and disjoint, any sequence of receives,
    reads, skips and compactions on sockets below MAX_SOCKET, whose reads and skips
    ask for zero or more bytes, runs without undefined behaviour, and on every
    socket the received bytes are exactly the consumed ones followed by the
    unread ones; compaction neither loses nor reorders a byte.  A receive takes what
    has room, as the event loop does.  The counts must not be negative: rskip of a
    negative count moves the cursor back and the script reads consumed bytes again
    (SrvDispatch.negative_length_rewinds). *)
Theorem recvbuf_stream {F : LuaFmt} s inp got evs :
  stream s inp got -> Forall ev_ok evs ->
  exists s' inp' got', run evs s inp got = Ret (s', inp', got') /\ stream s' inp' got'.
Proof. intros HS Hok. by apply run_stream. Qed.

(** Socket 3 has a 16-byte buffer. *)
Definition ex_state : st :=
  St {[3 := RBuf 16 0 0 4096]} 16 (Heap (map_zeros ∅ 4096 16) {[4096 := 16]}).

Lemma ex_rbuf fd : rbuf_of ex_state fd = if decide (fd = 3) then RBuf 16 0 0 4096 else RBuf 0 0 0 NULL.
Proof.
  unfold rbuf_of, ex_state. cbn [rbufs]. rewrite lookup_singleton.
  repeat case_decide; try lia; done.
Qed.

Lemma ex_heap_ok : heap_ok (hp ex_state).
Proof.
  split; cbn [ex_state hp h_blk h_mem].
  - intros p n [<- <-]%lookup_singleton_Some. split; [lia|]. intros x Hx.
    rewrite map_zeros_lookup, decide_True by lia. eauto.
  - intros p n p' n' x [<- <-]%lookup_singleton_Some [<- <-]%lookup_singleton_Some. done.
Qed.

Lemma ex_Inv : Inv ex_state.
Proof.
  constructor; [exact ex_heap_ok| |].
  - intros fd. rewrite ex_rbuf. case_decide; (split_and!; cbn; unfold INT_MAX; first [lia|by right|by left]).
  - intros fd fd' Hne. rewrite !ex_rbuf. repeat case_decide; subst; done.
Qed.

Lemma ex_stream : stream ex_state (fun _ => []) (fun _ => []).
Proof.
  split; [exact ex_Inv|]. intros fd. destruct (unread_some ex_state fd ex_Inv) as (d & Hd & Hlen).
  exists d. split; [done|]. rewrite ex_rbuf in Hlen. case_decide; cbn in Hlen; by destruct d.
Qed.

Lemma recvbuf_stream_witness :
  exists s' inp' got',
    run (F := NoFmt) [EReceive 3 [1; 2; 3; 4]; ERead 3 1; ELine 3; EReceive 3 [5]; ESkip 3 2; ERead 3 9]
      ex_state (fun _ => []) (fun _ => []) = Ret (s', inp', got') /\ stream s' inp' got'.
Proof.
  apply (@recvbuf_stream NoFmt); [exact ex_stream|].
  repeat constructor; cbn; unfold MAX_SOCKET, INT_MAX; lia.
Defined.

(** recvbuf_create gives the socket an empty buffer of at least the size asked
    for and touches no other socket, whether it keeps the old buffer, frees it for
    a larger one or allocates the first one.  The global mem_total grows by [size]
    every time a buffer is allocated: what was freed is never taken off it. *)
Theorem recvbuf_create_spec {A : Allocator} {AOk : AllocatorOk A} s fd size r s' :
  Inv s -> 0 <= fd < MAX_SOCKET -> 0 <= size <= INT_MAX ->
  0 <= mem_total s -> mem_total s + size <= INT_MAX ->
  recvbuf_create fd size s = Ret (r, s') -> r = 0 ->
  Inv s' /\ unread s' fd = Some [] /\ size <= buf_len (rbuf_of s' fd) /\
  mem_total s' = mem_total s + (if buf_len (rbuf_of s fd) <? size then size else 0) /\
  forall fd', fd' <> fd -> unread s' fd' = unread s fd'.
Proof.
  intros HI Hfd Hsize Ht1 Ht2 H ->. unfold recvbuf_create in H. rewrite fd2rbuf_ok, bind_Ret_l in H by done.
  destruct (inv_buf _ HI fd) as (Hc1 & Hc2 & Hc3). set (r := rbuf_of s fd) in *.
  revert H. destruct (Z.ltb_spec (buf_len r) size) as [Hlt|Hge]; intros H.
  2:{ injection H as <-. split; [apply (Inv_set_cursors s fd 0 0 HI); fold r; lia|].
      unfold unread at 1. rewrite !rbuf_of_set, !decide_True by done. cbn. split_and!; [done|lia|lia|].
      intros fd' Hne. by apply unread_set_other. }
  destruct (drop_buf_ok s fd HI ltac:(lia)) as (h & Hd & Hh & Hkeep). fold r in Hd.
  rewrite Hd, bind_Ret_l in H. cbn in Hkeep.
  unfold INT_MAX in *. rewrite wrapU_id in H by (unfold in_u; lia).
  destruct (malloc h size) as [[p h']|] eqn:Em; [|discriminate H].
  pose proof (malloc_ok h size p h' ltac:(lia) Em) as Hm. pose proof Hm as (Hp & Hnew & Hblk & _ & Hout).
  rewrite sint_ok, bind_Ret_l in H by (unfold INT_MIN, INT_MAX; lia). injection H as <-.
  assert (Hk : forall fd' n, fd' <> fd -> h_blk (hp s) !! buf (rbuf_of s fd') = Some n ->
    h_blk h' !! buf (rbuf_of s fd') = Some n /\ (p = buf (rbuf_of s fd') -> False)).
  { intros fd' n Hne Hb. destruct (Hkeep fd' n Hne Hb) as [Hb' _].
    assert (p <> buf (rbuf_of s fd')) by congruence. by rewrite Hblk, lookup_insert_ne. }
  split; [|split; [|split; [|split]]].
  - apply (Inv_new_heap s fd (RBuf size 0 0 p)); [done|by eapply malloc_heap_ok| |done].
    split_and!; cbn; unfold INT_MAX; try lia. right. by rewrite Hblk, lookup_insert_eq.
  - unfold unread, rbuf_of. cbn. by rewrite lookup_insert_eq.
  - unfold rbuf_of. cbn. rewrite lookup_insert_eq. cbn. lia.
  - done.
  - intros fd' Hne. unfold unread.
    assert (E : rbuf_of (St (<[fd := RBuf size 0 0 p]> (rbufs s)) (mem_total s + size) h') fd' = rbuf_of s fd')
      by (unfold rbuf_of; cbn; by rewrite lookup_insert_ne).
    rewrite E. cbn [hp]. destruct (inv_buf _ HI fd') as (H1 & H2 & [[_ H3]|H3]).
    { replace (Z.to_nat (wptr (rbuf_of s fd') - rptr (rbuf_of s fd'))) with O by lia. done. }
    destruct (Hkeep fd' _ Hne H3) as [Hb' Hmem].
    destruct (unread_some s fd' HI) as (d & Hdd & _). unfold unread in Hdd. rewrite Hdd.
    eapply malloc_mload; [exact Hm|]. rewrite <- Hdd. apply mload_agree. intros x Hx. apply Hmem. lia.
Qed.

Lemma recvbuf_create_spec_witness :
  exists s', @recvbuf_create Bump 3 32 ex_state = Ret (0, s') /\
    Inv s' /\ unread s' 3 = Some [] /\ 32 <= buf_len (rbuf_of s' 3) /\
    mem_total s' = 16 + 32 /\ forall fd', fd' <> 3 -> unread s' fd' = unread ex_state fd'.
Proof.
  destruct (@recvbuf_create Bump 3 32 ex_state) as [[r s']| | |] eqn:E; [|by vm_compute in E..].
  assert (r = 0) as Hr by (vm_compute in E; by injection E as <- _).
  exists s'. split; [by rewrite Hr|].
  exact (@recvbuf_create_spec Bump Bump_ok ex_state 3 32 r s' ex_Inv ltac:(unfold MAX_SOCKET; lia)
    ltac:(unfold INT_MAX; lia) ltac:(cbn; lia) ltac:(cbn; unfold INT_MAX; lia) E Hr).
Defined.

(** *** Searching *)

Lemma strncmp_eq_spec m str : forall p l,
  Forall (fun c => c <> 0) str -> mload m p (length str) = Some l ->
  strncmp_eq m p str = Ret (bool_decide (l = str)).
Proof.
  induction str as [|c str IH]; intros p l Hnz Hl.
  { destruct l; [done|discriminate]. }
  apply Forall_cons in Hnz as [Hc Hnz]. cbn [length mload strncmp_eq] in *.
  destruct (m !! p) as [b|]; [|done]. cbn [of_option]. rewrite bind_Ret_l.
  destruct (mload m (p + 1) (length str)) as [l'|] eqn:El; [|done]. injection Hl as <-.
  destruct (Z.eqb_spec b c) as [->|Hne]; cbn [negb].
  - destruct (Z.eqb_spec c 0); [done|]. rewrite (IH _ l') by done. f_equal.
    apply bool_decide_ext. split; congruence.
  - f_equal. symmetry. apply bool_decide_eq_false. congruence.
Qed.

(** The loop finds the first match at or after [i], when no comparison before it
    runs past the data. *)
Lemma find_loop_first m base n str : forall i k,
  Forall (fun c => c <> 0) str -> i <= k < i + Z.of_nat n ->
  (forall j, i <= j <= k -> exists l, mload m (base + j) (length str) = Some l /\ (l = str <-> j = k)) ->
  find_loop m base i n str = Ret (Some k).
Proof.
  induction n as [|n IH]; intros i k Hnz Hk Hall; [lia|]. cbn [find_loop].
  destruct (Hall i ltac:(lia)) as (l & Hl & Heq). rewrite (strncmp_eq_spec _ _ _ l) by done.
  rewrite bind_Ret_l. case_bool_decide as Hb.
  - do 2 f_equal. by apply Heq.
  - assert (i <> k) by tauto. apply IH; [done|lia|]. intros j Hj. apply Hall. lia.
Qed.

(** Recvbuf.find returns the offset of the first occurrence of the pattern
    in the unread bytes at or after the start offset, for every pattern shorter
    than the unread data. *)
Theorem lfind_first {F : LuaFmt} s fd d str start k :
  Inv s -> 0 <= fd < MAX_SOCKET -> unread s fd = Some d ->
  Forall (fun c => c <> 0) str -> (length str < length d)%nat ->
  (start <= k)%nat -> (k + length str <= length d)%nat -> (k < length d)%nat ->
  take (length str) (drop k d) = str ->
  (forall j, (start <= j < k)%nat -> take (length str) (drop j d) <> str) ->
  lfind [lua_pushinteger fd; LStr str; lua_pushinteger (Z.of_nat start)] s =
  Ret ([lua_pushinteger (Z.of_nat k)], s).
Proof.
  intros HI Hfd Hd Hnz Hlen Hsk Hkd Hkl Hk Hfirst. destruct (inv_buf _ HI fd) as (Hc1 & Hc2 & _).
  unfold lfind. rewrite int_arg1 by by apply fd_int.
  pose proof (mload_length _ _ _ _ Hd) as Hdl.
  rewrite fd2rbuf_ok, bind_Ret_l by done.
  set (r := rbuf_of s fd) in *. unfold INT_MAX in *.
  change (lua_isnumber _ 3) with true. cbv iota. rewrite int_arg3 by (unfold in_s; lia).
  change (lua_tolstring _ 2) with (Some str). cbv iota.
  rewrite (wrapS_id 32 (Z.of_nat (length str))) by (unfold in_s; lia).
  sint_step.
  destruct (Z.leb_spec (wptr r) (rptr r + Z.of_nat (length str))); [lia|].
  sint_step. ret_step.
  rewrite (find_loop_first _ _ _ _ _ (rptr r + Z.of_nat k)); [|done|lia|].
  - ret_step. sint_step. by replace (rptr r + Z.of_nat k - rptr r) with (Z.of_nat k) by lia.
  - intros j Hj. set (o := Z.to_nat (j - rptr r)).
    exists (take (length str) (drop o d)). split.
    + unfold unread in Hd. fold r in Hd.
      replace (Z.to_nat (wptr r - rptr r))
        with (o + (length str + (length d - o - length str)))%nat in Hd by lia.
      apply mload_app_inv in Hd as [_ Hd]. apply mload_app_inv in Hd as [Hd _].
      rewrite <- Hd. f_equal. lia.
    + split; [|intros ->; unfold o; by replace (Z.to_nat (rptr r + Z.of_nat k - rptr r)) with k by lia].
      intros Heq. destruct (decide (o = k)); [lia|]. destruct (Hfirst o); [lia|done].
Qed.

(** A pattern that is all there is to read is reported as absent: the bound
    test of find rejects a pattern of the length of the unread data. *)
Theorem lfind_misses_whole {F : LuaFmt} s fd d start :
  Inv s -> 0 <= fd < MAX_SOCKET -> unread s fd = Some d ->
  lfind [lua_pushinteger fd; LStr d; start] s = Ret ([], s).
Proof.
  intros HI Hfd Hd. destruct (inv_buf _ HI fd) as (Hc1 & Hc2 & _).
  unfold lfind. rewrite int_arg1 by by apply fd_int. pose proof (mload_length _ _ _ _ Hd) as Hdl.
  rewrite fd2rbuf_ok, bind_Ret_l by done. set (r := rbuf_of s fd) in *. unfold INT_MAX in *.
  change (lua_tolstring _ 2) with (Some d). cbv iota.
  rewrite (wrapS_id 32 (Z.of_nat (length d))) by (unfold in_s; lia).
  sint_step.
  by destruct (Z.leb_spec (wptr r) (rptr r + Z.of_nat (length d))); [|lia].
Qed.

(** getuint32 reads only the low half: on four bytes that encode [v] it
    returns [v] modulo 2^16, where getint32 returns the 32-bit value. *)
Theorem getuint32_truncates {F : LuaFmt} s fd v rest :
  Inv s -> 0 <= fd < MAX_SOCKET -> unread s fd = Some (le_enc 4 v ++ rest) ->
  lgetuint32 [lua_pushinteger fd] s = Ret ([lua_pushinteger (u16 v)], s) /\
  lgetint32 [lua_pushinteger fd] s = Ret ([lua_pushinteger (i32 v)], s).
Proof.
  intros HI Hfd Hd. unfold lgetuint32, lgetint32, get_buf.
  rewrite int_arg1 by by apply fd_int. rewrite fd2rbuf_ok, !bind_Ret_l by done.
  pose proof (mload_length _ _ _ _ Hd) as Hdl. rewrite length_app, le_enc_length in Hdl.
  set (r := rbuf_of s fd) in *. unfold unread in Hd. fold r in Hd. rewrite <- Hdl in Hd.
  apply mload_app_inv in Hd as [H4 _]. rewrite take_app_length' in H4 by by rewrite le_enc_length.
  pose proof H4 as H2. change 4%nat with (2 + 2)%nat in H2. apply mload_app_inv in H2 as [H2 _].
  change (take 2 (le_enc (2 + 2) v)) with (le_enc 2 v) in H2.
  pose proof (loadz_mload _ _ (le_enc 2 v) H2) as L2. pose proof (loadz_mload _ _ (le_enc 4 v) H4) as L4.
  rewrite le_enc_length in L2, L4. change (Z.of_nat 2) with 2 in L2. change (Z.of_nat 4) with 4 in L4.
  rewrite L2, L4. cbn [of_option].
  rewrite !bind_Ret_l. split; do 4 f_equal.
  - rewrite (wrapU_le 2). apply wrapU_id, wrapU_range. lia.
  - apply (wrapS_le 4).
Qed.

(** Socket 3 with nine unread bytes: an integer, then "a=b;c". *)
Definition ex_data : bytes := le_enc 4 70000 ++ [97; 61; 98; 59; 99].
Definition ex_loaded : st :=
  set_rbuf (set_mem ex_state (default ∅ (mstore (map_zeros ∅ 4096 16) 4096 ex_data))) 3 (RBuf 16 0 9 4096).

Lemma ex_loaded_ok : Inv ex_loaded /\ unread ex_loaded 3 = Some ex_data.
Proof.
  split; [|by vm_compute].
  destruct (mstore (map_zeros ∅ 4096 16) 4096 ex_data) as [m|] eqn:E; [|by vm_compute in E].
  unfold ex_loaded. rewrite E. cbn [default].
  pose proof (Inv_set_mem ex_state 4096 ex_data m E ex_Inv) as HI.
  apply (Inv_set_cursors (set_mem ex_state m) 3 0 9 HI); [lia|].
  change (rbuf_of (set_mem ex_state m) 3) with (rbuf_of ex_state 3). rewrite ex_rbuf, decide_True by done. cbn. lia.
Qed.

Lemma lfind_first_witness :
  lfind (F := NoFmt) [lua_pushinteger 3; LStr [59]; lua_pushinteger (Z.of_nat 4)] ex_loaded =
  Ret ([lua_pushinteger (Z.of_nat 7)], ex_loaded).
Proof.
  apply (@lfind_first NoFmt ex_loaded 3 ex_data [59] 4 7); try (apply ex_loaded_ok); cbn.
  - unfold MAX_SOCKET; lia.
  - by constructor.
  - lia.
  - lia.
  - lia.
  - lia.
  - done.
  - intros j Hj. do 8 (destruct j as [|j]; [by (lia || (vm_compute; congruence))|]). lia.
Defined.

Lemma lfind_misses_whole_witness :
  lfind (F := NoFmt) [lua_pushinteger 3; LStr ex_data; lua_pushinteger 0] ex_loaded = Ret ([], ex_loaded).
Proof.
  apply (@lfind_misses_whole NoFmt); try (apply ex_loaded_ok). unfold MAX_SOCKET; lia.
Defined.

Lemma getuint32_truncates_witness :
  lgetuint32 (F := NoFmt) [lua_pushinteger 3] ex_loaded = Ret ([lua_pushinteger (u16 70000)], ex_loaded) /\
  lgetint32 (F := NoFmt) [lua_pushinteger 3] ex_loaded = Ret ([lua_pushinteger (i32 70000)], ex_loaded).
Proof.
  apply (@getuint32_truncates NoFmt ex_loaded 3 70000 [97; 61; 98; 59; 99]); try (apply ex_loaded_ok).
  unfold MAX_SOCKET; lia.
Defined.
