(* ===== verification/Ae.v ===== *)
(** * Ae: the event loop

    Source: src/src/ae/ae.cc, ae.h.  An event loop holds, per file descriptor, the
    events it is registered for with their handlers, and a list of time events.
    [aeProcessEvents] polls the operating system, runs the handlers of the fired
    descriptors and then the time events that are due.

    Handlers are C functions called through pointers: they run scripts, which call
    back into the loop.  So every operation here acts on a world [W] in which the
    loop is found by its address, and the loop is read again after each call.  The
    class [AeWorld] is what the loop uses of the rest of the process (its memory and
    the clock), [AeProcs] the functions behind the pointers, [AeApi] the polling
    layer (ae_select.cc, ae_epoll.cc or ae_kqueue.cc). *)
From S2P Require Import Prelude.
Local Open Scope Z_scope.

(** ** Data *)

Definition AE_OK : Z := 0.
Definition AE_ERR : Z := -1.
Definition AE_NONE : Z := 0.
Definition AE_READABLE : Z := 1.
Definition AE_WRITABLE : Z := 2.
Definition AE_FILE_EVENTS : Z := 1.
Definition AE_TIME_EVENTS : Z := 2.
Definition AE_ALL_EVENTS : Z := Z.lor AE_FILE_EVENTS AE_TIME_EVENTS.
Definition AE_DONT_WAIT : Z := 4.
Definition AE_NOMORE : Z := -1.

(** A test of the flags in [m] against [f], as C's [if (m & f)]. *)
Definition has (m f : Z) : bool := negb (Z.land m f =? 0).

(** Function pointers and client data are addresses. *)
Record aeFileEvent := FileEvent { fe_mask : Z; rfileProc : Z; wfileProc : Z; fe_clientData : Z }.
Record aeTimeEvent := TimeEvent {
  te_id : Z; when_sec : Z; when_ms : Z; timeProc : Z; finalizerProc : Z; te_clientData : Z }.
Record aeFiredEvent := FiredEvent { fired_fd : Z; fired_mask : Z }.

(** The arrays are lists of length setsize; the time events are the linked list
    from timeEventHead on, head first.  A time event is known by its id, which is
    never used again: a pointer to one that was freed is an id that is not in the
    list.  [D] is what apidata points to. *)
Record aeEventLoop (D : Type) := EventLoop {
  maxfd : Z; setsize : Z; timeEventNextId : Z; lastTime : Z;
  events : list aeFileEvent; fired : list aeFiredEvent; timeEvents : list aeTimeEvent;
  stop : Z; apidata : D; beforesleep : Z }.
Arguments EventLoop {D}. Arguments maxfd {D}. Arguments setsize {D}.
Arguments timeEventNextId {D}. Arguments lastTime {D}. Arguments events {D}.
Arguments fired {D}. Arguments timeEvents {D}. Arguments stop {D}.
Arguments apidata {D}. Arguments beforesleep {D}.

Section Update.
Context {D : Type}.
Implicit Types e : aeEventLoop D.
Definition set_events e (v : list aeFileEvent) : aeEventLoop D :=
  EventLoop (maxfd e) (setsize e) (timeEventNextId e) (lastTime e) v (fired e) (timeEvents e)
    (stop e) (apidata e) (beforesleep e).
Definition set_maxfd e (v : Z) : aeEventLoop D :=
  EventLoop v (setsize e) (timeEventNextId e) (lastTime e) (events e) (fired e) (timeEvents e)
    (stop e) (apidata e) (beforesleep e).
Definition set_times e (next : Z) (v : list aeTimeEvent) : aeEventLoop D :=
  EventLoop (maxfd e) (setsize e) next (lastTime e) (events e) (fired e) v
    (stop e) (apidata e) (beforesleep e).
Definition set_lastTime e (v : Z) : aeEventLoop D :=
  EventLoop (maxfd e) (setsize e) (timeEventNextId e) v (events e) (fired e) (timeEvents e)
    (stop e) (apidata e) (beforesleep e).
Definition set_fired e (v : list aeFiredEvent) : aeEventLoop D :=
  EventLoop (maxfd e) (setsize e) (timeEventNextId e) (lastTime e) (events e) v (timeEvents e)
    (stop e) (apidata e) (beforesleep e).
Definition set_stop e (v : Z) : aeEventLoop D :=
  EventLoop (maxfd e) (setsize e) (timeEventNextId e) (lastTime e) (events e) (fired e) (timeEvents e)
    v (apidata e) (beforesleep e).
Definition set_apidata e (v : D) : aeEventLoop D :=
  EventLoop (maxfd e) (setsize e) (timeEventNextId e) (lastTime e) (events e) (fired e) (timeEvents e)
    (stop e) v (beforesleep e).
Definition set_beforesleep e (v : Z) : aeEventLoop D :=
  EventLoop (maxfd e) (setsize e) (timeEventNextId e) (lastTime e) (events e) (fired e) (timeEvents e)
    (stop e) (apidata e) v.
End Update.

Definition when (te : aeTimeEvent) (s ms : Z) : aeTimeEvent :=
  TimeEvent (te_id te) s ms (timeProc te) (finalizerProc te) (te_clientData te).

(** ** What the loop uses of the process *)

Class AeWorld (W D : Type) := {
  loop_get : W -> Z -> option (aeEventLoop D);
  loop_set : W -> Z -> option (aeEventLoop D) -> W;
  (** malloc: [None] when there is no memory *)
  ae_malloc : W -> option Z * W;
  time_now : W -> Z * W;
  gettimeofday : W -> (Z * Z) * W;     (* seconds, microseconds *)
  (** poll on one descriptor: result and revents *)
  os_poll : Z -> Z -> Z -> W -> (Z * Z) * W;
}.

(** The functions behind the pointers: a file handler gets the loop, the descriptor,
    its client data and the fired mask; a time handler the loop, the id and its
    client data, and returns the next interval. *)
Class AeProcs (W : Type) := {
  run_file_proc : Z -> Z -> Z -> Z -> Z -> W -> res W;
  run_time_proc : Z -> Z -> Z -> Z -> W -> res (Z * W);
  run_finalizer : Z -> Z -> Z -> W -> res W;
  run_beforesleep : Z -> Z -> W -> res W;
}.

(** Writing a loop changes that loop only; memory and clock calls change none. *)
Class AeWorldOk (W D : Type) {AW : AeWorld W D} : Prop := {
  loop_get_set : forall w p e, loop_get (loop_set w p e) p = e;
  loop_get_set_ne : forall w p q e, p <> q -> loop_get (loop_set w p e) q = loop_get w q;
  malloc_loops : forall w q, loop_get (ae_malloc w).2 q = loop_get w q;
  time_now_loops : forall w q, loop_get (time_now w).2 q = loop_get w q;
  gettimeofday_loops : forall w q, loop_get (gettimeofday w).2 q = loop_get w q;
}.

Class AeApi (W D : Type) := {
  aeApiCreate : Z -> W -> option D * W;      (* given setsize *)
  aeApiFree : D -> W -> res W;
  aeApiAddEvent : Z -> Z -> Z -> W -> res (Z * W);
  aeApiDelEvent : Z -> Z -> Z -> W -> res W;
  aeApiPoll : Z -> option (Z * Z) -> W -> res (Z * W);   (* timeout: seconds, microseconds *)
  aeApiName : bytes;
}.

(** The contract between the loop and its polling layer: [registered w p fd] is the
    set of events the operating system was asked to report for [fd]; adding and
    deleting keep it equal to the mask the loop holds, touch no other descriptor,
    and change nothing of the loops but apidata. *)
Class AeApiOk (W D : Type) {AW : AeWorld W D} {API : AeApi W D} := {
  registered : W -> Z -> Z -> Z;
  registered_put : forall w p e e' fd, loop_get w p = Some e -> apidata e' = apidata e ->
    registered (loop_set w p (Some e')) p fd = registered w p fd;
  add_event_ok : forall w p e fe fd mask r w',
    loop_get w p = Some e -> 0 <= fd -> events e !! Z.to_nat fd = Some fe ->
    0 <= fe_mask fe <= 3 -> 0 < mask <= 3 -> registered w p fd = fe_mask fe ->
    aeApiAddEvent p fd mask w = Ret (r, w') ->
    (exists d, loop_get w' p = Some (set_apidata e d)) /\
    (forall q, q <> p -> loop_get w' q = loop_get w q) /\
    registered w' p fd = (if r =? -1 then fe_mask fe else Z.lor (fe_mask fe) mask) /\
    forall fd', fd' <> fd -> registered w' p fd' = registered w p fd';
  del_event_ok : forall w p e fe old fd mask w',
    loop_get w p = Some e -> 0 <= fd -> events e !! Z.to_nat fd = Some fe ->
    0 < old <= 3 -> 0 < mask <= 3 -> registered w p fd = old -> fe_mask fe = Z.land old (Z.lnot mask) ->
    aeApiDelEvent p fd mask w = Ret w' ->
    (exists d, loop_get w' p = Some (set_apidata e d)) /\
    (forall q, q <> p -> loop_get w' q = loop_get w q) /\
    registered w' p fd = fe_mask fe /\
    forall fd', fd' <> fd -> registered w' p fd' = registered w p fd';
}.

Section Ae.
Context {W D : Type} {AW : AeWorld W D} {API : AeApi W D} {AP : AeProcs W}.

Definition deref (p : Z) (w : W) : res (aeEventLoop D) := of_option (loop_get w p).
Definition put (p : Z) (e : aeEventLoop D) (w : W) : W := loop_set w p (Some e).

(** &events[fd]: an index outside the array is undefined. *)
Definition get_event (e : aeEventLoop D) (fd : Z) : res aeFileEvent :=
  if 0 <=? fd then of_option (events e !! Z.to_nat fd) else Undef.
Definition put_event (e : aeEventLoop D) (fd : Z) (fe : aeFileEvent) : aeEventLoop D :=
  set_events e (<[Z.to_nat fd := fe]> (events e)).

(** ** Life of a loop *)

Definition aeCreateEventLoop (size : Z) (w : W) : option Z * W :=
  let '(p, w) := ae_malloc w in
  match p with
  | None => (None, w)
  | Some p =>
      let '(ev, w) := ae_malloc w in
      let '(fi, w) := ae_malloc w in
      match ev, fi with
      | Some _, Some _ =>
          let '(now, w) := time_now w in
          let '(d, w) := aeApiCreate size w in
          match d with
          | None => (None, w)
          | Some d =>
              let evs := replicate (Z.to_nat size) (FileEvent AE_NONE 0 0 0) in
              let fis := replicate (Z.to_nat size) (FiredEvent 0 0) in
              (Some p, put p (EventLoop (-1) size 0 now evs fis [] 0 d 0) w)
          end
      | _, _ => (None, w)
      end
  end.

Definition aeDeleteEventLoop (p : Z) (w : W) : res W :=
  e ← deref p w;
  w ← aeApiFree (apidata e) w;
  Ret (loop_set w p None).

Definition aeStop (p : Z) (w : W) : res W :=
  e ← deref p w;
  Ret (put p (set_stop e 1) w).

(** ** File events *)

Definition aeCreateFileEvent (p fd mask proc clientData : Z) (w : W) : res (Z * W) :=
  e ← deref p w;
  if setsize e <=? fd then Ret (AE_ERR, w)
  else
    '(r, w) ← aeApiAddEvent p fd mask w;
    if r =? -1 then Ret (AE_ERR, w)
    else
      e ← deref p w;
      fe ← get_event e fd;
      let fe := FileEvent (Z.lor (fe_mask fe) mask)
                  (if has mask AE_READABLE then proc else rfileProc fe)
                  (if has mask AE_WRITABLE then proc else wfileProc fe)
                  clientData in
      let e := put_event e fd fe in
      let e := if maxfd e <? fd then set_maxfd e fd else e in
      Ret (AE_OK, put p e w).

(** for (j = maxfd-1; j >= 0; j--) if (events[j].mask != AE_NONE) break;
    [n] is j + 1. *)
Fixpoint max_below (evs : list aeFileEvent) (n : nat) : res Z :=
  match n with
  | O => Ret (-1)
  | S n => fe ← of_option (evs !! n);
           if fe_mask fe =? AE_NONE then max_below evs n else Ret (Z.of_nat n)
  end.

Definition aeDeleteFileEvent (p fd mask : Z) (w : W) : res W :=
  e ← deref p w;
  if setsize e <=? fd then Ret w
  else
    fe ← get_event e fd;
    if fe_mask fe =? AE_NONE then Ret w
    else
      let m := Z.land (fe_mask fe) (Z.lnot mask) in
      let e := put_event e fd (FileEvent m (rfileProc fe) (wfileProc fe) (fe_clientData fe)) in
      e ← (if (fd =? maxfd e) && (m =? AE_NONE) then
             j ← max_below (events e) (Z.to_nat (maxfd e));
             Ret (set_maxfd e j)
           else Ret e);
      aeApiDelEvent p fd mask (put p e w).

Definition aeGetFileEvents (p fd : Z) (w : W) : res Z :=
  e ← deref p w;
  if setsize e <=? fd then Ret 0
  else fe ← get_event e fd; Ret (fe_mask fe).

(** ** Time

    Seconds and milliseconds are 64-bit longs; clock values and intervals are far
    from their bounds. *)

Definition aeGetTime (w : W) : (Z * Z) * W :=
  let '((sec, usec), w) := gettimeofday w in ((sec, usec ÷ 1000), w).

Definition aeAddMillisecondsToNow (milliseconds : Z) (w : W) : (Z * Z) * W :=
  let '((cur_sec, cur_ms), w) := aeGetTime w in
  let when_sec := cur_sec + milliseconds ÷ 1000 in
  let when_ms := cur_ms + Z.rem milliseconds 1000 in
  if 1000 <=? when_ms then ((when_sec + 1, when_ms - 1000), w) else ((when_sec, when_ms), w).

Definition aeCreateTimeEvent (p milliseconds proc clientData finalizer : Z) (w : W) : res (Z * W) :=
  e ← deref p w;
  let id := timeEventNextId e in
  let w := put p (set_times e (id + 1) (timeEvents e)) w in
  let '(te, w) := ae_malloc w in
  match te with
  | None => Ret (AE_ERR, w)
  | Some _ =>
      let '((s, ms), w) := aeAddMillisecondsToNow milliseconds w in
      e ← deref p w;
      let te := TimeEvent id s ms proc finalizer clientData in
      Ret (id, put p (set_times e (timeEventNextId e) (te :: timeEvents e)) w)
  end.

(** The first event with the id, and the list without it. *)
Fixpoint unlink (l : list aeTimeEvent) (id : Z) : option (aeTimeEvent * list aeTimeEvent) :=
  match l with
  | [] => None
  | te :: l => if te_id te =? id then Some (te, l)
               else match unlink l id with
                    | Some (te', l') => Some (te', te :: l')
                    | None => None
                    end
  end.

Definition aeDeleteTimeEvent (p id : Z) (w : W) : res (Z * W) :=
  e ← deref p w;
  match unlink (timeEvents e) id with
  | None => Ret (AE_ERR, w)
  | Some (te, l) =>
      let w := put p (set_times e (timeEventNextId e) l) w in
      w ← (if finalizerProc te =? 0 then Ret w
           else run_finalizer (finalizerProc te) p (te_clientData te) w);
      Ret (AE_OK, w)
  end.

Definition earlier (a b : aeTimeEvent) : bool :=
  (when_sec a <? when_sec b) || ((when_sec a =? when_sec b) && (when_ms a <? when_ms b)).

Fixpoint nearest_loop (l : list aeTimeEvent) (nearest : option aeTimeEvent) : option aeTimeEvent :=
  match l with
  | [] => nearest
  | te :: l =>
      nearest_loop l (match nearest with
                      | None => Some te
                      | Some n => if earlier te n then Some te else nearest
                      end)
  end.
Definition aeSearchNearestTimer (e : aeEventLoop D) : option aeTimeEvent :=
  nearest_loop (timeEvents e) None.

Definition due (now_sec now_ms : Z) (te : aeTimeEvent) : bool :=
  (when_sec te <? now_sec) || ((now_sec =? when_sec te) && (when_ms te <=? now_ms)).

(** The scan from the head to the next event to run; events with an id above
    [maxId] were created by handlers of this round. *)
Fixpoint next_due (l : list aeTimeEvent) (maxId now_sec now_ms : Z) : option aeTimeEvent :=
  match l with
  | [] => None
  | te :: l => if maxId <? te_id te then next_due l maxId now_sec now_ms
               else if due now_sec now_ms te then Some te
               else next_due l maxId now_sec now_ms
  end.

(** Writing through a pointer to the time event: undefined once it was freed. *)
Fixpoint reschedule (l : list aeTimeEvent) (id s ms : Z) : option (list aeTimeEvent) :=
  match l with
  | [] => None
  | te :: l => if te_id te =? id then Some (when te s ms :: l)
               else l' ← reschedule l id s ms; Some (te :: l')
  end.

(** One event: run its handler, then reschedule or delete it. *)
Definition run_timer (p : Z) (te : aeTimeEvent) (w : W) : res W :=
  let id := te_id te in
  '(retval, w) ← run_time_proc (timeProc te) p id (te_clientData te) w;
  if negb (retval =? AE_NOMORE) then
    let '((s, ms), w) := aeAddMillisecondsToNow retval w in
    e ← deref p w;
    l ← of_option (reschedule (timeEvents e) id s ms);
    Ret (put p (set_times e (timeEventNextId e) l) w)
  else
    '(_, w) ← aeDeleteTimeEvent p id w;
    Ret w.

(** After each event the scan restarts from the head. *)
Fixpoint time_loop (fuel : nat) (p maxId now_sec now_ms processed : Z) (w : W) : res (Z * W) :=
  e ← deref p w;
  match next_due (timeEvents e) maxId now_sec now_ms with
  | None => Ret (processed, w)
  | Some te =>
      match fuel with
      | O => NoFuel
      | S fuel => w ← run_timer p te w;
                  time_loop fuel p maxId now_sec now_ms (processed + 1) w
      end
  end.

Definition processTimeEvents (fuel : nat) (p : Z) (w : W) : res (Z * W) :=
  let '(now, w) := time_now w in
  e ← deref p w;
  let l := if now <? lastTime e then map (fun te => when te 0 (when_ms te)) (timeEvents e)
           else timeEvents e in
  let e := set_lastTime (set_times e (timeEventNextId e) l) now in
  let w := put p e w in
  let maxId := timeEventNextId e - 1 in
  let '((now_sec, now_ms), w) := aeGetTime w in
  time_loop fuel p maxId now_sec now_ms 0 w.

(** ** One iteration *)

(** The time the poll may sleep: [None] is forever. *)
Definition poll_timeout (shortest : option aeTimeEvent) (now_sec now_ms flags : Z) : option (Z * Z) :=
  match shortest with
  | Some te =>
      let '(s, us) := if when_ms te <? now_ms
                      then (when_sec te - now_sec - 1, (when_ms te + 1000 - now_ms) * 1000)
                      else (when_sec te - now_sec, (when_ms te - now_ms) * 1000) in
      Some (if s <? 0 then 0 else s, if us <? 0 then 0 else us)
  | None => if has flags AE_DONT_WAIT then Some (0, 0) else None
  end.

(** The handlers of fired[j], ..., fired[j + n - 1].  A handler may have removed the
    event, so the mask is read again before each call. *)
Definition run_fired (p : Z) (j : Z) (w : W) : res W :=
  e ← deref p w;
  f ← of_option (fired e !! Z.to_nat j);
  let mask := fired_mask f in
  let fd := fired_fd f in
  fe ← get_event e fd;
  let rfired := has (Z.land (fe_mask fe) mask) AE_READABLE in
  w ← (if rfired then run_file_proc (rfileProc fe) p fd (fe_clientData fe) mask w else Ret w);
  e ← deref p w;
  fe ← get_event e fd;
  if has (Z.land (fe_mask fe) mask) AE_WRITABLE
     && (negb rfired || negb (wfileProc fe =? rfileProc fe))
  then run_file_proc (wfileProc fe) p fd (fe_clientData fe) mask w
  else Ret w.

Fixpoint fired_loop (p : Z) (j : Z) (n : nat) (w : W) : res W :=
  match n with
  | O => Ret w
  | S n => w ← run_fired p j w; fired_loop p (j + 1) n w
  end.

(** The poll phase: the number of descriptors that fired. *)
Definition poll_phase (p flags : Z) (w : W) : res (Z * W) :=
  e ← deref p w;
  if negb (maxfd e =? -1) || (has flags AE_TIME_EVENTS && negb (has flags AE_DONT_WAIT)) then
    let shortest := if has flags AE_TIME_EVENTS && negb (has flags AE_DONT_WAIT)
                    then aeSearchNearestTimer e else None in
    let '((now_sec, now_ms), w) := (match shortest with
                                    | Some _ => aeGetTime w
                                    | None => ((0, 0), w)
                                    end) in
    let tvp := poll_timeout shortest now_sec now_ms flags in
    '(numevents, w) ← aeApiPoll p tvp w;
    w ← fired_loop p 0 (Z.to_nat numevents) w;
    Ret (Z.max 0 numevents, w)
  else Ret (0, w).

Definition aeProcessEvents (fuel : nat) (p flags : Z) (w : W) : res (Z * W) :=
  if negb (has flags AE_TIME_EVENTS) && negb (has flags AE_FILE_EVENTS) then Ret (0, w)
  else
    '(processed, w) ← poll_phase p flags w;
    if has flags AE_TIME_EVENTS then
      '(n, w) ← processTimeEvents fuel p w;
      Ret (processed + n, w)
    else Ret (processed, w).

Definition POLLIN : Z := 1.
Definition POLLOUT : Z := 4.
Definition POLLERR : Z := 8.
Definition POLLHUP : Z := 16.

Definition aeWait (fd mask milliseconds : Z) (w : W) : Z * W :=
  let ev := Z.lor (if has mask AE_READABLE then POLLIN else 0)
                  (if has mask AE_WRITABLE then POLLOUT else 0) in
  let '((retval, revents), w) := os_poll fd ev (i32 milliseconds) w in
  if retval =? 1 then
    let m := if has revents POLLIN then AE_READABLE else 0 in
    let m := if has revents POLLOUT then Z.lor m AE_WRITABLE else m in
    let m := if has revents POLLERR then Z.lor m AE_WRITABLE else m in
    let m := if has revents POLLHUP then Z.lor m AE_WRITABLE else m in
    (m, w)
  else (retval, w).

Definition aeOnce (fuel : nat) (p : Z) (w : W) : res W :=
  '(_, w) ← aeProcessEvents fuel p (Z.lor AE_ALL_EVENTS AE_DONT_WAIT) w;
  Ret w.

(** The main loop: [n] bounds the iterations, [fuel] the time events of each. *)
Fixpoint main_loop (n fuel : nat) (p : Z) (w : W) : res W :=
  e ← deref p w;
  if negb (stop e =? 0) then Ret w
  else
    match n with
    | O => NoFuel
    | S n =>
        w ← (if beforesleep e =? 0 then Ret w else run_beforesleep (beforesleep e) p w);
        '(_, w) ← aeProcessEvents fuel p AE_ALL_EVENTS w;
        main_loop n fuel p w
    end.
Definition aeMain (n fuel : nat) (p : Z) (w : W) : res W :=
  e ← deref p w;
  main_loop n fuel p (put p (set_stop e 0) w).

Definition aeGetApiName : bytes := aeApiName.

Definition aeSetBeforeSleepProc (p proc : Z) (w : W) : res W :=
  e ← deref p w;
  Ret (put p (set_beforesleep e proc) w).
End Ae.

(** ** Specification *)

Definition mask_of {D} (e : aeEventLoop D) (fd : Z) : Z :=
  if 0 <=? fd then match events e !! Z.to_nat fd with Some fe => fe_mask fe | None => 0 end else 0.

(** Well-formed loops: the arrays have their size, maxfd is exactly the highest
    descriptor with a registered event (-1 when there is none), and time events
    have distinct ids that were handed out. *)
Record loop_ok {D} (e : aeEventLoop D) : Prop := {
  ok_len : Z.of_nat (length (events e)) = setsize e;
  ok_flen : length (fired e) = length (events e);
  ok_mask : Forall (fun fe => 0 <= fe_mask fe <= 3) (events e);
  ok_max : -1 <= maxfd e < setsize e;
  ok_above : forall fd, maxfd e < fd -> mask_of e fd = 0;
  ok_at : 0 <= maxfd e -> mask_of e (maxfd e) <> 0;
  ok_ids : NoDup (map te_id (timeEvents e));
  ok_next : Forall (fun te => 0 <= te_id te < timeEventNextId e) (timeEvents e);
}.

(** ** Lemmas *)

Lemma mask_lor_range a b : 0 <= a <= 3 -> 0 <= b <= 3 -> 0 <= Z.lor a b <= 3.
Proof.
  intros Ha Hb. assert (a = 0 \/ a = 1 \/ a = 2 \/ a = 3) as Ea by lia.
  assert (b = 0 \/ b = 1 \/ b = 2 \/ b = 3) as Eb by lia.
  destruct Ea as [->|[->|[->| ->]]]; destruct Eb as [->|[->|[->| ->]]]; split; vm_compute; discriminate.
Qed.
Lemma mask_land_range a b : 0 <= a <= 3 -> 0 <= Z.land a b <= 3.
Proof.
  intros Ha. split; [apply Z.land_nonneg; lia|].
  assert (a = 0 \/ a = 1 \/ a = 2 \/ a = 3) as Ea by lia.
  assert (H : Z.land (Z.land a b) 3 = Z.land a b).
  { rewrite <- Z.land_assoc, (Z.land_comm b), Z.land_assoc.
    f_equal. destruct Ea as [->|[->|[->| ->]]]; reflexivity. }
  pose proof (Z.land_ones (Z.land a b) 2 ltac:(lia)) as E. change (Z.ones 2) with 3 in E.
  change (2 ^ 2) with 4 in E. pose proof (Z.mod_pos_bound (Z.land a b) 4 ltac:(lia)). lia.
Qed.

Section Lemmas.
Context {W D : Type} {AW : AeWorld W D} {API : AeApi W D}.
Context {AWOk : AeWorldOk W D} {APIOk : AeApiOk W D}.
Implicit Types e : aeEventLoop D.

Lemma deref_ok w p e : loop_get w p = Some e -> deref p w = Ret e.
Proof. intros H. unfold deref. by rewrite H. Qed.
Lemma deref_put w p e : deref p (put p e w) = Ret e.
Proof. unfold deref, put. by rewrite loop_get_set. Qed.

Lemma event_at e fd : loop_ok e -> 0 <= fd < setsize e ->
  exists fe, events e !! Z.to_nat fd = Some fe /\ get_event e fd = Ret fe /\
             mask_of e fd = fe_mask fe /\ 0 <= fe_mask fe <= 3.
Proof.
  intros Hok Hfd. destruct (lookup_lt_is_Some_2 (events e) (Z.to_nat fd)) as [fe Hfe].
  { pose proof (ok_len _ Hok). lia. }
  exists fe. unfold get_event, mask_of. destruct (Z.leb_spec 0 fd); [|lia]. rewrite Hfe.
  split_and!; try done; eapply (Forall_lookup_1 _ _ _ _ (ok_mask _ Hok)) in Hfe; lia.
Qed.

Lemma mask_of_put e fd fe fd' : 0 <= fd < Z.of_nat (length (events e)) ->
  mask_of (put_event e fd fe) fd' = if decide (fd' = fd) then fe_mask fe else mask_of e fd'.
Proof.
  intros Hfd. unfold mask_of, put_event. cbn. destruct (Z.leb_spec 0 fd').
  - case_decide as Hd; [subst; by rewrite list_lookup_insert_eq by lia|].
    rewrite list_lookup_insert_ne by lia. done.
  - case_decide; [lia|done].
Qed.

Lemma max_below_ok (evs : list aeFileEvent) n :
  (n <= length evs)%nat ->
  exists j, max_below evs n = Ret j /\ -1 <= j < Z.of_nat n /\
    (forall k fe, j < Z.of_nat k < Z.of_nat n -> evs !! k = Some fe -> fe_mask fe = 0) /\
    (0 <= j -> exists fe, evs !! Z.to_nat j = Some fe /\ fe_mask fe <> 0).
Proof.
  induction n as [|n IH]; intros Hn; cbn [max_below].
  { exists (-1). split; [done|]. split; [lia|]. split; [lia|lia]. }
  destruct (lookup_lt_is_Some_2 evs n ltac:(lia)) as [fe Hfe]. rewrite Hfe. cbn [of_option].
  rewrite bind_Ret_l. destruct (Z.eqb_spec (fe_mask fe) AE_NONE) as [E|E].
  - destruct (IH ltac:(lia)) as (j & Hj & Hr & Hz & Hnz). exists j. split; [done|]. split; [lia|].
    split; [|done]. intros k fe' Hk Hfe'. destruct (decide (k = n)) as [->|].
    + simplify_eq. done.
    + apply (Hz k); [lia|done].
  - exists (Z.of_nat n). split; [done|]. split; [lia|]. split.
    + intros k fe' Hk. lia.
    + intros _. exists fe. rewrite Nat2Z.id. done.
Qed.

Lemma loop_ok_set_apidata e d : loop_ok e -> loop_ok (set_apidata e d).
Proof. intros []. by constructor. Qed.

(** Registering for more events. *)
Lemma loop_ok_add e fd fe :
  loop_ok e -> 0 <= fd < setsize e -> 0 < fe_mask fe <= 3 ->
  let e' := put_event e fd fe in
  loop_ok (if maxfd e' <? fd then set_maxfd e' fd else e').
Proof.
  intros Hok Hfd Hm e'. pose proof Hok as [].
  assert (Hmask : forall fd', mask_of e' fd' = if decide (fd' = fd) then fe_mask fe else mask_of e fd').
  { intros. apply mask_of_put. lia. }
  assert (Hl : Z.of_nat (length (events e')) = setsize e) by (cbn; by rewrite length_insert).
  assert (Hf : length (fired e') = length (events e')) by (cbn; by rewrite length_insert).
  assert (Hms : Forall (fun fe => 0 <= fe_mask fe <= 3) (events e')).
  { cbn. apply Forall_insert; [done|lia]. }
  cbn [e' put_event set_events maxfd]. destruct (Z.ltb_spec (maxfd e) fd).
  - constructor; cbn; try done; try lia.
    + intros fd' Hfd'. change (mask_of e' fd' = 0). rewrite Hmask. case_decide; [lia|]. apply ok_above0. lia.
    + intros _. change (mask_of e' fd <> 0). rewrite Hmask, decide_True by done. lia.
  - constructor; cbn; try done.
    + intros fd' Hfd'. change (mask_of e' fd' = 0). rewrite Hmask. case_decide; [lia|]. by apply ok_above0.
    + intros H0. change (mask_of e' (maxfd e) <> 0). rewrite Hmask. case_decide; [lia|]. by apply ok_at0.
Qed.

(** Registering for fewer, with the recomputed maximum. *)
Lemma loop_ok_del e fd fe :
  loop_ok e -> 0 <= fd < setsize e -> 0 <= fe_mask fe <= 3 -> mask_of e fd <> 0 ->
  exists e', (if (fd =? maxfd (put_event e fd fe)) && (fe_mask fe =? AE_NONE) then
                j ← max_below (events (put_event e fd fe)) (Z.to_nat (maxfd (put_event e fd fe)));
                Ret (set_maxfd (put_event e fd fe) j)
              else Ret (put_event e fd fe)) = Ret e' /\
    loop_ok e' /\ events e' = events (put_event e fd fe) /\ apidata e' = apidata e /\
    timeEvents e' = timeEvents e /\ timeEventNextId e' = timeEventNextId e /\ setsize e' = setsize e /\
    exists mx, e' = set_maxfd (put_event e fd fe) mx.
Proof.
  intros Hok Hfd Hm Hnz. pose proof Hok as []. set (e1 := put_event e fd fe).
  assert (Hmask : forall fd', mask_of e1 fd' = if decide (fd' = fd) then fe_mask fe else mask_of e fd').
  { intros. apply mask_of_put. lia. }
  assert (Hl : Z.of_nat (length (events e1)) = setsize e) by (cbn; by rewrite length_insert).
  assert (Hf : length (fired e1) = length (events e1)) by (cbn; by rewrite length_insert).
  assert (Hms : Forall (fun fe => 0 <= fe_mask fe <= 3) (events e1)) by (cbn; apply Forall_insert; done).
  assert (Hle : fd <= maxfd e).
  { destruct (Z.le_gt_cases fd (maxfd e)); [done|]. destruct Hnz. apply ok_above0. lia. }
  change (maxfd e1) with (maxfd e).
  destruct (Z.eqb_spec fd (maxfd e)) as [Heq|Hne]; cbn [andb];
    [destruct (Z.eqb_spec (fe_mask fe) AE_NONE) as [E|E]|].
  - destruct (max_below_ok (events e1) (Z.to_nat (maxfd e))) as (j & Hj & Hr & Hz & Hat); [lia|].
    rewrite Hj, bind_Ret_l. eexists. split; [done|]. split; [|by eauto 10]. constructor; cbn; try done; try lia.
    + intros fd' Hfd'. change (mask_of e1 fd' = 0).
      destruct (Z.le_gt_cases fd' (maxfd e)); [|rewrite Hmask; case_decide; [lia|apply ok_above0; lia]].
      destruct (decide (fd' = maxfd e)) as [->|]; [rewrite Hmask, decide_True; done|].
      unfold mask_of. destruct (Z.leb_spec 0 fd'); [|done].
      destruct (events e1 !! Z.to_nat fd') eqn:El; [|done]. apply (Hz (Z.to_nat fd')); [lia|done].
    + intros H0. destruct (Hat H0) as (fe' & Hfe' & Hne'). unfold mask_of. change (events (set_maxfd e1 j)) with (events e1). cbn [maxfd set_maxfd].
      destruct (Z.leb_spec 0 j); [|lia]. by rewrite Hfe'.
  - eexists. split; [done|]. split; [|split_and!; try done; by exists (maxfd e)]. constructor; cbn; try done.
    + intros fd' Hfd'. change (mask_of e1 fd' = 0). rewrite Hmask. case_decide; [lia|]. by apply ok_above0.
    + intros H0. change (mask_of e1 (maxfd e) <> 0). rewrite Hmask. case_decide; [done|]. by apply ok_at0.
  - eexists. split; [done|]. split; [|split_and!; try done; by exists (maxfd e)]. constructor; cbn; try done.
    + intros fd' Hfd'. change (mask_of e1 fd' = 0). rewrite Hmask. case_decide; [lia|]. by apply ok_above0.
    + intros H0. change (mask_of e1 (maxfd e) <> 0). rewrite Hmask. case_decide; [lia|]. by apply ok_at0.
Qed.

(** The loop and the operating system agree on what is watched. *)
Definition synced (w : W) (p : Z) : Prop :=
  exists e, loop_get w p = Some e /\ loop_ok e /\ forall fd, 0 <= fd < setsize e -> registered w p fd = mask_of e fd.

(** [e'] is [e] with the events of [mask] taken off one descriptor: the handlers and the
    client data of its entry, the entries of all others, the time events and everything else
    are those of [e], but for maxfd and what apidata points to. *)
Definition unmask (mask : Z) (fe : aeFileEvent) : aeFileEvent :=
  FileEvent (Z.land (fe_mask fe) (Z.lnot mask)) (rfileProc fe) (wfileProc fe) (fe_clientData fe).
Definition unwatched e e' (fd mask : Z) : Prop :=
  exists mx d, e' = set_apidata (set_maxfd (set_events e (alter (unmask mask) (Z.to_nat fd) (events e))) mx) d.

Lemma unwatched_same e fd mask : (forall fe, events e !! Z.to_nat fd = Some fe -> fe_mask fe = 0) -> unwatched e e fd mask.
Proof.
  intros H. exists (maxfd e), (apidata e).
  replace (alter (unmask mask) (Z.to_nat fd) (events e)) with (events e); [by destruct e|].
  rewrite <- (list_alter_id id (events e) (Z.to_nat fd)) at 1 by done. apply list_alter_ext; [|done].
  intros fe Hfe. unfold unmask. rewrite (H fe Hfe), Z.land_0_l, <- (H fe Hfe). by destruct fe.
Qed.
Lemma unwatched_trans e1 e2 e3 fd m1 m2 : unwatched e1 e2 fd m1 -> unwatched e2 e3 fd m2 -> unwatched e1 e3 fd (Z.lor m1 m2).
Proof.
  intros (mx1 & d1 & ->) (mx2 & d2 & ->). exists mx2, d2. set (i := Z.to_nat fd).
  change (set_apidata (set_maxfd (set_events e1 (alter (unmask m2) i (alter (unmask m1) i (events e1)))) mx2) d2
    = set_apidata (set_maxfd (set_events e1 (alter (unmask (Z.lor m1 m2)) i (events e1))) mx2) d2).
  do 3 f_equal. rewrite list_alter_alter_eq. apply list_alter_ext; [|done]. intros fe _. unfold compose, unmask. cbn. f_equal.
  rewrite <- Z.land_assoc. f_equal. apply Z.bits_inj'. intros n Hn. by rewrite Z.land_spec, !Z.lnot_spec, Z.lor_spec, negb_orb by done.
Qed.
End Lemmas.

Lemma create_file_event_ok {W D} {AW : AeWorld W D} {API : AeApi W D}
    {AWOk : AeWorldOk W D} {APIOk : AeApiOk W D} w p e fd mask proc cd r w' :
  synced w p -> loop_get w p = Some e -> 0 <= fd < setsize e -> 0 < mask <= 3 ->
  aeCreateFileEvent p fd mask proc cd w = Ret (r, w') ->
  synced w' p /\ exists e', loop_get w' p = Some e' /\ setsize e' = setsize e /\
    (r = AE_OK /\ mask_of e' fd = Z.lor (mask_of e fd) mask \/ r = AE_ERR /\ mask_of e' fd = mask_of e fd) /\
    forall fd', fd' <> fd -> mask_of e' fd' = mask_of e fd'.
Proof.
  intros (e0 & He0 & Hok & Hsync) He Hfd Hmask H. rewrite He in He0. injection He0 as <-.
  destruct (event_at e fd Hok Hfd) as (fe & Hfe & Hget & Hm & Hr).
  unfold aeCreateFileEvent in H. rewrite (deref_ok _ _ _ He), bind_Ret_l in H.
  destruct (Z.leb_spec (setsize e) fd) as [|_]; [lia|].
  apply bind_Ret_inv in H as ([r1 w1] & Hadd & H).
  destruct (add_event_ok w p e fe fd mask r1 w1 He ltac:(lia) Hfe Hr Hmask ltac:(rewrite Hsync; done) Hadd)
    as ((d & Hd) & Hq & Hreg & Hoth).
  assert (Hlen : 0 <= fd < Z.of_nat (length (events (set_apidata e d)))) by (pose proof (ok_len _ Hok); cbn; lia).
  destruct (Z.eqb_spec r1 (-1)) as [->|Hne].
  - injection H as <- <-. split.
    + exists (set_apidata e d). split; [done|]. split; [by apply loop_ok_set_apidata|]. intros fd' Hfd'.
      change (mask_of (set_apidata e d) fd') with (mask_of e fd').
      destruct (decide (fd' = fd)) as [->|]; [by rewrite Hreg|]. rewrite Hoth by done. by apply Hsync.
    + exists (set_apidata e d). split; [done|]. split; [done|]. split; [by right|done].
  - rewrite (deref_ok _ _ _ Hd), bind_Ret_l in H. change (get_event (set_apidata e d) fd) with (get_event e fd) in H.
    rewrite Hget, bind_Ret_l in H.
    set (fe' := FileEvent _ _ _ cd) in H.
    assert (Hfe' : 0 < fe_mask fe' <= 3).
    { cbn. pose proof (mask_lor_range (fe_mask fe) mask Hr ltac:(lia)).
      assert (Z.lor (fe_mask fe) mask <> 0) by (rewrite Z.lor_eq_0_iff; lia). lia. }
    pose proof (loop_ok_add (set_apidata e d) fd fe' (loop_ok_set_apidata e d Hok) Hfd Hfe') as Hok'.
    cbv zeta in Hok', H. set (e2 := put_event (set_apidata e d) fd fe') in *.
    set (e3 := if maxfd e2 <? fd then set_maxfd e2 fd else e2) in *. injection H as <- <-.
    assert (Hmask3 : forall fd', mask_of e3 fd' = if decide (fd' = fd) then fe_mask fe' else mask_of e fd').
    { intros fd'. transitivity (mask_of e2 fd'); [unfold e3; by destruct (maxfd e2 <? fd)|].
      exact (mask_of_put (set_apidata e d) fd fe' fd' Hlen). }
    assert (Hsz : setsize e3 = setsize e) by (unfold e3; by destruct (maxfd e2 <? fd)).
    assert (Hap : apidata e3 = apidata (set_apidata e d)) by (unfold e3; by destruct (maxfd e2 <? fd)).
    split.
    + exists e3. unfold put at 1. rewrite loop_get_set. split; [done|]. split; [done|]. intros fd' Hfd'.
      unfold put. rewrite (registered_put w1 p _ e3 fd' Hd Hap), Hmask3.
      case_decide; [subst; by rewrite Hreg|]. rewrite Hoth by done. apply Hsync. lia.
    + exists e3. unfold put. rewrite loop_get_set. split; [done|]. split; [done|]. split.
      * left. split; [done|]. by rewrite Hmask3, decide_True, Hm by done.
      * intros fd' Hne'. by rewrite Hmask3, decide_False.
Qed.

(** C33.  aeCreateFileEvent on a descriptor inside the set, with a mask of 1 to 3: the
    loop stays well-formed (maxfd is again exactly the highest registered descriptor)
    and in agreement with the operating system; on success the descriptor is registered for the old events
    and the new ones, on failure for the old ones only; no other descriptor changes. *)
Theorem create_file_event_spec {W D} {AW : AeWorld W D} {API : AeApi W D}
    {AWOk : AeWorldOk W D} {APIOk : AeApiOk W D} w p e fd mask proc cd r w' :
  synced w p -> loop_get w p = Some e -> 0 <= fd < setsize e -> 0 < mask <= 3 ->
  aeCreateFileEvent p fd mask proc cd w = Ret (r, w') ->
  synced w' p /\ exists e', loop_get w' p = Some e' /\ setsize e' = setsize e /\
    (r = AE_OK /\ mask_of e' fd = Z.lor (mask_of e fd) mask \/ r = AE_ERR /\ mask_of e' fd = mask_of e fd) /\
    forall fd', fd' <> fd -> mask_of e' fd' = mask_of e fd'.
Proof. apply create_file_event_ok. Qed.

Lemma delete_file_event_ok {W D} {AW : AeWorld W D} {API : AeApi W D}
    {AWOk : AeWorldOk W D} {APIOk : AeApiOk W D} w p e fd mask w' :
  synced w p -> loop_get w p = Some e -> 0 <= fd -> 0 < mask <= 3 ->
  aeDeleteFileEvent p fd mask w = Ret w' ->
  synced w' p /\ (forall q, q <> p -> loop_get w' q = loop_get w q) /\
  exists e', loop_get w' p = Some e' /\ setsize e' = setsize e /\
    mask_of e' fd = Z.land (mask_of e fd) (Z.lnot mask) /\
    (forall fd', fd' <> fd -> mask_of e' fd' = mask_of e fd') /\ unwatched e e' fd mask.
Proof.
  intros (e0 & He0 & Hok & Hsync) He Hfd Hmask H. rewrite He in He0. injection He0 as <-.
  unfold aeDeleteFileEvent in H. rewrite (deref_ok _ _ _ He), bind_Ret_l in H.
  assert (Hsame : (forall fe, events e !! Z.to_nat fd = Some fe -> fe_mask fe = 0) -> w' = w ->
  synced w' p /\ (forall q, q <> p -> loop_get w' q = loop_get w q) /\
  exists e', loop_get w' p = Some e' /\ setsize e' = setsize e /\
    mask_of e' fd = Z.land (mask_of e fd) (Z.lnot mask) /\
    (forall fd', fd' <> fd -> mask_of e' fd' = mask_of e fd') /\ unwatched e e' fd mask).
  { intros E0 ->. assert (E : mask_of e fd = 0).
    { unfold mask_of. destruct (0 <=? fd); [|done]. destruct (events e !! Z.to_nat fd) as [fe|] eqn:Hfe; [by apply (E0 fe)|done]. }
    split; [by exists e|]. split; [done|]. exists e. rewrite E. split_and!; try done. by apply unwatched_same. }
  revert H. destruct (Z.leb_spec (setsize e) fd) as [Hbig|Hlt]; intros H.
  { apply Hsame; [|by injection H]. intros fe Hfe. apply lookup_lt_Some in Hfe. pose proof (ok_len _ Hok). lia. }
  destruct (event_at e fd Hok ltac:(lia)) as (fe & Hfe & Hget & Hm & Hr).
  rewrite Hget, bind_Ret_l in H. revert H.
  destruct (Z.eqb_spec (fe_mask fe) AE_NONE) as [E|E]; intros H.
  { apply Hsame; [|by injection H]. intros fe0 Hfe0. rewrite Hfe in Hfe0. by injection Hfe0 as <-. }
  set (m := Z.land (fe_mask fe) (Z.lnot mask)) in *. set (fe' := FileEvent m _ _ _) in *.
  cbv zeta in H.
  destruct (loop_ok_del e fd fe' Hok ltac:(lia) (mask_land_range _ _ Hr) ltac:(rewrite Hm; done))
    as (e2 & He2 & Hok2 & Hev & Hap & Ht & Hn & Hsz & mx & Hmx).
  cbn [fe_mask fe'] in He2. rewrite He2, bind_Ret_l in H.
  assert (Hlen : 0 <= fd < Z.of_nat (length (events e))) by (pose proof (ok_len _ Hok); lia).
  assert (Hmask2 : forall fd', mask_of e2 fd' = if decide (fd' = fd) then m else mask_of e fd').
  { intros fd'. transitivity (mask_of (put_event e fd fe') fd').
    - unfold mask_of. by rewrite Hev.
    - exact (mask_of_put e fd fe' fd' Hlen). }
  destruct (del_event_ok (put p e2 w) p e2 fe' (fe_mask fe) fd mask w') as ((d & Hd) & Hq & Hreg & Hoth); try done.
  - unfold put. by rewrite loop_get_set.
  - rewrite Hev. cbn. by rewrite list_lookup_insert_eq by lia.
  - unfold AE_NONE in E. lia.
  - unfold put. rewrite (registered_put w p e e2 fd He Hap). by rewrite Hsync by lia.
  - split.
    + exists (set_apidata e2 d). split; [done|]. split; [by apply loop_ok_set_apidata|]. intros fd' Hfd'.
      change (mask_of (set_apidata e2 d) fd') with (mask_of e2 fd'). cbn [setsize set_apidata] in Hfd'.
      rewrite Hmask2. case_decide; [subst; done|]. rewrite Hoth by done.
      unfold put. rewrite (registered_put w p e e2 fd' He Hap). apply Hsync. lia.
    + split; [intros q Hne; rewrite Hq by done; unfold put; by rewrite loop_get_set_ne|].
      exists (set_apidata e2 d). split; [done|]. split; [done|].
      change (mask_of (set_apidata e2 d)) with (mask_of e2). split_and!.
      * by rewrite Hmask2, decide_True, Hm.
      * intros fd' Hne. by rewrite Hmask2, decide_False.
      * exists mx, d. rewrite Hmx. unfold put_event. do 3 f_equal. rewrite list_insert_alter.
        apply list_alter_ext; [|done]. intros fe1 Hfe1. rewrite Hfe in Hfe1. by injection Hfe1 as <-.
Qed.

(** C32.  aeDeleteFileEvent on any descriptor that is not negative, with a mask of 1 to 3: the
    events of the mask are no longer registered, maxfd is recomputed (it is again exactly
    the highest registered descriptor), and the operating system again watches exactly what
    the loop holds.  Everything else is as before: the handlers and the client data of the
    descriptor, the entries of all other descriptors, the time events, the fired array and
    the flags of the loop, and every other loop; only what apidata points to may change. *)
Theorem delete_file_event_spec {W D} {AW : AeWorld W D} {API : AeApi W D}
    {AWOk : AeWorldOk W D} {APIOk : AeApiOk W D} w p e fd mask w' :
  synced w p -> loop_get w p = Some e -> 0 <= fd -> 0 < mask <= 3 ->
  aeDeleteFileEvent p fd mask w = Ret w' ->
  synced w' p /\ (forall q, q <> p -> loop_get w' q = loop_get w q) /\
  exists e', loop_get w' p = Some e' /\ setsize e' = setsize e /\
    mask_of e' fd = Z.land (mask_of e fd) (Z.lnot mask) /\
    (forall fd', fd' <> fd -> mask_of e' fd' = mask_of e fd') /\ unwatched e e' fd mask.
Proof. apply delete_file_event_ok. Qed.

(** *** Time *)

(** The time of a new or rescheduled event is exactly now plus the interval,
    in milliseconds, and is normalised for intervals that are not negative. *)
Theorem add_milliseconds_exact {W D} {AW : AeWorld W D} w ms sec usec w1 s m w2 :
  gettimeofday w = ((sec, usec), w1) -> 0 <= usec < 1000000 ->
  aeAddMillisecondsToNow ms w = ((s, m), w2) ->
  s * 1000 + m = sec * 1000 + usec / 1000 + ms /\ (0 <= ms -> 0 <= m < 1000).
Proof.
  intros Hg Hu H. unfold aeAddMillisecondsToNow, aeGetTime in H. rewrite Hg in H.
  rewrite (Z.quot_div_nonneg usec 1000) in H by lia.
  pose proof (Z.quot_rem' ms 1000). pose proof (Z.rem_bound_pos_pos ms 1000 ltac:(lia)) as Hr.
  pose proof (Z.div_lt_upper_bound usec 1000 1000 ltac:(lia) ltac:(lia)).
  pose proof (Z.div_pos usec 1000 ltac:(lia) ltac:(lia)). revert H.
  destruct (Z.leb_spec 1000 (usec / 1000 + Z.rem ms 1000)); intros [= <- <- <-]; split; lia.
Qed.

Section Timers.
Context {W D : Type} {AW : AeWorld W D} {API : AeApi W D}.
Context {AWOk : AeWorldOk W D}.
Implicit Types e : aeEventLoop D.

Lemma nearest_loop_spec l : forall n,
  match nearest_loop l n with
  | Some t => (n = Some t \/ t ∈ l) /\ (forall t', n = Some t' \/ t' ∈ l -> earlier t' t = false)
  | None => n = None /\ l = []
  end.
Proof.
  assert (Hrefl : forall t, earlier t t = false).
  { intros t. unfold earlier. rewrite Z.ltb_irrefl, Z.eqb_refl, Z.ltb_irrefl. done. }
  assert (Hdown : forall a b c, earlier a b = false -> earlier c b = true -> earlier a c = false).
  { unfold earlier. intros a b c H1 H2.
    destruct (Z.ltb_spec (when_sec a) (when_sec b)); [done|]. cbn in H1.
    destruct (Z.ltb_spec (when_sec c) (when_sec b)); cbn in H2;
      destruct (Z.ltb_spec (when_sec a) (when_sec c)); cbn; try lia;
      destruct (Z.eqb_spec (when_sec a) (when_sec c)); cbn; try done; try lia;
      destruct (Z.eqb_spec (when_sec c) (when_sec b)), (Z.eqb_spec (when_sec a) (when_sec b));
      cbn in *; try lia; b2p; try done; lia. }
  induction l as [|t l IH]; intros n; cbn [nearest_loop].
  { destruct n as [t|]; [|done]. split; [by left|]. intros t' [[= <-]|H]; [done|by inversion H]. }
  set (n' := match n with None => Some t | Some n0 => if earlier t n0 then Some t else n end).
  assert (Hn' : exists x, n' = Some x /\ (n = Some x \/ x = t) /\ earlier t x = false /\
                          forall y, n = Some y -> earlier y x = false).
  { unfold n'. destruct n as [n0|].
    - destruct (earlier t n0) eqn:E.
      + exists t. split_and!; auto. intros y [= <-]. by apply (Hdown n0 n0 t).
      + exists n0. split_and!; auto. intros y [= <-]. apply Hrefl.
    - exists t. split_and!; auto. done. }
  destruct Hn' as (x & Hx & Hor & Htx & Hnx). specialize (IH n'). rewrite Hx in *.
  destruct (nearest_loop l (Some x)) as [z|].
  - destruct IH as [Hin Hmin]. split.
    + destruct Hin as [[= <-]|Hin]; [|right; by right].
      destruct Hor as [?| ->]; [by left|right; by left].
    + assert (Hxz : earlier x z = false) by (apply Hmin; by left).
      assert (Hc : forall y, earlier y x = false -> earlier y z = false).
      { intros y Hy. destruct (earlier y z) eqn:Eyz; [|done].
        (* y < z, and not y < x, not x < z *)
        unfold earlier in *. destruct (Z.ltb_spec (when_sec y) (when_sec x)); [done|].
        destruct (Z.ltb_spec (when_sec x) (when_sec z)); [done|]. cbn in *.
        destruct (Z.ltb_spec (when_sec y) (when_sec z)); [lia|]. cbn in *.
        destruct (Z.eqb_spec (when_sec y) (when_sec z)); [|done].
        destruct (Z.eqb_spec (when_sec y) (when_sec x)); [|lia].
        destruct (Z.eqb_spec (when_sec x) (when_sec z)); [|lia]. cbn in *. b2p. lia. }
      intros t' [Hn|[->|Hl]%elem_of_cons]; [apply Hc; by apply Hnx|by apply Hc|].
      apply Hmin. by right.
  - by destruct IH.
Qed.

Lemma next_due_spec l maxId s ms :
  match next_due l maxId s ms with
  | Some te => te ∈ l /\ te_id te <= maxId /\ due s ms te = true
  | None => forall te, te ∈ l -> te_id te <= maxId -> due s ms te = false
  end.
Proof.
  induction l as [|te l IH]; cbn [next_due]; [intros te H; by inversion H|].
  destruct (Z.ltb_spec maxId (te_id te)).
  - destruct (next_due l maxId s ms) as [t|]; [destruct IH as [? ?]; split; [by right|done]|].
    intros t [->|Ht]%elem_of_cons; [lia|by apply IH].
  - destruct (due s ms te) eqn:E; [split; [by left|done]|].
    destruct (next_due l maxId s ms) as [t|]; [destruct IH as [? ?]; split; [by right|done]|].
    intros t [->|Ht]%elem_of_cons; [done|by apply IH].
Qed.

Lemma unlink_spec l id :
  match unlink l id with
  | Some (te, l') => te_id te = id /\ exists l1 l2, l = l1 ++ te :: l2 /\ l' = l1 ++ l2 /\ id ∉ map te_id l1
  | None => id ∉ map te_id l
  end.
Proof.
  induction l as [|te l IH]; cbn [unlink map]; [by intros H; inversion H|].
  destruct (Z.eqb_spec (te_id te) id) as [<-|Hne].
  - split; [done|]. exists [], l. split_and!; [done|done|]. intros H; inversion H.
  - destruct (unlink l id) as [[te' l']|].
    + destruct IH as (H1 & l1 & l2 & -> & -> & Hn). split; [done|]. exists (te :: l1), l2.
      split_and!; [done|done|]. cbn. rewrite not_elem_of_cons. auto.
    + rewrite not_elem_of_cons. auto.
Qed.

Lemma reschedule_spec l id s ms :
  match reschedule l id s ms with
  | Some l' => id ∈ map te_id l /\ map te_id l' = map te_id l /\
      (forall te, te ∈ l' -> exists te0, te0 ∈ l /\ te = when te0 (when_sec te) (when_ms te)) /\
      (NoDup (map te_id l) -> forall te, te ∈ l' -> (te_id te = id /\ when_sec te = s /\ when_ms te = ms) \/ (te ∈ l /\ te_id te <> id))
  | None => id ∉ map te_id l
  end.
Proof.
  induction l as [|te l IH]; cbn [reschedule map]; [by intros H; inversion H|].
  destruct (Z.eqb_spec (te_id te) id) as [<-|Hne].
  - split; [by left|]. split; [done|]. split.
    { intros t [->|Ht]%elem_of_cons; [exists te; split; [by left|done]|].
      exists t. split; [by right|]. by destruct t. }
    intros [Hn _]%NoDup_cons t [->|Ht]%elem_of_cons; [by left|].
    right. split; [by right|]. intros E. apply Hn. rewrite <- E. by apply list_elem_of_fmap_2.
  - destruct (reschedule l id s ms) as [l'|]; cbn.
    + destruct IH as (Hi & E & Hw & IH). split; [by right|]. split; [by rewrite E|]. split.
      { intros t [->|Ht]%elem_of_cons; [exists te; split; [by left|by destruct te]|].
        destruct (Hw t Ht) as (t0 & ? & ?). exists t0. split; [by right|done]. }
      intros [Hn Hnd]%NoDup_cons t [->|Ht]%elem_of_cons; [right; split; [by left|done]|].
      destruct (IH Hnd t Ht) as [?|[? ?]]; [by left|right; split; [by right|done]].
    + rewrite not_elem_of_cons. auto.
Qed.
End Timers.

(** The timer the poll waits for is a pending one, no pending timer is
    earlier, and there is none only when no timer is pending. *)
Theorem nearest_timer_minimal {D} (e : aeEventLoop D) :
  match aeSearchNearestTimer e with
  | Some t => t ∈ timeEvents e /\ forall t', t' ∈ timeEvents e -> earlier t' t = false
  | None => timeEvents e = []
  end.
Proof.
  unfold aeSearchNearestTimer. pose proof (nearest_loop_spec (timeEvents e) None) as H.
  destruct (nearest_loop (timeEvents e) None) as [t|].
  - destruct H as [[?|Hin] Hmin]; [done|]. split; [done|]. intros t' Ht'. apply Hmin. by right.
  - by destruct H.
Qed.

(** C39.  A timer that is not overdue bounds the sleep exactly: the poll may sleep
    until the timer is due and not a millisecond longer. *)
Theorem poll_timeout_exact te now_sec now_ms flags :
  0 <= when_ms te < 1000 -> 0 <= now_ms < 1000 ->
  now_sec * 1000 + now_ms <= when_sec te * 1000 + when_ms te ->
  exists s us, poll_timeout (Some te) now_sec now_ms flags = Some (s, us) /\
    0 <= s /\ 0 <= us < 1000000 /\
    s * 1000000 + us = ((when_sec te * 1000 + when_ms te) - (now_sec * 1000 + now_ms)) * 1000.
Proof.
  intros Hw Hn Hle. unfold poll_timeout.
  destruct (Z.ltb_spec (when_ms te) now_ms); do 2 eexists; (split; [done|]);
    repeat match goal with |- context [?a <? ?b] => destruct (Z.ltb_spec a b) end; lia.
Qed.

(** A timer that is already overdue does not make the poll return at once: the
    negative seconds are cut to zero but the milliseconds are kept, so a loop that
    has nothing else to do sleeps up to 999 milliseconds more, the lateness being
    rounded up to a whole second. *)
Theorem overdue_timer_sleeps te now_sec now_ms flags :
  0 <= when_ms te < 1000 -> 0 <= now_ms < 1000 ->
  when_sec te * 1000 + when_ms te < now_sec * 1000 + now_ms ->
  poll_timeout (Some te) now_sec now_ms flags =
  Some (0, ((when_sec te * 1000 + when_ms te) - (now_sec * 1000 + now_ms)) mod 1000 * 1000).
Proof.
  intros Hw Hn Hlt. unfold poll_timeout.
  assert (E : ((when_sec te * 1000 + when_ms te) - (now_sec * 1000 + now_ms)) mod 1000
              = if when_ms te <? now_ms then when_ms te + 1000 - now_ms else when_ms te - now_ms).
  { destruct (Z.ltb_spec (when_ms te) now_ms).
    - rewrite <- (Z_mod_plus_full _ (now_sec - when_sec te + 1)), Z.mod_small; lia.
    - rewrite <- (Z_mod_plus_full _ (now_sec - when_sec te)), Z.mod_small; lia. }
  rewrite E. destruct (Z.ltb_spec (when_ms te) now_ms);
    repeat match goal with |- context [?a <? ?b] => destruct (Z.ltb_spec a b) end; try done; lia.
Qed.

(** *** A round of time events *)

Section Round.
Context {W D : Type} {AW : AeWorld W D} {AP : AeProcs W}.
Context {AWOk : AeWorldOk W D}.

(** What a round relies on.  [P] holds of the worlds of the round: the loop is there,
    the clock does not go back before the start of the round ([now] milliseconds),
    and handlers and finalizers are good citizens: they return, they do not
    bring back or alter the old timers (new ones have ids above [maxId]), and a
    handler asks for a positive interval or no more, and does not delete its own
    timer while asking for more. *)
Record round_ok (p maxId now_sec now_ms : Z) (P : W -> Prop) : Prop := {
  rd_loop : forall w, P w -> exists e, loop_get w p = Some e /\ NoDup (map te_id (timeEvents e));
  rd_clock : forall w sec usec w', P w -> gettimeofday w = ((sec, usec), w') ->
    0 <= usec < 1000000 /\ now_sec * 1000 + now_ms <= sec * 1000 + usec / 1000 /\ P w';
  rd_put : forall w e l, P w -> loop_get w p = Some e -> NoDup (map te_id l) ->
    (forall t, t ∈ l -> exists t0, t0 ∈ timeEvents e /\ t = when t0 (when_sec t) (when_ms t)) ->
    P (put p (set_times e (timeEventNextId e) l) w);
  rd_proc : forall w e te, P w -> loop_get w p = Some e -> te ∈ timeEvents e ->
    exists r w' e', run_time_proc (timeProc te) p (te_id te) (te_clientData te) w = Ret (r, w') /\
      P w' /\ loop_get w' p = Some e' /\ (r = AE_NOMORE \/ 0 < r) /\
      (forall t, t ∈ timeEvents e' -> te_id t <= maxId -> t ∈ timeEvents e) /\
      (r <> AE_NOMORE -> te_id te ∈ map te_id (timeEvents e'));
  rd_final : forall w e te, P w -> loop_get w p = Some e ->
    exists w' e', run_finalizer (finalizerProc te) p (te_clientData te) w = Ret w' /\
      P w' /\ loop_get w' p = Some e' /\
      (forall t, t ∈ timeEvents e' -> te_id t <= maxId -> t ∈ timeEvents e);
}.

(** The old timers that are due. *)
Definition pend (maxId now_sec now_ms : Z) (l : list aeTimeEvent) : list aeTimeEvent :=
  filter (fun te => te_id te <= maxId /\ due now_sec now_ms te = true) l.

Lemma NoDup_ids (l : list aeTimeEvent) : NoDup (map te_id l) -> NoDup l.
Proof. apply NoDup_fmap_1. Qed.

Lemma elem_of_pend maxId s ms l t :
  t ∈ pend maxId s ms l <-> (te_id t <= maxId /\ due s ms t = true) /\ t ∈ l.
Proof. unfold pend. by rewrite list_elem_of_filter. Qed.

(** Fewer old timers, one of them gone: the measure decreases. *)
Lemma pend_decreases maxId s ms l l' te :
  NoDup (map te_id l) -> NoDup (map te_id l') -> te ∈ pend maxId s ms l ->
  (forall t, t ∈ pend maxId s ms l' -> t ∈ l /\ t <> te) ->
  (length (pend maxId s ms l') < length (pend maxId s ms l))%nat.
Proof.
  intros Hnd Hnd' Hte Hsub.
  assert (Hs : te :: pend maxId s ms l' ⊆+ pend maxId s ms l).
  { apply NoDup_submseteq.
    - apply NoDup_cons. split; [|by apply NoDup_filter, NoDup_ids].
      intros H. by destruct (Hsub _ H).
    - intros t [->|Ht]%elem_of_cons; [done|]. apply elem_of_pend. split; [|by apply Hsub].
      by apply elem_of_pend in Ht as [? _]. }
  apply submseteq_length in Hs. cbn in Hs. lia.
Qed.

Lemma run_timer_ok p maxId s ms P w e te :
  round_ok p maxId s ms P -> P w -> loop_get w p = Some e -> te ∈ pend maxId s ms (timeEvents e) ->
  0 <= ms < 1000 ->
  exists w' e', run_timer p te w = Ret w' /\ P w' /\ loop_get w' p = Some e' /\
    (length (pend maxId s ms (timeEvents e')) < length (pend maxId s ms (timeEvents e)))%nat.
Proof.
  intros HR HP He Hpd Hms. pose proof Hpd as [[Hid Hdue] Hin]%elem_of_pend.
  destruct (rd_loop _ _ _ _ _ HR _ HP) as (e0 & He0 & Hnd). rewrite He in He0. injection He0 as <-.
  destruct (rd_proc _ _ _ _ _ HR _ _ _ HP He Hin) as (r & w1 & e1 & Hrun & HP1 & He1 & Hr & Hold & Hself).
  destruct (rd_loop _ _ _ _ _ HR _ HP1) as (e0 & He0 & Hnd1). rewrite He1 in He0. injection He0 as <-.
  unfold run_timer. rewrite Hrun, bind_Ret_l. destruct (Z.eqb_spec r AE_NOMORE) as [->|Hne]; cbn [negb].
  - unfold aeDeleteTimeEvent. rewrite (deref_ok _ _ _ He1), bind_Ret_l.
    pose proof (unlink_spec (timeEvents e1) (te_id te)) as Hu.
    destruct (unlink (timeEvents e1) (te_id te)) as [[te' l]|].
    + destruct Hu as (Hid' & l1 & l2 & Hl & -> & Hn1).
      assert (Hndl : NoDup (map te_id (l1 ++ l2)) /\ te_id te ∉ map te_id (l1 ++ l2)).
      { rewrite Hl in Hnd1. rewrite map_app in *. cbn in Hnd1.
        assert (Hc : NoDup (te_id te' :: map te_id l1 ++ map te_id l2)).
        { by rewrite Permutation_middle. }
        rewrite Hid' in Hc. apply NoDup_cons in Hc. tauto. }
      destruct Hndl as [Hndl Hgone].
      set (w2 := put p (set_times e1 (timeEventNextId e1) (l1 ++ l2)) w1).
      assert (HP2 : P w2).
      { apply (rd_put _ _ _ _ _ HR); [done|done|done|]. intros t Ht. exists t. rewrite Hl.
        split; [set_solver|by destruct t]. }
      assert (He2 : loop_get w2 p = Some (set_times e1 (timeEventNextId e1) (l1 ++ l2)))
        by (unfold w2, put; apply loop_get_set).
      assert (Hsub : forall t, t ∈ l1 ++ l2 -> te_id t <= maxId -> t ∈ timeEvents e /\ t <> te).
      { intros t Ht Hle. split.
        - apply Hold; [|done]. rewrite Hl. set_solver.
        - intros ->. apply Hgone. by apply list_elem_of_fmap_2. }
      destruct (Z.eqb_spec (finalizerProc te') 0).
      * rewrite !bind_Ret_l. do 2 eexists. split; [done|]. split; [done|]. split; [exact He2|].
        apply (pend_decreases _ _ _ _ _ te); try done.
        intros t [[? ?] ?]%elem_of_pend. by apply Hsub.
      * destruct (rd_final _ _ _ _ _ HR w2 _ te' HP2 He2) as (w3 & e3 & Hf & HP3 & He3 & Hold3).
        rewrite Hf, !bind_Ret_l. do 2 eexists. split; [done|]. split; [done|]. split; [exact He3|].
        destruct (rd_loop _ _ _ _ _ HR _ HP3) as (e0 & He0 & Hnd3). rewrite He3 in He0. injection He0 as <-.
        apply (pend_decreases _ _ _ _ _ te); try done.
        intros t [[? ?] ?]%elem_of_pend. apply Hsub; [|done]. by apply (Hold3 t).
    + rewrite !bind_Ret_l. do 2 eexists. split; [done|]. split; [done|]. split; [exact He1|].
      apply (pend_decreases _ _ _ _ _ te); try done.
      intros t [[? ?] ?]%elem_of_pend. split; [by apply Hold|].
      intros ->. apply Hu. by apply list_elem_of_fmap_2.
  - destruct Hr as [?|Hr]; [done|].
    unfold aeAddMillisecondsToNow, aeGetTime. destruct (gettimeofday w1) as [[sec usec] w2] eqn:Eg.
    destruct (rd_clock _ _ _ _ _ HR _ _ _ _ HP1 Eg) as (Hus & Hnow & HP2).
    assert (He2 : loop_get w2 p = Some e1) by (rewrite <- He1, <- (gettimeofday_loops w1), Eg; done).
    destruct (aeAddMillisecondsToNow r w1) as [[s' m'] w2'] eqn:Ea.
    pose proof (add_milliseconds_exact w1 r sec usec w2 s' m' w2' Eg Hus Ea) as [Hexact Hnorm].
    unfold aeAddMillisecondsToNow, aeGetTime in Ea. rewrite Eg in Ea. rewrite Ea.
    assert (w2' = w2) as -> by (revert Ea; destruct (1000 <=? usec ÷ 1000 + Z.rem r 1000); congruence).
    rewrite (deref_ok _ _ _ He2), bind_Ret_l.
    pose proof (reschedule_spec (timeEvents e1) (te_id te) s' m') as Hs.
    destruct (reschedule (timeEvents e1) (te_id te) s' m') as [l|]; [|by destruct Hs; apply Hself].
    cbn [of_option]. rewrite bind_Ret_l. destruct Hs as (_ & Hids & Hsame & Hl). specialize (Hl Hnd1).
    do 2 eexists. split; [done|].
    split; [apply (rd_put _ _ _ _ _ HR); [done|done|by rewrite Hids|done]|].
    split; [unfold put; apply loop_get_set|].
    apply (pend_decreases _ _ _ _ _ te); try done; [cbn; by rewrite Hids|].
    intros t [[Ht1 Ht2] Ht3]%elem_of_pend. destruct (Hl t Ht3) as [(Hi & Hsec & Hmsec)|[Hin' Hneq]].
    + exfalso. unfold due in Ht2. rewrite Hsec, Hmsec in Ht2.
      specialize (Hnorm ltac:(lia)). apply orb_true_iff in Ht2 as [Ht2|Ht2]; b2p; lia.
    + split; [by apply Hold|]. by intros ->.
Qed.

Lemma time_loop_ok p maxId s ms P fuel : forall w e processed,
  round_ok p maxId s ms P -> 0 <= ms < 1000 -> P w -> loop_get w p = Some e ->
  (length (pend maxId s ms (timeEvents e)) <= fuel)%nat ->
  exists k w' e', time_loop fuel p maxId s ms processed w = Ret (processed + k, w') /\
    0 <= k <= Z.of_nat (length (pend maxId s ms (timeEvents e))) /\
    loop_get w' p = Some e' /\ pend maxId s ms (timeEvents e') = [].
Proof.
  induction fuel as [|fuel IH]; intros w e processed HR Hms HP He Hf; cbn [time_loop];
    rewrite (deref_ok _ _ _ He), bind_Ret_l; pose proof (next_due_spec (timeEvents e) maxId s ms) as Hd;
    destruct (next_due (timeEvents e) maxId s ms) as [te|].
  - destruct Hd as (H1 & H2 & H3). assert (te ∈ pend maxId s ms (timeEvents e)) as Hin by (by apply elem_of_pend).
    destruct (pend maxId s ms (timeEvents e)); [by inversion Hin|cbn in Hf; lia].
  - exists 0, w, e. rewrite Z.add_0_r. split_and!; [done|lia|lia|done|].
    destruct (pend maxId s ms (timeEvents e)) as [|t l] eqn:E; [done|].
    assert (t ∈ pend maxId s ms (timeEvents e)) as [[? Hdt] ?]%elem_of_pend by (rewrite E; by left).
    rewrite Hd in Hdt; done.
  - destruct Hd as (H1 & H2 & H3).
    destruct (run_timer_ok p maxId s ms P w e te) as (w1 & e1 & Hrun & HP1 & He1 & Hlt); try done.
    { by apply elem_of_pend. }
    rewrite Hrun, bind_Ret_l.
    destruct (IH w1 e1 (processed + 1) HR Hms HP1 He1 ltac:(lia)) as (k & w' & e' & Hk & Hr & He' & Hp').
    exists (k + 1), w', e'. rewrite Hk. split_and!; try done; try lia. do 2 f_equal. lia.
  - exists 0, w, e. rewrite Z.add_0_r. split_and!; [done|lia|lia|done|].
    destruct (pend maxId s ms (timeEvents e)) as [|t l] eqn:E; [done|].
    assert (t ∈ pend maxId s ms (timeEvents e)) as [[? Hdt] ?]%elem_of_pend by (rewrite E; by left).
    rewrite Hd in Hdt; done.
Qed.
End Round.

(** C34.  A round of time events ends and misses nothing: under well-behaved
    handlers the scan that restarts from the head after every event terminates
    after at most one run per timer that was due at the start (the fuel needed is
    their number), and no old timer is left due. *)
Theorem time_round_terminates {W D} {AW : AeWorld W D} {AP : AeProcs W} {AWOk : AeWorldOk W D}
    p maxId s ms P fuel w e :
  round_ok p maxId s ms P -> 0 <= ms < 1000 -> P w -> loop_get w p = Some e ->
  (length (pend maxId s ms (timeEvents e)) <= fuel)%nat ->
  exists k w' e', time_loop fuel p maxId s ms 0 w = Ret (k, w') /\
    0 <= k <= Z.of_nat (length (pend maxId s ms (timeEvents e))) /\
    loop_get w' p = Some e' /\ pend maxId s ms (timeEvents e') = [].
Proof. intros. by eapply (time_loop_ok p maxId s ms P fuel w e 0). Qed.

(** A handler that deletes its own timer and still asks to be run again makes
    the loop write through a pointer to the freed time event. *)
Theorem timer_self_delete_undefined {W D} {AW : AeWorld W D} {AP : AeProcs W} {AWOk : AeWorldOk W D} p te w r w' e' :
  run_time_proc (timeProc te) p (te_id te) (te_clientData te) w = Ret (r, w') ->
  r <> AE_NOMORE -> loop_get w' p = Some e' -> te_id te ∉ map te_id (timeEvents e') ->
  run_timer p te w = Undef.
Proof.
  intros Hrun Hr He Hn. unfold run_timer. rewrite Hrun, bind_Ret_l.
  destruct (Z.eqb_spec r AE_NOMORE); [done|]. cbn [negb].
  destruct (aeAddMillisecondsToNow r w') as [[s' m'] w2] eqn:Ea.
  assert (He2 : loop_get w2 p = Some e').
  { unfold aeAddMillisecondsToNow, aeGetTime in Ea. pose proof (gettimeofday_loops w' p) as Hl.
    destruct (gettimeofday w') as [[sec usec] w3]. cbn in Hl.
    revert Ea. destruct (1000 <=? _); intros [= <- <- <-]; by rewrite Hl. }
  rewrite (deref_ok _ _ _ He2), bind_Ret_l.
  pose proof (reschedule_spec (timeEvents e') (te_id te) s' m') as Hs.
  destruct (reschedule (timeEvents e') (te_id te) s' m'); [|done].
  by destruct Hs as [Hin _].
Qed.

(** ** A concrete process

    A world to run the loop in: a table of loops, a clock that advances one
    microsecond per reading, and handlers coded by their address: a time handler at
    address [n] > 1 asks to be run again after [n] ms, one at 1 asks for no more, the
    one at 0 deletes the timer it was called for and asks for 5 ms; file handlers
    write the descriptor into the log. *)
Module Sim.
Record world (D : Type) := World {
  loops : gmap Z (aeEventLoop D); clock : Z; log : list Z; brk : Z }.
Arguments World {D}. Arguments loops {D}. Arguments clock {D}. Arguments log {D}. Arguments brk {D}.

Section Sim.
Context {D : Type}.
Implicit Types w : world D.

Definition set (w : world D) (p : Z) (e : option (aeEventLoop D)) : world D :=
  World (partial_alter (fun _ => e) p (loops w)) (clock w) (log w) (brk w).
Definition tick (w : world D) : world D := World (loops w) (clock w + 1) (log w) (brk w).
Definition say (w : world D) (x : Z) : world D := World (loops w) (clock w) (log w ++ [x]) (brk w).

Definition time_handler (proc p id : Z) (w : world D) : res (Z * world D) :=
  if proc =? 0 then
    match loops w !! p with
    | Some e => Ret (5, set w p (Some (set_times e (timeEventNextId e)
                  (filter (fun te => te_id te <> id) (timeEvents e)))))
    | None => Undef
    end
  else if proc =? 1 then Ret (AE_NOMORE, say w id)
  else if 0 <? proc then Ret (proc, say w id) else Undef.

#[global] Instance SimWorld : AeWorld (world D) D := {|
  loop_get := fun w p => loops w !! p;
  loop_set := set;
  ae_malloc := fun w => (Some (brk w), World (loops w) (clock w) (log w) (brk w + 64));
  time_now := fun w => (clock w / 1000000, tick w);
  gettimeofday := fun w => ((clock w / 1000000, clock w mod 1000000), tick w);
  os_poll := fun fd ev ms w => ((0, 0), w);
|}.

#[global] Instance SimProcs : AeProcs (world D) := {|
  run_file_proc := fun proc p fd cd mask w => Ret (say w fd);
  run_time_proc := fun proc p id cd w => time_handler proc p id w;
  run_finalizer := fun proc p cd w => Ret (say w cd);
  run_beforesleep := fun proc p w => Ret w;
|}.

#[global] Instance SimWorld_ok : AeWorldOk (world D) D.
Proof.
  constructor; cbn; intros; try done.
  - by rewrite lookup_partial_alter_eq.
  - by rewrite lookup_partial_alter_ne.
Qed.
End Sim.
End Sim.

(** One loop at address 1 with three timers, at time 100.000 s: one overdue that
    repeats, one due that ends, one for later. *)
Definition ex_timers : list aeTimeEvent :=
  [TimeEvent 2 200 0 1 0 0; TimeEvent 1 100 0 1 9 7; TimeEvent 0 99 500 50 0 0].
Definition ex_world : Sim.world unit :=
  Sim.World {[1 := EventLoop (-1) 0 3 0 [] [] ex_timers 0 tt 0]} 100000000 [] 64.

Definition ex_P (w : Sim.world unit) : Prop :=
  100000000 <= Sim.clock w /\
  exists e, Sim.loops w !! 1 = Some e /\ NoDup (map te_id (timeEvents e)) /\
            Forall (fun te => 0 < timeProc te) (timeEvents e).

Lemma ex_round : round_ok (D := unit) 1 2 100 0 ex_P.
Proof.
  constructor.
  - intros w (_ & e & He & Hnd & _). by exists e.
  - intros w sec usec w' (Hc & He) [= <- <- <-].
    pose proof (Z.mod_pos_bound (Sim.clock w) 1000000 ltac:(lia)).
    pose proof (Z.div_mod (Sim.clock w) 1000000 ltac:(lia)).
    pose proof (Z.div_le_mono 100000000 (Sim.clock w) 1000000 ltac:(lia) Hc) as Hd.
    change (100000000 / 1000000) with 100 in Hd.
    pose proof (Z.div_pos (Sim.clock w mod 1000000) 1000 ltac:(lia) ltac:(lia)).
    split; [lia|]. split; [lia|]. split; [cbn; lia|done].
  - intros w e l (Hc & e0 & He0 & _ & Hpos) He Hnd Hl. split; [done|].
    change (Sim.loops w !! 1 = Some e) in He. rewrite He in He0. injection He0 as <-.
    exists (set_times e (timeEventNextId e) l). cbn. rewrite lookup_partial_alter_eq. split_and!; [done|done|].
    apply Forall_forall. intros t Ht. destruct (Hl t Ht) as (t0 & Hin & ->).
    rewrite Forall_forall in Hpos. exact (Hpos t0 Hin).
  - intros w e te (Hc & e0 & He0 & Hnd & Hpos) He Hin.
    change (Sim.loops w !! 1 = Some e) in He. rewrite He in He0. injection He0 as <-.
    rewrite Forall_forall in Hpos. specialize (Hpos te Hin) as Hp. cbn in Hp.
    cbn [run_time_proc Sim.SimProcs]. unfold Sim.time_handler.
    destruct (Z.eqb_spec (timeProc te) 0); [lia|].
    assert (HP : ex_P (Sim.say w (te_id te))).
    { split; [done|]. exists e. split_and!; [done|done|]. by apply Forall_forall. }
    destruct (Z.eqb_spec (timeProc te) 1); [|destruct (Z.ltb_spec 0 (timeProc te)); [|lia]].
    + exists AE_NOMORE, (Sim.say w (te_id te)), e. split_and!; auto. done.
    + exists (timeProc te), (Sim.say w (te_id te)), e. split_and!; auto.
      intros _. by apply list_elem_of_fmap_2.
  - intros w e te (Hc & e0 & He0 & Hnd & Hpos) He. exists (Sim.say w (te_clientData te)), e.
    split_and!; auto. split; [done|]. by exists e0.
Qed.

Lemma time_round_terminates_witness :
  exists k w' e', time_loop 2 1 2 100 0 0 ex_world = Ret (k, w') /\
    0 <= k <= Z.of_nat (length (pend 2 100 0 ex_timers)) /\
    loop_get w' 1 = Some e' /\ pend 2 100 0 (timeEvents e') = [].
Proof.
  apply (time_round_terminates 1 2 100 0 ex_P 2 ex_world (EventLoop (-1) 0 3 0 [] [] ex_timers 0 tt 0) ex_round).
  - lia.
  - split; [cbn; lia|]. eexists. split; [reflexivity|]. split; [|repeat constructor].
    apply NoDup_fmap_2_strong; [|]; repeat constructor; set_solver.
  - reflexivity.
  - vm_compute. repeat constructor.
Defined.

Lemma timer_self_delete_undefined_witness :
  run_timer 1 (TimeEvent 0 99 500 0 0 0)
    (Sim.World {[1 := EventLoop (-1) 0 3 0 [] [] [TimeEvent 0 99 500 0 0 0] 0 tt 0]} 100000000 [] 64) = Undef.
Proof.
  eapply (timer_self_delete_undefined 1 _ _ 5).
  - reflexivity.
  - discriminate.
  - reflexivity.
  - cbn. intros H. inversion H.
Defined.

Lemma add_milliseconds_exact_witness :
  100 * 1000 + 250 = 100 * 1000 + 0 / 1000 + 250 /\ (0 <= 250 -> 0 <= 250 < 1000).
Proof.
  apply (add_milliseconds_exact ex_world 250 100 0 (Sim.tick ex_world) 100 250 (Sim.tick ex_world));
    [reflexivity|lia|reflexivity].
Defined.

Lemma poll_timeout_exact_witness :
  exists s us, poll_timeout (Some (TimeEvent 2 200 0 1 0 0)) 199 900 3 = Some (s, us) /\
    0 <= s /\ 0 <= us < 1000000 /\ s * 1000000 + us = ((200 * 1000 + 0) - (199 * 1000 + 900)) * 1000.
Proof. apply (poll_timeout_exact (TimeEvent 2 200 0 1 0 0) 199 900 3); cbn; lia. Defined.

Lemma overdue_timer_sleeps_witness :
  poll_timeout (Some (TimeEvent 2 200 0 1 0 0)) 200 1 3 = Some (0, 999000).
Proof. apply (overdue_timer_sleeps (TimeEvent 2 200 0 1 0 0) 200 1 3); cbn; lia. Defined.
