(* ===== verification/AeSelect.v ===== *)
(** * AeSelect: the polling layer over select(2)

    Source: src/src/ae/ae_select.cc, the layer ae.cc includes when no HAVE_ macro is
    defined, as in src/src/ae/makefile.  It implements the interface [AeApi] of the
    loop and satisfies its contract [AeApiOk]; the system call is the class
    [SelectOs]. *)
From S2P Require Import Prelude Ae.
Local Open Scope Z_scope.

(** An fd_set is a bit array of FD_SETSIZE descriptors. *)
Definition FD_SETSIZE : Z := 1024.
Definition fd_set := gset Z.

Record aeApiState := ApiState { rfds : fd_set; wfds : fd_set; rfds' : fd_set; wfds' : fd_set }.

Definition fd_in_set (fd : Z) : bool := (0 <=? fd) && (fd <? FD_SETSIZE).
(** Outside the array the macros write or read other memory. *)
Definition FD_SET (fd : Z) (s : fd_set) : res fd_set :=
  if fd_in_set fd then Ret ({[fd]} ∪ s) else Undef.
Definition FD_CLR (fd : Z) (s : fd_set) : res fd_set :=
  if fd_in_set fd then Ret (s ∖ {[fd]}) else Undef.
Definition FD_ISSET (fd : Z) (s : fd_set) : res bool :=
  if fd_in_set fd then Ret (bool_decide (fd ∈ s)) else Undef.

(** select(nfds, readfds, writefds, NULL, timeout): the result and the sets as the
    system leaves them. *)
Class SelectOs (W : Type) := {
  select : Z -> fd_set -> fd_set -> option (Z * Z) -> W -> (Z * fd_set * fd_set) * W;
}.

Section Select.
Context {W : Type} {AW : AeWorld W aeApiState} {OS : SelectOs W}.

Definition sel_create (setsize : Z) (w : W) : option aeApiState * W :=
  let '(p, w) := ae_malloc w in
  match p with
  | None => (None, w)
  | Some _ => (Some (ApiState ∅ ∅ ∅ ∅), w)
  end.

Definition sel_free (state : aeApiState) (w : W) : res W := Ret w.

Definition sel_add (p fd mask : Z) (w : W) : res (Z * W) :=
  e ← deref p w;
  let state := apidata e in
  r ← (if has mask AE_READABLE then FD_SET fd (rfds state) else Ret (rfds state));
  s ← (if has mask AE_WRITABLE then FD_SET fd (wfds state) else Ret (wfds state));
  Ret (0, put p (set_apidata e (ApiState r s (rfds' state) (wfds' state))) w).

Definition sel_del (p fd mask : Z) (w : W) : res W :=
  e ← deref p w;
  let state := apidata e in
  r ← (if has mask AE_READABLE then FD_CLR fd (rfds state) else Ret (rfds state));
  s ← (if has mask AE_WRITABLE then FD_CLR fd (wfds state) else Ret (wfds state));
  Ret (put p (set_apidata e (ApiState r s (rfds' state) (wfds' state))) w).

(** for (j = 0; j <= maxfd; j++): the fired events of [j], j + 1, ... ([n] of them),
    for every registered descriptor, whether it is ready or not. *)
Fixpoint sel_scan (evs : list aeFileEvent) (r s : fd_set) (j : Z) (n : nat) : res (list aeFiredEvent) :=
  match n with
  | O => Ret []
  | S n =>
      fe ← of_option (evs !! Z.to_nat j);
      if fe_mask fe =? AE_NONE then sel_scan evs r s (j + 1) n
      else
        m1 ← (if has (fe_mask fe) AE_READABLE then
                b ← FD_ISSET j r; Ret (if (b : bool) then AE_READABLE else 0)
              else Ret 0);
        m2 ← (if has (fe_mask fe) AE_WRITABLE then
                b ← FD_ISSET j s; Ret (if (b : bool) then AE_WRITABLE else 0)
              else Ret 0);
        l ← sel_scan evs r s (j + 1) n;
        Ret (FiredEvent j (Z.lor m1 m2) :: l)
  end.

Definition sel_poll (p : Z) (tvp : option (Z * Z)) (w : W) : res (Z * W) :=
  e ← deref p w;
  let state := apidata e in
  let '((retval, r, s), w) := select (maxfd e + 1) (rfds state) (wfds state) tvp w in
  let e := set_apidata e (ApiState (rfds state) (wfds state) r s) in
  if 0 <? retval then
    l ← sel_scan (events e) r s 0 (Z.to_nat (maxfd e + 1));
    Ret (Z.of_nat (length l), put p (set_fired e (l ++ drop (length l) (fired e))) w)
  else Ret (0, put p e w).

#[export] Instance SelectApi : AeApi W aeApiState := {|
  aeApiCreate := sel_create;
  aeApiFree := sel_free;
  aeApiAddEvent := sel_add;
  aeApiDelEvent := sel_del;
  aeApiPoll := sel_poll;
  aeApiName := [115; 101; 108; 101; 99; 116];   (* "select" *)
|}.
End Select.

(** ** The contract *)

Definition sel_mask (state : aeApiState) (fd : Z) : Z :=
  Z.lor (if bool_decide (fd ∈ rfds state) then AE_READABLE else 0)
        (if bool_decide (fd ∈ wfds state) then AE_WRITABLE else 0).

Lemma small_mask m : 0 <= m <= 3 -> m = 0 \/ m = 1 \/ m = 2 \/ m = 3.
Proof. lia. Qed.

Lemma FD_SET_if (b : bool) fd s r :
  (if b then FD_SET fd s else Ret s) = Ret r ->
  forall x, bool_decide (x ∈ r) = bool_decide (x ∈ s) || (b && bool_decide (x = fd)).
Proof.
  unfold FD_SET. intros H x. destruct b; res_cases; cbn.
  - repeat case_bool_decide; try done; set_solver.
  - by destruct (bool_decide (x ∈ _)).
Qed.

Lemma FD_CLR_if (b : bool) fd s r :
  (if b then FD_CLR fd s else Ret s) = Ret r ->
  forall x, bool_decide (x ∈ r) = bool_decide (x ∈ s) && negb (b && bool_decide (x = fd)).
Proof.
  unfold FD_CLR. intros H x. destruct b; res_cases; cbn.
  - repeat case_bool_decide; try done; set_solver.
  - by destruct (bool_decide (x ∈ _)).
Qed.

Lemma sel_mask_add state fd mask r s :
  0 <= mask <= 3 ->
  (if has mask AE_READABLE then FD_SET fd (rfds state) else Ret (rfds state)) = Ret r ->
  (if has mask AE_WRITABLE then FD_SET fd (wfds state) else Ret (wfds state)) = Ret s ->
  sel_mask (ApiState r s (rfds' state) (wfds' state)) fd = Z.lor (sel_mask state fd) mask /\
  forall fd', fd' <> fd -> sel_mask (ApiState r s (rfds' state) (wfds' state)) fd' = sel_mask state fd'.
Proof.
  intros Hm Hr Hs. pose proof (FD_SET_if _ _ _ _ Hr) as Er. pose proof (FD_SET_if _ _ _ _ Hs) as Es.
  unfold sel_mask. cbn.
  split; [|intros fd' Hne]; rewrite Er, Es.
  - rewrite (bool_decide_true (fd = fd)) by done. rewrite !andb_true_r.
    destruct (bool_decide (fd ∈ rfds state)), (bool_decide (fd ∈ wfds state));
      destruct (small_mask mask Hm) as [->|[->|[->| ->]]]; reflexivity.
  - rewrite (bool_decide_false (fd' = fd)) by done. by rewrite !andb_false_r, !orb_false_r.
Qed.

Lemma sel_mask_del state fd mask r s :
  0 <= mask <= 3 ->
  (if has mask AE_READABLE then FD_CLR fd (rfds state) else Ret (rfds state)) = Ret r ->
  (if has mask AE_WRITABLE then FD_CLR fd (wfds state) else Ret (wfds state)) = Ret s ->
  sel_mask (ApiState r s (rfds' state) (wfds' state)) fd = Z.land (sel_mask state fd) (Z.lnot mask) /\
  forall fd', fd' <> fd -> sel_mask (ApiState r s (rfds' state) (wfds' state)) fd' = sel_mask state fd'.
Proof.
  intros Hm Hr Hs. pose proof (FD_CLR_if _ _ _ _ Hr) as Er. pose proof (FD_CLR_if _ _ _ _ Hs) as Es.
  unfold sel_mask. cbn.
  split; [|intros fd' Hne]; rewrite Er, Es.
  - rewrite (bool_decide_true (fd = fd)) by done. rewrite !andb_true_r.
    destruct (bool_decide (fd ∈ rfds state)), (bool_decide (fd ∈ wfds state));
      destruct (small_mask mask Hm) as [->|[->|[->| ->]]]; reflexivity.
  - rewrite (bool_decide_false (fd' = fd)) by done. by rewrite !andb_false_r, !andb_true_r.
Qed.

#[export] Instance SelectApi_ok {W} {AW : AeWorld W aeApiState} {AWOk : AeWorldOk W aeApiState}
    {OS : SelectOs W} : AeApiOk W aeApiState.
Proof.
  refine {| registered := fun w p fd =>
    match loop_get w p with Some e => sel_mask (apidata e) fd | None => 0 end |}.
  - intros w p e e' fd He Ha. by rewrite loop_get_set, He, Ha.
  - intros w p e fe fd mask r w' He Hfd Hfe Hr Hm Hreg H. rewrite He in Hreg.
    cbn in H. unfold sel_add in H. rewrite (deref_ok _ _ _ He), bind_Ret_l in H.
    apply bind_Ret_inv in H as (rs & Hrs & H). apply bind_Ret_inv in H as (ws & Hws & H).
    injection H as <- <-.
    destruct (sel_mask_add (apidata e) fd mask rs ws ltac:(lia) Hrs Hws) as [H1 H2].
    unfold put. rewrite loop_get_set, He. split; [eauto|]. split.
    + intros q Hq. by rewrite loop_get_set_ne.
    + cbn [apidata set_apidata]. rewrite H1, Hreg. split; [done|]. exact H2.
  - intros w p e fe old fd mask w' He Hfd Hfe Ho Hm Hreg Hmask H. rewrite He in Hreg.
    cbn in H. unfold sel_del in H. rewrite (deref_ok _ _ _ He), bind_Ret_l in H.
    apply bind_Ret_inv in H as (rs & Hrs & H). apply bind_Ret_inv in H as (ws & Hws & H).
    injection H as <-.
    destruct (sel_mask_del (apidata e) fd mask rs ws ltac:(lia) Hrs Hws) as [H1 H2].
    unfold put. rewrite loop_get_set, He. split; [eauto|]. split.
    + intros q Hq. by rewrite loop_get_set_ne.
    + cbn [apidata set_apidata]. rewrite H1, Hreg, Hmask. split; [done|]. exact H2.
Defined.

(** ** Polling *)

(** What select reported for a registered descriptor. *)
Definition sel_ready (fe : aeFileEvent) (r s : fd_set) (j : Z) : Z :=
  Z.lor (if has (fe_mask fe) AE_READABLE && bool_decide (j ∈ r) then AE_READABLE else 0)
        (if has (fe_mask fe) AE_WRITABLE && bool_decide (j ∈ s) then AE_WRITABLE else 0).

Lemma FD_ISSET_ok j s : 0 <= j < FD_SETSIZE -> FD_ISSET j s = Ret (bool_decide (j ∈ s)).
Proof.
  intros H. unfold FD_ISSET, fd_in_set.
  destruct (Z.leb_spec 0 j), (Z.ltb_spec j FD_SETSIZE); try lia. done.
Qed.

Lemma sel_scan_spec evs r s n : forall j,
  0 <= j -> j + Z.of_nat n <= FD_SETSIZE -> j + Z.of_nat n <= Z.of_nat (length evs) ->
  exists l, sel_scan evs r s j n = Ret l /\
    (length l <= n)%nat /\
    forall f, f ∈ l <-> exists fe, j <= fired_fd f < j + Z.of_nat n /\
      evs !! Z.to_nat (fired_fd f) = Some fe /\ fe_mask fe <> AE_NONE /\
      fired_mask f = sel_ready fe r s (fired_fd f).
Proof.
  induction n as [|n IH]; intros j Hj Hsz Hlen; cbn [sel_scan].
  { exists []. split; [done|]. split; [done|]. intros f. split; [by intros H; inversion H|].
    intros (fe & H & _). lia. }
  destruct (lookup_lt_is_Some_2 evs (Z.to_nat j)) as [fe Hfe]; [lia|].
  rewrite Hfe. cbn [of_option]. rewrite bind_Ret_l.
  destruct (IH (j + 1)) as (l & Hl & Hlen' & Hspec); [lia..|].
  assert (Hstep : forall f, (exists fe0, j <= fired_fd f < j + Z.of_nat (S n) /\
      evs !! Z.to_nat (fired_fd f) = Some fe0 /\ fe_mask fe0 <> AE_NONE /\
      fired_mask f = sel_ready fe0 r s (fired_fd f)) <->
    (fired_fd f = j /\ fe_mask fe <> AE_NONE /\ fired_mask f = sel_ready fe r s j) \/ f ∈ l).
  { intros f. rewrite Hspec. split.
    - intros (fe0 & Hr & Hl0 & Hm & Hf). destruct (decide (fired_fd f = j)) as [<-|Hne].
      + left. rewrite Hfe in Hl0. injection Hl0 as <-. done.
      + right. exists fe0. split_and!; try done; lia.
    - intros [(Hf & Hm & Hk)|(fe0 & Hr & ?)].
      + exists fe. rewrite Hf. split_and!; try done; lia.
      + exists fe0. split; [lia|done]. }
  destruct (Z.eqb_spec (fe_mask fe) AE_NONE) as [E|E].
  - rewrite Hl. exists l. split; [done|]. split; [lia|]. intros f. rewrite Hstep.
    split; [by right|]. intros [(_ & ? & _)|?]; done.
  - assert (H1 : (if has (fe_mask fe) AE_READABLE then
                b ← FD_ISSET j r; Ret (if (b : bool) then AE_READABLE else 0) else Ret 0)
              = Ret (if has (fe_mask fe) AE_READABLE && bool_decide (j ∈ r) then AE_READABLE else 0)).
    { destruct (has (fe_mask fe) AE_READABLE); [|done]. rewrite FD_ISSET_ok by lia. done. }
    assert (H2 : (if has (fe_mask fe) AE_WRITABLE then
                b ← FD_ISSET j s; Ret (if (b : bool) then AE_WRITABLE else 0) else Ret 0)
              = Ret (if has (fe_mask fe) AE_WRITABLE && bool_decide (j ∈ s) then AE_WRITABLE else 0)).
    { destruct (has (fe_mask fe) AE_WRITABLE); [|done]. rewrite FD_ISSET_ok by lia. done. }
    rewrite H1, bind_Ret_l, H2, bind_Ret_l, Hl, bind_Ret_l. eexists. split; [done|].
    split; [cbn; lia|]. intros f. rewrite Hstep, elem_of_cons. split.
    + intros [->|?]; [by left|by right].
    + intros [(H & _ & Hk)|?]; [left|by right]. destruct f; cbn in *. by subst.
Qed.

(** C36.  After a poll over select that found something, in a loop of any size whose highest
    watched descriptor is below FD_SETSIZE (1024), the fired events are exactly the
    registered descriptors, each with the events it is registered for and select
    reported; the number returned counts them all, also those with no event, and fits the
    array of fired events.  A loop made for more descriptors, as the 10240 of the scripts,
    can hold one of 1024 or more only through a write outside the fd_set
    (select_fd_overflow). *)
Theorem sel_poll_fired {W} {AW : AeWorld W aeApiState} {AWOk : AeWorldOk W aeApiState} {OS : SelectOs W}
    p tvp w e retval r s w1 :
  loop_get w p = Some e -> loop_ok e -> maxfd e < FD_SETSIZE ->
  select (maxfd e + 1) (rfds (apidata e)) (wfds (apidata e)) tvp w = ((retval, r, s), w1) -> 0 < retval ->
  exists n w' e', sel_poll p tvp w = Ret (n, w') /\ loop_get w' p = Some e' /\
    0 <= n <= Z.of_nat (length (fired e')) /\ length (fired e') = length (fired e) /\
    forall f, f ∈ take (Z.to_nat n) (fired e') <->
      exists fe, 0 <= fired_fd f /\ events e !! Z.to_nat (fired_fd f) = Some fe /\
        fe_mask fe <> AE_NONE /\ fired_mask f = sel_ready fe r s (fired_fd f).
Proof.
  intros He Hok Hsz Hsel Hpos. pose proof (ok_max _ Hok) as Hmax. pose proof (ok_len _ Hok) as Hlen.
  pose proof (ok_flen _ Hok) as Hflen.
  unfold sel_poll. rewrite (deref_ok _ _ _ He), bind_Ret_l, Hsel.
  destruct (Z.ltb_spec 0 retval); [|lia].
  destruct (sel_scan_spec (events e) r s (Z.to_nat (maxfd e + 1)) 0) as (l & Hl & Hn & Hspec); [lia..|].
  cbn [events maxfd set_apidata]. rewrite Hl, bind_Ret_l. do 3 eexists. split; [done|].
  split; [unfold put; apply loop_get_set|]. cbn [fired set_fired set_apidata].
  rewrite length_app, length_drop. split; [lia|]. split; [lia|]. intros f.
  rewrite Nat2Z.id, take_app_length, Hspec. split.
  - intros (fe & Hr & H1 & H2 & H3). exists fe. split_and!; try done; lia.
  - intros (fe & Hr & H1 & H2 & H3). exists fe. split_and!; try done; try lia.
    destruct (Z.le_gt_cases (fired_fd f) (maxfd e)); [lia|].
    pose proof (ok_above _ Hok (fired_fd f) ltac:(lia)) as Habove. unfold mask_of in Habove.
    destruct (Z.leb_spec 0 (fired_fd f)); [|lia]. rewrite H1 in Habove. done.
Qed.

(** With this layer a descriptor of 1024 or more cannot be watched, although
    the loop was created for more: adding it writes outside the fd_set. *)
Theorem select_fd_overflow {W} {AW : AeWorld W aeApiState} {OS : SelectOs W}
    p fd mask proc cd w e :
  loop_get w p = Some e -> FD_SETSIZE <= fd < setsize e -> 0 < mask <= 3 ->
  aeCreateFileEvent p fd mask proc cd w = Undef.
Proof.
  intros He Hfd Hmask. unfold aeCreateFileEvent. rewrite (deref_ok _ _ _ He), bind_Ret_l.
  destruct (Z.leb_spec (setsize e) fd); [lia|]. cbn [aeApiAddEvent SelectApi]. unfold sel_add.
  rewrite (deref_ok _ _ _ He), bind_Ret_l.
  assert (E : forall s, FD_SET fd s = Undef).
  { intros s. unfold FD_SET, fd_in_set. destruct (Z.leb_spec 0 fd), (Z.ltb_spec fd FD_SETSIZE); try lia; done. }
  rewrite !E. destruct (small_mask mask ltac:(lia)) as [->|[->|[->| ->]]]; [lia|done|done|done].
Qed.

(** *** A concrete loop over a select that finds descriptor 5 readable *)
#[export] Instance ExSelect : SelectOs (Sim.world aeApiState) := {|
  select := fun nfds r s tvp w => ((1, {[5]} ∩ r, ∅), w) |}.

Definition ex_loop (n : Z) : aeEventLoop aeApiState :=
  EventLoop (-1) n 0 0 (replicate (Z.to_nat n) (FileEvent 0 0 0 0))
    (replicate (Z.to_nat n) (FiredEvent 0 0)) [] 0 (ApiState ∅ ∅ ∅ ∅) 0.
Definition ex_w (n : Z) : Sim.world aeApiState := Sim.World {[1 := ex_loop n]} 0 [] 64.

Lemma ex_loop_ok n : 0 <= n -> loop_ok (ex_loop n).
Proof.
  intros Hn. constructor; cbn; try lia.
  - rewrite length_replicate. lia.
  - by rewrite !length_replicate.
  - apply Forall_replicate. cbn. lia.
  - intros fd _. unfold mask_of. cbn. destruct (0 <=? fd); [|done].
    destruct (replicate (Z.to_nat n) (FileEvent 0 0 0 0) !! Z.to_nat fd) eqn:E; [|done].
    by apply lookup_replicate in E as [-> _].
  - constructor.
  - constructor.
Qed.

Lemma ex_synced n : 0 <= n -> synced (ex_w n) 1.
Proof.
  intros Hn. exists (ex_loop n). split; [reflexivity|]. split; [by apply ex_loop_ok|].
  intros fd Hfd. assert (H : mask_of (ex_loop n) fd = 0) by (apply (ok_above _ (ex_loop_ok n Hn)); cbn; lia).
  rewrite H. reflexivity.
Qed.

(** The world after watching descriptor 5 for reading. *)
Definition ex_w1 : Sim.world aeApiState :=
  match aeCreateFileEvent 1 5 AE_READABLE 77 0 (ex_w 8) with Ret (_, w) => w | _ => ex_w 8 end.
Definition ex_e1 : aeEventLoop aeApiState := default (ex_loop 8) (loop_get ex_w1 1).

Lemma create_file_event_spec_witness :
  synced ex_w1 1 /\ exists e', loop_get ex_w1 1 = Some e' /\ setsize e' = setsize (ex_loop 8) /\
    (AE_OK = AE_OK /\ mask_of e' 5 = Z.lor (mask_of (ex_loop 8) 5) 1 \/
     AE_OK = AE_ERR /\ mask_of e' 5 = mask_of (ex_loop 8) 5) /\
    forall fd', fd' <> 5 -> mask_of e' fd' = mask_of (ex_loop 8) fd'.
Proof.
  apply (create_file_event_spec (ex_w 8) 1 (ex_loop 8) 5 1 77 0 AE_OK ex_w1).
  - apply ex_synced. lia.
  - reflexivity.
  - cbn. lia.
  - lia.
  - reflexivity.
Defined.

Lemma ex_w1_synced : synced ex_w1 1.
Proof.
  destruct (aeCreateFileEvent 1 5 AE_READABLE 77 0 (ex_w 8)) as [[r w]| | |] eqn:E; try discriminate E.
  exists ex_e1. split; [reflexivity|]. split.
  - exact (loop_ok_add (set_apidata (ex_loop 8) (ApiState ({[5]} ∪ ∅) ∅ ∅ ∅)) 5 (FileEvent 1 77 0 0)
      (loop_ok_set_apidata _ _ (ex_loop_ok 8 ltac:(lia))) ltac:(cbn; lia) ltac:(cbn; lia)).
  - intros fd Hfd. change (setsize ex_e1) with 8 in Hfd.
    assert (fd = 0 \/ fd = 1 \/ fd = 2 \/ fd = 3 \/ fd = 4 \/ fd = 5 \/ fd = 6 \/ fd = 7) as Hc by lia.
    destruct Hc as [->|[->|[->|[->|[->|[->|[->| ->]]]]]]]; reflexivity.
Qed.

Definition ex_w2 : Sim.world aeApiState :=
  match aeDeleteFileEvent 1 5 AE_READABLE ex_w1 with Ret w => w | _ => ex_w1 end.

Lemma delete_file_event_spec_witness :
  synced ex_w2 1 /\ (forall q, q <> 1 -> loop_get ex_w2 q = loop_get ex_w1 q) /\
  exists e', loop_get ex_w2 1 = Some e' /\ setsize e' = setsize ex_e1 /\
    mask_of e' 5 = Z.land (mask_of ex_e1 5) (Z.lnot 1) /\
    (forall fd', fd' <> 5 -> mask_of e' fd' = mask_of ex_e1 fd') /\ unwatched ex_e1 e' 5 1.
Proof.
  apply (delete_file_event_spec ex_w1 1 ex_e1 5 1 ex_w2).
  - exact ex_w1_synced.
  - reflexivity.
  - lia.
  - lia.
  - reflexivity.
Defined.

Lemma sel_poll_fired_witness :
  exists n w' e', sel_poll 1 None ex_w1 = Ret (n, w') /\ loop_get w' 1 = Some e' /\
    0 <= n <= Z.of_nat (length (fired e')) /\ length (fired e') = length (fired ex_e1) /\
    forall f, f ∈ take (Z.to_nat n) (fired e') <->
      exists fe, 0 <= fired_fd f /\ events ex_e1 !! Z.to_nat (fired_fd f) = Some fe /\
        fe_mask fe <> AE_NONE /\ fired_mask f = sel_ready fe ({[5]} ∩ rfds (apidata ex_e1)) ∅ (fired_fd f).
Proof.
  apply (sel_poll_fired 1 None ex_w1 ex_e1 1 _ _ ex_w1).
  - reflexivity.
  - destruct ex_w1_synced as (e & He & Hok & _). assert (Some e = Some ex_e1) as [= ->] by (rewrite <- He; reflexivity).
    exact Hok.
  - change (maxfd ex_e1) with 5. unfold FD_SETSIZE. lia.
  - reflexivity.
  - lia.
Defined.

Lemma select_fd_overflow_witness :
  aeCreateFileEvent 1 2000 AE_READABLE 77 0
    (Sim.World {[1 := EventLoop (-1) 10240 0 0 [] [] [] 0 (ApiState ∅ ∅ ∅ ∅) 0]} 0 [] 64) = Undef.
Proof.
  eapply (select_fd_overflow 1 2000 AE_READABLE 77 0); [reflexivity| |unfold AE_READABLE; lia].
  cbn. unfold FD_SETSIZE. lia.
Defined.
