(* ===== verification/AeEpoll.v ===== *)
(** * AeEpoll: the polling layer over epoll(2)

    Source: src/src/ae/ae_epoll.cc (ae_epoll.c is the same file).  It implements the
    interface [AeApi]; with the documented behaviour of epoll_ctl ([EpollOsOk]) it
    satisfies the contract [AeApiOk]. *)
From S2P Require Import Prelude Ae.
Local Open Scope Z_scope.

(** The array of epoll_event is only written by epoll_wait and read right after. *)
Record aeApiState := ApiState { epfd : Z }.

Definition EPOLLIN : Z := 1.
Definition EPOLLOUT : Z := 4.
Definition EPOLLERR : Z := 8.
Definition EPOLLHUP : Z := 16.
Inductive epoll_op := EPOLL_CTL_ADD | EPOLL_CTL_MOD | EPOLL_CTL_DEL.

(** The system calls.  epoll_wait returns its result and the events it stored,
    as pairs (events, data.fd). *)
Class EpollOs (W : Type) := {
  epoll_create : Z -> W -> Z * W;
  epoll_ctl : Z -> epoll_op -> Z -> Z -> W -> Z * W;
  epoll_wait : Z -> Z -> Z -> W -> (Z * list (Z * Z)) * W;
  os_close : Z -> W -> W;
}.

(** The interest list of an epoll descriptor and what epoll_ctl documents: ADD
    fails on a registered descriptor, MOD and DEL on one that is not registered
    and succeed on one that is; a failing call changes nothing. *)
Class EpollOsOk (W : Type) {AW : AeWorld W aeApiState} {OS : EpollOs W} := {
  interest : W -> Z -> Z -> option Z;
  interest_loop_set : forall w p e ep fd, interest (loop_set w p e) ep fd = interest w ep fd;
  ctl_loops : forall ep op fd ev w q, loop_get (epoll_ctl ep op fd ev w).2 q = loop_get w q;
  ctl_other : forall ep op fd ev w ep' fd', ep' <> ep \/ fd' <> fd ->
    interest (epoll_ctl ep op fd ev w).2 ep' fd' = interest w ep' fd';
  ctl_fail : forall ep op fd ev w, (epoll_ctl ep op fd ev w).1 = -1 ->
    interest (epoll_ctl ep op fd ev w).2 ep fd = interest w ep fd;
  ctl_add : forall ep fd ev w, (epoll_ctl ep EPOLL_CTL_ADD fd ev w).1 <> -1 ->
    interest w ep fd = None /\ interest (epoll_ctl ep EPOLL_CTL_ADD fd ev w).2 ep fd = Some ev;
  ctl_mod : forall ep fd ev w old, interest w ep fd = Some old ->
    (epoll_ctl ep EPOLL_CTL_MOD fd ev w).1 <> -1 /\
    interest (epoll_ctl ep EPOLL_CTL_MOD fd ev w).2 ep fd = Some ev;
  ctl_del : forall ep fd ev w old, interest w ep fd = Some old ->
    interest (epoll_ctl ep EPOLL_CTL_DEL fd ev w).2 ep fd = None;
}.

(** ee.events for a mask of the loop, and the mask for the events of a wait. *)
Definition to_epoll (mask : Z) : Z :=
  let ev := 0 in
  let ev := if has mask AE_READABLE then Z.lor ev EPOLLIN else ev in
  if has mask AE_WRITABLE then Z.lor ev EPOLLOUT else ev.
Definition of_epoll (ev : Z) : Z :=
  let m := if has ev EPOLLIN then AE_READABLE else 0 in
  let m := if has ev EPOLLOUT then Z.lor m AE_WRITABLE else m in
  let m := if has ev EPOLLERR then Z.lor m AE_WRITABLE else m in
  if has ev EPOLLHUP then Z.lor m AE_WRITABLE else m.

Section Epoll.
Context {W : Type} {AW : AeWorld W aeApiState} {OS : EpollOs W}.

Definition ep_create (setsize : Z) (w : W) : option aeApiState * W :=
  let '(p, w) := ae_malloc w in
  match p with
  | None => (None, w)
  | Some _ =>
      let '(ev, w) := ae_malloc w in
      match ev with
      | None => (None, w)
      | Some _ => let '(fd, w) := epoll_create 1024 w in
                  if fd =? -1 then (None, w) else (Some (ApiState fd), w)
      end
  end.

Definition ep_free (state : aeApiState) (w : W) : res W := Ret (os_close (epfd state) w).

Definition ep_add (p fd mask : Z) (w : W) : res (Z * W) :=
  e ← deref p w;
  fe ← get_event e fd;
  let op := if fe_mask fe =? AE_NONE then EPOLL_CTL_ADD else EPOLL_CTL_MOD in
  let mask := Z.lor mask (fe_mask fe) in
  let '(r, w) := epoll_ctl (epfd (apidata e)) op fd (to_epoll mask) w in
  if r =? -1 then Ret (-1, w) else Ret (0, w).

Definition ep_del (p fd delmask : Z) (w : W) : res W :=
  e ← deref p w;
  fe ← get_event e fd;
  let mask := Z.land (fe_mask fe) (Z.lnot delmask) in
  let op := if negb (mask =? AE_NONE) then EPOLL_CTL_MOD else EPOLL_CTL_DEL in
  let '(_, w) := epoll_ctl (epfd (apidata e)) op fd (to_epoll mask) w in
  Ret w.

(** The timeout in milliseconds is an int; -1 is forever. *)
Definition ep_timeout (tvp : option (Z * Z)) : Z :=
  match tvp with Some (s, us) => i32 (s * 1000 + us ÷ 1000) | None => -1 end.

Definition ep_poll (p : Z) (tvp : option (Z * Z)) (w : W) : res (Z * W) :=
  e ← deref p w;
  let '((retval, evs), w) := epoll_wait (epfd (apidata e)) (setsize e) (ep_timeout tvp) w in
  if 0 <? retval then
    e ← deref p w;
    let l := map (fun '(ev, fd) => FiredEvent fd (of_epoll ev)) (take (Z.to_nat retval) evs) in
    if Z.of_nat (length l) <=? Z.of_nat (length (fired e))
    then Ret (retval, put p (set_fired e (l ++ drop (length l) (fired e))) w)
    else Undef
  else Ret (0, w).

#[export] Instance EpollApi : AeApi W aeApiState := {|
  aeApiCreate := ep_create;
  aeApiFree := ep_free;
  aeApiAddEvent := ep_add;
  aeApiDelEvent := ep_del;
  aeApiPoll := ep_poll;
  aeApiName := [101; 112; 111; 108; 108];   (* "epoll" *)
|}.
End Epoll.

(** ** The contract *)

Lemma of_to_epoll m : 0 <= m <= 3 -> of_epoll (to_epoll m) = m.
Proof. intros H. assert (m = 0 \/ m = 1 \/ m = 2 \/ m = 3) as Hm by lia. destruct Hm as [->|[->|[->| ->]]]; done. Qed.

Lemma set_apidata_same {D} (e : aeEventLoop D) : set_apidata e (apidata e) = e.
Proof. by destruct e. Qed.

#[export] Instance EpollApi_ok {W} {AW : AeWorld W aeApiState} {AWOk : AeWorldOk W aeApiState}
    {OS : EpollOs W} {OSOk : EpollOsOk W} : AeApiOk W aeApiState.
Proof.
  refine {| registered := fun w p fd =>
    match loop_get w p with
    | Some e => match interest w (epfd (apidata e)) fd with Some ev => of_epoll ev | None => 0 end
    | None => 0
    end |}.
  - intros w p e e' fd He Ha. by rewrite loop_get_set, He, Ha, interest_loop_set.
  - intros w p e fe fd mask r w' He Hfd Hfe Hr Hm Hreg H. rewrite He in Hreg.
    cbn in H. unfold ep_add in H. rewrite (deref_ok _ _ _ He), bind_Ret_l in H.
    unfold get_event in H. destruct (Z.leb_spec 0 fd); [|lia]. rewrite Hfe in H.
    cbn [of_option] in H. rewrite bind_Ret_l in H.
    set (op := if fe_mask fe =? AE_NONE then EPOLL_CTL_ADD else EPOLL_CTL_MOD) in *.
    set (ev := to_epoll (Z.lor mask (fe_mask fe))) in *.
    pose proof (mask_lor_range mask (fe_mask fe) ltac:(lia) Hr) as Hrange.
    pose proof (ctl_loops (epfd (apidata e)) op fd ev w) as Hloops.
    pose proof (ctl_fail (epfd (apidata e)) op fd ev w) as Hfail.
    assert (Hoth : forall fd', fd' <> fd -> interest (epoll_ctl (epfd (apidata e)) op fd ev w).2 (epfd (apidata e)) fd'
                     = interest w (epfd (apidata e)) fd') by (intros; apply ctl_other; by right).
    assert (Hok : (epoll_ctl (epfd (apidata e)) op fd ev w).1 <> -1 ->
                  interest (epoll_ctl (epfd (apidata e)) op fd ev w).2 (epfd (apidata e)) fd = Some ev).
    { intros Hne. unfold op in *. destruct (Z.eqb_spec (fe_mask fe) AE_NONE) as [E|E].
      - by apply ctl_add.
      - destruct (interest w (epfd (apidata e)) fd) as [old|] eqn:Ei; [|by destruct E].
        by apply (ctl_mod _ _ _ _ old). }
    destruct (epoll_ctl (epfd (apidata e)) op fd ev w) as [r1 w1]. cbn in *.
    assert (Hl : loop_get w1 p = Some e) by (by rewrite Hloops).
    assert (r = (if r1 =? -1 then -1 else 0) /\ w' = w1) as [-> ->].
    { destruct (r1 =? -1); by injection H as <- <-. }
    rewrite Hl. split; [exists (apidata e); by rewrite set_apidata_same|].
    split; [intros q _; apply Hloops|]. split; [|intros fd' Hne; by rewrite He, Hoth].
    destruct (Z.eqb_spec r1 (-1)) as [E|E]; cbn [Z.eqb Pos.eqb].
    + by rewrite (Hfail E).
    + rewrite (Hok E). unfold ev. rewrite of_to_epoll by done. apply Z.lor_comm.
  - intros w p e fe old fd mask w' He Hfd Hfe Ho Hm Hreg Hmask H. rewrite He in Hreg.
    cbn in H. unfold ep_del in H. rewrite (deref_ok _ _ _ He), bind_Ret_l in H.
    unfold get_event in H. destruct (Z.leb_spec 0 fd); [|lia]. rewrite Hfe in H.
    cbn [of_option] in H. rewrite bind_Ret_l in H.
    assert (Hidem : Z.land (fe_mask fe) (Z.lnot mask) = fe_mask fe).
    { rewrite Hmask, <- Z.land_assoc, Z.land_diag. done. }
    rewrite Hidem in H.
    pose proof (mask_land_range old (Z.lnot mask) ltac:(lia)) as Hrange. rewrite <- Hmask in Hrange.
    destruct (interest w (epfd (apidata e)) fd) as [oldev|] eqn:Ei; [|lia].
    set (op := if negb (fe_mask fe =? AE_NONE) then EPOLL_CTL_MOD else EPOLL_CTL_DEL) in *.
    set (ev := to_epoll (fe_mask fe)) in *.
    pose proof (ctl_loops (epfd (apidata e)) op fd ev w) as Hloops.
    assert (Hoth : forall fd', fd' <> fd -> interest (epoll_ctl (epfd (apidata e)) op fd ev w).2 (epfd (apidata e)) fd'
                     = interest w (epfd (apidata e)) fd') by (intros; apply ctl_other; by right).
    assert (Hnew : match interest (epoll_ctl (epfd (apidata e)) op fd ev w).2 (epfd (apidata e)) fd with
                   | Some ev => of_epoll ev | None => 0 end = fe_mask fe).
    { unfold op. destruct (Z.eqb_spec (fe_mask fe) AE_NONE) as [E|E]; cbn [negb].
      - rewrite (ctl_del _ _ _ _ oldev Ei). by rewrite E.
      - destruct (ctl_mod _ _ ev _ oldev Ei) as [_ ->]. unfold ev. by apply of_to_epoll. }
    destruct (epoll_ctl (epfd (apidata e)) op fd ev w) as [r1 w1]. cbn in *. injection H as <-.
    assert (Hl : loop_get w1 p = Some e) by (by rewrite Hloops).
    rewrite Hl. split; [exists (apidata e); by rewrite set_apidata_same|].
    split; [intros q _; apply Hloops|]. split; [done|]. intros fd' Hne. by rewrite He, Hoth.
Defined.

(** The poll of the epoll layer stores, for every event the system returned, its
    descriptor and its translation, where an error or a hang-up counts as writable
    (and never as readable). *)
Theorem epoll_poll_fired {W} {AW : AeWorld W aeApiState} {AWOk : AeWorldOk W aeApiState} {OS : EpollOs W}
    p tvp w e retval evs w1 e1 :
  loop_get w p = Some e ->
  epoll_wait (epfd (apidata e)) (setsize e) (ep_timeout tvp) w = ((retval, evs), w1) ->
  loop_get w1 p = Some e1 -> 0 < retval -> Z.of_nat (length evs) = retval ->
  retval <= Z.of_nat (length (fired e1)) ->
  exists w', ep_poll p tvp w = Ret (retval, w') /\
    exists e', loop_get w' p = Some e' /\
      take (Z.to_nat retval) (fired e') = map (fun '(ev, fd) => FiredEvent fd (of_epoll ev)) evs /\
      forall ev fd, (ev, fd) ∈ evs ->
        has (of_epoll ev) AE_READABLE = has ev EPOLLIN /\
        has (of_epoll ev) AE_WRITABLE = has ev EPOLLOUT || has ev EPOLLERR || has ev EPOLLHUP.
Proof.
  intros He Hw He1 Hpos Hlen Hfit. unfold ep_poll. rewrite (deref_ok _ _ _ He), bind_Ret_l, Hw.
  destruct (Z.ltb_spec 0 retval); [|lia]. rewrite (deref_ok _ _ _ He1), bind_Ret_l.
  rewrite take_ge by lia. rewrite length_map, Hlen.
  destruct (Z.leb_spec retval (Z.of_nat (length (fired e1)))); [|lia].
  eexists. split; [done|]. eexists. split; [unfold put; apply loop_get_set|]. cbn [fired set_fired]. split.
  - rewrite take_app_length'; [done|]. rewrite length_map. lia.
  - intros ev fd _. unfold of_epoll.
    destruct (has ev EPOLLIN), (has ev EPOLLOUT), (has ev EPOLLERR), (has ev EPOLLHUP); done.
Qed.

(** *** A concrete system: one descriptor is reported with a hang-up *)
#[export] Instance ExEpoll : EpollOs (Sim.world aeApiState) := {|
  epoll_create := fun _ w => (3, w);
  epoll_ctl := fun _ _ _ _ w => (0, w);
  epoll_wait := fun _ _ _ w => ((2, [(EPOLLIN, 5); (EPOLLHUP, 6)]), w);
  os_close := fun _ w => w;
|}.

Definition ex_loop : aeEventLoop aeApiState :=
  EventLoop 6 8 0 0 (replicate 8 (FileEvent 3 0 0 0)) (replicate 8 (FiredEvent 0 0)) [] 0 (ApiState 3) 0.
Definition ex_w : Sim.world aeApiState := Sim.World {[1 := ex_loop]} 0 [] 64.

Lemma epoll_poll_fired_witness :
  exists w', ep_poll 1 None ex_w = Ret (2, w') /\
    exists e', loop_get w' 1 = Some e' /\
      take (Z.to_nat 2) (fired e') = map (fun '(ev, fd) => FiredEvent fd (of_epoll ev)) [(EPOLLIN, 5); (EPOLLHUP, 6)] /\
      forall ev fd, (ev, fd) ∈ [(EPOLLIN, 5); (EPOLLHUP, 6)] ->
        has (of_epoll ev) AE_READABLE = has ev EPOLLIN /\
        has (of_epoll ev) AE_WRITABLE = has ev EPOLLOUT || has ev EPOLLERR || has ev EPOLLHUP.
Proof.
  apply (epoll_poll_fired 1 None ex_w ex_loop 2 _ ex_w ex_loop); try reflexivity; cbn; lia.
Defined.
