(* ===== verification/AeKqueue.v ===== *)
(** * AeKqueue: the polling layer over kqueue(2)

    Source: src/src/ae/ae_kqueue.cc, the layer of BSD systems.  A descriptor has one
    filter for reading and one for writing, added and deleted one by one. *)
From S2P Require Import Prelude Ae.
Local Open Scope Z_scope.

Record aeApiState := ApiState { kqfd : Z }.
Inductive filter_t := EVFILT_READ | EVFILT_WRITE | EVFILT_OTHER.
Inductive ev_flag := EV_ADD | EV_DELETE.

(** kevent(kq, &ke, 1, NULL, 0, NULL) for a change, kevent(kq, NULL, 0, events, n,
    timeout) for a wait, with the timeout in seconds and nanoseconds. *)
Class KqueueOs (W : Type) := {
  kqueue : W -> Z * W;
  kevent_change : Z -> Z -> filter_t -> ev_flag -> W -> Z * W;
  kevent_wait : Z -> Z -> option (Z * Z) -> W -> (Z * list (filter_t * Z)) * W;
  os_close : Z -> W -> W;
}.

Definition of_filter (f : filter_t) : Z :=
  match f with EVFILT_READ => AE_READABLE | EVFILT_WRITE => AE_WRITABLE | EVFILT_OTHER => 0 end.

Section Kqueue.
Context {W : Type} {AW : AeWorld W aeApiState} {OS : KqueueOs W}.

Definition kq_create (setsize : Z) (w : W) : option aeApiState * W :=
  let '(p, w) := ae_malloc w in
  match p with
  | None => (None, w)
  | Some _ =>
      let '(ev, w) := ae_malloc w in
      match ev with
      | None => (None, w)
      | Some _ => let '(fd, w) := kqueue w in
                  if fd =? -1 then (None, w) else (Some (ApiState fd), w)
      end
  end.

Definition kq_free (state : aeApiState) (w : W) : res W := Ret (os_close (kqfd state) w).

(** The filter for writing is only added when the one for reading was; when it
    fails, the one for reading stays. *)
Definition kq_add (p fd mask : Z) (w : W) : res (Z * W) :=
  e ← deref p w;
  let kq := kqfd (apidata e) in
  let '(r1, w) := if has mask AE_READABLE then kevent_change kq fd EVFILT_READ EV_ADD w else (0, w) in
  if r1 =? -1 then Ret (-1, w)
  else
    let '(r2, w) := if has mask AE_WRITABLE then kevent_change kq fd EVFILT_WRITE EV_ADD w else (0, w) in
    if r2 =? -1 then Ret (-1, w) else Ret (0, w).

Definition kq_del (p fd mask : Z) (w : W) : res W :=
  e ← deref p w;
  let kq := kqfd (apidata e) in
  let w := if has mask AE_READABLE then (kevent_change kq fd EVFILT_READ EV_DELETE w).2 else w in
  let w := if has mask AE_WRITABLE then (kevent_change kq fd EVFILT_WRITE EV_DELETE w).2 else w in
  Ret w.

Definition kq_timeout (tvp : option (Z * Z)) : option (Z * Z) :=
  match tvp with Some (s, us) => Some (s, us * 1000) | None => None end.

Definition kq_poll (p : Z) (tvp : option (Z * Z)) (w : W) : res (Z * W) :=
  e ← deref p w;
  let '((retval, evs), w) := kevent_wait (kqfd (apidata e)) (setsize e) (kq_timeout tvp) w in
  if 0 <? retval then
    e ← deref p w;
    let l := map (fun '(f, fd) => FiredEvent fd (of_filter f)) (take (Z.to_nat retval) evs) in
    if Z.of_nat (length l) <=? Z.of_nat (length (fired e))
    then Ret (retval, put p (set_fired e (l ++ drop (length l) (fired e))) w)
    else Undef
  else Ret (0, w).

#[export] Instance KqueueApi : AeApi W aeApiState := {|
  aeApiCreate := kq_create;
  aeApiFree := kq_free;
  aeApiAddEvent := kq_add;
  aeApiDelEvent := kq_del;
  aeApiPoll := kq_poll;
  aeApiName := [107; 113; 117; 101; 117; 101];   (* "kqueue" *)
|}.
End Kqueue.
