(* ===== verification/AeInv.v ===== *)
(** * AeInv: an invariant of all loops, kept by every function of Ae.v

    Every live loop is well-formed, agrees with its polling layer about what is watched, and
    holds only pointers to known handlers.  What the proof needs beyond the contract
    [AeApiOk], that a layer leaves the other loops alone and that creating, freeing and
    polling keep the contract, is the class [AeApiFrame]; select satisfies it. *)
From S2P Require Import Prelude Ae AeSelect.
Local Open Scope Z_scope.

Class AeApiFrame (W D : Type) {AW : AeWorld W D} {API : AeApi W D} {APIOk : AeApiOk W D} : Prop := {
  reg_put_other : forall w p q o fd, q <> p -> registered (loop_set w p o) q fd = registered w q fd;
  reg_calls : forall w q fd, registered (ae_malloc w).2 q fd = registered w q fd /\
    registered (time_now w).2 q fd = registered w q fd /\ registered (gettimeofday w).2 q fd = registered w q fd;
  reg_add_other : forall w p q fd mask r w' fd', q <> p -> aeApiAddEvent p fd mask w = Ret (r, w') ->
    registered w' q fd' = registered w q fd';
  reg_del_other : forall w p q fd mask w' fd', q <> p -> aeApiDelEvent p fd mask w = Ret w' ->
    registered w' q fd' = registered w q fd';
  api_create_ok : forall n w o w', aeApiCreate n w = (o, w') ->
    (forall q, loop_get w' q = loop_get w q) /\ (forall q fd, registered w' q fd = registered w q fd) /\
    forall d p e fd, o = Some d -> apidata e = d -> registered (loop_set w' p (Some e)) p fd = 0;
  api_free_ok : forall d w w', aeApiFree d w = Ret w' ->
    (forall q, loop_get w' q = loop_get w q) /\ (forall q fd, registered w' q fd = registered w q fd);
  api_poll_ok : forall p tvp w n w' e, aeApiPoll p tvp w = Ret (n, w') -> loop_get w p = Some e -> loop_ok e ->
    (exists d l, loop_get w' p = Some (set_fired (set_apidata e d) l) /\ length l = length (fired e)) /\
    (forall q, q <> p -> loop_get w' q = loop_get w q) /\ (forall q fd, registered w' q fd = registered w q fd);
}.

Section Inv.
Context {W D : Type} {AW : AeWorld W D} {API : AeApi W D} {AWOk : AeWorldOk W D} {APIOk : AeApiOk W D} {Fr : AeApiFrame W D}.
(** The known file handlers, time handlers and finalizers. *)
Variables (okfile oktime okfin : Z -> Prop).
Implicit Types (e : aeEventLoop D) (w : W).

Definition file_ok (fe : aeFileEvent) : Prop :=
  (has (fe_mask fe) AE_READABLE = true -> okfile (rfileProc fe)) /\ (has (fe_mask fe) AE_WRITABLE = true -> okfile (wfileProc fe)).
Definition time_ok (te : aeTimeEvent) : Prop := oktime (timeProc te) /\ (finalizerProc te = 0 \/ okfin (finalizerProc te)).
Definition handlers_ok e : Prop := Forall file_ok (events e) /\ Forall time_ok (timeEvents e) /\ 0 <= timeEventNextId e.

Definition loops_ok w : Prop := forall p e, loop_get w p = Some e ->
  loop_ok e /\ handlers_ok e /\ forall fd, 0 <= fd < setsize e -> registered w p fd = mask_of e fd.

Lemma loops_ok_synced w p e : loops_ok w -> loop_get w p = Some e -> synced w p.
Proof. intros H He. destruct (H p e He) as (H1 & _ & H3). by exists e. Qed.

(** A change that concerns no loop. *)
Lemma loops_ok_frame w w' : (forall q, loop_get w' q = loop_get w q) -> (forall q fd, registered w' q fd = registered w q fd) ->
  loops_ok w -> loops_ok w'.
Proof.
  intros Hl Hr H p e He. rewrite Hl in He. destruct (H p e He) as (H1 & H2 & H3). split; [done|]. split; [done|].
  intros fd Hfd. rewrite Hr. by apply H3.
Qed.
Lemma loops_ok_malloc w : loops_ok w -> loops_ok (ae_malloc w).2.
Proof. apply loops_ok_frame; [apply malloc_loops|intros q fd; apply (reg_calls w q fd)]. Qed.
Lemma loops_ok_time_now w : loops_ok w -> loops_ok (time_now w).2.
Proof. apply loops_ok_frame; [apply time_now_loops|intros q fd; apply (reg_calls w q fd)]. Qed.
Lemma loops_ok_gettimeofday w : loops_ok w -> loops_ok (gettimeofday w).2.
Proof. apply loops_ok_frame; [apply gettimeofday_loops|intros q fd; apply (reg_calls w q fd)]. Qed.

(** A change of one loop, given what is registered for it afterwards. *)
Lemma loops_ok_one w w' p e' : loops_ok w -> loop_get w' p = Some e' ->
  (forall q, q <> p -> loop_get w' q = loop_get w q) -> (forall q fd, q <> p -> registered w' q fd = registered w q fd) ->
  loop_ok e' -> handlers_ok e' -> (forall fd, 0 <= fd < setsize e' -> registered w' p fd = mask_of e' fd) -> loops_ok w'.
Proof.
  intros H He' Hq Hr H1 H2 H3 q e He. destruct (decide (q = p)) as [->|Hne]; [by replace e with e' by congruence|].
  rewrite Hq in He by done. destruct (H q e He) as (H4 & H5 & H6). split; [done|]. split; [done|]. intros fd Hfd. rewrite Hr by done. by apply H6.
Qed.
Lemma loops_ok_put w p e e' : loops_ok w -> loop_get w p = Some e -> loop_ok e' -> handlers_ok e' ->
  apidata e' = apidata e -> setsize e' = setsize e -> events e' = events e -> loops_ok (put p e' w).
Proof.
  intros H He H1 H2 Ha Hs Hev. unfold put. apply (loops_ok_one w _ p e'); try done.
  - by rewrite loop_get_set.
  - intros q Hq. by rewrite loop_get_set_ne.
  - intros q fd Hq. by apply reg_put_other.
  - intros fd Hfd. rewrite (registered_put w p e e' fd He Ha). unfold mask_of. rewrite Hev. apply (H p e He). by rewrite <- Hs.
Qed.

Definition keeps {A} (m : res (A * W)) : Prop := returns (fun x => loops_ok x.2) m.
Definition keeps_ (m : res W) : Prop := returns loops_ok m.

Lemma deref_returns w p : returns (fun e => loop_get w p = Some e) (deref p w).
Proof. unfold deref. by destruct (loop_get w p). Qed.

Lemma has_lor a b f : has (Z.lor a b) f = has a f || has b f.
Proof.
  unfold has. rewrite Z.land_lor_distr_l. destruct (Z.eqb_spec (Z.land a f) 0) as [Ea|Ea], (Z.eqb_spec (Z.land b f) 0) as [Eb|Eb],
    (Z.eqb_spec (Z.lor (Z.land a f) (Z.land b f)) 0) as [E|E]; try done; rewrite Z.lor_eq_0_iff in E; tauto.
Qed.
Lemma has_land a b f : has (Z.land a b) f = true -> has a f = true.
Proof.
  unfold has. rewrite <- Z.land_assoc, (Z.land_comm b), Z.land_assoc. destruct (Z.eqb_spec (Z.land a f) 0) as [->|]; [|done]. by rewrite Z.land_0_l.
Qed.

(** *** File events *)

Lemma file_ok_add fe mask proc cd : file_ok fe -> okfile proc ->
  file_ok (FileEvent (Z.lor (fe_mask fe) mask) (if has mask AE_READABLE then proc else rfileProc fe)
             (if has mask AE_WRITABLE then proc else wfileProc fe) cd).
Proof.
  intros [Hr Hw] Hp. split; cbn; rewrite has_lor.
  - destruct (has mask AE_READABLE); [done|]. rewrite orb_false_r. exact Hr.
  - destruct (has mask AE_WRITABLE); [done|]. rewrite orb_false_r. exact Hw.
Qed.
Lemma handlers_put e fd fe : handlers_ok e -> file_ok fe -> handlers_ok (put_event e fd fe).
Proof. intros [H1 H2] Hf. split; [|done]. by apply Forall_insert. Qed.
Lemma get_event_ok e fd fe : handlers_ok e -> get_event e fd = Ret fe -> file_ok fe.
Proof.
  intros [H _]. unfold get_event. destruct (0 <=? fd); [|done]. intros Hf%of_option_Ret. by apply (Forall_lookup_1 _ _ _ _ H Hf).
Qed.

Lemma get_event_pos e fd fe : get_event e fd = Ret fe -> 0 <= fd.
Proof. unfold get_event. by destruct (Z.leb_spec 0 fd). Qed.
Lemma get_event_size e fd fe : loop_ok e -> get_event e fd = Ret fe -> 0 <= fd < setsize e.
Proof.
  intros Hok. unfold get_event. destruct (Z.leb_spec 0 fd); [|done]. intros Hf%of_option_Ret. apply lookup_lt_Some in Hf.
  pose proof (ok_len _ Hok). lia.
Qed.

Lemma keep_create_file_event w p fd mask proc cd : loops_ok w -> 0 <= fd -> 0 < mask <= 3 -> okfile proc ->
  keeps (aeCreateFileEvent p fd mask proc cd w).
Proof.
  intros H Hfd Hmask Hp. apply returns_iff. intros [r w'] HR. cbn [snd]. pose proof HR as HC. unfold aeCreateFileEvent in HR.
  apply bind_Ret_inv in HR as (e & He & HR). apply of_option_Ret in He. destruct (Z.leb_spec (setsize e) fd) as [|Hlt]; [by injection HR as <- <-|].
  destruct (H p e He) as (Hok & Hh & Hsync). destruct (event_at e fd Hok ltac:(lia)) as (fe & Hfe & Hget & Hm & Hr).
  destruct (create_file_event_ok w p e fd mask proc cd r w' (loops_ok_synced w p e H He) He ltac:(lia) Hmask HC) as [(e2 & He2 & Hok2 & Hs2) _].
  apply bind_Ret_inv in HR as ([r1 w1] & Hadd & HR).
  destruct (add_event_ok w p e fe fd mask r1 w1 He ltac:(lia) Hfe Hr Hmask ltac:(rewrite Hsync; [done|lia]) Hadd) as ((d & Hd) & Hq & _).
  assert (Hq2 : forall q fd', q <> p -> registered w1 q fd' = registered w q fd') by (intros q fd' Hne; by eapply reg_add_other).
  destruct (r1 =? -1).
  - injection HR as <- <-. apply (loops_ok_one w w1 p e2); try done. rewrite Hd in He2. by injection He2 as <-.
  - apply bind_Ret_inv in HR as (e1 & He1 & HR). apply of_option_Ret in He1. rewrite Hd in He1. injection He1 as <-.
    apply bind_Ret_inv in HR as (fe1 & Hg1 & HR). pose proof (get_event_ok (set_apidata e d) fd fe1 Hh Hg1) as Hf1.
    cbv zeta in HR. injection HR as <- <-. unfold put in *. rewrite loop_get_set in He2. injection He2 as He2.
    apply (loops_ok_one w _ p e2); try done.
    + by rewrite loop_get_set, He2.
    + intros q Hne. rewrite loop_get_set_ne by done. by apply Hq.
    + intros q fd' Hne. rewrite reg_put_other by done. by apply Hq2.
    + rewrite <- He2. pose proof (handlers_put (set_apidata e d) fd _ Hh (file_ok_add fe1 mask proc cd Hf1 Hp)) as Hh2.
      destruct (_ <? fd); exact Hh2.
Qed.

Lemma keep_delete_file_event w p fd mask : loops_ok w -> 0 < mask <= 3 -> keeps_ (aeDeleteFileEvent p fd mask w).
Proof.
  intros H Hmask. apply returns_iff. intros w' HR. pose proof HR as HC. unfold aeDeleteFileEvent in HR.
  apply bind_Ret_inv in HR as (e & He & HR). apply of_option_Ret in He. destruct (H p e He) as (Hok & Hh & Hsync).
  destruct (Z.leb_spec (setsize e) fd) as [|Hlt]; [by injection HR as <-|].
  apply bind_Ret_inv in HR as (fe & Hget & HR). pose proof (get_event_size e fd fe Hok Hget) as Hfd.
  destruct (Z.eqb_spec (fe_mask fe) AE_NONE) as [|Hnz]; [by injection HR as <-|]. cbv zeta in HR.
  destruct (delete_file_event_ok w p e fd mask w' (loops_ok_synced w p e H He) He ltac:(lia) Hmask HC) as [(e2 & He2 & Hok2 & Hs2) _].
  destruct (event_at e fd Hok Hfd) as (fe0 & Hfe & Hget0 & Hm & Hr). rewrite Hget in Hget0. injection Hget0 as <-.
  set (m := Z.land (fe_mask fe) (Z.lnot mask)) in *. set (fe' := FileEvent m _ _ _) in *.
  destruct (loop_ok_del e fd fe' Hok Hfd (mask_land_range _ _ Hr) ltac:(rewrite Hm; done)) as (e1 & He1 & Hok1 & Hev & Hap & Ht & Hn & Hsz).
  cbn [fe_mask fe'] in He1. rewrite He1, bind_Ret_l in HR.
  assert (Hf' : file_ok fe').
  { pose proof (get_event_ok _ _ _ Hh Hget) as [Hf1 Hf2]. split; cbn; intros Hb%has_land; auto. }
  pose proof Hfd as [Hfd0 _].
  destruct (del_event_ok (put p e1 w) p e1 fe' (fe_mask fe) fd mask w') as ((d & Hd) & Hq & _ & _); try done.
  - unfold put. by rewrite loop_get_set.
  - rewrite Hev. cbn. rewrite list_lookup_insert_eq; [done|]. pose proof (ok_len _ Hok). lia.
  - unfold AE_NONE in Hnz. lia.
  - unfold put. rewrite (registered_put w p e e1 fd He Hap). by rewrite Hsync.
  - rewrite Hd in He2. injection He2 as <-. apply (loops_ok_one w w' p (set_apidata e1 d)); try done.
    + intros q Hne. rewrite Hq by done. unfold put. by rewrite loop_get_set_ne.
    + intros q fd' Hne. rewrite (reg_del_other _ _ q _ _ _ fd' Hne HR). by apply reg_put_other.
    + destruct (handlers_put e fd fe' Hh Hf') as (Hh1 & Hh2 & Hh3). split_and!; cbn; [by rewrite Hev|by rewrite Ht|by rewrite Hn].
Qed.

Lemma get_file_events_returns w p fd : returns (fun _ => True) (aeGetFileEvents p fd w).
Proof. apply returns_true. Qed.

(** *** Life of a loop *)

Lemma mask_of_fresh size now d fd :
  mask_of (EventLoop (D := D) (-1) size 0 now (replicate (Z.to_nat size) (FileEvent AE_NONE 0 0 0))
             (replicate (Z.to_nat size) (FiredEvent 0 0)) [] 0 d 0) fd = 0.
Proof. unfold mask_of. cbn. destruct (0 <=? fd); [|done]. destruct (replicate _ _ !! _) as [fe|] eqn:E; [|done]. by apply lookup_replicate in E as [-> _]. Qed.

Lemma keep_create_loop w size : loops_ok w -> 0 <= size -> loops_ok (aeCreateEventLoop size w).2.
Proof.
  intros H Hs. unfold aeCreateEventLoop. destruct (ae_malloc w) as [o w1] eqn:E1.
  pose proof (loops_ok_malloc w H) as H1. rewrite E1 in H1. cbn in H1. destruct o as [p|]; [|done].
  destruct (ae_malloc w1) as [ev w2] eqn:E2. pose proof (loops_ok_malloc w1 H1) as H2. rewrite E2 in H2. cbn in H2.
  destruct (ae_malloc w2) as [fi w3] eqn:E3. pose proof (loops_ok_malloc w2 H2) as H3. rewrite E3 in H3. cbn in H3.
  destruct ev; [|done]. destruct fi; [|done].
  destruct (time_now w3) as [now w4] eqn:E4. pose proof (loops_ok_time_now w3 H3) as H4. rewrite E4 in H4. cbn in H4.
  destruct (aeApiCreate size w4) as [o w5] eqn:E5. destruct (api_create_ok _ _ _ _ E5) as (Hl & Hr & Hz).
  pose proof (loops_ok_frame w4 w5 Hl Hr H4) as H5. destruct o as [d|]; [|done]. cbn [snd].
  set (e := EventLoop _ _ _ _ _ _ _ _ _ _). unfold put. apply (loops_ok_one w5 _ p e); try done.
  - by rewrite loop_get_set.
  - intros q Hq. by rewrite loop_get_set_ne.
  - intros q fd Hq. by apply reg_put_other.
  - constructor; cbn; try done; try lia.
    + rewrite length_replicate. lia.
    + by rewrite !length_replicate.
    + apply Forall_replicate. cbn. unfold AE_NONE. lia.
    + intros fd _. apply mask_of_fresh.
    + constructor.
  - split_and!; cbn; [apply Forall_replicate; split; by cbn|constructor|lia].
  - intros fd _. rewrite (Hz d p e fd eq_refl eq_refl). symmetry. apply mask_of_fresh.
Qed.
Lemma keep_delete_loop w p : loops_ok w -> keeps_ (aeDeleteEventLoop p w).
Proof.
  intros H. apply returns_iff. intros w' HR. unfold aeDeleteEventLoop in HR. apply bind_Ret_inv in HR as (e & He & HR).
  apply bind_Ret_inv in HR as (w1 & Hf & HR). destruct (api_free_ok _ _ _ Hf) as [Hl Hr]. pose proof (loops_ok_frame w w1 Hl Hr H) as H1.
  injection HR as <-. intros q e' He'. destruct (decide (q = p)) as [->|Hne]; [by rewrite loop_get_set in He'|].
  rewrite loop_get_set_ne in He' by done. destruct (H1 q e' He') as (H2 & H3 & H4). split; [done|]. split; [done|]. intros fd Hfd.
  rewrite reg_put_other by done. by apply H4.
Qed.
Lemma loop_ok_set_stop e n : loop_ok e -> loop_ok (set_stop e n).
Proof. intros []. by constructor. Qed.
Lemma keep_stop w p : loops_ok w -> keeps_ (aeStop p w).
Proof.
  intros H. apply returns_iff. intros w' HR. unfold aeStop in HR. apply bind_Ret_inv in HR as (e & He & HR). apply of_option_Ret in He.
  injection HR as <-. destruct (H p e He) as (H1 & H2 & _). by apply (loops_ok_put w p e); try apply loop_ok_set_stop.
Qed.

(** *** Time events *)

Lemma keep_set_times w p e next l : loops_ok w -> loop_get w p = Some e -> NoDup (map te_id l) ->
  Forall (fun te => 0 <= te_id te < next) l -> Forall time_ok l -> 0 <= next -> loops_ok (put p (set_times e next l) w).
Proof.
  intros H He Hn Hid Hok Hnext. destruct (H p e He) as (H1 & [H2 _] & _). apply (loops_ok_put w p e); try done. destruct H1. by constructor.
Qed.

(** Some of the time events, at other times. *)
Lemma keep_fewer_times w p e l : loops_ok w -> loop_get w p = Some e -> NoDup (map te_id l) ->
  (forall t, t ∈ l -> exists t0, t0 ∈ timeEvents e /\ t = when t0 (when_sec t) (when_ms t)) ->
  loops_ok (put p (set_times e (timeEventNextId e) l) w).
Proof.
  intros H He Hn Hl. destruct (H p e He) as (Hok & (_ & Hh2 & Hh3) & _).
  apply keep_set_times; try done; apply Forall_forall; intros t Ht; destruct (Hl t Ht) as (t0 & Ht0 & ->).
  - by apply (proj1 (Forall_forall _ _) (ok_next _ Hok) t0).
  - by apply (proj1 (Forall_forall _ _) Hh2 t0).
Qed.

Lemma add_ms_keeps ms w : loops_ok w -> loops_ok (aeAddMillisecondsToNow ms w).2 /\ forall q, loop_get (aeAddMillisecondsToNow ms w).2 q = loop_get w q.
Proof.
  intros H. unfold aeAddMillisecondsToNow, aeGetTime. pose proof (loops_ok_gettimeofday w H) as H1. pose proof (gettimeofday_loops w) as H2.
  destruct (gettimeofday w) as [[sec usec] w1]. by destruct (_ <=? _).
Qed.

Lemma keep_create_time_event w p ms proc cd fin : loops_ok w -> oktime proc -> fin = 0 \/ okfin fin ->
  keeps (aeCreateTimeEvent p ms proc cd fin w).
Proof.
  intros H Hp Hf. apply returns_iff. intros [r w'] HR. cbn [snd]. unfold aeCreateTimeEvent in HR.
  apply bind_Ret_inv in HR as (e & He & HR). apply of_option_Ret in He. destruct (H p e He) as (Hok & (Hh1 & Hh2 & Hh3) & _). cbv zeta in HR.
  assert (Hnext : Forall (fun te => 0 <= te_id te < timeEventNextId e + 1) (timeEvents e)).
  { eapply Forall_impl; [apply (ok_next _ Hok)|]. cbn. lia. }
  set (e1 := set_times e (timeEventNextId e + 1) (timeEvents e)) in *.
  assert (H1 : loops_ok (put p e1 w)) by (apply (keep_set_times w p e); try done; [apply (ok_ids _ Hok)|lia]).
  destruct (ae_malloc (put p e1 w)) as [o w1] eqn:Em. pose proof (loops_ok_malloc _ H1) as H2. rewrite Em in H2. cbn in H2.
  pose proof (malloc_loops (put p e1 w) p) as Hl. rewrite Em in Hl. cbn [snd] in Hl. unfold put at 1 in Hl. rewrite loop_get_set in Hl.
  destruct o as [?|]; [|by injection HR as _ <-].
  destruct (add_ms_keeps ms w1 H2) as [H3 Hl3]. destruct (aeAddMillisecondsToNow ms w1) as [[s m] w2]. cbn [snd] in *.
  apply bind_Ret_inv in HR as (e2 & He2 & HR). apply of_option_Ret in He2. rewrite Hl3, Hl in He2. injection He2 as <-.
  injection HR as _ <-. cbn [timeEventNextId e1 set_times timeEvents].
  apply (keep_set_times w2 p e1); [done|by rewrite Hl3| | | |lia].
  - cbn. apply NoDup_cons. split; [|apply (ok_ids _ Hok)]. intros Hin. apply list_elem_of_fmap in Hin as (te & E & Hte).
    pose proof (proj1 (Forall_forall _ _) (ok_next _ Hok) te Hte) as Hb. cbn in Hb. lia.
  - apply Forall_cons. split; [cbn; lia|done].
  - apply Forall_cons. split; [by split|done].
Qed.

(** *** Running handlers *)

(** What the handlers behind the pointers promise: the known ones keep the invariant. *)
Class AeProcsKeep {AP : AeProcs W} : Prop := {
  file_keeps : forall proc p fd cd mask w, okfile proc -> 0 <= fd -> loops_ok w -> keeps_ (run_file_proc proc p fd cd mask w);
  time_keeps : forall proc p id cd w, oktime proc -> loops_ok w -> keeps (run_time_proc proc p id cd w);
  fin_keeps : forall fin p cd w, okfin fin -> loops_ok w -> keeps_ (run_finalizer fin p cd w);
  sleep_keeps : forall proc p w, loops_ok w -> keeps_ (run_beforesleep proc p w);
}.

Section Run.
Context {AP : AeProcs W} {PK : AeProcsKeep}.

Lemma keep_delete_time_event w p id : loops_ok w -> keeps (aeDeleteTimeEvent p id w).
Proof.
  intros H. unfold aeDeleteTimeEvent. apply returns_bind. eapply returns_mono; [apply deref_returns|]. intros e He.
  destruct (H p e He) as (Hok & (Hh1 & Hh2 & Hh3) & _). pose proof (unlink_spec (timeEvents e) id) as Hu.
  destruct (unlink (timeEvents e) id) as [[te l]|]; [|done]. destruct Hu as (_ & l1 & l2 & Hl & -> & _).
  assert (Hnd : NoDup (map te_id (l1 ++ l2))).
  { pose proof (ok_ids _ Hok) as Hnd. rewrite Hl in Hnd. rewrite map_app in *. cbn in Hnd.
    assert (Hc : NoDup (te_id te :: map te_id l1 ++ map te_id l2)) by by rewrite Permutation_middle. by apply NoDup_cons in Hc as [_ ?]. }
  assert (H1 : loops_ok (put p (set_times e (timeEventNextId e) (l1 ++ l2)) w)).
  { apply keep_fewer_times; [done..|]. intros t Ht. exists t. rewrite Hl. split; [set_solver|by destruct t]. }
  assert (Hf : time_ok te) by (apply (proj1 (Forall_forall _ _) Hh2); rewrite Hl; set_solver).
  apply returns_bind. destruct (Z.eqb_spec (finalizerProc te) 0) as [|Hne]; [exact H1|].
  destruct Hf as [_ [?|Hf]]; [done|]. eapply returns_mono; [by apply fin_keeps|]. by intros w1 Hw1.
Qed.

Lemma keep_run_timer w p e te : loops_ok w -> loop_get w p = Some e -> te ∈ timeEvents e -> keeps_ (run_timer p te w).
Proof.
  intros H He Hte. destruct (H p e He) as (_ & (_ & Hh2 & _) & _). pose proof (proj1 (Forall_forall _ _) Hh2 te Hte) as [Hp _].
  unfold run_timer. apply returns_bind. eapply returns_mono; [by apply time_keeps|]. intros [r w1] H1. cbn [snd] in H1.
  destruct (negb _).
  - destruct (add_ms_keeps r w1 H1) as [H2 _]. destruct (aeAddMillisecondsToNow r w1) as [[s m] w2]. cbn [snd] in H2.
    apply returns_bind. eapply returns_mono; [apply deref_returns|]. intros e2 He2. destruct (H2 p e2 He2) as (Hok2 & _ & _).
    pose proof (reschedule_spec (timeEvents e2) (te_id te) s m) as Hs. destruct (reschedule _ _ _ _) as [l|]; [|done].
    destruct Hs as (_ & Hids & Hsame & _). cbn. apply keep_fewer_times; try done. rewrite Hids. apply (ok_ids _ Hok2).
  - apply returns_bind. eapply returns_mono; [by apply keep_delete_time_event|]. by intros [? w2].
Qed.

Lemma keep_time_loop fuel : forall p maxId s m k w, loops_ok w -> keeps (time_loop fuel p maxId s m k w).
Proof.
  induction fuel as [|fuel IH]; intros p maxId s m k w H; cbn [time_loop]; apply returns_bind; (eapply returns_mono; [apply deref_returns|]);
    intros e He; pose proof (next_due_spec (timeEvents e) maxId s m) as Hd; destruct (next_due _ _ _ _) as [te|]; try done.
  apply returns_bind. eapply returns_mono; [by eapply keep_run_timer; [..|apply Hd]|]. intros w1 H1. by apply IH.
Qed.

Lemma keep_process_time_events fuel w p : loops_ok w -> keeps (processTimeEvents fuel p w).
Proof.
  intros H. unfold processTimeEvents. pose proof (loops_ok_time_now w H) as H1. destruct (time_now w) as [now w1]. cbn [snd] in H1.
  apply returns_bind. eapply returns_mono; [apply deref_returns|]. intros e He. cbv zeta.
  destruct (H1 p e He) as (Hok & (Hh1 & Hh2 & Hh3) & _).
  set (l := if now <? lastTime e then _ else _).
  assert (Hl : map te_id l = map te_id (timeEvents e) /\ forall t, t ∈ l -> exists t0, t0 ∈ timeEvents e /\ t = when t0 (when_sec t) (when_ms t)).
  { unfold l. destruct (now <? lastTime e); [|split; [done|intros t Ht; exists t; split; [done|by destruct t]]].
    split; [by rewrite map_map|]. intros t (t0 & -> & Ht0)%list_elem_of_fmap. by exists t0. }
  destruct Hl as [Hids Hl]. assert (H2 : loops_ok (put p (set_times e (timeEventNextId e) l) w1)).
  { apply keep_fewer_times; try done. rewrite Hids. apply (ok_ids _ Hok). }
  assert (H3 : loops_ok (put p (set_lastTime (set_times e (timeEventNextId e) l) now) w1)).
  { destruct (H2 p (set_times e (timeEventNextId e) l)) as (Hk & Hh & _); [unfold put; by rewrite loop_get_set|].
    apply (loops_ok_put w1 p e); try done. by destruct Hk. }
  unfold aeGetTime. pose proof (loops_ok_gettimeofday _ H3) as H4. destruct (gettimeofday _) as [[sec usec] w2]. by apply keep_time_loop.
Qed.

(** *** Polling and file handlers *)

Lemma keep_run_fired w p j : loops_ok w -> keeps_ (run_fired p j w).
Proof.
  intros H. unfold run_fired. apply returns_bind. eapply returns_mono; [apply deref_returns|]. intros e He.
  apply returns_bind. eapply returns_mono; [apply returns_true|]. intros f _. cbv zeta.
  apply returns_bind. eapply returns_mono; [apply returns_eq|]. intros fe Hfe.
  destruct (H p e He) as (_ & Hh & _). destruct (get_event_ok _ _ _ Hh Hfe) as [Hr _].
  apply returns_bind. apply (returns_mono loops_ok).
  { destruct (has (Z.land _ _) AE_READABLE) eqn:Eh; [|exact H]. apply file_keeps; [apply Hr; by apply has_land in Eh|exact (get_event_pos _ _ _ Hfe)|done]. }
  intros w1 H1. apply returns_bind. eapply returns_mono; [apply deref_returns|]. intros e1 He1.
  apply returns_bind. eapply returns_mono; [apply returns_eq|]. intros fe1 Hfe1.
  destruct (H1 p e1 He1) as (_ & Hh1 & _). destruct (get_event_ok _ _ _ Hh1 Hfe1) as [_ Hw].
  destruct (has (Z.land _ _) AE_WRITABLE) eqn:Ew; cbn [andb]; [|done]. destruct (_ || _); [|done]. apply file_keeps; [apply Hw; by apply has_land in Ew|exact (get_event_pos _ _ _ Hfe1)|done].
Qed.

Lemma keep_fired_loop p n : forall j w, loops_ok w -> keeps_ (fired_loop p j n w).
Proof.
  induction n as [|n IH]; intros j w H; cbn [fired_loop]; [done|]. apply returns_bind. eapply returns_mono; [by apply keep_run_fired|].
  intros w1 H1. by apply IH.
Qed.

Lemma keep_poll w p tvp : loops_ok w -> is_Some (loop_get w p) -> keeps (aeApiPoll p tvp w).
Proof.
  intros H [e He]. apply returns_iff. intros [n w'] HR. cbn [snd].
  destruct (H p e He) as (Hok & Hh & Hs). destruct (api_poll_ok _ _ _ _ _ _ HR He Hok) as ((d & l & He' & Hlen) & Hq & Hreg).
  apply (loops_ok_one w w' p (set_fired (set_apidata e d) l)); try done.
  - destruct Hok. constructor; cbn; try done. by rewrite Hlen.
  - intros fd Hfd. rewrite Hreg. by apply Hs.
Qed.

Lemma keep_poll_phase w p flags : loops_ok w -> keeps (poll_phase p flags w).
Proof.
  intros H. unfold poll_phase. apply returns_bind. eapply returns_mono; [apply deref_returns|]. intros e He.
  destruct (_ || _); [|done]. cbv zeta.
  assert (Hgt : forall o : option aeTimeEvent, let x := match o with Some _ => aeGetTime w | None => ((0, 0), w) end in
    loops_ok x.2 /\ loop_get x.2 p = Some e).
  { intros [te|]; cbv zeta; [|done]. unfold aeGetTime. pose proof (loops_ok_gettimeofday w H) as H1. pose proof (gettimeofday_loops w p) as H2.
    destruct (gettimeofday w) as [[sec usec] w1]. cbn [snd] in *. by rewrite H2. }
  match goal with |- context [match ?o with Some _ => aeGetTime w | None => _ end] => specialize (Hgt o); set (x := match o with Some _ => _ | None => _ end) in * end.
  destruct x as [[s m] w1]. destruct Hgt as [H1 He1]. cbn [snd] in *.
  apply returns_bind. eapply returns_mono; [apply keep_poll; [done|by exists e]|]. intros [n w2] H2. cbn [snd] in H2.
  apply returns_bind. eapply returns_mono; [by apply keep_fired_loop|]. by intros w3 H3.
Qed.

Lemma keep_process_events fuel w p flags : loops_ok w -> keeps (aeProcessEvents fuel p flags w).
Proof.
  intros H. unfold aeProcessEvents. destruct (_ && _); [done|]. apply returns_bind. eapply returns_mono; [by apply keep_poll_phase|].
  intros [n w1] H1. cbn [snd] in H1. destruct (has flags _); [|done]. apply returns_bind. eapply returns_mono; [by apply keep_process_time_events|].
  by intros [k w2] H2.
Qed.
Lemma keep_once fuel w p : loops_ok w -> keeps_ (aeOnce fuel p w).
Proof. intros H. unfold aeOnce. apply returns_bind. eapply returns_mono; [by apply keep_process_events|]. by intros [n w1] H1. Qed.

Lemma keep_main_loop fuel p n : forall w, loops_ok w -> keeps_ (main_loop n fuel p w).
Proof.
  induction n as [|n IH]; intros w H; cbn [main_loop]; apply returns_bind; (eapply returns_mono; [apply deref_returns|]); intros e He;
    destruct (negb _); try done.
  apply returns_bind. apply (returns_mono loops_ok); [by destruct (_ =? _); [|apply sleep_keeps]|]. intros w1 H1.
  apply returns_bind. eapply returns_mono; [by apply keep_process_events|]. intros [k w2] H2. by apply IH.
Qed.
Lemma keep_main n fuel w p : loops_ok w -> keeps_ (aeMain n fuel p w).
Proof.
  intros H. unfold aeMain. apply returns_bind. eapply returns_mono; [apply deref_returns|]. intros e He. apply keep_main_loop.
  destruct (H p e He) as (H1 & H2 & _). by apply (loops_ok_put w p e); try apply loop_ok_set_stop.
Qed.
End Run.
End Inv.

(** ** select keeps to the frame *)

(** select changes none of the process's loops. *)
Class SelectOsOk (W : Type) {AW : AeWorld W aeApiState} {OS : SelectOs W} : Prop := {
  select_loops : forall n r s tvp w q, loop_get (select n r s tvp w).2 q = loop_get w q;
}.

Lemma sel_scan_length evs r s n : forall j l, sel_scan evs r s j n = Ret l -> (length l <= n)%nat.
Proof.
  induction n as [|n IH]; intros j l H; cbn [sel_scan] in H; [by simplify_eq|]. apply bind_Ret_inv in H as (fe & _ & H).
  destruct (_ =? _); [apply IH in H; lia|]. do 2 apply bind_Ret_inv in H as (? & _ & H). apply bind_Ret_inv in H as (l' & Hl & H).
  injection H as <-. apply IH in Hl. cbn. lia.
Qed.

#[export] Instance SelectApi_frame {W} {AW : AeWorld W aeApiState} {AWOk : AeWorldOk W aeApiState} {OS : SelectOs W} {OSOk : SelectOsOk W} :
  AeApiFrame W aeApiState.
Proof.
  assert (Hreg : forall (w w' : W) q fd, loop_get w' q = loop_get w q -> registered w' q fd = registered w q fd) by (cbn; by intros ? ? ? ? ->).
  assert (Hcr : forall n (w : W), (exists o, sel_create n w = (o, (ae_malloc w).2) /\ forall d, o = Some d -> d = ApiState ∅ ∅ ∅ ∅)).
  { intros n w. unfold sel_create. destruct (ae_malloc w) as [[p|] w1]; eexists; split; [done| |done|]; by intros ? [= <-]. }
  split.
  - intros w p q o fd Hq. apply Hreg. by rewrite loop_get_set_ne.
  - intros w q fd. split_and!; apply Hreg; [apply malloc_loops|apply time_now_loops|apply gettimeofday_loops].
  - intros w p q fd mask r w' fd' Hq H. apply Hreg. cbn in H. unfold sel_add in H. res_inv. unfold put. by rewrite loop_get_set_ne.
  - intros w p q fd mask w' fd' Hq H. apply Hreg. cbn in H. unfold sel_del in H. res_inv. unfold put. by rewrite loop_get_set_ne.
  - intros n w o w' H. cbn in H. destruct (Hcr n w) as (o' & E & Hd). rewrite E in H. injection H as <- <-.
    split_and!; [intros q; apply malloc_loops|intros q fd; apply Hreg, malloc_loops|].
    intros d p e fd Ho He. rewrite <- He in Ho. apply Hd in Ho. cbn. rewrite loop_get_set, Ho. unfold sel_mask. cbn.
    by repeat case_bool_decide; try set_solver.
  - intros d w w' [= <-]. done.
  - intros p tvp w n w' e H He Hok. cbn in H. unfold sel_poll in H. rewrite (deref_ok _ _ _ He), bind_Ret_l in H.
    pose proof (select_loops (maxfd e + 1) (rfds (apidata e)) (wfds (apidata e)) tvp w) as Hl.
    destruct (select _ _ _ _ w) as [[[retval r] s] w1]. cbn [snd] in Hl.
    assert (Hput : forall e2, apidata e2 = ApiState (rfds (apidata e)) (wfds (apidata e)) r s ->
      (forall q, q <> p -> loop_get (put p e2 w1) q = loop_get w q) /\ (forall q fd, registered (put p e2 w1) q fd = registered w q fd)).
    { intros e2 He2. unfold put. split; [intros q Hq; by rewrite loop_get_set_ne|]. intros q fd.
      destruct (decide (q = p)) as [->|Hq]; [|apply Hreg; by rewrite loop_get_set_ne]. cbn. by rewrite loop_get_set, He, He2. }
    cbv zeta in H. destruct (0 <? retval).
    + apply bind_Ret_inv in H as (l & Hs & H). injection H as <- <-. split; [|by apply Hput]. unfold put. rewrite loop_get_set.
      eexists _, _. split; [done|]. apply sel_scan_length in Hs. pose proof (ok_max _ Hok). pose proof (ok_len _ Hok). pose proof (ok_flen _ Hok).
      cbn [maxfd set_apidata] in Hs. rewrite length_app, length_drop. lia.
    + injection H as <- <-. split; [|by apply Hput]. unfold put. rewrite loop_get_set. by exists (ApiState (rfds (apidata e)) (wfds (apidata e)) r s), (fired e).
Qed.
