(* ===== verification/Proc.v ===== *)
(** * Proc: the state of the process the network modules share

    Source: the static variables and structures of src/src/ae/lport.cc, lport.h,
    ltimer.cc and lae.cc.  The event loops, the sockets and ports, the timers, the
    send and receive queues and the raw memory are one record; what lies outside
    the program (the operating system) is a component [E] of it, reached by the
    class [Os].  The script is a class [LuaScript] over the whole process: a script
    that a handler calls may call any function of the modules. *)
From S2P Require Import Prelude Mem Lua Sendbuf Recvbuf Ae.
Local Open Scope Z_scope.

(** ** Sockets and ports (lport.h) *)

(** lua_State pointers are left out: there is one Lua state.  The name buffers are
    the C strings they hold. *)
Record Port := MkPort {
  port_loop : Z;
  lua_on_read : bytes; lua_on_accept : bytes; lua_on_close : bytes;
  lua_on_connect_err : bytes; lua_on_connect_suc : bytes;
  port_name : bytes }.

Record Sock := MkSock {
  sock_port : Z; sock_fd : Z; sock_shutdown : Z; sock_uid : Z;
  send_seq : Z; recv_seq : Z; sock_userdata : Z }.
Definition zero_sock : Sock := MkSock NULL 0 0 0 0 0 0.

Definition MAX_SOCK : Z := 10240.

(** s_socks (an absent entry is zero), and the live Port blocks. *)
Record port_st := PortSt { s_socks : gmap Z Sock; ports : gmap Z Port }.

(** ** Timers (ltimer.cc) *)

Record TimerData := MkTimer { td_callback : bytes; td_msec : Z; td_timerid : Z }.

(** The static variables; [self_callback] is [None] while s_self_timer_data.L is
    NULL.  [timers]: the live TimerData blocks. *)
Record timer_st := TimerSt {
  self_callback : option bytes; s_timer_counter : Z; s_min_msec : Z; s_call_lua_time : Z;
  timers : gmap Z TimerData }.

(** ** The script's own handlers (lae.cc) *)

Record FileData := MkFile { file_read_proc : bytes; file_writ_proc : bytes }.
Definition MAX_FILE_DATA : Z := 10240.

(** main_loop, file_data_array, and the live TimeData blocks (their handler's name). *)
Record ae_st := AeSt { main_loop_ptr : Z; file_data_array : gmap Z FileData; time_data : gmap Z bytes }.

(** ** The process *)

Record proc (E D : Type) := Proc {
  g_loops : gmap Z (aeEventLoop D);
  g_port : port_st; g_timer : timer_st; g_ae : ae_st;
  g_bbufs : gmap Z bbuf; g_table : list Z; g_hdr : gmap Z block;
  g_rbufs : gmap Z rbuf; g_total : Z;
  g_heap : heap;
  g_env : E }.
Arguments Proc {E D}. Arguments g_loops {E D}. Arguments g_port {E D}. Arguments g_timer {E D}.
Arguments g_ae {E D}. Arguments g_bbufs {E D}. Arguments g_table {E D}. Arguments g_hdr {E D}.
Arguments g_rbufs {E D}. Arguments g_total {E D}. Arguments g_heap {E D}. Arguments g_env {E D}.

Section Fields.
Context {E D : Type}.
Implicit Types g : proc E D.

Definition set_loops g (v : gmap Z (aeEventLoop D)) : proc E D :=
  Proc v (g_port g) (g_timer g) (g_ae g) (g_bbufs g) (g_table g) (g_hdr g) (g_rbufs g) (g_total g) (g_heap g) (g_env g).
Definition set_port g (v : port_st) : proc E D :=
  Proc (g_loops g) v (g_timer g) (g_ae g) (g_bbufs g) (g_table g) (g_hdr g) (g_rbufs g) (g_total g) (g_heap g) (g_env g).
Definition set_timer g (v : timer_st) : proc E D :=
  Proc (g_loops g) (g_port g) v (g_ae g) (g_bbufs g) (g_table g) (g_hdr g) (g_rbufs g) (g_total g) (g_heap g) (g_env g).
Definition set_ae g (v : ae_st) : proc E D :=
  Proc (g_loops g) (g_port g) (g_timer g) v (g_bbufs g) (g_table g) (g_hdr g) (g_rbufs g) (g_total g) (g_heap g) (g_env g).
Definition set_env g (v : E) : proc E D :=
  Proc (g_loops g) (g_port g) (g_timer g) (g_ae g) (g_bbufs g) (g_table g) (g_hdr g) (g_rbufs g) (g_total g) (g_heap g) v.

(** The state of the send and of the receive module; they share the memory. *)
Definition send_st g : Sendbuf.st := Sendbuf.St (g_bbufs g) (g_table g) (g_hdr g) (g_heap g).
Definition set_send g (s : Sendbuf.st) : proc E D :=
  Proc (g_loops g) (g_port g) (g_timer g) (g_ae g) (Sendbuf.bbufs s) (Sendbuf.block_table s) (Sendbuf.hdr s)
    (g_rbufs g) (g_total g) (Sendbuf.hp s) (g_env g).
Definition recv_st g : Recvbuf.st := Recvbuf.St (g_rbufs g) (g_total g) (g_heap g).
Definition set_recv g (s : Recvbuf.st) : proc E D :=
  Proc (g_loops g) (g_port g) (g_timer g) (g_ae g) (g_bbufs g) (g_table g) (g_hdr g)
    (Recvbuf.rbufs s) (Recvbuf.mem_total s) (Recvbuf.hp s) (g_env g).

(** Running an operation of one module on the process. *)
Definition on_send {A} (f : Sendbuf.st -> res (A * Sendbuf.st)) g : res (A * proc E D) :=
  '(a, s) ← f (send_st g); Ret (a, set_send g s).
Definition on_recv {A} (f : Recvbuf.st -> res (A * Recvbuf.st)) g : res (A * proc E D) :=
  '(a, s) ← f (recv_st g); Ret (a, set_recv g s).
End Fields.

(** ** The operating system *)

Class Os (E : Type) := {
  os_malloc : E -> option Z * E;                 (* for C structures: their address *)
  os_time : E -> Z * E;
  os_gettimeofday : E -> (Z * Z) * E;
  os_pollfd : Z -> Z -> Z -> E -> (Z * Z) * E;
  os_errno : E -> Z;
  os_strerror : Z -> bytes;
  os_socket : E -> Z * E;
  os_reuseaddr : Z -> E -> E;
  os_bind : Z -> Z -> E -> Z * E;                (* descriptor, port *)
  os_listen : Z -> E -> Z * E;
  os_accept : Z -> E -> Z * E;
  os_connect : Z -> Z -> Z -> E -> Z * E;        (* descriptor, address, port *)
  os_nonblock : Z -> E -> E;
  os_send : Z -> bytes -> E -> Z * E;
  os_recv : Z -> Z -> E -> (Z * bytes) * E;      (* result, the bytes stored *)
  os_shutdown_rd : Z -> E -> E;
  os_close : Z -> E -> E;
  os_getpeername : Z -> E -> (Z * Z) * E;        (* address and port *)
  os_inet_ntoa : Z -> bytes;
  os_inet_addr : bytes -> option Z;              (* None: INADDR_NONE *)
  (** [None]: the result is NULL; the address list may be empty *)
  os_gethostbyname : bytes -> E -> option (list Z) * E;
}.

Definition EAGAIN : Z := 11.
Definition EINPROGRESS : Z := 115.

Section Calls.
Context {E D : Type} {OS : Os E}.
Implicit Types g : proc E D.

(** A system call that returns a value. *)
Definition sys {A} (f : E -> A * E) g : A * proc E D :=
  let '(a, e) := f (g_env g) in (a, set_env g e).
Definition sys_ (f : E -> E) g : proc E D := set_env g (f (g_env g)).
Definition errno g : Z := os_errno (g_env g).
Definition strerror g : bytes := os_strerror (errno g).

#[export] Instance ProcWorld : AeWorld (proc E D) D := {|
  loop_get := fun g p => g_loops g !! p;
  loop_set := fun g p e => set_loops g (partial_alter (fun _ => e) p (g_loops g));
  ae_malloc := sys os_malloc;
  time_now := sys os_time;
  gettimeofday := sys os_gettimeofday;
  os_poll := fun fd ev ms => sys (os_pollfd fd ev ms);
|}.

#[export] Instance ProcWorld_ok : AeWorldOk (proc E D) D.
Proof.
  constructor; cbn; unfold sys; intros; try (by case_match); try done.
  - by rewrite lookup_partial_alter_eq.
  - by rewrite lookup_partial_alter_ne.
Qed.
End Calls.

(** Running a Lua function by its name with results adjusted to one value: what
    lua_pcall(L, n, 1, 0) leaves on the stack, or [None] after an error. *)
Definition result1 (out : option (list lval)) : option lval :=
  match out with Some l => Some (default LNil (head l)) | None => None end.

(** A C buffer of [n] bytes that strcpy writes: the string with its terminator must
    fit, otherwise it runs over. *)
Definition strcpy_fit (n : Z) (s : bytes) : res bytes :=
  if Z.of_nat (length s) <? n then Ret s else Undef.

(** ** A concrete operating system and script, for examples

    The clock stands at [env_clock] microseconds, sends are logged per descriptor and
    accepted up to [env_quota] bytes a call (0: EAGAIN), descriptors are handed out in
    order, connections are refused. *)
Record env := Env {
  env_clock : Z; env_sent : list (Z * bytes); env_quota : Z; env_fd : Z; env_brk : Z; env_errno : Z;
  env_closed : list Z }.
Definition ex_env : env := Env 100000000 [] 4 7 4096 0 [].

#[export] Instance ExOs : Os env := {|
  os_malloc := fun e => (Some (env_brk e),
    Env (env_clock e) (env_sent e) (env_quota e) (env_fd e) (env_brk e + 1024) (env_errno e) (env_closed e));
  os_time := fun e => (env_clock e / 1000000, e);
  os_gettimeofday := fun e => ((env_clock e / 1000000, env_clock e mod 1000000), e);
  os_pollfd := fun _ _ _ e => ((0, 0), e);
  os_errno := env_errno;
  os_strerror := fun n => [n];
  os_socket := fun e => (env_fd e,
    Env (env_clock e) (env_sent e) (env_quota e) (env_fd e + 1) (env_brk e) (env_errno e) (env_closed e));
  os_reuseaddr := fun _ e => e;
  os_bind := fun _ _ e => (0, e);
  os_listen := fun _ e => (0, e);
  os_accept := fun _ e => (env_fd e,
    Env (env_clock e) (env_sent e) (env_quota e) (env_fd e + 1) (env_brk e) (env_errno e) (env_closed e));
  os_connect := fun _ _ _ e => (-1,
    Env (env_clock e) (env_sent e) (env_quota e) (env_fd e) (env_brk e) 111 (env_closed e));
  os_nonblock := fun _ e => e;
  os_send := fun fd d e =>
    if env_quota e <=? 0
    then (-1, Env (env_clock e) (env_sent e) (env_quota e) (env_fd e) (env_brk e) EAGAIN (env_closed e))
    else (Z.min (env_quota e) (Z.of_nat (length d)),
          Env (env_clock e) (env_sent e ++ [(fd, take (Z.to_nat (env_quota e)) d)]) (env_quota e)
            (env_fd e) (env_brk e) (env_errno e) (env_closed e));
  os_recv := fun _ _ e => ((0, []), e);
  os_shutdown_rd := fun _ e => e;
  os_close := fun fd e =>
    Env (env_clock e) (env_sent e) (env_quota e) (env_fd e) (env_brk e) (env_errno e) (fd :: env_closed e);
  os_getpeername := fun _ e => ((0, 0), e);
  os_inet_ntoa := fun _ => [];
  os_inet_addr := fun s => match s with [] => None | _ => Some 1 end;
  os_gethostbyname := fun _ e => (None, e);
|}.

(** Every global is a function; every function returns 1. *)
Definition ExScript {W : Type} : LuaScript W := {|
  getglobal := fun _ _ => LFun 1;
  gettable := fun _ _ _ => Some (LFun 2);
  pcall := fun _ _ w => (w, Some [lua_pushinteger 1]);
|}.

Definition ex_proc {D} (loops : gmap Z (aeEventLoop D)) (pt : port_st) (tm : timer_st) (hp : heap) : proc env D :=
  Proc loops pt tm (AeSt 0 ∅ ∅) ∅ (replicate MAX_TABLE NULL) ∅ ∅ 0 hp ex_env.
