(* ===== verification/Ltimer.v ===== *)
(** * Ltimer: timers with script callbacks

    Source: src/src/ae/ltimer.cc, ltimer.h.  A timer made by addtimer owns a
    TimerData block that its finalizer frees; a self timer carries a number instead
    of a block and has no finalizer.  s_timer_counter counts the live timers. *)
From S2P Require Import Prelude Mem Lua Ae Proc.
Local Open Scope Z_scope.

(** Addresses of the C functions handed to the event loop. *)
Definition FN_timer_proc : Z := 1001.
Definition FN_self_timer_proc : Z := 1002.
Definition FN_timer_finalizer_proc : Z := 1003.

Section Ltimer.
Context {E D : Type} {OS : Os E} {F : LuaFmt} {SC : LuaScript (proc E D)}.
Implicit Types g : proc E D.

Definition set_counter g (n : Z) : proc E D :=
  let t := g_timer g in
  set_timer g (TimerSt (self_callback t) n (s_min_msec t) (s_call_lua_time t) (timers t)).
Definition add_counter (n : Z) g : res (proc E D) :=
  c ← sint (s_timer_counter (g_timer g) + n); Ret (set_counter g c).
Definition note_call g : res (proc E D) :=
  let t := g_timer g in
  c ← sint (s_call_lua_time t + 1);
  Ret (set_timer g (TimerSt (self_callback t) (s_timer_counter t) (s_min_msec t) c (timers t))).
Definition note_msec (msec : Z) g : proc E D :=
  let t := g_timer g in
  if msec <? s_min_msec t
  then set_timer g (TimerSt (self_callback t) (s_timer_counter t) msec (s_call_lua_time t) (timers t))
  else g.
Definition set_timers g (m : gmap Z TimerData) : proc E D :=
  let t := g_timer g in
  set_timer g (TimerSt (self_callback t) (s_timer_counter t) (s_min_msec t) (s_call_lua_time t) m).

(** Dereferencing a TimerData pointer. *)
Definition get_td (p : Z) g : res TimerData := of_option (timers (g_timer g) !! p).

(** free() of a block that is not live is undefined. *)
Definition timer_finalizer_proc (loop clientData : Z) g : res (proc E D) :=
  g ← (if clientData =? NULL then Ret g
       else _ ← get_td clientData g; Ret (set_timers g (delete clientData (timers (g_timer g)))));
  add_counter (-1) g.

Definition timer_proc (loop id clientData : Z) g : res (Z * proc E D) :=
  if clientData =? NULL then Ret (AE_NOMORE, g)
  else
    td ← get_td clientData g;
    '(ok, stk) ← pushluafunction g (td_callback td) [];
    if negb (ok : bool) then Ret (AE_NOMORE, g)
    else
      f ← of_option (head stk);
      g ← note_call g;
      let '(g, out) := pcall f [lua_pushinteger (td_timerid td)] g in
      match result1 out with
      | None => td ← get_td clientData g; Ret (td_msec td, g)
      | Some v =>
          let ir := i32 (lua_tointeger [v] 1) in
          if ir =? 1 then td ← get_td clientData g; Ret (td_msec td, g)
          else if negb (ir =? 0) then Ret (ir, g)
          else Ret (AE_NOMORE, g)
      end.

Definition self_timer_proc (loop timerid clientData : Z) g : res (Z * proc E D) :=
  match self_callback (g_timer g) with
  | None => g ← add_counter (-1) g; Ret (AE_NOMORE, g)
  | Some callback =>
      let selfid := u64 clientData in
      '(ok, stk) ← pushluafunction g callback [];
      if negb (ok : bool) then g ← add_counter (-1) g; Ret (AE_NOMORE, g)
      else
        f ← of_option (head stk);
        g ← note_call g;
        let '(g, out) := pcall f [lua_pushinteger timerid; lua_pushinteger selfid] g in
        match result1 out with
        | None => g ← add_counter (-1) g; Ret (AE_NOMORE, g)
        | Some v =>
            let ir := i32 (lua_tointeger [v] 1) in
            if negb (ir =? 0) then Ret (ir, g)
            else g ← add_counter (-1) g; Ret (AE_NOMORE, g)
        end
  end.

(** ** The functions registered with Lua *)
Context {AP : AeProcs (proc E D)}.

Definition laddtimer (L : list lval) g : res (list lval * proc E D) :=
  if (lua_gettop L =? 3) && lua_isuserdata L 1 && lua_isnumber L 2 && lua_isstring L 3 then
    let loop := lua_touserdata L 1 in
    let msec := d2i32 (lua_tonumber L 2) in
    funcname ← of_option (lua_tolstring L 3);
    let '(p, g) := ae_malloc g in
    match p with
    | None => Ret ([], g)
    | Some p =>
        callback ← strcpy_fit 64 (cstr funcname);
        let g := set_timers g (<[p := MkTimer callback msec 0]> (timers (g_timer g))) in
        g ← add_counter 1 g;
        let g := note_msec msec g in
        '(id, g) ← aeCreateTimeEvent loop msec FN_timer_proc p FN_timer_finalizer_proc g;
        let timerid := i32 id in
        let g := set_timers g (<[p := MkTimer callback msec timerid]> (timers (g_timer g))) in
        Ret ([lua_pushinteger timerid], g)
    end
  else Ret ([], g).

Definition lsetselftimerloop (L : list lval) g : res (list lval * proc E D) :=
  if (lua_gettop L =? 1) && lua_isstring L 1 then
    s ← of_option (lua_tolstring L 1);
    callback ← strcpy_fit 64 (cstr s);
    let t := g_timer g in
    Ret ([lua_pushboolean true],
         set_timer g (TimerSt (Some callback) (s_timer_counter t) (s_min_msec t) (s_call_lua_time t) (timers t)))
  else Ret ([], g).

Definition lstopselftimer (L : list lval) g : res (list lval * proc E D) :=
  if (lua_gettop L =? 2) && lua_isuserdata L 1 && lua_isnumber L 2 then
    let loop := lua_touserdata L 1 in
    let timerid := d2i32 (lua_tonumber L 2) in
    '(r, g) ← aeDeleteTimeEvent loop timerid g;
    g ← (if r =? AE_OK then add_counter (-1) g else Ret g);
    Ret ([lua_pushboolean true], g)
  else Ret ([], g).

Definition laddselftimer (L : list lval) g : res (list lval * proc E D) :=
  if (lua_gettop L =? 3) && lua_isuserdata L 1 && lua_isnumber L 2 && lua_isnumber L 3 then
    let loop := lua_touserdata L 1 in
    let milliseconds := d2i32 (lua_tonumber L 2) in
    let selfid := d2u64 (lua_tonumber L 3) in
    g ← add_counter 1 g;
    let g := note_msec milliseconds g in
    '(id, g) ← aeCreateTimeEvent loop milliseconds FN_self_timer_proc selfid 0 g;
    let timerid := i32 id in
    Ret ([lua_pushinteger timerid], g)
  else Ret ([], g).

Open Scope string_scope.
Definition lua_lib : list (string * (list lval -> proc E D -> res (list lval * proc E D))) :=
  [("addtimer", laddtimer); ("addselftimer", laddselftimer);
   ("stopselftimer", lstopselftimer); ("setselftimerloop", lsetselftimerloop)].
Close Scope string_scope.
End Ltimer.

(** ** Lemmas *)

Section Lemmas.
Context {E D : Type} {OS : Os E} {F : LuaFmt} {SC : LuaScript (proc E D)}.
Implicit Types g : proc E D.

Lemma add_counter_ok n g :
  INT_MIN <= s_timer_counter (g_timer g) + n <= INT_MAX ->
  add_counter n g = Ret (set_counter g (s_timer_counter (g_timer g) + n)).
Proof. intros H. unfold add_counter. by rewrite sint_ok. Qed.

Lemma aeCreateTimeEvent_ok p ms proc cd fin g (e : aeEventLoop D) a g1 sec usec g2 :
  loop_get g p = Some e -> ae_malloc g = (Some a, g1) -> gettimeofday g1 = ((sec, usec), g2) ->
  0 <= usec < 1000000 ->
  exists s m g', aeCreateTimeEvent p ms proc cd fin g = Ret (timeEventNextId e, g') /\
    s * 1000 + m = sec * 1000 + usec / 1000 + ms /\
    loop_get g' p = Some (set_times e (timeEventNextId e + 1)
      (TimeEvent (timeEventNextId e) s m proc fin cd :: timeEvents e)) /\
    g_timer g' = g_timer g.
Proof.
  intros He Hm Hg Hu. unfold aeCreateTimeEvent. rewrite (deref_ok _ _ _ He), bind_Ret_l.
  cbn in Hm, Hg. unfold sys in Hm, Hg.
  destruct (os_malloc (g_env g)) as [a0 env1] eqn:Em. injection Hm as -> <-.
  set (gp := put p (set_times e (timeEventNextId e + 1) (timeEvents e)) g).
  assert (Ema : ae_malloc gp = (Some a, set_env gp env1)) by (unfold gp; cbn; unfold sys; cbn; by rewrite Em).
  rewrite Ema. cbn in Hg. destruct (os_gettimeofday env1) as [[s0 u0] env2] eqn:Eg. injection Hg as -> -> <-.
  assert (Egp : gettimeofday (set_env gp env1) = ((sec, usec), set_env gp env2)) by (cbn; unfold sys; cbn; by rewrite Eg).
  destruct (aeAddMillisecondsToNow ms (set_env gp env1)) as [[s m] g3] eqn:Ea.
  destruct (add_milliseconds_exact _ ms sec usec _ s m g3 Egp Hu Ea) as [Hexact _].
  assert (g3 = set_env gp env2) as ->.
  { revert Ea. unfold aeAddMillisecondsToNow, aeGetTime. rewrite Egp. destruct (1000 <=? _); congruence. }
  assert (Hl : loop_get (set_env gp env2) p = Some (set_times e (timeEventNextId e + 1) (timeEvents e))).
  { cbn. by rewrite lookup_partial_alter_eq. }
  rewrite (deref_ok _ _ _ Hl), bind_Ret_l. exists s, m. eexists. split; [done|]. split; [done|].
  split; [cbn; by rewrite lookup_partial_alter_eq|done].
Qed.
End Lemmas.

(** What a timer callback's result does: an error or the result 1 repeats the
    timer with its own interval, 0 (or nothing, or no number) ends it, any other
    value is the next interval; a callback that cannot be found ends it. *)
Theorem timer_proc_interval {E D} {OS : Os E} {F : LuaFmt} {SC : LuaScript (proc E D)}
    loop id cd (g g1 g2 : proc E D) td f out :
  cd <> NULL -> timers (g_timer g) !! cd = Some td -> resolve g (td_callback td) = Some f ->
  note_call g = Ret g1 -> pcall f [lua_pushinteger (td_timerid td)] g1 = (g2, out) ->
  timers (g_timer g2) !! cd = Some td ->
  timer_proc loop id cd g =
  Ret (match result1 out with
       | None => td_msec td
       | Some v => let ir := i32 (lua_tointeger [v] 1) in
                   if ir =? 1 then td_msec td else if ir =? 0 then AE_NOMORE else ir
       end, g2).
Proof.
  intros Hcd Htd Hf Hnote Hcall Htd2. unfold timer_proc, get_td.
  destruct (Z.eqb_spec cd NULL); [done|]. rewrite Htd. cbn [of_option]. rewrite bind_Ret_l.
  pose proof (pushluafunction_spec g (td_callback td) []) as Hp.
  destruct (pushluafunction g (td_callback td) []) as [[ok stk]| | |]; try done.
  2:{ congruence. }
  destruct ok; [|destruct Hp; congruence]. destruct Hp as (v & Hv & ->).
  rewrite Hf in Hv. injection Hv as <-. rewrite bind_Ret_l. cbn [negb head of_option]. rewrite bind_Ret_l.
  rewrite Hnote, bind_Ret_l, Hcall. destruct (result1 out) as [v|]; cbv zeta.
  - destruct (i32 (lua_tointeger [v] 1) =? 1); [by rewrite Htd2|].
    by destruct (i32 (lua_tointeger [v] 1) =? 0).
  - by rewrite Htd2.
Qed.

(** addtimer puts one event into the loop, under a fresh id, due exactly [msec]
    after now, with its own TimerData as client data, and counts it. *)
Theorem laddtimer_spec {E D} {OS : Os E} {F : LuaFmt} {SC : LuaScript (proc E D)}
    loop msec name (g : proc E D) (e : aeEventLoop D) p g1 a g2 sec usec g3 :
  loop_get g loop = Some e -> in_s 32 msec -> Z.of_nat (length (cstr name)) < 64 ->
  ae_malloc g = (Some p, g1) -> ae_malloc g1 = (Some a, g2) -> gettimeofday g2 = ((sec, usec), g3) ->
  0 <= usec < 1000000 -> in_s 32 (timeEventNextId e) -> 0 <= s_timer_counter (g_timer g) < INT_MAX ->
  exists s m g' e', laddtimer [LLight loop; lua_pushinteger msec; LStr name] g =
      Ret ([lua_pushinteger (timeEventNextId e)], g') /\
    loop_get g' loop = Some e' /\
    timeEvents e' = TimeEvent (timeEventNextId e) s m FN_timer_proc FN_timer_finalizer_proc p :: timeEvents e /\
    s * 1000 + m = sec * 1000 + usec / 1000 + msec /\
    timers (g_timer g') !! p = Some (MkTimer (cstr name) msec (timeEventNextId e)) /\
    s_timer_counter (g_timer g') = s_timer_counter (g_timer g) + 1.
Proof.
  intros He Hmsec Hname Hm1 Hm2 Hg Hu Hid Hc. unfold laddtimer. lua_guard.
  change (lua_tonumber _ 2) with (d_of_Z msec). rewrite d2i32_of_Z by done. lua_str.
  change (lua_touserdata _ 1) with loop. rewrite Hm1. unfold strcpy_fit.
  destruct (Z.ltb_spec (Z.of_nat (length (cstr name))) 64); [|lia]. rewrite bind_Ret_l.
  set (gt := set_timers g1 _). unfold add_counter.
  assert (Et : g_timer g1 = g_timer g) by (cbn in Hm1; unfold sys in Hm1; destruct (os_malloc _); by injection Hm1 as _ <-).
  assert (Ec : s_timer_counter (g_timer gt) = s_timer_counter (g_timer g)) by (cbn; by rewrite Et).
  rewrite Ec, sint_ok, !bind_Ret_l by (unfold INT_MIN, INT_MAX in *; lia).
  set (gc := note_msec msec (set_counter gt (s_timer_counter (g_timer g) + 1))).
  assert (Hgc : g_loops gc = g_loops g1 /\ g_env gc = g_env g1 /\
    s_timer_counter (g_timer gc) = s_timer_counter (g_timer g) + 1).
  { unfold gc, note_msec. destruct (msec <? _); done. }
  destruct Hgc as (Hl & Henv & Hcnt).
  assert (Hl1 : g_loops g1 = g_loops g) by (cbn in Hm1; unfold sys in Hm1; destruct (os_malloc _); by injection Hm1 as _ <-).
  assert (He' : loop_get gc loop = Some e) by (cbn; by rewrite Hl, Hl1).
  assert (Hm2' : ae_malloc gc = (Some a, set_env gc (g_env g2))).
  { cbn in *. unfold sys in *. rewrite Henv. destruct (os_malloc (g_env g1)). by injection Hm2 as -> <-. }
  assert (Hg' : gettimeofday (set_env gc (g_env g2)) = ((sec, usec), set_env gc (g_env g3))).
  { cbn in *. unfold sys in *. cbn. destruct (os_gettimeofday (g_env g2)) as [[? ?] ?]. by injection Hg as -> -> <-. }
  destruct (aeCreateTimeEvent_ok loop msec FN_timer_proc p FN_timer_finalizer_proc gc e a _ sec usec _ He' Hm2' Hg' Hu)
    as (s & m & g' & Hcreate & Hwhen & Hloop & Htimer).
  rewrite Hcreate, bind_Ret_l. rewrite wrapS_id by (done || lia). do 4 eexists. split; [done|].
  split; [exact Hloop|]. split; [done|]. split; [done|]. split.
  - cbn. by rewrite lookup_insert_eq.
  - cbn. by rewrite Htimer.
Qed.

(** *** Witnesses *)

Definition ex_timer_loop (l : list aeTimeEvent) : aeEventLoop unit :=
  EventLoop (-1) 0 5 0 [] [] l 0 tt 0.
Definition ex_timer_g (l : list aeTimeEvent) (td : gmap Z TimerData) (n : Z) : proc env unit :=
  ex_proc {[1 := ex_timer_loop l]} (PortSt ∅ ∅) (TimerSt None n INT_MAX 0 td) (Heap ∅ ∅).

Lemma timer_proc_interval_witness :
  @timer_proc env unit NoFmt ExScript 1 4 4096 (ex_timer_g [] {[4096 := MkTimer [116] 250 4]} 1) =
  Ret (250, ex_proc {[1 := ex_timer_loop []]} (PortSt ∅ ∅)
         (TimerSt None 1 INT_MAX 1 {[4096 := MkTimer [116] 250 4]}) (Heap ∅ ∅)).
Proof.
  eapply (@timer_proc_interval env unit ExOs NoFmt ExScript 1 4 4096 _ _ _ (MkTimer [116] 250 4) (LFun 1)
           (Some [lua_pushinteger 1])); [discriminate|reflexivity..].
Defined.

Lemma laddtimer_spec_witness :
  exists s m g' e', @laddtimer env unit ExOs NoFmt [LLight 1; lua_pushinteger 250; LStr [116; 46; 117]]
      (ex_timer_g [] ∅ 0) = Ret ([lua_pushinteger 5], g') /\
    loop_get g' 1 = Some e' /\
    timeEvents e' = TimeEvent 5 s m FN_timer_proc FN_timer_finalizer_proc 4096 :: [] /\
    s * 1000 + m = 100 * 1000 + 0 / 1000 + 250 /\
    timers (g_timer g') !! 4096 = Some (MkTimer [116; 46; 117] 250 5) /\
    s_timer_counter (g_timer g') = 0 + 1.
Proof.
  eapply (@laddtimer_spec env unit ExOs NoFmt ExScript 1 250 [116; 46; 117] (ex_timer_g [] ∅ 0) (ex_timer_loop []) 4096);
    [reflexivity|unfold in_s; lia|cbn; lia|reflexivity|reflexivity|reflexivity|lia|unfold in_s; cbn; lia|
     cbn; unfold INT_MAX; lia].
Defined.
