(* ===== verification/Lport.v ===== *)
(** * Lport: sockets and ports

    Source: src/src/ae/lport.cc, lport.h.  A port is a loop with the names of the
    script functions that handle its sockets; a socket belongs to a port.  Handlers
    accept and connect, pass readable sockets to the script, and drain the send
    queue of writable ones. *)
From S2P Require Import Prelude Mem Lua Sendbuf Recvbuf Ae Proc.
Local Open Scope Z_scope.

Definition ERR : Z := 1.
Definition OK : Z := 0.

(** Addresses of the C functions handed to the event loop. *)
Definition FN_port_on_read : Z := 2001.
Definition FN_port_on_write : Z := 2002.
Definition FN_port_on_accept : Z := 2003.
Definition FN_port_on_connect_suc : Z := 2004.
Definition FN_port_on_connect_err : Z := 2005.

Section Lport.
Context {E D : Type} {OS : Os E} {F : LuaFmt} {SC : LuaScript (proc E D)}.
Context {API : AeApi (proc E D) D} {A : Allocator}.
Implicit Types g : proc E D.

(** ** Access *)

(** &s_socks[fd]: the callers have checked the range, or the descriptor comes from the
    loop; outside the array it is undefined. *)
Definition fd2sock g (fd : Z) : res Sock :=
  if (0 <=? fd) && (fd <? MAX_SOCK) then Ret (default zero_sock (s_socks (g_port g) !! fd)) else Undef.
Definition put_sock g (fd : Z) (s : Sock) : proc E D :=
  set_port g (PortSt (<[fd := s]> (s_socks (g_port g))) (ports (g_port g))).
Definition get_port g (p : Z) : res Port := of_option (ports (g_port g) !! p).
Definition put_port g (p : Z) (v : Port) : proc E D :=
  set_port g (PortSt (s_socks (g_port g)) (<[p := v]> (ports (g_port g)))).
Definition bad_fd (fd : Z) : bool := (fd <=? 0) || (MAX_SOCK <=? fd).

(** Calling a script handler by name, outputs dropped: lua_pushluafunction, the
    arguments, lua_pcall; errors are only logged. *)
Definition call_lua (name : bytes) (args : list lval) g : res (proc E D) :=
  '(g, _) ← call_named name args g; Ret g.

Definition setnonblock (sockfd : Z) g : proc E D := sys_ (os_nonblock sockfd) g.

(** ** Life of a socket *)

(** The result of recvbuf_create is not looked at. *)
Definition sock_create (port sockfd : Z) g : res (Z * proc E D) :=
  if bad_fd sockfd then Ret (ERR, g)
  else
    let g := put_sock g sockfd (MkSock port sockfd 0 0 0 0 0) in
    '(_, g) ← on_recv (recvbuf_create sockfd 1024) g;
    '(_, g) ← on_send (sendbuf_create sockfd) g;
    Ret (OK, g).

Definition sock_free (sockfd : Z) g : res (Z * proc E D) :=
  if bad_fd sockfd then Ret (ERR, g)
  else
    let g := put_sock g sockfd zero_sock in
    '(_, g) ← on_recv (fun s => Ret (recvbuf_free sockfd s)) g;
    '(_, g) ← on_send (sendbuf_free sockfd) g;
    Ret (OK, g).

Definition real_close (sockfd : Z) (reason : bytes) g : res (Z * proc E D) :=
  if bad_fd sockfd then Ret (1, g)
  else
    sock ← fd2sock g sockfd;
    let port := sock_port sock in
    pt ← get_port g port;
    g ← (match lua_on_close pt with
         | [] => Ret g
         | _ =>
             let '((addr, pnum), g) := sys (os_getpeername sockfd) g in
             call_lua (lua_on_close pt)
               [lua_pushinteger sockfd; lua_pushstring (os_inet_ntoa addr); lua_pushinteger pnum;
                lua_pushstring reason] g
         end);
    pt ← get_port g port;
    g ← aeDeleteFileEvent (port_loop pt) sockfd AE_READABLE g;
    g ← aeDeleteFileEvent (port_loop pt) sockfd AE_WRITABLE g;
    let g := sys_ (os_close sockfd) g in
    '(_, g) ← sock_free sockfd g;
    Ret (0, g).

(** ** The handlers of the event loop *)

Definition port_on_read (loop sockfd args event : Z) g : res (proc E D) :=
  sock ← fd2sock g sockfd;
  pt ← get_port g (sock_port sock);
  match lua_on_read pt with
  | [] => Ret g
  | _ => call_lua (lua_on_read pt) [lua_pushinteger sockfd] g
  end.

(** while (1): send from the head of the queue until it is empty or the socket takes
    no more.  A negative length takes neither branch: the loop spins. *)
Fixpoint write_loop (fuel : nat) (sockfd : Z) g : res (proc E D) :=
  match fuel with
  | O => NoFuel
  | S fuel =>
      datalen ← sendbuf_datalen sockfd (send_st g);
      rptr ← sendbuf_get_read_ptr sockfd (send_st g);
      if datalen =? 0 then Ret g
      else if 0 <? datalen then
        data ← of_option (loadz (h_mem (g_heap g)) rptr datalen);
        let '(ir, g) := sys (os_send sockfd data) g in
        if 0 <? ir then
          '(_, g) ← on_send (sendbuf_skip_read_ptr sockfd ir) g;
          write_loop fuel sockfd g
        else if (ir =? -1) && (errno g =? EAGAIN) then Ret g
        else if ir =? -1 then
          (* "peer close" *)
          '(_, g) ← real_close sockfd [112; 101; 101; 114; 32; 99; 108; 111; 115; 101] g;
          Ret g
        else write_loop fuel sockfd g
      else write_loop fuel sockfd g
  end.

(** The pointers to the socket and to its port are taken before the loop. *)
Definition port_on_write (fuel : nat) (loop sockfd args event : Z) g : res (proc E D) :=
  sock ← fd2sock g sockfd;
  let port := sock_port sock in
  g ← write_loop fuel sockfd g;
  datalen ← sendbuf_datalen sockfd (send_st g);
  if datalen <=? 0 then
    pt ← get_port g port;
    g ← aeDeleteFileEvent (port_loop pt) sockfd AE_WRITABLE g;
    sock ← fd2sock g sockfd;
    if sock_shutdown sock =? 1 then
      '(_, g) ← real_close sockfd (strerror g) g; Ret g
    else Ret g
  else Ret g.

Definition port_on_accept (loop listenfd args event : Z) g : res (proc E D) :=
  if args =? NULL then Ret g
  else
    pt ← get_port g args;
    let '(sockfd, g) := sys (os_accept listenfd) g in
    if sockfd =? -1 then Ret g
    else
      match lua_on_accept pt with
      | [] => Ret (sys_ (os_close sockfd) g)
      | _ =>
          '(r, g) ← sock_create args sockfd g;
          if negb (r =? 0) then Ret (sys_ (os_close sockfd) g)
          else
            let g := setnonblock sockfd g in
            '(_, g) ← aeCreateFileEvent (port_loop pt) sockfd AE_READABLE FN_port_on_read 0 g;
            '(_, g) ← aeCreateFileEvent (port_loop pt) sockfd AE_WRITABLE FN_port_on_write 0 g;
            let '((addr, pnum), g) := sys (os_getpeername sockfd) g in
            call_lua (lua_on_accept pt)
              [lua_pushinteger sockfd; lua_pushstring (os_inet_ntoa addr); lua_pushinteger pnum] g
      end.

Definition port_on_connect_suc (loop sockfd args event : Z) g : res (proc E D) :=
  sock ← fd2sock g sockfd;
  pt ← get_port g (sock_port sock);
  g ← aeDeleteFileEvent (port_loop pt) sockfd AE_READABLE g;
  g ← aeDeleteFileEvent (port_loop pt) sockfd AE_WRITABLE g;
  '(_, g) ← aeCreateFileEvent (port_loop pt) sockfd AE_READABLE FN_port_on_read 0 g;
  '(_, g) ← aeCreateFileEvent (port_loop pt) sockfd AE_WRITABLE FN_port_on_write 0 g;
  match lua_on_connect_suc pt with
  | [] => Ret g
  | _ =>
      let '((addr, pnum), g) := sys (os_getpeername sockfd) g in
      call_lua (lua_on_connect_suc pt)
        [lua_pushinteger sockfd; lua_pushstring (os_inet_ntoa addr); lua_pushinteger pnum] g
  end.

Definition port_on_connect_err (loop sockfd args event : Z) g : res (proc E D) :=
  sock ← fd2sock g sockfd;
  let port := sock_port sock in
  pt ← get_port g port;
  g ← (match lua_on_connect_err pt with
       | [] => Ret g
       | _ =>
           let '((addr, pnum), g) := sys (os_getpeername sockfd) g in
           call_lua (lua_on_connect_err pt)
             [lua_pushinteger sockfd; lua_pushstring (os_inet_ntoa addr); lua_pushinteger pnum] g
       end);
  pt ← get_port g port;
  g ← aeDeleteFileEvent (port_loop pt) sockfd AE_READABLE g;
  g ← aeDeleteFileEvent (port_loop pt) sockfd AE_WRITABLE g;
  let g := sys_ (os_close sockfd) g in
  '(_, g) ← sock_free sockfd g;
  Ret g.

(** ** The functions registered with Lua *)

(** A (unsigned short) conversion of a number. *)
Definition to_port (L : list lval) (i : Z) : Z := u16 (d2i32 (lua_tonumber L i)).

(** On a failure after the socket was made, the socket is neither closed nor freed. *)
Definition llisten (L : list lval) g : res (list lval * proc E D) :=
  if lua_isuserdata L 1 && lua_isnumber L 2 then
    let port := lua_touserdata L 1 in
    if port =? NULL then Ret ([], g)
    else
      let listenport := to_port L 2 in
      let '(sockfd, g) := sys os_socket g in
      if sockfd <? 0 then Ret ([], g)
      else
        '(r, g) ← sock_create port sockfd g;
        if negb (r =? 0) then Ret ([], sys_ (os_close sockfd) g)
        else
          let g := sys_ (os_reuseaddr sockfd) g in
          let '(b, g) := sys (os_bind sockfd listenport) g in
          if b <? 0 then Ret ([], g)
          else
            let '(l, g) := sys (os_listen sockfd) g in
            if l <? 0 then Ret ([], g)
            else
              pt ← get_port g port;
              '(r, g) ← aeCreateFileEvent (port_loop pt) sockfd AE_READABLE FN_port_on_accept port g;
              if r =? AE_ERR then Ret ([], g) else Ret ([lua_pushboolean true], g)
  else Ret ([], g).

Definition lgetpeerip (L : list lval) g : res (list lval * proc E D) :=
  if lua_isnumber L 1 then
    let sockfd := d2i32 (lua_tonumber L 1) in
    if bad_fd sockfd then Ret ([], g)
    else
      let '((addr, _), g) := sys (os_getpeername sockfd) g in
      Ret ([lua_pushstring (os_inet_ntoa addr)], g)
  else Ret ([], g).

Definition lgetpeerport (L : list lval) g : res (list lval * proc E D) :=
  if lua_isnumber L 1 then
    let sockfd := d2i32 (lua_tonumber L 1) in
    if bad_fd sockfd then Ret ([], g)
    else
      let '((_, pnum), g) := sys (os_getpeername sockfd) g in
      Ret ([lua_pushinteger pnum], g)
  else Ret ([], g).

(** The address of a host: the dotted form, else the first address of its entry;
    [None] when the entry has none.  A name that is not found gives a NULL entry,
    which is dereferenced. *)
Definition host_addr (ip : bytes) g : res (option Z * proc E D) :=
  match os_inet_addr ip with
  | Some a => Ret (Some a, g)
  | None =>
      let '(ent, g) := sys (os_gethostbyname ip) g in
      match ent with
      | None => Undef
      | Some [] => Ret (None, g)
      | Some (a :: _) => Ret (Some a, g)
      end
  end.

Definition lsyncconnect (L : list lval) g : res (list lval * proc E D) :=
  let port := lua_touserdata L 1 in
  ip ← of_option (lua_tolstring L 2);
  let portnum := to_port L 3 in
  '(addr, g) ← host_addr (cstr ip) g;
  match addr with
  | None => Ret ([], g)
  | Some addr =>
      let '(sockfd, g) := sys os_socket g in
      if sockfd <? 0 then Ret ([], g)
      else
        '(r, g) ← sock_create port sockfd g;
        if negb (r =? 0) then Ret ([], sys_ (os_close sockfd) g)
        else
          let '(rt, g) := sys (os_connect sockfd addr portnum) g in
          if rt <? 0 then Ret ([], sys_ (os_close sockfd) g)
          else
            let g := setnonblock sockfd g in
            pt ← get_port g port;
            '(_, g) ← aeCreateFileEvent (port_loop pt) sockfd AE_READABLE FN_port_on_read 0 g;
            '(_, g) ← aeCreateFileEvent (port_loop pt) sockfd AE_WRITABLE FN_port_on_write 0 g;
            Ret ([lua_pushinteger sockfd], g)
  end.

Definition lfree (L : list lval) g : res (list lval * proc E D) :=
  let port := lua_touserdata L 1 in
  if port =? NULL then Ret ([], g)
  else
    _ ← get_port g port;
    Ret ([lua_pushboolean true],
         set_port g (PortSt (s_socks (g_port g)) (delete port (ports (g_port g))))).

Definition lconnect (L : list lval) g : res (list lval * proc E D) :=
  let port := lua_touserdata L 1 in
  if port =? NULL then Ret ([], g)
  else
    ip ← of_option (lua_tolstring L 2);
    let portnum := to_port L 3 in
    '(addr, g) ← host_addr (cstr ip) g;
    match addr with
    | None => Ret ([], g)
    | Some addr =>
        let '(sockfd, g) := sys os_socket g in
        if sockfd <? 0 then Ret ([], g)
        else
          '(r, g) ← sock_create port sockfd g;
          if negb (r =? 0) then Ret ([], sys_ (os_close sockfd) g)
          else
            let g := setnonblock sockfd g in
            pt ← get_port g port;
            '(_, g) ← aeCreateFileEvent (port_loop pt) sockfd AE_READABLE FN_port_on_connect_err 0 g;
            '(_, g) ← aeCreateFileEvent (port_loop pt) sockfd AE_WRITABLE FN_port_on_connect_suc 0 g;
            let '(rt, g) := sys (os_connect sockfd addr portnum) g in
            if (rt <? 0) && negb (errno g =? EINPROGRESS) then
              '(_, g) ← sock_free sockfd g;
              Ret ([], sys_ (os_close sockfd) g)
            else Ret ([lua_pushinteger sockfd], g)
    end.

(** The setters of the handler names: strcpy into a buffer of [n] bytes. *)
Definition set_name (n : Z) (upd : Port -> bytes -> Port) (L : list lval) g : res (list lval * proc E D) :=
  if (lua_gettop L =? 2) && lua_isuserdata L 1 && lua_isstring L 2 then
    let port := lua_touserdata L 1 in
    s ← of_option (lua_tolstring L 2);
    pt ← get_port g port;
    name ← strcpy_fit n (cstr s);
    Ret ([lua_pushboolean true], put_port g port (upd pt name))
  else Ret ([], g).

Definition lon_read := set_name 128 (fun p s =>
  MkPort (port_loop p) s (lua_on_accept p) (lua_on_close p) (lua_on_connect_err p) (lua_on_connect_suc p) (port_name p)).
Definition lon_accept := set_name 128 (fun p s =>
  MkPort (port_loop p) (lua_on_read p) s (lua_on_close p) (lua_on_connect_err p) (lua_on_connect_suc p) (port_name p)).
Definition lon_close := set_name 128 (fun p s =>
  MkPort (port_loop p) (lua_on_read p) (lua_on_accept p) s (lua_on_connect_err p) (lua_on_connect_suc p) (port_name p)).
Definition lon_connect_err := set_name 128 (fun p s =>
  MkPort (port_loop p) (lua_on_read p) (lua_on_accept p) (lua_on_close p) s (lua_on_connect_suc p) (port_name p)).
Definition lon_connect_suc := set_name 128 (fun p s =>
  MkPort (port_loop p) (lua_on_read p) (lua_on_accept p) (lua_on_close p) (lua_on_connect_err p) s (port_name p)).
Definition lrename := set_name 64 (fun p s =>
  MkPort (port_loop p) (lua_on_read p) (lua_on_accept p) (lua_on_close p) (lua_on_connect_err p) (lua_on_connect_suc p) s).

Definition lgetuserdata (L : list lval) g : res (list lval * proc E D) :=
  if lua_isnumber L 1 then
    let sockfd := d2i32 (lua_tonumber L 1) in
    if bad_fd sockfd then Ret ([], g)
    else sock ← fd2sock g sockfd; Ret ([lua_pushinteger (sock_userdata sock)], g)
  else Ret ([], g).

Definition lsetuserdata (L : list lval) g : res (list lval * proc E D) :=
  if lua_isnumber L 1 then
    let sockfd := d2i32 (lua_tonumber L 1) in
    let userdata := d2i32 (lua_tonumber L 2) in
    if bad_fd sockfd then Ret ([], g)
    else
      s ← fd2sock g sockfd;
      Ret ([lua_pushboolean true],
           put_sock g sockfd (MkSock (sock_port s) (sock_fd s) (sock_shutdown s) (sock_uid s)
                                (send_seq s) (recv_seq s) userdata))
  else Ret ([], g).

Definition lsetuid (L : list lval) g : res (list lval * proc E D) :=
  if lua_isuserdata L 1 && lua_isnumber L 2 then
    let port := lua_touserdata L 1 in
    let sockfd := d2i32 (lua_tonumber L 2) in
    let uid := d2i32 (lua_tonumber L 3) in
    if bad_fd sockfd then Ret ([], g)
    else
      s ← fd2sock g sockfd;
      if negb (sock_port s =? port) then Ret ([], g)
      else
        Ret ([lua_pushboolean true],
             put_sock g sockfd (MkSock (sock_port s) (sock_fd s) (sock_shutdown s) uid
                                  (send_seq s) (recv_seq s) (sock_userdata s)))
  else Ret ([], g).

Definition lclose (L : list lval) g : res (list lval * proc E D) :=
  if lua_isuserdata L 1 && lua_isnumber L 2 then
    let port := lua_touserdata L 1 in
    let sockfd := d2i32 (lua_tonumber L 2) in
    if bad_fd sockfd then Ret ([], g)
    else
      s ← fd2sock g sockfd;
      if negb (sock_port s =? port) then Ret ([], g)
      else
        let reason := match lua_tolstring L 3 with Some r => cstr r | None => strerror g end in
        '(_, g) ← real_close sockfd reason g;
        Ret ([lua_pushboolean true], g)
  else Ret ([], g).

(** The port is the one the script names; it is not compared with the socket's. *)
Definition lshutdown (L : list lval) g : res (list lval * proc E D) :=
  if lua_isuserdata L 1 && lua_isnumber L 2 then
    let port := lua_touserdata L 1 in
    let sockfd := d2i32 (lua_tonumber L 2) in
    if bad_fd sockfd then Ret ([], g)
    else
      pt ← get_port g port;
      g ← aeDeleteFileEvent (port_loop pt) sockfd AE_READABLE g;
      let g := sys_ (os_shutdown_rd sockfd) g in
      s ← fd2sock g sockfd;
      let g := put_sock g sockfd (MkSock (sock_port s) (sock_fd s) 1 (sock_uid s)
                                    (send_seq s) (recv_seq s) (sock_userdata s)) in
      '(_, g) ← aeCreateFileEvent (port_loop pt) sockfd AE_WRITABLE FN_port_on_write 0 g;
      Ret ([lua_pushboolean true], g)
  else Ret ([], g).

(** The block is cleared before it is tested. *)
Definition lcreate (L : list lval) g : res (list lval * proc E D) :=
  let loop := lua_touserdata L 1 in
  if negb (loop =? NULL) then
    let '(p, g) := ae_malloc g in
    match p with
    | None => Undef
    | Some p => Ret ([lua_pushlightuserdata p], put_port g p (MkPort loop [] [] [] [] [] []))
    end
  else Ret ([], g).

(** They push nothing and return 1: the result is the last argument. *)
Definition lremove_write_event (L : list lval) g : res (list lval * proc E D) :=
  let sockfd := i32 (lua_tointeger L 1) in
  if bad_fd sockfd then Ret ([], g)
  else
    s ← fd2sock g sockfd;
    pt ← get_port g (sock_port s);
    g ← aeDeleteFileEvent (port_loop pt) sockfd AE_WRITABLE g;
    Ret ([default LNil (last L)], g).

Definition ladd_write_event (L : list lval) g : res (list lval * proc E D) :=
  let sockfd := i32 (lua_tointeger L 1) in
  if bad_fd sockfd then Ret ([], g)
  else
    s ← fd2sock g sockfd;
    pt ← get_port g (sock_port s);
    '(_, g) ← aeCreateFileEvent (port_loop pt) sockfd AE_WRITABLE FN_port_on_write 0 g;
    Ret ([default LNil (last L)], g).

Definition lsend (L : list lval) g : res (list lval * proc E D) :=
  let sockfd := i32 (lua_tointeger L 1) in
  let buf := lua_touserdata L 2 in
  let len := u64 (i32 (lua_tointeger L 3)) in
  data ← of_option (loadz (h_mem (g_heap g)) buf len);
  let '(error, g) := sys (os_send sockfd data) g in
  Ret ([lua_pushinteger error], g).

(** -1 and a message when the peer closed or on an error, 0 when there is nothing
    yet, else the number of bytes stored. *)
Definition lrecv (L : list lval) g : res (list lval * proc E D) :=
  let sockfd := i32 (lua_tointeger L 1) in
  let buf := lua_touserdata L 2 in
  let buflen := i32 (lua_tointeger L 3) in
  let '((result, data), g) := sys (os_recv sockfd (u64 buflen)) g in
  m ← of_option (mstore (h_mem (g_heap g)) buf data);
  let g := set_recv g (set_mem (recv_st g) m) in
  if result =? 0 then Ret ([lua_pushinteger (-1); lua_pushstring (strerror g)], g)
  else if (result =? -1) && (errno g =? EAGAIN) then Ret ([lua_pushinteger 0], g)
  else if result =? -1 then Ret ([lua_pushinteger (-1); lua_pushstring (strerror g)], g)
  else Ret ([lua_pushinteger result], g).

Open Scope string_scope.
Definition lua_lib : list (string * (list lval -> proc E D -> res (list lval * proc E D))) :=
  [("create", lcreate); ("free", lfree); ("listen", llisten); ("connect", lconnect);
   ("syncconnect", lsyncconnect); ("on_read", lon_read); ("on_accept", lon_accept);
   ("on_connect_suc", lon_connect_suc); ("on_connect_err", lon_connect_err);
   ("on_close", lon_close); ("rename", lrename); ("close", lclose); ("shutdown", lshutdown);
   ("getpeerport", lgetpeerport); ("getpeerip", lgetpeerip); ("setuid", lsetuid);
   ("setuserdata", lsetuserdata); ("getuserdata", lgetuserdata);
   ("remove_write_event", lremove_write_event); ("add_write_event", ladd_write_event);
   ("recv", lrecv); ("send", lsend)].
Close Scope string_scope.
End Lport.

(** ** Draining the send queue *)

Lemma send_st_set_send {E D} (g : proc E D) s : send_st (set_send g s) = s.
Proof. by destruct s. Qed.

(** A healthy connection: send takes at least one byte and at most all of them, in
    order, or says EAGAIN and takes none.  [sent e fd] is what the system took. *)
Class OsSendOk (E : Type) {OS : Os E} := {
  sent : E -> Z -> bytes;
  send_healthy : forall fd d e r e', d <> [] -> os_send fd d e = (r, e') ->
    (forall fd', fd' <> fd -> sent e' fd' = sent e fd') /\
    (r = -1 /\ os_errno e' = EAGAIN /\ sent e' fd = sent e fd \/
     0 < r <= Z.of_nat (length d) /\ sent e' fd = sent e fd ++ take (Z.to_nat r) d);
}.

Section Drain.
Context {E D : Type} {OS : Os E} {F : LuaFmt} {SC : LuaScript (proc E D)}.
Context {API : AeApi (proc E D) D} {A : Allocator} {SOk : OsSendOk E}.

(** The next send takes at least one byte. *)
Definition takes_some (e : E) (fd : Z) : Prop := forall d r e', d <> [] -> os_send fd d e = (r, e') -> 0 < r.

(** From [g], with [d] queued on [fd], the handler got to [g'] by handing over [v]; with no
    unflushed block in the queue and a socket that can be written, [v] is something. *)
Definition hands_over (fd : Z) (g : proc E D) (q : Z -> list Z) (d : bytes) (g' : proc E D) : Prop := exists q' f' v d',
  Rep (send_st g') q' f' /\
    d = v ++ d' /\ pending (send_st g') (q' fd) = Some d' /\
    sent (g_env g') fd = sent (g_env g) fd ++ v /\
    (forall fd', fd' <> fd -> pending (send_st g') (q' fd') = pending (send_st g) (q fd') /\
                              sent (g_env g') fd' = sent (g_env g) fd') /\
    g_loops g' = g_loops g /\ g_port g' = g_port g /\
    (solid (send_st g) (q fd) -> solid (send_st g') (q' fd) /\ (d <> [] -> takes_some (g_env g) fd -> v <> [])).

Lemma write_loop_fifo fuel : forall fd (g : proc E D) q f d,
  Rep (send_st g) q f -> 0 <= fd < Sendbuf.MAX_SOCKET -> pending (send_st g) (q fd) = Some d ->
  (length d < fuel)%nat -> exists g', write_loop fuel fd g = Ret g' /\ hands_over fd g q d g'.
Proof.
  induction fuel as [|fuel IH]; intros fd g q f d HR Hfd Hd Hf; [lia|]. cbn [write_loop].
  destruct (read_ok _ _ _ _ _ HR Hfd Hd) as (n & p & Hn & Hp & Hr & Hl & Hsol).
  rewrite Hn, bind_Ret_l, Hp, bind_Ret_l.
  destruct (Z.eqb_spec n 0) as [->|Hn0].
  { exists g. split; [done|]. exists q, f, [], d. rewrite app_nil_r. split_and!; try done. intros Hs.
    split; [done|]. intros Hd0 _. specialize (Hsol Hs Hd0). lia. }
  destruct (Z.ltb_spec 0 n) as [_|]; [|lia].
  assert (Hlen : length (take (Z.to_nat n) d) = Z.to_nat n) by (rewrite length_take; lia).
  assert (Hld : loadz (h_mem (g_heap g)) p n = Some (take (Z.to_nat n) d)).
  { pose proof (loadz_mload (h_mem (g_heap g)) p (take (Z.to_nat n) d)) as H.
    rewrite Hlen, Z2Nat.id in H by lia. by apply H. }
  rewrite Hld. cbn [of_option]. rewrite bind_Ret_l. unfold sys.
  destruct (os_send fd (take (Z.to_nat n) d) (g_env g)) as [r e'] eqn:Es.
  assert (Hne : take (Z.to_nat n) d <> []) by (by intros E0; rewrite E0 in Hlen; cbn in Hlen; lia).
  destruct (send_healthy fd _ _ _ _ Hne Es) as (Hoth & [(-> & Herr & Hsent)|(Hr' & Hsent)]).
  - cbn [Z.ltb]. change (0 <? -1) with false. cbv iota. unfold errno. cbn [g_env set_env].
    rewrite Herr, !Z.eqb_refl. cbn [andb]. eexists. split; [done|]. exists q, f, [], d.
    cbn [g_env set_env]. rewrite app_nil_r, Hsent. split_and!; try done.
    + intros fd' Hne'. split; [done|by apply Hoth].
    + intros Hs. split; [done|]. intros _ Ht. by specialize (Ht _ _ _ Hne Es).
  - destruct (Z.ltb_spec 0 r); [|lia]. rewrite Hlen in Hr'.
    destruct (skip_ok (send_st g) q f fd d n r HR Hfd Hd Hn ltac:(lia)) as (x & s' & q' & f' & Hs & HR' & Hd' & Ho & Hso).
    unfold on_send. change (send_st (set_env g e')) with (send_st g). rewrite Hs, !bind_Ret_l.
    destruct (IH fd (set_send (set_env g e') s') q' f' (drop (Z.to_nat r) d)) as
      (g2 & Hw & q2 & f2 & v & d2 & HR2 & Hsplit & Hp2 & Hs2 & Ho2 & Hl2 & Hport2 & Hso2).
    { by rewrite send_st_set_send. }
    { done. }
    { by rewrite send_st_set_send. }
    { rewrite length_drop. lia. }
    exists g2. rewrite Hw. split; [done|]. exists q2, f2, (take (Z.to_nat r) d ++ v), d2. split_and!; try done.
    + by rewrite <- app_assoc, <- Hsplit, take_drop.
    + rewrite Hs2. cbn [g_env set_send set_env]. rewrite Hsent, take_take, Nat.min_l by lia. by rewrite app_assoc.
    + intros fd' Hne'. destruct (Ho2 fd' Hne') as [H1 H2]. rewrite H1, H2, send_st_set_send, Ho by done.
      split; [done|]. cbn [g_env set_send set_env]. by apply Hoth.
    + intros Hs0. rewrite send_st_set_send in Hso2. split; [by apply Hso2, Hso|]. intros _ _ E0.
      apply app_nil in E0 as [E0 _]. apply (f_equal length) in E0. rewrite length_take in E0. cbn in E0. lia.
Qed.
End Drain.

(** C35.  On a healthy connection the write handler's loop ends, and it hands the
    socket bytes from the front of its queue only, in order and without gaps: what
    was queued is what was taken followed by what is still queued; no other
    socket's queue and no registration changes. *)
Theorem write_loop_in_order {E D} {OS : Os E} {SOk : OsSendOk E} {F : LuaFmt} {SC : LuaScript (proc E D)}
    {API : AeApi (proc E D) D} {A : Allocator} fuel fd (g : proc E D) q f d :
  Rep (send_st g) q f -> 0 <= fd < Sendbuf.MAX_SOCKET -> pending (send_st g) (q fd) = Some d ->
  (length d < fuel)%nat ->
  exists g' q' f' v d', write_loop fuel fd g = Ret g' /\ Rep (send_st g') q' f' /\
    d = v ++ d' /\ pending (send_st g') (q' fd) = Some d' /\
    sent (g_env g') fd = sent (g_env g) fd ++ v /\
    (forall fd', fd' <> fd -> pending (send_st g') (q' fd') = pending (send_st g) (q fd') /\
                              sent (g_env g') fd' = sent (g_env g) fd') /\
    g_loops g' = g_loops g /\ g_port g' = g_port g.
Proof.
  intros HR Hfd Hd Hf. destruct (write_loop_fifo fuel fd g q f d HR Hfd Hd Hf) as (g' & H1 & q' & f' & v & d' & H2 & H3 & H4 & H5 & H6 & H7 & H8 & _).
  by exists g', q', f', v, d'.
Qed.

(** A block that was allocated but never flushed stalls its socket: when it is
    the head of the queue the write handler finds nothing to send, sends none of
    the bytes queued behind it and stops watching the socket for writing. *)
Theorem unflushed_block_stalls {E D} {OS : Os E} {F : LuaFmt} {SC : LuaScript (proc E D)}
    {API : AeApi (proc E D) D} {A : Allocator} fuel loop fd args ev (g g' : proc E D) q f b l d s pt :
  Rep (send_st g) q f -> 0 < fd < MAX_SOCK -> q fd = b :: l -> chunk (send_st g) b = Some [] ->
  pending (send_st g) l = Some d ->
  s_socks (g_port g) !! fd = Some s -> ports (g_port g) !! sock_port s = Some pt ->
  aeDeleteFileEvent (port_loop pt) fd AE_WRITABLE g = Ret g' ->
  (exists s', s_socks (g_port g') !! fd = Some s' /\ sock_shutdown s' <> 1) ->
  port_on_write (S fuel) loop fd args ev g = Ret g' /\ pending (send_st g) (q fd) = Some d.
Proof.
  intros HR Hfd Hq Hb Hd Hs Hpt Hdel (s' & Hs' & Hsd).
  destruct (r_queue _ _ _ HR fd) as (Hl & _ & _). rewrite Hq in Hl. destruct Hl as (Hhead & Hb0 & blk & Hblk & _).
  assert (Hu : in_use (send_st g) b) by (apply (r_use _ _ _ HR fd); rewrite Hq; by left).
  destruct Hu as (blk' & Hblk' & Hc1 & Hc2). rewrite Hblk in Hblk'. injection Hblk' as <-.
  destruct (Rep_block_mem _ _ _ _ _ HR Hblk) as [_ Hsz].
  assert (Hempty : Sendbuf.buf_len blk - Sendbuf.rptr blk = 0).
  { unfold chunk in Hb. rewrite Hblk in Hb. cbn in Hb. apply mload_length in Hb. cbn in Hb. lia. }
  assert (Hlen : sendbuf_datalen fd (send_st g) = Ret 0).
  { unfold sendbuf_datalen. rewrite fd2bbuf_ok, bind_Ret_l by (unfold Sendbuf.MAX_SOCKET, MAX_SOCK in *; lia).
    rewrite Hhead. destruct (Z.eqb_spec b NULL); [done|]. unfold get_block. rewrite Hblk. cbn [of_option].
    rewrite bind_Ret_l, Hempty. done. }
  assert (Hptr : exists p, sendbuf_get_read_ptr fd (send_st g) = Ret p).
  { unfold sendbuf_get_read_ptr. rewrite fd2bbuf_ok, bind_Ret_l by (unfold Sendbuf.MAX_SOCKET, MAX_SOCK in *; lia).
    rewrite Hhead. destruct (Z.eqb_spec b NULL); [done|]. unfold get_block. rewrite Hblk. cbn [of_option].
    rewrite bind_Ret_l. eauto. }
  destruct Hptr as [p Hp]. split; [|by rewrite Hq; cbn [pending]; rewrite Hb; cbn; rewrite Hd].
  assert (Hsock : forall (g0 : proc E D) s0, s_socks (g_port g0) !! fd = Some s0 -> fd2sock g0 fd = Ret s0).
  { intros g0 s0 H0. unfold fd2sock. rewrite (proj2 (Z.leb_le 0 fd)), (proj2 (Z.ltb_lt fd _)) by lia. by rewrite H0. }
  unfold port_on_write. rewrite (Hsock g s Hs), bind_Ret_l. cbn [write_loop].
  rewrite Hlen, bind_Ret_l, Hp, bind_Ret_l. change (0 =? 0) with true. cbv iota.
  rewrite bind_Ret_l, Hlen, bind_Ret_l. change (0 <=? 0) with true. cbv iota.
  unfold get_port. rewrite Hpt. cbn [of_option]. rewrite bind_Ret_l, Hdel, bind_Ret_l.
  rewrite (Hsock g' s' Hs'), bind_Ret_l. by destruct (Z.eqb_spec (sock_shutdown s') 1).
Qed.

(** ** Examples *)

(** A polling layer for processes that poll nothing. *)
Definition NoApi {E : Type} : AeApi (proc E unit) unit := {|
  aeApiCreate := fun _ w => (Some tt, w);
  aeApiFree := fun _ w => Ret w;
  aeApiAddEvent := fun _ _ _ w => Ret (0, w);
  aeApiDelEvent := fun _ _ _ w => Ret w;
  aeApiPoll := fun _ _ w => Ret (0, w);
  aeApiName := [] |}.


#[export] Instance ExSendOk : @OsSendOk env ExOs.
Proof.
  refine {| sent := fun e fd => concat (map snd (filter (fun x => x.1 = fd) (env_sent e))) |}.
  intros fd d e r e' Hd. unfold os_send, ExOs.
  destruct (Z.leb_spec (env_quota e) 0); intros [= <- <-]; cbn [env_sent].
  - split; [done|]. by left.
  - split.
    + intros fd' Hne. rewrite filter_app, filter_cons_False, filter_nil, app_nil_r by (cbn; done). done.
    + right. assert (0 < length d)%nat by (destruct d; [done|cbn; lia]). split; [lia|].
      rewrite filter_app, filter_cons_True, filter_nil by done. rewrite map_app, concat_app. cbn. rewrite app_nil_r.
      f_equal. destruct (Z.le_ge_cases (env_quota e) (Z.of_nat (length d))).
      * by rewrite Z.min_l by done.
      * rewrite Z.min_r, Nat2Z.id, !take_ge by lia. done.
Defined.

(** Socket 3 after one message of five bytes. *)
Definition ex_msg : bytes := [104; 105; 33; 10; 7].
Definition ex_send : Sendbuf.st :=
  match @append_msg Bump 3 ex_msg (Sendbuf.init_st empty_heap) with Ret (_, s) => s | _ => Sendbuf.init_st empty_heap end.

(** Socket 3 after a reservation of 4000 bytes that is not flushed, then a message of
    4100 bytes: it starts a block of its own. *)
Definition ex_long : bytes := replicate (Z.to_nat 4100) 7.
Lemma ex_long_length : Z.of_nat (length ex_long) = 4100.
Proof. unfold ex_long. rewrite length_replicate. lia. Qed.
#[local] Opaque ex_long.
Definition ex_unflushed : Sendbuf.st :=
  match @sendbuf_alloc Bump 3 4000 (Sendbuf.init_st empty_heap) with
  | Ret (_, s) => match @append_msg Bump 3 ex_long s with Ret (_, s) => s | _ => s end
  | _ => Sendbuf.init_st empty_heap end.

Lemma ex_send_Rep : exists q f, Rep ex_send q f /\ pending ex_send (q 3) = Some ex_msg.
Proof.
  destruct (@append_msg_ok Bump Bump_ok _ _ _ 3 ex_msg [] (Sendbuf.init_Rep _ empty_heap_ok)) as
    (ok & s & q & f & Hs & HR & Hp & _); [unfold Sendbuf.MAX_SOCKET; lia|cbn; unfold SIZEOF_BLOCK; lia|done|].
  assert (H : match @append_msg Bump 3 ex_msg (Sendbuf.init_st empty_heap) with Ret (ok, _) => ok | _ => false end = true)
    by (vm_compute; reflexivity).
  exists q, f. unfold ex_send. rewrite Hs in *. subst ok. split; [exact HR|exact Hp].
Qed.

Lemma ex_unflushed_Rep : exists q f b l d, Rep ex_unflushed q f /\ q 3 = b :: l /\
  chunk ex_unflushed b = Some [] /\ pending ex_unflushed l = Some d /\ Z.of_nat (length d) = 4100.
Proof.
  destruct (@alloc_ok Bump Bump_ok _ _ _ 3 4000 (Sendbuf.init_Rep _ empty_heap_ok)) as (p & s1 & Hs1 & Hpost);
    [unfold Sendbuf.MAX_SOCKET; lia|unfold SIZEOF_BLOCK; lia|].
  assert (H1 : match @sendbuf_alloc Bump 3 4000 (Sendbuf.init_st empty_heap) with
    | Ret (p, s) => negb (p =? NULL) && match @append_msg Bump 3 ex_long s with Ret (ok, s) =>
        ok && bool_decide (chunk s (block_head (bbuf_of s 3)) = Some [])
      | _ => false end
    | _ => false end = true) by (vm_compute; reflexivity).
  unfold ex_unflushed. rewrite Hs1 in *. unfold alloc_post in Hpost.
  destruct (p =? NULL); [discriminate H1|].
  destruct Hpost as (q1 & f1 & HR1 & _ & _ & Hpend & _).
  assert (Hp3 : pending s1 (q1 3) = Some []) by (by rewrite Hpend).
  destruct (@append_msg_ok Bump Bump_ok _ _ _ 3 ex_long [] HR1) as
    (ok & s & q & f & Hs & HR & Hp & _); [unfold Sendbuf.MAX_SOCKET; lia|rewrite ex_long_length; unfold SIZEOF_BLOCK; lia|exact Hp3|].
  rewrite Hs in *. cbn [negb andb] in H1. destruct ok; [|discriminate H1]. cbn [andb] in H1. apply bool_decide_eq_true in H1.
  destruct (r_queue _ _ _ HR 3) as (Hl & _ & _). destruct (q 3) as [|b l] eqn:Eq; [discriminate Hp|].
  destruct Hl as (Hb & _). rewrite Hb in H1. cbn [pending] in Hp. rewrite H1 in Hp. cbn in Hp.
  destruct (pending s l) as [d|] eqn:Ed; [|discriminate Hp]. cbn in Hp. injection Hp as Hd.
  exists q, f, b, l, d. do 4 (split; [done|]). rewrite Hd. apply ex_long_length.
Qed.

Definition ex_port : Port := MkPort 1 [] [] [] [] [] [].
Definition ex_send_proc (s : Sendbuf.st) : proc env unit :=
  set_send (ex_proc {[1 := EventLoop 3 8 0 0
      [FileEvent 0 0 0 0; FileEvent 0 0 0 0; FileEvent 0 0 0 0; FileEvent AE_WRITABLE 0 FN_port_on_write 0] [] [] 0 tt 0]}
    (PortSt {[3 := MkSock 2 3 0 0 0 0 0]} {[2 := ex_port]}) (TimerSt None 0 0 0 ∅) (Sendbuf.hp s)) s.

Lemma write_loop_in_order_witness :
  exists q f, Rep ex_send q f /\ pending ex_send (q 3) = Some ex_msg /\
  exists g' q' f' v d',
    @write_loop env unit ExOs ExScript (@NoApi env) 6 3 (ex_send_proc ex_send) = Ret g' /\
    Rep (send_st g') q' f' /\ ex_msg = v ++ d' /\ pending (send_st g') (q' 3) = Some d' /\
    sent (g_env g') 3 = sent ex_env 3 ++ v /\
    (forall fd', fd' <> 3 -> pending (send_st g') (q' fd') = pending ex_send (q fd') /\
                             sent (g_env g') fd' = sent ex_env fd') /\
    g_loops g' = g_loops (ex_send_proc ex_send) /\ g_port g' = g_port (ex_send_proc ex_send).
Proof.
  destruct ex_send_Rep as (q & f & HR & Hp). exists q, f. split; [exact HR|]. split; [exact Hp|].
  assert (E : send_st (ex_send_proc ex_send) = ex_send) by apply send_st_set_send.
  pose proof (@write_loop_in_order env unit ExOs ExSendOk NoFmt ExScript (@NoApi env) Bump
    6 3 (ex_send_proc ex_send) q f ex_msg) as H. rewrite E in H.
  apply H; [exact HR|unfold Sendbuf.MAX_SOCKET; lia|exact Hp|cbn; lia].
Defined.

Lemma unflushed_block_stalls_witness :
  exists g' d q f b l, Rep ex_unflushed q f /\ q 3 = b :: l /\ chunk ex_unflushed b = Some [] /\
    pending ex_unflushed l = Some d /\ Z.of_nat (length d) = 4100 /\
    @port_on_write env unit ExOs ExScript (@NoApi env) 1 1 3 0 AE_WRITABLE (ex_send_proc ex_unflushed)
      = Ret g' /\ pending (send_st (ex_send_proc ex_unflushed)) (q 3) = Some d.
Proof.
  destruct ex_unflushed_Rep as (q & f & b & l & d & HR & Hq & Hb & Hd & Hlen).
  assert (E : send_st (ex_send_proc ex_unflushed) = ex_unflushed) by apply send_st_set_send.
  eexists _, d, q, f, b, l. do 5 (split; [eassumption|]).
  eapply (@unflushed_block_stalls env unit ExOs NoFmt ExScript (@NoApi env) Bump 0 1 3 0 AE_WRITABLE
    (ex_send_proc ex_unflushed) _ q f b l d (MkSock 2 3 0 0 0 0 0) ex_port);
    try (rewrite E; eassumption); try reflexivity.
  - unfold MAX_SOCK. lia.
  - exact Hq.
  - exists (MkSock 2 3 0 0 0 0 0). split; [reflexivity|discriminate].
Defined.
