(* ===== verification/Lae.v ===== *)
(** * Lae: the script interface of the event loop, and the linked process

    Source: src/src/ae/lae.cc.  Scripts create loops, register their own file and
    time handlers by name, and run the loop.  The end of the file links the C
    functions of this module, Lport and Ltimer to the addresses the event loop
    calls, which closes the process model. *)
From S2P Require Import Prelude Mem Lua Ae Proc Ltimer Lport.
Local Open Scope Z_scope.

(** Addresses of the C functions handed to the event loop. *)
Definition FN_file_proc : Z := 3001.
Definition FN_time_proc : Z := 3002.
Definition FN_finalizer_proc : Z := 3003.
(** &file_data_array[i] as client data. *)
Definition FILE_DATA_BASE : Z := 2 ^ 40.

Section Lae.
Context {E D : Type} {OS : Os E} {F : LuaFmt} {SC : LuaScript (proc E D)}.
Context {API : AeApi (proc E D) D}.
Implicit Types g : proc E D.

Definition get_file (i : Z) g : res FileData :=
  if (0 <=? i) && (i <? MAX_FILE_DATA)
  then Ret (default (MkFile [] []) (file_data_array (g_ae g) !! i)) else Undef.
Definition put_file (i : Z) (f : FileData) g : proc E D :=
  set_ae g (AeSt (main_loop_ptr (g_ae g)) (<[i := f]> (file_data_array (g_ae g))) (time_data (g_ae g))).
Definition set_time_data (m : gmap Z bytes) g : proc E D :=
  set_ae g (AeSt (main_loop_ptr (g_ae g)) (file_data_array (g_ae g)) m).

(** ** Handlers *)

Definition file_proc (loop sockfd clientData mask : Z) g : res (proc E D) :=
  fd ← get_file (clientData - FILE_DATA_BASE) g;
  g ← (match file_read_proc fd with
       | [] => Ret g
       | name => if has mask AE_READABLE
                 then call_lua name [lua_pushinteger sockfd; lua_pushinteger mask] g else Ret g
       end);
  fd ← get_file (clientData - FILE_DATA_BASE) g;
  match file_writ_proc fd with
  | [] => Ret g
  | name => if has mask AE_WRITABLE
            then call_lua name [lua_pushinteger sockfd; lua_pushinteger mask] g else Ret g
  end.

Definition time_proc (loop id clientData : Z) g : res (Z * proc E D) :=
  name ← of_option (time_data (g_ae g) !! clientData);
  '(g, out) ← call_named name [lua_pushinteger id] g;
  match result1 out with
  | None => Ret (AE_NOMORE, g)
  | Some v => Ret (i32 (lua_tointeger [v] 1), g)
  end.

Definition finalizer_proc (loop clientData : Z) g : res (proc E D) :=
  if clientData =? NULL then Ret g
  else
    _ ← of_option (time_data (g_ae g) !! clientData);
    Ret (set_time_data (delete clientData (time_data (g_ae g))) g).

(** ** The functions registered with Lua *)
Context {AP : AeProcs (proc E D)}.

Definition lrun_once (fuel : nat) (L : list lval) g : res (list lval * proc E D) :=
  g ← aeOnce fuel (lua_touserdata L 1) g; Ret ([], g).

Definition lget_api_name (L : list lval) g : res (list lval * proc E D) :=
  Ret ([lua_pushstring (aeGetApiName (W := proc E D))], g).

Definition lmain (n fuel : nat) (L : list lval) g : res (list lval * proc E D) :=
  g ← aeMain n fuel (lua_touserdata L 1) g; Ret ([], g).

Definition lwait (L : list lval) g : res (list lval * proc E D) :=
  let fd := i32 (lua_tointeger L 1) in
  let mask := i32 (lua_tointeger L 2) in
  let milliseconds := d2i64 (lua_tonumber L 3) in
  let '(result, g) := aeWait fd mask milliseconds g in
  Ret ([lua_pushinteger result], g).

Definition lprocess_events (fuel : nat) (L : list lval) g : res (list lval * proc E D) :=
  let flags := i32 (lua_tointeger L 2) in
  '(error, g) ← aeProcessEvents fuel (lua_touserdata L 1) flags g;
  Ret ([lua_pushinteger error], g).

Definition ldelete_time_event (L : list lval) g : res (list lval * proc E D) :=
  let id := d2i64 (lua_tonumber L 2) in
  '(error, g) ← aeDeleteTimeEvent (lua_touserdata L 1) id g;
  Ret ([lua_pushinteger error], g).

(** Without a name the handler's buffer stays uninitialised: reading it later is
    undefined, which an absent entry shows. *)
Definition lcreate_time_event (L : list lval) g : res (list lval * proc E D) :=
  let milliseconds := d2i64 (lua_tonumber L 2) in
  let '(p, g) := ae_malloc g in
  match p with
  | None => Ret ([lua_pushinteger AE_ERR], g)
  | Some p =>
      g ← (match lua_tolstring L 3 with
           | Some s => name ← strcpy_fit 64 (cstr s);
                       Ret (set_time_data (<[p := name]> (time_data (g_ae g))) g)
           | None => Ret g
           end);
      '(id, g) ← aeCreateTimeEvent (lua_touserdata L 1) milliseconds FN_time_proc p FN_finalizer_proc g;
      Ret ([lua_pushinteger (i32 id)], g)
  end.

Definition lget_file_events (L : list lval) g : res (list lval * proc E D) :=
  let sockfd := i32 (lua_tointeger L 2) in
  mask ← aeGetFileEvents (lua_touserdata L 1) sockfd g;
  Ret ([lua_pushinteger mask], g).

Definition ldelete_file_event (L : list lval) g : res (list lval * proc E D) :=
  let sockfd := i32 (lua_tointeger L 2) in
  let mask := i32 (lua_tointeger L 3) in
  g ← aeDeleteFileEvent (lua_touserdata L 1) sockfd mask g;
  Ret ([], g).

Definition lcreate_file_event (L : list lval) g : res (list lval * proc E D) :=
  let sockfd := i32 (lua_tointeger L 2) in
  let mask := i32 (lua_tointeger L 3) in
  let name := lua_tolstring L 4 in
  if MAX_FILE_DATA <=? sockfd then Ret ([lua_pushinteger AE_ERR], g)
  else
    g ← (if has mask AE_READABLE then
           s ← of_option name; s ← strcpy_fit 64 (cstr s);
           f ← get_file sockfd g;
           Ret (put_file sockfd (MkFile s (file_writ_proc f)) g)
         else Ret g);
    g ← (if has mask AE_WRITABLE then
           s ← of_option name; s ← strcpy_fit 64 (cstr s);
           f ← get_file sockfd g;
           Ret (put_file sockfd (MkFile (file_read_proc f) s) g)
         else Ret g);
    _ ← get_file sockfd g;
    '(error, g) ← aeCreateFileEvent (lua_touserdata L 1) sockfd mask FN_file_proc (FILE_DATA_BASE + sockfd) g;
    Ret ([lua_pushinteger error], g).

Definition lmain_loop (L : list lval) g : res (list lval * proc E D) :=
  Ret ([lua_pushlightuserdata (main_loop_ptr (g_ae g))], g).

Definition lcreate (L : list lval) g : res (list lval * proc E D) :=
  let setsize := i32 (lua_tointeger L 1) in
  let '(p, g) := aeCreateEventLoop setsize g in
  let p := default 0 p in
  let g := if main_loop_ptr (g_ae g) =? 0
           then set_ae g (AeSt p (file_data_array (g_ae g)) (time_data (g_ae g))) else g in
  Ret ([lua_pushlightuserdata p], g).

Definition lfree (L : list lval) g : res (list lval * proc E D) :=
  g ← aeDeleteEventLoop (lua_touserdata L 1) g; Ret ([], g).

Definition lstop (L : list lval) g : res (list lval * proc E D) :=
  g ← aeStop (lua_touserdata L 1) g; Ret ([], g).
End Lae.

(** ** Linking: what the addresses stand for

    [wfuel] bounds the sends of one writable event. *)
Section Link.
Context {E D : Type} {OS : Os E} {F : LuaFmt} {SC : LuaScript (proc E D)}.
Context {API : AeApi (proc E D) D} {A : Allocator}.
Variable wfuel : nat.

Definition link_file_proc (proc loop fd clientData mask : Z) (g : Proc.proc E D) : res (Proc.proc E D) :=
  if proc =? FN_port_on_read then port_on_read loop fd clientData mask g
  else if proc =? FN_port_on_write then port_on_write wfuel loop fd clientData mask g
  else if proc =? FN_port_on_accept then port_on_accept loop fd clientData mask g
  else if proc =? FN_port_on_connect_suc then port_on_connect_suc loop fd clientData mask g
  else if proc =? FN_port_on_connect_err then port_on_connect_err loop fd clientData mask g
  else if proc =? FN_file_proc then file_proc loop fd clientData mask g
  else Undef.

Definition link_time_proc (proc loop id clientData : Z) (g : Proc.proc E D) : res (Z * Proc.proc E D) :=
  if proc =? FN_timer_proc then timer_proc loop id clientData g
  else if proc =? FN_self_timer_proc then self_timer_proc loop id clientData g
  else if proc =? FN_time_proc then time_proc loop id clientData g
  else Undef.

Definition link_finalizer (proc loop clientData : Z) (g : Proc.proc E D) : res (Proc.proc E D) :=
  if proc =? FN_timer_finalizer_proc then timer_finalizer_proc loop clientData g
  else if proc =? FN_finalizer_proc then finalizer_proc loop clientData g
  else Undef.

Definition Linked : AeProcs (Proc.proc E D) := {|
  run_file_proc := link_file_proc;
  run_time_proc := link_time_proc;
  run_finalizer := link_finalizer;
  run_beforesleep := fun _ _ _ => Undef;
|}.
End Link.

(** ** Stopping timers *)

Section StopLemmas.
Context {E D : Type} {OS : Os E} {F : LuaFmt} {SC : LuaScript (proc E D)}.
Context {API : AeApi (proc E D) D} {A : Allocator}.

Lemma stop_unlinked wfuel loop id (g : proc E D) e te l :
  loop_get g loop = Some e -> unlink (timeEvents e) id = Some (te, l) -> in_s 32 id ->
  @lstopselftimer E D OS F (Linked wfuel) [LLight loop; lua_pushinteger id] g =
  (let g1 := put loop (set_times e (timeEventNextId e) l) g in
   g2 ← (if finalizerProc te =? 0 then Ret g1
         else link_finalizer (finalizerProc te) loop (te_clientData te) g1);
   g3 ← add_counter (-1) g2;
   Ret ([lua_pushboolean true], g3)).
Proof.
  intros He Hu Hid. unfold lstopselftimer. lua_guard.
  change (lua_tonumber _ 2) with (d_of_Z id). rewrite d2i32_of_Z by done.
  change (lua_touserdata _ 1) with loop. unfold aeDeleteTimeEvent.
  rewrite (deref_ok _ _ _ He), bind_Ret_l, Hu. cbv zeta.
  destruct (finalizerProc te =? 0); [by rewrite !bind_Ret_l|]. cbn [run_finalizer Linked].
  by destruct (link_finalizer (finalizerProc te) loop (te_clientData te) _).
Qed.
End StopLemmas.

(** The number of live timers is right when a self timer is stopped, and one too
    low when a timer made by addtimer is: the finalizer that frees its block has
    already counted it down. *)
Theorem stop_timer_counts {E D} {OS : Os E} {F : LuaFmt} {SC : LuaScript (proc E D)}
    {API : AeApi (proc E D) D} {A : Allocator} wfuel loop id (g : proc E D) e te l :
  loop_get g loop = Some e -> unlink (timeEvents e) id = Some (te, l) -> in_s 32 id ->
  0 <= s_timer_counter (g_timer g) <= INT_MAX ->
  (finalizerProc te = 0 \/
   finalizerProc te = FN_timer_finalizer_proc /\ is_Some (timers (g_timer g) !! te_clientData te) /\
   te_clientData te <> NULL) ->
  exists g', @lstopselftimer E D OS F (Linked wfuel) [LLight loop; lua_pushinteger id] g
               = Ret ([lua_pushboolean true], g') /\
    loop_get g' loop = Some (set_times e (timeEventNextId e) l) /\
    s_timer_counter (g_timer g') = s_timer_counter (g_timer g) - (if finalizerProc te =? 0 then 1 else 2).
Proof.
  intros He Hu Hid Hc Hfin. rewrite (stop_unlinked wfuel loop id g e te l He Hu Hid). cbv zeta.
  set (g1 := put loop (set_times e (timeEventNextId e) l) g).
  assert (Hl : loop_get g1 loop = Some (set_times e (timeEventNextId e) l)) by (unfold g1, put; apply loop_get_set).
  destruct Hfin as [->|(-> & [td Htd] & Hcd)].
  - cbn [Z.eqb]. rewrite bind_Ret_l, add_counter_ok, bind_Ret_l by (cbn; unfold INT_MIN, INT_MAX in *; lia). eexists. split; [done|].
    split; [exact Hl|cbn; lia].
  - change (FN_timer_finalizer_proc =? 0) with false. cbv iota. unfold link_finalizer.
    rewrite Z.eqb_refl. unfold timer_finalizer_proc. destruct (Z.eqb_spec (te_clientData te) NULL); [done|].
    unfold get_td. change (g_timer g1) with (g_timer g). rewrite Htd. cbn [of_option]. rewrite !bind_Ret_l.
    rewrite add_counter_ok, bind_Ret_l by (cbn; unfold INT_MIN, INT_MAX in *; lia).
    rewrite add_counter_ok, bind_Ret_l by (cbn; unfold INT_MIN, INT_MAX in *; lia).
    eexists. split; [done|].
    split; [exact Hl|cbn; lia].
Qed.

Lemma stop_timer_counts_witness :
  exists g', @lstopselftimer env unit ExOs NoFmt
      (@Linked env unit ExOs NoFmt ExScript (@NoApi env) Bump 9) [LLight 1; lua_pushinteger 3]
      (ex_timer_g [TimeEvent 3 200 0 FN_timer_proc FN_timer_finalizer_proc 4096] {[4096 := MkTimer [116] 250 3]} 1)
      = Ret ([lua_pushboolean true], g') /\
    loop_get g' 1 = Some (set_times (ex_timer_loop [TimeEvent 3 200 0 FN_timer_proc FN_timer_finalizer_proc 4096]) 5 []) /\
    s_timer_counter (g_timer g') = 1 - 2.
Proof.
  apply (@stop_timer_counts env unit ExOs NoFmt ExScript (@NoApi env) Bump 9 1 3
    (ex_timer_g [TimeEvent 3 200 0 FN_timer_proc FN_timer_finalizer_proc 4096] {[4096 := MkTimer [116] 250 3]} 1)
    (ex_timer_loop [TimeEvent 3 200 0 FN_timer_proc FN_timer_finalizer_proc 4096])
    (TimeEvent 3 200 0 FN_timer_proc FN_timer_finalizer_proc 4096) []).
  - reflexivity.
  - reflexivity.
  - unfold in_s. lia.
  - cbn. unfold INT_MAX. lia.
  - right. split; [done|]. split; [by exists (MkTimer [116] 250 3)|discriminate].
Defined.
