(* ===== verification/Net.v ===== *)
(** * Net: one invariant of the whole process

    Every handler and every Lua function of Lport, Ltimer and Lae keeps the loops of the
    process as [AeInv.loops_ok] says: well-formed, in agreement with the polling layer, and
    with no handler but the C functions the program registers.  Hence so does the loop itself
    when it runs these handlers, whatever happens on the descriptors and the clock. *)
From S2P Require Import Prelude Mem Lua Sendbuf Recvbuf Ae AeSelect AeInv Proc Ltimer Lport Lae.
Local Open Scope Z_scope.

(** ** Hypotheses *)

(** System calls that change nothing of what the process watches. *)
Class OsQuiet (E : Type) {OS : Os E} := {
  quiet : relation E;
  quiet_preorder :: PreOrder quiet;
  quiet_malloc : forall e, quiet e (os_malloc e).2;
  quiet_socket : forall e, quiet e (os_socket e).2;
  quiet_reuseaddr : forall fd e, quiet e (os_reuseaddr fd e);
  quiet_bind : forall fd p e, quiet e (os_bind fd p e).2;
  quiet_listen : forall fd e, quiet e (os_listen fd e).2;
  quiet_accept : forall fd e, quiet e (os_accept fd e).2;
  quiet_connect : forall fd a p e, quiet e (os_connect fd a p e).2;
  quiet_nonblock : forall fd e, quiet e (os_nonblock fd e);
  quiet_send : forall fd d e, quiet e (os_send fd d e).2;
  quiet_recv : forall fd n e, quiet e (os_recv fd n e).2;
  quiet_shutdown_rd : forall fd e, quiet e (os_shutdown_rd fd e);
  quiet_close : forall fd e, quiet e (os_close fd e);
  quiet_getpeername : forall fd e, quiet e (os_getpeername fd e).2;
  quiet_gethostbyname : forall s e, quiet e (os_gethostbyname s e).2;
  quiet_pollfd : forall fd ev ms e, quiet e (os_pollfd fd ev ms e).2;
}.
Create HintDb net discriminated.
#[export] Hint Resolve quiet_malloc quiet_socket quiet_reuseaddr quiet_bind quiet_listen quiet_accept quiet_connect quiet_nonblock quiet_send
  quiet_recv quiet_shutdown_rd quiet_close quiet_getpeername quiet_gethostbyname quiet_pollfd : net.

(** What is registered depends on the loops and the system only. *)
Class NetRegistered (E D : Type) {OS : Os E} {QO : OsQuiet E} {API : AeApi (proc E D) D} {APIOk : AeApiOk (proc E D) D} : Prop := {
  registered_quiet : forall (g g' : proc E D) p fd, g_loops g' = g_loops g -> quiet (g_env g) (g_env g') -> registered g' p fd = registered g p fd;
}.

(** The C functions the program registers. *)
Definition known_file (f : Z) : Prop := f ∈ [FN_port_on_read; FN_port_on_write; FN_port_on_accept; FN_port_on_connect_suc; FN_port_on_connect_err; FN_file_proc].
Definition known_time (f : Z) : Prop := f ∈ [FN_timer_proc; FN_self_timer_proc; FN_time_proc].
Definition known_fin (f : Z) : Prop := f ∈ [FN_timer_finalizer_proc; FN_finalizer_proc].

Section Net.
Context {E D : Type} {OS : Os E} {QO : OsQuiet E} {F : LuaFmt} {SC : LuaScript (proc E D)}.
Context {API : AeApi (proc E D) D} {APIOk : AeApiOk (proc E D) D} {Fr : AeApiFrame (proc E D) D} {NR : NetRegistered E D} {A : Allocator}.
Implicit Types g : proc E D.

Definition net_ok g : Prop := loops_ok known_file known_time known_fin g.
Local Abbreviation net_keeps m := (returns (fun x => net_ok x.2) m).
Local Abbreviation net_keeps_ m := (returns net_ok m).

(** What the scripts called back do is discharged below, from the calls they make. *)
Hypothesis (script_keeps : forall f args g, net_ok g -> net_ok (pcall f args g).1).

Lemma net_ok_same g g' : g_loops g' = g_loops g -> quiet (g_env g) (g_env g') -> net_ok g -> net_ok g'.
Proof. intros Hl Hq. apply loops_ok_frame; [intros q; cbn; by rewrite Hl|intros q fd; by apply registered_quiet]. Qed.
Lemma net_sys {B} (f : E -> B * E) g : (forall e, quiet e (f e).2) -> net_ok g -> net_ok (sys f g).2.
Proof. intros Hf. apply net_ok_same; unfold sys; specialize (Hf (g_env g)); by destruct (f (g_env g)). Qed.
Lemma net_sys_ (f : E -> E) g : (forall e, quiet e (f e)) -> net_ok g -> net_ok (sys_ f g).
Proof. intros Hf. apply net_ok_same; [done|apply Hf]. Qed.
Lemma net_env g g' : g_loops g' = g_loops g -> g_env g' = g_env g -> net_ok g -> net_ok g'.
Proof. intros Hl He. apply net_ok_same; [done|by rewrite He]. Qed.

Lemma net_on_send {B} (f : Sendbuf.st -> res (B * Sendbuf.st)) g : net_ok g -> net_keeps (on_send f g).
Proof. intros H. unfold on_send. apply returns_bind. eapply returns_mono; [apply returns_true|]. intros [b s] _. by apply (net_env g). Qed.
Lemma net_on_recv {B} (f : Recvbuf.st -> res (B * Recvbuf.st)) g : net_ok g -> net_keeps (on_recv f g).
Proof. intros H. unfold on_recv. apply returns_bind. eapply returns_mono; [apply returns_true|]. intros [b s] _. by apply (net_env g). Qed.

Lemma net_malloc g : net_ok g -> net_ok (ae_malloc g).2.
Proof. apply loops_ok_malloc. Qed.
Lemma net_pcall f args g : net_ok g -> net_ok (pcall f args g).1.
Proof. apply script_keeps. Qed.
Lemma net_call_named name args g : net_ok g -> returns (fun x => net_ok x.1) (call_named name args g).
Proof.
  intros H. unfold call_named. apply returns_bind. eapply returns_mono; [apply returns_true|]. intros [b [|f stk]] _; [done|]. by apply net_pcall.
Qed.
Lemma net_call_lua name args g : net_ok g -> net_keeps_ (call_lua name args g).
Proof. intros H. unfold call_lua. apply returns_bind. eapply returns_mono; [by apply net_call_named|]. by intros [g' o]. Qed.

Lemma net_create p fd mask f cd g : net_ok g -> 0 <= fd -> 0 < mask <= 3 -> known_file f -> net_keeps (aeCreateFileEvent p fd mask f cd g).
Proof. intros. by apply keep_create_file_event. Qed.
Lemma net_create_read p fd f cd g : net_ok g -> 0 <= fd -> known_file f -> net_keeps (aeCreateFileEvent p fd AE_READABLE f cd g).
Proof. intros. apply net_create; [done|done|unfold AE_READABLE; lia|done]. Qed.
Lemma net_create_write p fd f cd g : net_ok g -> 0 <= fd -> known_file f -> net_keeps (aeCreateFileEvent p fd AE_WRITABLE f cd g).
Proof. intros. apply net_create; [done|done|unfold AE_WRITABLE; lia|done]. Qed.
Lemma net_delete_read p fd g : net_ok g -> net_keeps_ (aeDeleteFileEvent p fd AE_READABLE g).
Proof. intros. apply keep_delete_file_event; [done|unfold AE_READABLE; lia]. Qed.
Lemma net_delete_write p fd g : net_ok g -> net_keeps_ (aeDeleteFileEvent p fd AE_WRITABLE g).
Proof. intros. apply keep_delete_file_event; [done|unfold AE_WRITABLE; lia]. Qed.
Lemma net_create_time p ms f cd fin g : net_ok g -> known_time f -> fin = 0 \/ known_fin fin -> net_keeps (aeCreateTimeEvent p ms f cd fin g).
Proof. intros. by apply keep_create_time_event. Qed.
Lemma net_put_sock g fd v : net_ok g -> net_ok (put_sock g fd v).
Proof. by apply net_env. Qed.
Lemma net_set_port g v : net_ok g -> net_ok (set_port g v).
Proof. by apply net_env. Qed.
Lemma net_set_timer g v : net_ok g -> net_ok (set_timer g v).
Proof. by apply net_env. Qed.
Lemma net_set_ae g v : net_ok g -> net_ok (set_ae g v).
Proof. by apply net_env. Qed.
Lemma net_set_recv g v : net_ok g -> net_ok (set_recv g v).
Proof. by apply net_env. Qed.

Hint Resolve net_on_send net_on_recv net_call_named net_call_lua net_create_read net_create_write net_delete_read net_delete_write
  net_create_time net_put_sock net_set_port net_set_timer net_set_ae net_set_recv net_sys_ : net.
Hint Extern 1 (known_file _) => unfold known_file; set_solver : net.
Hint Extern 1 (known_time _) => unfold known_time; set_solver : net.
Hint Extern 1 (_ = 0 \/ known_fin _) => first [by left | right; unfold known_fin; set_solver] : net.
(** A descriptor that passed the range test, or that sock_create took. *)
Ltac net_pos :=
  match goal with
  | H : bad_fd ?fd = false |- 0 <= ?fd => unfold bad_fd in H; apply orb_false_iff in H as [H%Z.leb_gt _]; lia
  | H : ?r = OK -> 0 < ?fd, E : negb (?r =? 0) = false |- 0 <= ?fd => apply negb_false_iff, Z.eqb_eq in E; specialize (H E); lia
  | H : get_file ?fd _ = Ret _ |- 0 <= ?fd => unfold get_file in H; destruct (Z.leb_spec 0 fd); [done|discriminate H]
  end.
Hint Extern 1 (0 <= _) => net_pos : net.

(** [net_go] follows a call through its system calls, its script calls and its calls of other
    functions, and keeps the invariant of the state at hand. *)
Ltac net_intro :=
  let x := fresh "x" in let H := fresh "Hnet" in intros x H;
  repeat match goal with y : (_ * _)%type |- _ => destruct y end; cbn [fst snd] in H; try (match type of H with _ /\ _ => let H2 := fresh "Hfd" in destruct H as [H H2] end); cbv beta iota zeta.
Ltac net_step :=
  match goal with
  | |- returns _ Undef => exact I
  | |- returns _ Raise => exact I
  | |- returns _ NoFuel => exact I
  | |- returns _ (Ret _) => cbn [returns fst snd]; cbv beta iota zeta
  | |- returns _ (_ ≫= _) => apply returns_bind
  | |- context [sys ?f ?g] =>
      let H' := fresh "Hnet" in pose proof (net_sys f g ltac:(intros; eauto with net) ltac:(solve [eauto 6 with net])) as H'; destruct (sys f g); cbn [fst snd] in H'; cbv beta iota zeta
  | |- context [@ae_malloc ?W ?D' ?AW ?g] =>
      let H' := fresh "Hnet" in pose proof (net_malloc g ltac:(solve [eauto 6 with net])) as H'; destruct (@ae_malloc W D' AW g); cbn [fst snd] in H'; cbv beta iota zeta
  | |- context [pcall ?f ?args ?g] =>
      let H' := fresh "Hnet" in pose proof (net_pcall f args g ltac:(solve [eauto 6 with net])) as H'; destruct (pcall f args g); cbn [fst snd] in H'; cbv beta iota zeta
  | |- returns _ (match ?x with _ => _ end) => destruct x eqn:?; cbv beta iota zeta
  | |- returns _ _ => eapply returns_mono; [solve [eauto 4 with net]|net_intro]
  | |- returns _ _ => eapply returns_mono; [apply returns_eq|net_intro]
  | |- net_ok _ => solve [eauto 6 with net]
  end.
Ltac net_go := cbv beta iota zeta; repeat net_step.

(** *** Sockets *)

Lemma bad_fd_false fd : bad_fd fd = false -> 0 < fd.
Proof. unfold bad_fd. intros [H%Z.leb_gt _]%orb_false_iff. lia. Qed.

Lemma net_sock_create port fd g : net_ok g -> returns (fun x => net_ok x.2 /\ (x.1 = OK -> 0 < fd)) (sock_create port fd g).
Proof.
  intros H. unfold sock_create. destruct (bad_fd fd) eqn:Eb; [done|]. apply bad_fd_false in Eb.
  apply (returns_mono (fun x => net_ok x.2)); [|done]. net_go.
Qed.
Lemma net_sock_free fd g : net_ok g -> net_keeps (sock_free fd g).
Proof. intros H. unfold sock_free. net_go. Qed.
Hint Resolve net_sock_free : net.
Lemma net_real_close fd reason g : net_ok g -> net_keeps (real_close fd reason g).
Proof. intros H. unfold real_close. net_go. Qed.
Hint Resolve net_real_close : net.

Hint Resolve net_sock_create : net.

Lemma mask_of_range (e : aeEventLoop D) fd : loop_ok e -> 0 <= mask_of e fd <= 3.
Proof.
  intros Hok. unfold mask_of. destruct (0 <=? fd); [|lia]. destruct (events e !! Z.to_nat fd) as [fe|] eqn:Hfe; [|lia].
  exact (Forall_lookup_1 _ _ _ _ (ok_mask _ Hok) Hfe).
Qed.
(** Closing removes both events: the descriptor is not watched any more. *)
Lemma delete_both p fd g g1 g2 e : net_ok g -> 0 < fd -> g_loops g !! p = Some e ->
  aeDeleteFileEvent p fd AE_READABLE g = Ret g1 -> aeDeleteFileEvent p fd AE_WRITABLE g1 = Ret g2 ->
  (forall q, q <> p -> g_loops g2 !! q = g_loops g !! q) /\
  exists e', g_loops g2 !! p = Some e' /\ mask_of e' fd = 0 /\ unwatched e e' fd 3.
Proof.
  intros H Hfd He E1 E2. unfold AE_READABLE, AE_WRITABLE in *.
  destruct (delete_file_event_ok g p e fd 1 g1) as (Hs1 & Hq1 & e1 & He1 & _ & Hm1 & _ & Hu1); [by eapply loops_ok_synced|done|lia|lia|done|].
  destruct (delete_file_event_ok g1 p e1 fd 2 g2) as (Hs2 & Hq2 & e2 & He2 & _ & Hm2 & _ & Hu2); [done|done|lia|lia|done|].
  split; [intros q Hne; transitivity (g_loops g1 !! q); [exact (Hq2 q Hne)|exact (Hq1 q Hne)]|].
  exists e2. split_and!; [done| |exact (unwatched_trans e e1 e2 fd 1 2 Hu1 Hu2)].
  rewrite Hm2, Hm1. assert (Hr : 0 <= mask_of e fd <= 3) by (apply mask_of_range; by destruct (H p e He)).
  assert (mask_of e fd = 0 \/ mask_of e fd = 1 \/ mask_of e fd = 2 \/ mask_of e fd = 3) as [->|[->|[->| ->]]] by lia; done.
Qed.

Lemma sock_free_clears fd g r g' : bad_fd fd = false -> sock_free fd g = Ret (r, g') ->
  s_socks (g_port g') !! fd = Some zero_sock /\ g_loops g' = g_loops g.
Proof.
  intros Hfd HR. unfold sock_free in HR. rewrite Hfd in HR. unfold on_recv, on_send, recvbuf_free in HR. cbv zeta in HR.
  apply bind_Ret_inv in HR as (v & Hv & HR). injection Hv as <-. apply bind_Ret_inv in HR as ([b g2] & HB & HR). injection HR as _ <-.
  apply bind_Ret_inv in HB as ([c s] & _ & HB). injection HB as _ <-. split; [|done]. apply lookup_insert_eq.
Qed.
(** What real_close does of the script: the handler of the port, if it has one, called with
    the descriptor, the address of the peer and the reason. *)
Definition close_handler (fd : Z) (reason : bytes) (pt : Port) (g : proc E D) : res (proc E D) :=
  match lua_on_close pt with
  | [] => Ret g
  | _ =>
      let '((addr, pnum), g) := sys (os_getpeername fd) g in
      call_lua (lua_on_close pt)
        [lua_pushinteger fd; lua_pushstring (os_inet_ntoa addr); lua_pushinteger pnum; lua_pushstring reason] g
  end.

Lemma real_close_removes fd reason g r g' : net_ok g -> bad_fd fd = false -> real_close fd reason g = Ret (r, g') ->
  r = 0 /\ s_socks (g_port g') !! fd = Some zero_sock /\ net_ok g' /\
  exists sock pt0 g1 pt e e', fd2sock g fd = Ret sock /\ get_port g (sock_port sock) = Ret pt0 /\
    close_handler fd reason pt0 g = Ret g1 /\ get_port g1 (sock_port sock) = Ret pt /\
    g_loops g1 !! port_loop pt = Some e /\ g_loops g' !! port_loop pt = Some e' /\
    mask_of e' fd = 0 /\ (fd < setsize e' -> registered g' (port_loop pt) fd = 0) /\ unwatched e e' fd 3 /\
    forall q, q <> port_loop pt -> g_loops g' !! q = g_loops g1 !! q.
Proof.
  intros H Hfd HR. pose proof (net_real_close fd reason g H) as HK. rewrite HR in HK. pose proof (bad_fd_false fd Hfd) as Hpos.
  unfold real_close in HR. rewrite Hfd in HR. apply bind_Ret_inv in HR as (sock & Hs & HR). apply bind_Ret_inv in HR as (pt0 & Hp0 & HR).
  apply bind_Ret_inv in HR as (g1 & Hc & HR).
  assert (H1 : net_ok g1) by (change (returns net_ok (Ret g1)); rewrite <- Hc; net_go).
  apply bind_Ret_inv in HR as (pt & Hp & HR). apply bind_Ret_inv in HR as (g2 & E2 & HR). apply bind_Ret_inv in HR as (g3 & E3 & HR).
  cbv zeta in HR. apply bind_Ret_inv in HR as ([r4 g4] & E4 & HR). injection HR as <- <-.
  destruct (sock_free_clears _ _ _ _ Hfd E4) as [Hz Hl]. split_and!; [done|done|done|].
  assert (He : exists e, g_loops g1 !! port_loop pt = Some e).
  { unfold aeDeleteFileEvent in E2. apply bind_Ret_inv in E2 as (e & He%of_option_Ret & _). by exists e. }
  destruct He as [e He]. destruct (delete_both _ _ _ _ _ e H1 Hpos He E2 E3) as (Hq & e' & He' & Hm & Hu).
  assert (Hl' : g_loops g4 = g_loops g3) by exact Hl. rewrite <- Hl' in He'.
  exists sock, pt0, g1, pt, e, e'. split_and!; try done.
  - intros Hb. destruct (HK (port_loop pt) e' He') as (_ & _ & Hr). cbn [snd] in Hr. by rewrite Hr by lia.
  - intros q Hne. rewrite Hl'. by apply Hq.
Qed.

(** *** The handlers of Lport *)

Lemma net_port_on_read loop fd args ev g : net_ok g -> net_keeps_ (port_on_read loop fd args ev g).
Proof. intros H. unfold port_on_read. net_go. Qed.
Lemma net_write_loop fuel fd : forall g, net_ok g -> net_keeps_ (write_loop fuel fd g).
Proof. induction fuel as [|fuel IH]; intros g H; cbn [write_loop]; net_go. Qed.
Hint Resolve net_write_loop : net.
Lemma net_port_on_write fuel loop fd args ev g : net_ok g -> net_keeps_ (port_on_write fuel loop fd args ev g).
Proof. intros H. unfold port_on_write. net_go. Qed.
Lemma net_port_on_accept loop fd args ev g : net_ok g -> net_keeps_ (port_on_accept loop fd args ev g).
Proof. intros H. unfold port_on_accept, setnonblock. net_go. Qed.
Lemma net_port_on_connect_suc loop fd args ev g : 0 <= fd -> net_ok g -> net_keeps_ (port_on_connect_suc loop fd args ev g).
Proof. intros Hfd H. unfold port_on_connect_suc. net_go. Qed.
Lemma net_port_on_connect_err loop fd args ev g : net_ok g -> net_keeps_ (port_on_connect_err loop fd args ev g).
Proof. intros H. unfold port_on_connect_err. net_go. Qed.

(** *** The handlers of Ltimer and Lae *)

Lemma net_add_counter n g : net_ok g -> net_keeps_ (add_counter n g).
Proof. intros H. unfold add_counter, set_counter. net_go. Qed.
Lemma net_note_call g : net_ok g -> net_keeps_ (note_call g).
Proof. intros H. unfold note_call. net_go. Qed.
Lemma net_note_msec n g : net_ok g -> net_ok (note_msec n g).
Proof. intros H. unfold note_msec. destruct (_ <? _); eauto with net. Qed.
Lemma net_set_timers g m : net_ok g -> net_ok (set_timers g m).
Proof. by apply net_env. Qed.
Lemma net_set_time_data m g : net_ok g -> net_ok (set_time_data m g).
Proof. by apply net_env. Qed.
Lemma net_put_file i f g : net_ok g -> net_ok (put_file i f g).
Proof. by apply net_env. Qed.
Hint Resolve net_add_counter net_note_call net_note_msec net_set_timers net_set_time_data net_put_file : net.

Lemma net_timer_proc loop id cd g : net_ok g -> net_keeps (timer_proc loop id cd g).
Proof. intros H. unfold timer_proc. net_go. Qed.
Lemma net_self_timer_proc loop id cd g : net_ok g -> net_keeps (self_timer_proc loop id cd g).
Proof. intros H. unfold self_timer_proc. net_go. Qed.
Lemma net_timer_finalizer_proc loop cd g : net_ok g -> net_keeps_ (timer_finalizer_proc loop cd g).
Proof. intros H. unfold timer_finalizer_proc. net_go. Qed.
Lemma net_file_proc loop fd cd mask g : net_ok g -> net_keeps_ (file_proc loop fd cd mask g).
Proof. intros H. unfold file_proc. net_go. Qed.
Lemma net_time_proc loop id cd g : net_ok g -> net_keeps (time_proc loop id cd g).
Proof. intros H. unfold time_proc. net_go. Qed.
Lemma net_finalizer_proc loop cd g : net_ok g -> net_keeps_ (finalizer_proc loop cd g).
Proof. intros H. unfold finalizer_proc. net_go. Qed.

(** *** The linked handlers *)

Section Linked.
Variable wfuel : nat.

Lemma linked_file f p fd cd mask g : known_file f -> 0 <= fd -> net_ok g -> net_keeps_ (link_file_proc wfuel f p fd cd mask g).
Proof.
  intros _ Hfd H. unfold link_file_proc. repeat (destruct (_ =? _); [auto using net_port_on_read, net_port_on_write, net_port_on_accept, net_port_on_connect_suc, net_port_on_connect_err, net_file_proc|]).
  done.
Qed.
Lemma linked_time f p id cd g : known_time f -> net_ok g -> net_keeps (link_time_proc f p id cd g).
Proof.
  intros _ H. unfold link_time_proc. repeat (destruct (_ =? _); [auto using net_timer_proc, net_self_timer_proc, net_time_proc|]). done.
Qed.
Lemma linked_fin f p cd g : known_fin f -> net_ok g -> net_keeps_ (link_finalizer f p cd g).
Proof.
  intros _ H. unfold link_finalizer. repeat (destruct (_ =? _); [auto using net_timer_finalizer_proc, net_finalizer_proc|]). done.
Qed.

(** *** The functions of the modules *)

Local Instance linked_procs : AeProcs (proc E D) := Linked wfuel.
Definition fn_keeps (f : list lval -> proc E D -> res (list lval * proc E D)) : Prop := forall L g, net_ok g -> net_keeps (f L g).

Lemma net_set_name n upd : fn_keeps (set_name n upd).
Proof. intros L g H. unfold set_name, put_port. net_go. Qed.
Lemma net_host_addr ip g : net_ok g -> net_keeps (host_addr ip g).
Proof. intros H. unfold host_addr. net_go. Qed.
Hint Resolve net_host_addr : net.

Lemma net_port_lib : Forall (fun nf => fn_keeps nf.2) Lport.lua_lib.
Proof.
  unfold Lport.lua_lib. repeat (apply List.Forall_cons; cbn [snd]); try apply List.Forall_nil; try apply net_set_name; intros L g H.
  - unfold Lport.lcreate, put_port. net_go.
  - unfold Lport.lfree. net_go.
  - unfold llisten. net_go.
  - unfold Lport.lconnect, setnonblock. net_go.
  - unfold lsyncconnect, setnonblock. net_go.
  - unfold Lport.lclose. net_go.
  - unfold lshutdown. net_go.
  - unfold lgetpeerport. net_go.
  - unfold lgetpeerip. net_go.
  - unfold lsetuid. net_go.
  - unfold lsetuserdata. net_go.
  - unfold lgetuserdata. net_go.
  - unfold lremove_write_event. net_go.
  - unfold ladd_write_event. net_go.
  - unfold lrecv. net_go.
  - unfold Lport.lsend. net_go.
Qed.

Local Instance linked_keep : AeProcsKeep (W := proc E D) (D := D) known_file known_time known_fin.
Proof. split; [exact linked_file|exact linked_time|exact linked_fin|done]. Qed.

Lemma net_delete_time p id g : net_ok g -> net_keeps (aeDeleteTimeEvent p id g).
Proof. exact (keep_delete_time_event _ _ _ g p id). Qed.
Hint Resolve net_delete_time : net.

Lemma net_timer_lib : Forall (fun nf => fn_keeps nf.2) Ltimer.lua_lib.
Proof.
  unfold Ltimer.lua_lib. repeat (apply List.Forall_cons; cbn [snd]); try apply List.Forall_nil; intros L g H.
  - unfold laddtimer. net_go.
  - unfold laddselftimer. net_go.
  - unfold lstopselftimer. net_go.
  - unfold lsetselftimerloop. net_go.
Qed.

(** One turn of the loop, and the main loop, with the program's own handlers. *)
Lemma net_process_events fuel p flags g : net_ok g -> net_keeps (aeProcessEvents fuel p flags g).
Proof. exact (keep_process_events _ _ _ fuel g p flags). Qed.
Lemma net_once fuel p g : net_ok g -> net_keeps_ (aeOnce fuel p g).
Proof. exact (keep_once _ _ _ fuel g p). Qed.
Lemma net_main n fuel p g : net_ok g -> net_keeps_ (aeMain n fuel p g).
Proof. exact (keep_main _ _ _ n fuel g p). Qed.
Lemma net_stop p g : net_ok g -> net_keeps_ (aeStop p g).
Proof. apply keep_stop. Qed.
Lemma net_delete_loop p g : net_ok g -> net_keeps_ (aeDeleteEventLoop p g).
Proof. apply keep_delete_loop. Qed.
Lemma net_delete_mask p fd mask g : 0 < mask <= 3 -> net_ok g -> net_keeps_ (aeDeleteFileEvent p fd mask g).
Proof. intros. by apply keep_delete_file_event. Qed.
Hint Resolve net_process_events net_once net_main net_stop net_delete_loop net_delete_mask net_create : net.

(** The functions of lae.cc.  A mask is a combination of the two flags, and the size of a new
    loop is not negative: the code checks neither. *)
Definition lae_lib : list (list lval -> proc E D -> res (list lval * proc E D)) :=
  [lget_api_name; lwait; lget_file_events; ldelete_time_event; lcreate_time_event; lmain_loop; Lae.lfree; lstop].
Definition mask_arg (L : list lval) : Prop := 0 < i32 (lua_tointeger L 3) <= 3.

Lemma net_wait fd mask ms g : net_ok g -> net_ok (aeWait fd mask ms g).2.
Proof.
  intros H. unfold aeWait. cbn [os_poll ProcWorld]. match goal with |- context [sys ?f g] => pose proof (net_sys f g ltac:(intros; eauto with net) H) as H1; destruct (sys f g) as [[r ev] g1] end.
  by destruct (r =? 1).
Qed.

Lemma net_lae_lib : Forall fn_keeps lae_lib.
Proof.
  unfold lae_lib. repeat (apply List.Forall_cons); try apply List.Forall_nil; intros L g H.
  - unfold lget_api_name. net_go.
  - unfold lwait. cbv zeta. pose proof (net_wait (i32 (lua_tointeger L 1)) (i32 (lua_tointeger L 2)) (d2i64 (lua_tonumber L 3)) g H) as H1.
    by destruct (aeWait _ _ _ g).
  - unfold lget_file_events. net_go.
  - unfold ldelete_time_event. net_go.
  - unfold lcreate_time_event. net_go.
  - unfold lmain_loop. net_go.
  - unfold Lae.lfree. net_go.
  - unfold lstop. net_go.
Qed.
Lemma net_lcreate_file_event L g : mask_arg L -> net_ok g -> net_keeps (lcreate_file_event L g).
Proof. intros HL H. unfold lcreate_file_event, mask_arg in *. net_go. Qed.
Lemma net_ldelete_file_event L g : mask_arg L -> net_ok g -> net_keeps (ldelete_file_event L g).
Proof. intros HL H. unfold ldelete_file_event, mask_arg in *. net_go. Qed.
Lemma net_lcreate L g : 0 <= i32 (lua_tointeger L 1) -> net_ok g -> net_keeps (Lae.lcreate L g).
Proof.
  intros HL H. unfold Lae.lcreate. pose proof (keep_create_loop known_file known_time known_fin g _ H HL) as H1.
  destruct (aeCreateEventLoop _ g) as [o g1]. cbn [snd] in H1. net_go. destruct (_ =? 0); eauto with net.
Qed.

(** What a script can do, from the outermost level: call the functions of the three modules,
    run the loop, and anything that touches neither loops nor registrations. *)
Inductive net_call : relation (proc E D) :=
| call_port nf L r g g' : nf ∈ Lport.lua_lib -> nf.2 L g = Ret (r, g') -> net_call g g'
| call_timer nf L r g g' : nf ∈ Ltimer.lua_lib -> nf.2 L g = Ret (r, g') -> net_call g g'
| call_lae f L r g g' : f ∈ lae_lib -> f L g = Ret (r, g') -> net_call g g'
| call_create_file L r g g' : mask_arg L -> lcreate_file_event L g = Ret (r, g') -> net_call g g'
| call_delete_file L r g g' : mask_arg L -> ldelete_file_event L g = Ret (r, g') -> net_call g g'
| call_create L r g g' : 0 <= i32 (lua_tointeger L 1) -> Lae.lcreate L g = Ret (r, g') -> net_call g g'
| call_events fuel L r g g' : lprocess_events fuel L g = Ret (r, g') -> net_call g g'
| call_once fuel L r g g' : lrun_once fuel L g = Ret (r, g') -> net_call g g'
| call_main n fuel L r g g' : lmain n fuel L g = Ret (r, g') -> net_call g g'
| call_other g g' : g_loops g' = g_loops g -> quiet (g_env g) (g_env g') -> net_call g g'.

Lemma fn_keeps_Ret f L g r g' : fn_keeps f -> net_ok g -> f L g = Ret (r, g') -> net_ok g'.
Proof. intros Hf H HR. pose proof (Hf L g H) as HK. by rewrite HR in HK. Qed.

Lemma net_call_ok g g' : net_call g g' -> net_ok g -> net_ok g'.
Proof.
  intros HC H. destruct HC as [nf L r g g' Hf HR|nf L r g g' Hf HR|f L r g g' Hf HR|L r g g' HL HR|L r g g' HL HR|L r g g' HL HR|fuel L r g g' HR|fuel L r g g' HR|n fuel L r g g' HR|g g' Hl Hq].
  - eapply fn_keeps_Ret; [|exact H|exact HR]. by apply (proj1 (Forall_forall _ _) net_port_lib).
  - eapply fn_keeps_Ret; [|exact H|exact HR]. by apply (proj1 (Forall_forall _ _) net_timer_lib).
  - eapply fn_keeps_Ret; [|exact H|exact HR]. by apply (proj1 (Forall_forall _ _) net_lae_lib).
  - pose proof (net_lcreate_file_event L g HL H) as HK. by rewrite HR in HK.
  - pose proof (net_ldelete_file_event L g HL H) as HK. by rewrite HR in HK.
  - pose proof (net_lcreate L g HL H) as HK. by rewrite HR in HK.
  - assert (HK : net_keeps (lprocess_events fuel L g)) by (unfold lprocess_events; net_go). by rewrite HR in HK.
  - assert (HK : net_keeps (lrun_once fuel L g)) by (unfold lrun_once; net_go). by rewrite HR in HK.
  - assert (HK : net_keeps (lmain n fuel L g)) by (unfold lmain; net_go). by rewrite HR in HK.
  - by apply (net_ok_same g).
Qed.
Lemma net_calls_ok g g' : rtc net_call g g' -> net_ok g -> net_ok g'.
Proof. induction 1 as [|g g1 g2 H1 _ IH]; [done|]. intros H. apply IH. by eapply net_call_ok. Qed.
End Linked.
End Net.

(** What scripts do when they are called back.  Lua bounds the depth of nested C calls and
    refuses the next one with an error: [scr n] are the scripts as they run when [n] more may
    be nested.  A call at depth [S n] acts on the loops by calling the functions of the
    modules, which call scripts back at depth [n]. *)
Definition nested_calls {E D} {OS : Os E} {QO : OsQuiet E} {F : LuaFmt} {API : AeApi (proc E D) D} {A : Allocator} (wfuel : nat)
    (scr : nat -> LuaScript (proc E D)) : Prop :=
  (forall f args g, (@pcall _ (scr 0%nat) f args g).1 = g) /\
  (forall n f args g, rtc (net_call (SC := scr n) wfuel) g (@pcall _ (scr (S n)) f args g).1).
Lemma scripts_keep {E D} {OS : Os E} {QO : OsQuiet E} {F : LuaFmt} {API : AeApi (proc E D) D} {APIOk : AeApiOk (proc E D) D}
    {Fr : AeApiFrame (proc E D) D} {NR : NetRegistered E D} {A : Allocator} wfuel (scr : nat -> LuaScript (proc E D)) n :
  nested_calls wfuel scr -> forall f args (g : proc E D), net_ok g -> net_ok (@pcall _ (scr n) f args g).1.
Proof.
  intros [H0 HS]. induction n as [|n IH]; intros f args g H; [by rewrite H0|].
  exact (net_calls_ok (SC := scr n) IH wfuel g _ (HS n f args g) H).
Qed.

(** C4. The whole process, from a start without loops, over a polling layer that keeps its
    registrations when a descriptor is closed: whatever sequence of calls a script makes,
    with all the handlers that the loops run in between and the scripts these call back,
    nested to any depth, every loop stays well-formed (maxfd is exact, masks are masks,
    timer ids are distinct), agrees with its polling layer about every descriptor, and every
    watched descriptor and pending timer has one of the C functions of the program as its
    handler.  The calls are those of Port, Timer and Ae with any arguments, but for two
    that the code takes unchecked: the mask given to Ae.create_file_event and
    delete_file_event is 1 to 3, and the size given to Ae.create is not negative.  With
    other values maxfd and the registrations can be wrong.  That close changes no
    registration is so for select, the layer the makefile builds; the kernel's epoll
    forgets a closed descriptor, and a failed connect, which closes without deleting the
    events (failed_connect_watched), then leaves the loop and epoll apart. *)
Theorem process_loops_ok {E D} {OS : Os E} {QO : OsQuiet E} {F : LuaFmt} {API : AeApi (proc E D) D}
    {APIOk : AeApiOk (proc E D) D} {Fr : AeApiFrame (proc E D) D} {NR : NetRegistered E D} {A : Allocator} wfuel scr n (g g' : proc E D) p e :
  nested_calls wfuel scr ->
  g_loops g = ∅ -> rtc (net_call (SC := scr n) wfuel) g g' -> g_loops g' !! p = Some e ->
  loop_ok e /\ (forall fd, 0 <= fd < setsize e -> registered g' p fd = mask_of e fd) /\
  (forall fd fe, events e !! fd = Some fe ->
     (has (fe_mask fe) AE_READABLE = true -> known_file (rfileProc fe)) /\ (has (fe_mask fe) AE_WRITABLE = true -> known_file (wfileProc fe))) /\
  (forall te, te ∈ timeEvents e -> known_time (timeProc te) /\ (finalizerProc te = 0 \/ known_fin (finalizerProc te))).
Proof.
  intros Hs H0 HC He. assert (H : net_ok g').
  { apply (net_calls_ok (SC := scr n) (scripts_keep wfuel scr n Hs) wfuel g g' HC). intros q e0. cbn. by rewrite H0. }
  destruct (H p e He) as (H1 & (H2 & H3 & _) & H4). split_and!; [done|done| |].
  - intros fd fe Hfe. exact (Forall_lookup_1 _ _ _ _ H2 Hfe).
  - intros te Hte. exact (proj1 (Forall_forall _ _) H3 te Hte).
Qed.

(** C5. real_close of a descriptor in range, in a process whose loops are right: the script's
    close handler is called first, with the descriptor, the peer's address and the reason, and
    may do anything a script can; from the state it leaves, the socket's entry is cleared and
    the loop of its port and the polling layer do not watch the descriptor any more.  Of that
    loop nothing else changes: the handlers of the descriptor's entry, the entries of all
    other descriptors, the time events and the flags are those the handler left, and so is
    every other loop; and all the loops are right again.  As in the invariant of the whole
    process, the polling layer keeps its registrations when a descriptor is closed. *)
Theorem real_close_clean {E D} {OS : Os E} {QO : OsQuiet E} {F : LuaFmt} {API : AeApi (proc E D) D}
    {APIOk : AeApiOk (proc E D) D} {Fr : AeApiFrame (proc E D) D} {NR : NetRegistered E D} {A : Allocator} wfuel scr n fd reason (g : proc E D) r g' :
  nested_calls wfuel scr -> net_ok g -> bad_fd fd = false -> real_close (SC := scr n) fd reason g = Ret (r, g') ->
  r = 0 /\ s_socks (g_port g') !! fd = Some zero_sock /\ net_ok g' /\
  exists sock pt0 g1 pt e e', fd2sock g fd = Ret sock /\ get_port g (sock_port sock) = Ret pt0 /\
    close_handler (SC := scr n) fd reason pt0 g = Ret g1 /\ get_port g1 (sock_port sock) = Ret pt /\
    g_loops g1 !! port_loop pt = Some e /\ g_loops g' !! port_loop pt = Some e' /\
    mask_of e' fd = 0 /\ (fd < setsize e' -> registered g' (port_loop pt) fd = 0) /\ unwatched e e' fd 3 /\
    forall q, q <> port_loop pt -> g_loops g' !! q = g_loops g1 !! q.
Proof. intros Hs. exact (real_close_removes (SC := scr n) (scripts_keep wfuel scr n Hs) fd reason g r g'). Qed.

(** ** A process with select *)

#[export] Instance ExQuiet : @OsQuiet env ExOs.
Proof. by refine {| quiet := fun _ _ => True |}. Defined.
(** No descriptor is ever ready. *)
#[export] Instance ExNetSelect : SelectOs (proc env aeApiState) := {| select := fun _ _ _ _ g => ((0, ∅, ∅), g) |}.
#[export] Instance ExNetSelectOk : SelectOsOk (proc env aeApiState).
Proof. done. Qed.
#[export] Instance ExNetRegistered : NetRegistered env aeApiState.
Proof. split. intros g g' p fd Hl _. cbn. by rewrite Hl. Qed.

#[local] Existing Instances NoFmt ExScript Bump.
Definition ex_start : proc env aeApiState := ex_proc ∅ (PortSt ∅ ∅) (TimerSt None 0 0 0 ∅) (Heap ∅ ∅).
Definition ret_state {B W} (d : W) (m : res (B * W)) : W := match m with Ret (_, g) => g | _ => d end.
(** Ae.create(16), Port.create(loop), Port.connect(port, host, 80), which fails; Ae.run_once. *)
Definition ex_net1 := ret_state ex_start (Lae.lcreate (F := NoFmt) [lua_pushinteger 16] ex_start).
Definition ex_net2 := ret_state ex_start (Lport.lcreate [LLight 4096] ex_net1).
Definition ex_net3 := ret_state ex_start (Lport.lconnect (F := NoFmt) (A := Bump) [LLight 8192; LStr [104]; lua_pushinteger 80] ex_net2).
Definition ex_net4 := ret_state ex_start (lrun_once (AP := Linked (F := NoFmt) (SC := ExScript) (A := Bump) 9) 5 [LLight 4096] ex_net3).

Definition returned {B W} (m : res (B * W)) : bool := match m with Ret _ => true | _ => false end.
Lemma returned_state {B W} (d : W) (m : res (B * W)) : returned m = true -> exists r, m = Ret (r, ret_state d m).
Proof. destruct m as [[r g]| | |]; try done. by exists r. Qed.

(** One step of the example, found by running the call. *)
Ltac net_step r Hr := match goal with |- net_call _ _ (ret_state ?d ?m) =>
  destruct (returned_state d m) as [r Hr]; [by vm_compute|] end.

Lemma ex_net2_calls : rtc (net_call (SC := ExScript) (A := Bump) (F := NoFmt) 9) ex_start ex_net2.
Proof.
  apply (rtc_l _ _ ex_net1). { unfold ex_net1. net_step r Hr. exact (@call_create env aeApiState ExOs ExQuiet NoFmt ExScript SelectApi Bump 9 [lua_pushinteger 16] r _ _ ltac:(by vm_compute) Hr). }
  apply rtc_once. unfold ex_net2. net_step r Hr.
  exact (@call_port env aeApiState ExOs ExQuiet NoFmt ExScript SelectApi Bump 9 ("create"%string, Lport.lcreate) [LLight 4096] r _ _ (list_elem_of_lookup_2 Lport.lua_lib 0 _ eq_refl) Hr).
Qed.
Lemma process_loops_ok_witness : exists e, g_loops ex_net4 !! 4096 = Some e /\ mask_of e 7 = 3 /\
  (loop_ok e /\ (forall fd, 0 <= fd < setsize e -> registered ex_net4 4096 fd = mask_of e fd) /\
   (forall fd fe, events e !! fd = Some fe ->
     (has (fe_mask fe) AE_READABLE = true -> known_file (rfileProc fe)) /\ (has (fe_mask fe) AE_WRITABLE = true -> known_file (wfileProc fe))) /\
   (forall te, te ∈ timeEvents e -> known_time (timeProc te) /\ (finalizerProc te = 0 \/ known_fin (finalizerProc te)))).
Proof.
  eexists. split; [vm_compute; reflexivity|]. split; [by vm_compute|].
  apply (@process_loops_ok env aeApiState ExOs ExQuiet NoFmt SelectApi SelectApi_ok SelectApi_frame ExNetRegistered Bump 9 (fun _ => ExScript) 3 ex_start ex_net4 4096);
    [split; [done|intros; apply rtc_refl]|done| |vm_compute; reflexivity].
  transitivity ex_net2; [exact ex_net2_calls|].
  apply (rtc_l _ _ ex_net3). { unfold ex_net3. net_step r Hr.
    exact (@call_port env aeApiState ExOs ExQuiet NoFmt ExScript SelectApi Bump 9 ("connect"%string, Lport.lconnect) [LLight 8192; LStr [104]; lua_pushinteger 80] r _ _ (list_elem_of_lookup_2 Lport.lua_lib 3 _ eq_refl) Hr). }
  apply rtc_once. unfold ex_net4. net_step r Hr.
  exact (@call_once env aeApiState ExOs ExQuiet NoFmt ExScript SelectApi Bump 9 5 [LLight 4096] r _ _ Hr).
Defined.

(** A connect that fails at once closes the socket and forgets it, but its events stay: the loop
    goes on watching a descriptor that is closed. *)
Example failed_connect_watched :
  match Lport.lconnect (F := NoFmt) (A := Bump) [LLight 8192; LStr [104]; lua_pushinteger 80] ex_net2 with
  | Ret (r, g) => r = [] /\ env_closed (g_env g) = [7] /\ s_socks (g_port g) !! 7 = Some zero_sock /\
      option_map (fun e => mask_of e 7) (g_loops g !! 4096) = Some 3
  | _ => False
  end.
Proof. by vm_compute. Qed.

(** A listening socket, and the process after it was closed. *)
Definition ex_listen := ret_state ex_start (Lport.llisten (F := NoFmt) (A := Bump) [LLight 8192; lua_pushinteger 80] ex_net2).
Definition ex_closed := ret_state ex_start (real_close 7 [] ex_listen).
Lemma ex_listen_calls : rtc (net_call (SC := ExScript) (A := Bump) (F := NoFmt) 9) ex_start ex_listen.
Proof.
  transitivity ex_net2; [exact ex_net2_calls|].
  apply rtc_once. unfold ex_listen. net_step r Hr.
  exact (@call_port env aeApiState ExOs ExQuiet NoFmt ExScript SelectApi Bump 9 ("listen"%string, Lport.llisten) [LLight 8192; lua_pushinteger 80] r _ _ (list_elem_of_lookup_2 Lport.lua_lib 2 _ eq_refl) Hr).
Qed.
Lemma ex_nested : nested_calls (A := Bump) (F := NoFmt) 9 (fun _ : nat => ExScript).
Proof. split; [done|intros; apply rtc_refl]. Qed.
Lemma ex_listen_ok : net_ok ex_listen.
Proof.
  apply (net_calls_ok (SC := ExScript) (scripts_keep 9 (fun _ => ExScript) 0 ex_nested) 9 ex_start ex_listen ex_listen_calls). intros q e0 H0. discriminate H0.
Qed.
Lemma real_close_clean_witness : option_map (fun e => mask_of e 7) (g_loops ex_listen !! 4096) = Some 1 /\
  (0 = 0 /\ s_socks (g_port ex_closed) !! 7 = Some zero_sock /\ net_ok ex_closed /\
  exists sock pt0 g1 pt e e', fd2sock ex_listen 7 = Ret sock /\ get_port ex_listen (sock_port sock) = Ret pt0 /\
    close_handler 7 [] pt0 ex_listen = Ret g1 /\ get_port g1 (sock_port sock) = Ret pt /\
    g_loops g1 !! port_loop pt = Some e /\ g_loops ex_closed !! port_loop pt = Some e' /\
    mask_of e' 7 = 0 /\ (7 < setsize e' -> registered ex_closed (port_loop pt) 7 = 0) /\ unwatched e e' 7 3 /\
    forall q, q <> port_loop pt -> g_loops ex_closed !! q = g_loops g1 !! q).
Proof.
  split; [by vm_compute|]. destruct (returned_state ex_start (real_close 7 [] ex_listen)) as [r Hr]; [by vm_compute|].
  assert (r = 0) as ->.
  { assert (E : (match real_close 7 [] ex_listen with Ret (r, _) => r | _ => 1 end) = 0) by (by vm_compute). by rewrite Hr in E. }
  exact (@real_close_clean env aeApiState ExOs ExQuiet NoFmt SelectApi SelectApi_ok SelectApi_frame ExNetRegistered Bump 9 (fun _ => ExScript) 0%nat 7 [] ex_listen 0
    ex_closed ex_nested ex_listen_ok eq_refl Hr).
Defined.

(** A script that closes the socket in its handler for a failed connection: the descriptor is
    closed again when the handler has returned. *)
Definition closing : LuaScript (proc env aeApiState) := {|
  getglobal := @getglobal _ ExScript; gettable := @gettable _ ExScript;
  pcall := fun _ args w => match real_close (d2i32 (lua_tonumber args 1)) [] w with Ret (_, w) => (w, Some []) | _ => (w, None) end |}.
Example closed_twice :
  match set_name 64 (fun pt s => MkPort (port_loop pt) (lua_on_read pt) (lua_on_accept pt) (lua_on_close pt) s (lua_on_connect_suc pt) (port_name pt))
          [LLight 8192; LStr [104]] ex_listen with
  | Ret (_, g) => match port_on_connect_err (SC := closing) 4096 7 0 1 g with Ret g => env_closed (g_env g) = [7; 7] | _ => False end
  | _ => False
  end.
Proof. by vm_compute. Qed.
