(* ===== verification/Bson.v ===== *)
(** * Bson: building BSON documents

    Source: src/src/bson/bson.c and bson.h (structures, error codes and the
    byte-order macros).  The struct [bson] is a record that the operations take and
    return; the data block it points to lives in the shared memory, so growing it,
    patching lengths in it and reading it back go through raw addresses.  The
    functions of encoding.h, which the repository does not hold, are the class
    [BsonEnv], like the C library calls and the error handler.  [Raise] is exit(-5),
    the end of [bson_fatal_msg]. *)
From S2P Require Import Prelude Mem Lua.
Local Open Scope Z_scope.

(** ** Constants (bson.h) *)

Definition BSON_OK : Z := 0.
Definition BSON_ERROR : Z := -1.
Definition BSON_SIZE_OVERFLOW : Z := 1.
Definition BSON_NOT_UTF8 : Z := 2.
Definition BSON_ALREADY_FINISHED : Z := 16.
Definition BSON_NOT_IN_SUBOBJECT : Z := 32.
Definition BSON_DOES_NOT_OWN_DATA : Z := 64.

Definition BSON_EOO : Z := 0.
Definition BSON_DOUBLE : Z := 1.
Definition BSON_STRING : Z := 2.
Definition BSON_OBJECT : Z := 3.
Definition BSON_ARRAY : Z := 4.
Definition BSON_BINDATA : Z := 5.
Definition BSON_UNDEFINED : Z := 6.
Definition BSON_OID : Z := 7.
Definition BSON_BOOL : Z := 8.
Definition BSON_DATE : Z := 9.
Definition BSON_NULL : Z := 10.
Definition BSON_REGEX : Z := 11.
Definition BSON_DBREF : Z := 12.
Definition BSON_CODE : Z := 13.
Definition BSON_SYMBOL : Z := 14.
Definition BSON_CODEWSCOPE : Z := 15.
Definition BSON_INT : Z := 16.
Definition BSON_TIMESTAMP : Z := 17.
Definition BSON_LONG : Z := 18.
Definition BSON_BIN_BINARY_OLD : Z := 2.

Definition initialBufferSize : Z := 128.

(** ** The structure *)

(** stackPtr is NULL, the array [stack] of the structure itself, or a block of its
    own.  A cell that was never written is [None]. *)
Inductive stack_ptr := StackNull | StackLocal | StackHeap (p : Z) (a : list (option Z)).

Record bson := Bson {
  data : Z; cur : Z; dataSize : Z; finished : Z; ownsData : Z;
  stack : list (option Z); stackPos : Z; err : Z; stackPtr : stack_ptr; stackSize : Z }.

Definition STACK_LEN : nat := 32.
Definition SIZEOF_STACK : Z := 256.
Definition SIZEOF_SIZE_T : Z := 8.

Definition set_buf (b : bson) (p c n : Z) : bson :=
  Bson p c n (finished b) (ownsData b) (stack b) (stackPos b) (err b) (stackPtr b) (stackSize b).
Definition set_cur (b : bson) (c : Z) : bson := set_buf b (data b) c (dataSize b).
Definition set_err (b : bson) (e : Z) : bson :=
  Bson (data b) (cur b) (dataSize b) (finished b) (ownsData b) (stack b) (stackPos b) e (stackPtr b) (stackSize b).
Definition set_finished (b : bson) : bson :=
  Bson (data b) (cur b) (dataSize b) 1 (ownsData b) (stack b) (stackPos b) (err b) (stackPtr b) (stackSize b).
Definition set_owns (b : bson) (o : Z) : bson :=
  Bson (data b) (cur b) (dataSize b) (finished b) o (stack b) (stackPos b) (err b) (stackPtr b) (stackSize b).
Definition set_stack (b : bson) (sp : stack_ptr) (n : Z) : bson :=
  Bson (data b) (cur b) (dataSize b) (finished b) (ownsData b) (stack b) (stackPos b) (err b) sp n.
Definition set_pos (b : bson) (l : list (option Z)) (sp : stack_ptr) (n : Z) : bson :=
  Bson (data b) (cur b) (dataSize b) (finished b) (ownsData b) l n (err b) sp (stackSize b).

(** ** The world around the module *)

Class BsonEnv (E : Type) := {
  call_handler : Z -> bytes -> E -> E;         (* the error handler that was set *)
  call_int : Z -> E -> Z * E;                  (* an int function that was set *)
  c_time : E -> Z * E;
  c_srand : Z -> E -> E;
  c_rand : E -> Z * E;
  bson_check_field_name : bson -> bytes -> Z * bson;   (* encoding.h *)
  bson_check_string : bson -> bytes -> Z * bson;
}.

(** The module's static variables (function pointers: 0 is NULL) and the memory. *)
Record st (E : Type) := St {
  hp : heap; err_handler : Z; oid_fuzz_func : Z; oid_inc_func : Z; incr : Z; fuzz : Z; env : E }.
Arguments St {E}. Arguments hp {E}. Arguments err_handler {E}. Arguments oid_fuzz_func {E}.
Arguments oid_inc_func {E}. Arguments incr {E}. Arguments fuzz {E}. Arguments env {E}.

Section Bson.
Context {E : Type} {EV : BsonEnv E} {A : Allocator} {RA : Reallocator}.
Implicit Types s : st E.

Definition set_hp s (h : heap) : st E :=
  St h (err_handler s) (oid_fuzz_func s) (oid_inc_func s) (incr s) (fuzz s) (env s).
Definition set_env s (e : E) : st E :=
  St (hp s) (err_handler s) (oid_fuzz_func s) (oid_inc_func s) (incr s) (fuzz s) e.
Definition mem s : gmap Z Z := h_mem (hp s).

(** Writing [v] at the address [p]. *)
Definition poke s (p : Z) (v : bytes) : res (st E) :=
  m ← of_option (mstore (mem s) p v); Ret (set_hp s (Heap m (h_blk (hp s)))).

(** ** Error handling and allocators *)

Definition set_bson_err_handler (func : Z) s : Z * st E :=
  (err_handler s, St (hp s) func (oid_fuzz_func s) (oid_inc_func s) (incr s) (fuzz s) (env s)).

(** "BSON error." *)
Definition builder_msg : bytes := [66; 83; 79; 78; 32; 101; 114; 114; 111; 114; 46].
Definition bson_builder_error (b : bson) s : st E :=
  if err_handler s =? 0 then s else set_env s (call_handler (err_handler s) builder_msg (env s)).

(** The handler is called and the process ends, whatever it did. *)
Definition bson_fatal_msg (ok : bool) s : res (st E) := if ok then Ret s else Raise.
Definition bson_fatal (ok : bool) s : res (st E) := bson_fatal_msg ok s.

Definition bson_malloc (size : Z) s : res (Z * st E) :=
  match malloc (hp s) (u64 size) with
  | Some (p, h) => s ← bson_fatal_msg true (set_hp s h); Ret (p, s)
  | None => s ← bson_fatal_msg false s; Ret (NULL, s)
  end.

(** realloc of NULL is malloc; of a pointer that is no live block, undefined. *)
Definition bson_realloc (ptr size : Z) s : res (Z * st E) :=
  if bool_decide (ptr = NULL \/ is_Some (h_blk (hp s) !! ptr)) then
    match realloc (hp s) ptr (u64 size) with
    | Some (p, h) => s ← bson_fatal_msg true (set_hp s h); Ret (p, s)
    | None => s ← bson_fatal_msg false s; Ret (NULL, s)
    end
  else Undef.

Definition bson_free (ptr : Z) s : res (st E) := h ← free (hp s) ptr; Ret (set_hp s h).

(** ** Reading the size *)

(** An int in memory. *)
Definition load_int s (p : Z) : res Z := v ← of_option (mload (mem s) p 4); Ret (i32 (le_dec v)).
Definition load_int64 s (p : Z) : res Z := v ← of_option (mload (mem s) p 8); Ret (i64 (le_dec v)).

Definition bson_finished_data_size (p : Z) s : res Z := load_int s p.

Definition _bson_zero : bson :=
  Bson NULL NULL 0 0 0 (replicate STACK_LEN (Some 0)) 0 0 StackNull 0.

Definition bson_init_finished_data (p : Z) (owns : Z) s : res (Z * bson) :=
  n ← bson_finished_data_size p s;
  Ret (BSON_OK, Bson p NULL n 1 owns (replicate STACK_LEN (Some 0)) 0 0 StackNull 0).

Definition bson_init_size (size : Z) s : res (Z * bson * st E) :=
  if negb (size =? 0) then
    '(p, s) ← bson_malloc size s;
    if p =? NULL then Ret (BSON_ERROR, _bson_zero, s)
    else
      let b := set_buf _bson_zero p NULL size in
      let b := set_owns b 1 in
      Ret (BSON_OK, set_cur b (data b + 4), s)
  else
    let b := set_owns _bson_zero 1 in
    Ret (BSON_OK, set_cur b (data b + 4), s).

Definition bson_init s : res (Z * bson * st E) := bson_init_size initialBufferSize s.

Definition bson_init_finished_data_with_copy (p : Z) s : res (Z * bson * st E) :=
  n ← bson_finished_data_size p s;
  '(r, b, s) ← bson_init_size n s;
  if r =? BSON_ERROR then Ret (BSON_ERROR, b, s)
  else
    v ← of_option (loadz (mem s) p (u64 n));
    s ← poke s (data b) v;
    Ret (BSON_OK, set_finished b, s).

(** bson_shared_empty_data is at the address [empty]. *)
Definition bson_init_empty (empty : Z) s : res (Z * bson) :=
  '(_, b) ← bson_init_finished_data empty 0 s; Ret (BSON_OK, b).

(** [None]: a NULL pointer. *)
Definition bson_copy (out inb : option bson) s : res (Z * option bson * st E) :=
  match out, inb with
  | Some o, Some i =>
      if finished i =? 0 then Ret (BSON_ERROR, Some o, s)
      else '(r, b, s) ← bson_init_finished_data_with_copy (data i) s; Ret (r, Some b, s)
  | _, _ => Ret (BSON_ERROR, out, s)
  end.

Definition bson_size (b : option bson) s : res Z :=
  match b with
  | None => Ret 0
  | Some b => if data b =? NULL then Ret 0 else load_int s (data b)
  end.

Definition _bson_position (b : bson) : Z := u64 (cur b - data b).
Definition bson_buffer_size (b : bson) : Z := u64 (_bson_position b + 1).
Definition bson_data (b : bson) : Z := data b.

Definition bson_init_unfinished_data (p dsize owns : Z) : Z * bson :=
  (BSON_OK, set_owns (set_buf _bson_zero p NULL dsize) owns).


(** ** Growing *)

Definition STACK_DOUBLE : Z := 2 * SIZEOF_STACK / SIZEOF_SIZE_T.

Definition _bson_append_grow_stack (b : bson) s : res (Z * bson * st E) :=
  match stackPtr b with
  | StackNull => Ret (BSON_OK, set_stack b StackLocal (SIZEOF_STACK / SIZEOF_SIZE_T), s)
  | StackLocal =>
      '(p, s) ← bson_malloc (2 * SIZEOF_STACK) s;
      if p =? NULL then Ret (BSON_ERROR, b, s)
      else Ret (BSON_OK, set_stack b (StackHeap p (stack b ++ replicate STACK_LEN None)) STACK_DOUBLE, s)
  | StackHeap p a =>
      n ← sint (stackSize b * 2);
      '(p, s) ← bson_realloc p (u64 (u64 n * SIZEOF_SIZE_T)) s;
      if p =? NULL then Ret (BSON_ERROR, b, s)
      else Ret (BSON_OK, set_stack b (StackHeap p (a ++ replicate (length a) None)) n, s)
  end.

(** The cells stackPtr points to. *)
Definition stack_cells (b : bson) : list (option Z) :=
  match stackPtr b with StackNull => [] | StackLocal => stack b | StackHeap _ a => a end.
(** stackPtr[i] = v, with the position moved. *)
Definition stack_store (b : bson) (i v : Z) (pos : Z) : res bson :=
  if (0 <=? i) && (i <? Z.of_nat (length (stack_cells b))) then
    let l := <[Z.to_nat i := Some v]> (stack_cells b) in
    match stackPtr b with
    | StackNull => Undef
    | StackLocal => Ret (set_pos b l StackLocal pos)
    | StackHeap p _ => Ret (set_pos b (stack b) (StackHeap p l) pos)
    end
  else Undef.
Definition stack_load (b : bson) (i : Z) : res Z :=
  if 0 <=? i then of_option (mjoin (stack_cells b !! Z.to_nat i)) else Undef.

Definition bson_append_byte (b : bson) (c : Z) s : res (bson * st E) :=
  s ← poke s (cur b) [u8 c]; Ret (set_cur b (cur b + 1), s).

(** memcpy of [len] bytes from an object that holds the bytes [v]. *)
Definition from_buf (v : bytes) (len : Z) : res bytes :=
  if len <=? Z.of_nat (length v) then Ret (take (Z.to_nat len) v) else Undef.

Definition bson_append (b : bson) (v : bytes) (len : Z) s : res (bson * st E) :=
  v ← from_buf v len;
  s ← poke s (cur b) v; Ret (set_cur b (cur b + len), s).
(** The same from memory. *)
Definition append_from (b : bson) (p len : Z) s : res (bson * st E) :=
  v ← of_option (loadz (mem s) p len);
  s ← poke s (cur b) v; Ret (set_cur b (cur b + len), s).

Definition bson_append32 (b : bson) (v : bytes) s : res (bson * st E) :=
  v ← from_buf v 4; s ← poke s (cur b) v; Ret (set_cur b (cur b + 4), s).
Definition bson_append32_as_int (b : bson) (n : Z) s : res (bson * st E) :=
  s ← poke s (cur b) (le_enc 4 n); Ret (set_cur b (cur b + 4), s).
Definition bson_append64 (b : bson) (v : bytes) s : res (bson * st E) :=
  v ← from_buf v 8; s ← poke s (cur b) v; Ret (set_cur b (cur b + 8), s).

(** (int)(1.5 * n) for a size_t [n]: exact below 2^53, and out of the range of int,
    so undefined, from 2^31 on. *)
Definition grow_size (n : Z) : res Z := if 3 * n / 2 <? 2 ^ 31 then Ret (3 * n / 2) else Undef.

Definition bson_ensure_space (b : bson) (bytesNeeded : Z) s : res (Z * bson * st E) :=
  let pos := _bson_position b in
  let orig := data b in
  if u64 (pos + bytesNeeded) <=? u64 (dataSize b) then Ret (BSON_OK, b, s)
  else
    let total := u64 (u64 (dataSize b) + bytesNeeded) in
    new_size ← grow_size total;
    let clamp := if new_size <? dataSize b then if total <? INT_MAX then Some INT_MAX else None
                 else Some new_size in
    match clamp with
    | None => Ret (BSON_ERROR, set_err b BSON_SIZE_OVERFLOW, s)
    | Some new_size =>
        if ownsData b =? 0 then Ret (BSON_ERROR, set_err b BSON_DOES_NOT_OWN_DATA, s)
        else
          '(p, s) ← bson_realloc (data b) new_size s;
          s ← bson_fatal_msg (negb (p =? NULL)) s;
          Ret (BSON_OK, set_buf b p (cur b + (p - orig)) new_size, s)
    end.

Definition bson_finish (b : bson) s : res (Z * bson * st E) :=
  if negb (Z.land (err b) BSON_NOT_UTF8 =? 0) then Ret (BSON_ERROR, b, s)
  else if finished b =? 0 then
    s ← bson_fatal_msg (stackPos b =? 0) s;
    '(r, b, s) ← bson_ensure_space b 1 s;
    if r =? BSON_ERROR then Ret (BSON_ERROR, b, s)
    else
      '(b, s) ← bson_append_byte b 0 s;
      if INT32_MAX <=? _bson_position b then Ret (BSON_ERROR, set_err b BSON_SIZE_OVERFLOW, s)
      else
        s ← poke s (data b) (le_enc 4 (i32 (_bson_position b)));
        Ret (BSON_OK, set_finished b, s)
  else Ret (BSON_OK, b, s).

(** stackPtr is reset only when it is a block of its own. *)
Definition bson_destroy (b : bson) s : res (bson * st E) :=
  s ← (if negb (ownsData b =? 0) && negb (data b =? NULL) then bson_free (data b) s else Ret s);
  '(sp, s) ← (match stackPtr b with
              | StackHeap p _ => s ← bson_free p s; Ret (StackNull, s)
              | sp => Ret (sp, s)
              end);
  Ret (Bson NULL 0 0 1 0 (stack b) 0 0 sp 0, s).

Definition bson_append_estart (b : bson) (type : Z) (name : bytes) (dsize : Z) s : res (Z * bson * st E) :=
  let len := Z.of_nat (length name) + 1 in
  if negb (finished b =? 0) then Ret (BSON_ERROR, set_err b (Z.lor (err b) BSON_ALREADY_FINISHED), s)
  else
    '(r, b, s) ← bson_ensure_space b (u64 (1 + len + dsize)) s;
    if r =? BSON_ERROR then Ret (BSON_ERROR, b, s)
    else
      let '(r, b) := bson_check_field_name b name in
      if r =? BSON_ERROR then Ret (BSON_ERROR, b, bson_builder_error b s)
      else
        '(b, s) ← bson_append_byte b type s;
        '(b, s) ← bson_append b (name ++ [0]) len s;
        Ret (BSON_OK, b, s).

(** ** Building types *)

(** estart, and then [k] if it succeeded. *)
Definition with_estart (b : bson) (type : Z) (name : bytes) (dsize : Z) s
    (k : bson -> st E -> res (Z * bson * st E)) : res (Z * bson * st E) :=
  '(r, b, s) ← bson_append_estart b type name dsize s;
  if r =? BSON_ERROR then Ret (BSON_ERROR, b, s) else k b s.
Definition ok (bs : bson * st E) : res (Z * bson * st E) := Ret (BSON_OK, bs.1, bs.2).

Definition bson_append_int (b : bson) (name : bytes) (i : Z) s :=
  with_estart b BSON_INT name 4 s (fun b s => bson_append32 b (le_enc 4 i) s ≫= ok).
Definition bson_append_long (b : bson) (name : bytes) (i : Z) s :=
  with_estart b BSON_LONG name 8 s (fun b s => bson_append64 b (le_enc 8 i) s ≫= ok).
(** [d]: the 64 bits of the double. *)
Definition bson_append_double (b : bson) (name : bytes) (d : Z) s :=
  with_estart b BSON_DOUBLE name 8 s (fun b s => bson_append64 b (le_enc 8 d) s ≫= ok).
Definition bson_append_bool (b : bson) (name : bytes) (i : Z) s :=
  with_estart b BSON_BOOL name 1 s
    (fun b s => bson_append_byte b (if i =? 0 then 0 else 1) s ≫= ok).
Definition bson_append_null (b : bson) (name : bytes) s :=
  with_estart b BSON_NULL name 0 s (fun b s => Ret (BSON_OK, b, s)).
Definition bson_append_undefined (b : bson) (name : bytes) s :=
  with_estart b BSON_UNDEFINED name 0 s (fun b s => Ret (BSON_OK, b, s)).

(** [value] is the object the pointer points to, [len] the size given. *)
Definition bson_append_string_base (b : bson) (name value : bytes) (len type : Z) s
    : res (Z * bson * st E) :=
  let sl := u64 (len + 1) in
  if INT32_MAX <? sl then Ret (BSON_ERROR, set_err b BSON_SIZE_OVERFLOW, s)
  else
    text ← from_buf value (sl - 1);
    let '(r, b) := bson_check_string b text in
    if r =? BSON_ERROR then Ret (BSON_ERROR, b, s)
    else
      with_estart b type name (4 + sl) s (fun b s =>
        '(b, s) ← bson_append32_as_int b sl s;
        '(b, s) ← bson_append b value (sl - 1) s;
        bson_append b [0] 1 s ≫= ok).

(** [value] is a C string. *)
Definition string_of (value : bytes) : bytes := value ++ [0].
Definition bson_append_string b name value s :=
  bson_append_string_base b name (string_of value) (Z.of_nat (length value)) BSON_STRING s.
Definition bson_append_symbol b name value s :=
  bson_append_string_base b name (string_of value) (Z.of_nat (length value)) BSON_SYMBOL s.
Definition bson_append_code b name value s :=
  bson_append_string_base b name (string_of value) (Z.of_nat (length value)) BSON_CODE s.
Definition bson_append_string_n b name value len s := bson_append_string_base b name value len BSON_STRING s.
Definition bson_append_symbol_n b name value len s := bson_append_string_base b name value len BSON_SYMBOL s.
Definition bson_append_code_n b name value len s := bson_append_string_base b name value len BSON_CODE s.

Definition bson_append_code_w_scope_n (b : bson) (name code : bytes) (len : Z) (scope : option bson) s
    : res (Z * bson * st E) :=
  match scope with
  | None => Ret (BSON_ERROR, b, s)
  | Some sc =>
      let sl := u64 (len + 1) in
      n ← bson_size (Some sc) s;
      let size := u64 (4 + 4 + sl + u64 n) in
      if INT32_MAX <? size then Ret (BSON_ERROR, set_err b BSON_SIZE_OVERFLOW, s)
      else
        with_estart b BSON_CODEWSCOPE name size s (fun b s =>
          '(b, s) ← bson_append32_as_int b size s;
          '(b, s) ← bson_append32 b (le_enc 8 sl) s;
          '(b, s) ← bson_append b code sl s;
          n ← bson_size (Some sc) s;
          append_from b (data sc) (u64 n) s ≫= ok)
  end.
Definition bson_append_code_w_scope b name code scope s :=
  bson_append_code_w_scope_n b name (string_of code) (Z.of_nat (length code)) scope s.

Definition bson_append_binary (b : bson) (name : bytes) (type : Z) (str : bytes) (len : Z) s
    : res (Z * bson * st E) :=
  if type =? BSON_BIN_BINARY_OLD then
    let subtwolen := u64 (len + 4) in
    with_estart b BSON_BINDATA name (u64 (4 + 1 + 4 + len)) s (fun b s =>
      '(b, s) ← bson_append32_as_int b subtwolen s;
      '(b, s) ← bson_append_byte b type s;
      '(b, s) ← bson_append32_as_int b len s;
      bson_append b str len s ≫= ok)
  else
    with_estart b BSON_BINDATA name (u64 (4 + 1 + len)) s (fun b s =>
      '(b, s) ← bson_append32_as_int b len s;
      '(b, s) ← bson_append_byte b type s;
      bson_append b str len s ≫= ok).

(** An ObjectId is its 12 bytes. *)
Definition bson_append_oid (b : bson) (name oid : bytes) s :=
  with_estart b BSON_OID name 12 s (fun b s => bson_append b oid 12 s ≫= ok).

Definition bson_append_regex (b : bson) (name pattern opts : bytes) s : res (Z * bson * st E) :=
  let plen := Z.of_nat (length pattern) + 1 in
  let olen := Z.of_nat (length opts) + 1 in
  with_estart b BSON_REGEX name (plen + olen) s (fun b s =>
    let '(r, b) := bson_check_string b pattern in
    if r =? BSON_ERROR then Ret (BSON_ERROR, b, s)
    else
      '(b, s) ← bson_append b (string_of pattern) plen s;
      bson_append b (string_of opts) olen s ≫= ok).

Definition bson_append_bson (b : bson) (name : bytes) (o : option bson) s : res (Z * bson * st E) :=
  match o with
  | None => Ret (BSON_ERROR, b, s)
  | Some o =>
      n ← bson_size (Some o) s;
      with_estart b BSON_OBJECT name (u64 n) s (fun b s =>
        n ← bson_size (Some o) s;
        append_from b (data o) (u64 n) s ≫= ok)
  end.

Definition bson_append_timestamp2 (b : bson) (name : bytes) (time increment : Z) s :=
  with_estart b BSON_TIMESTAMP name 8 s (fun b s =>
    '(b, s) ← bson_append32 b (le_enc 4 increment) s;
    bson_append32 b (le_enc 4 time) s ≫= ok).
(** A bson_timestamp_t is the pair of its fields i and t. *)
Definition bson_append_timestamp (b : bson) (name : bytes) (ts : Z * Z) s :=
  with_estart b BSON_TIMESTAMP name 8 s (fun b s =>
    '(b, s) ← bson_append32 b (le_enc 4 ts.1) s;
    bson_append32 b (le_enc 4 ts.2) s ≫= ok).

Definition bson_append_date (b : bson) (name : bytes) (millis : Z) s :=
  with_estart b BSON_DATE name 8 s (fun b s => bson_append64 b (le_enc 8 millis) s ≫= ok).
(** The product of two longs: overflow is undefined. *)
Definition bson_append_time_t (b : bson) (name : bytes) (secs : Z) s : res (Z * bson * st E) :=
  let ms := secs * 1000 in
  if (- 2 ^ 63 <=? ms) && (ms <? 2 ^ 63) then bson_append_date b name ms s else Undef.

(** ** Subobjects *)

Definition start_sub (type : Z) (b : bson) (name : bytes) s : res (Z * bson * st E) :=
  with_estart b type name 5 s (fun b s =>
    '(r, b, s) ← (if stackSize b <=? stackPos b then _bson_append_grow_stack b s
                  else Ret (BSON_OK, b, s));
    if r =? BSON_ERROR then Ret (BSON_ERROR, b, s)
    else
      n ← sint (stackPos b + 1);
      b ← stack_store b (stackPos b) (_bson_position b) n;
      bson_append32 b (le_enc 4 0) s ≫= ok).
Definition bson_append_start_object (b : bson) (name : bytes) s := start_sub BSON_OBJECT b name s.
Definition bson_append_start_array (b : bson) (name : bytes) s := start_sub BSON_ARRAY b name s.

Definition bson_append_finish_object (b : option bson) s : res (Z * option bson * st E) :=
  match b with
  | None => Ret (BSON_ERROR, None, s)
  | Some b =>
      if stackPos b =? 0 then Ret (BSON_ERROR, Some (set_err b BSON_NOT_IN_SUBOBJECT), s)
      else
        '(r, b, s) ← bson_ensure_space b 1 s;
        if r =? BSON_ERROR then Ret (BSON_ERROR, Some b, s)
        else
          '(b, s) ← bson_append_byte b 0 s;
          n ← sint (stackPos b - 1);
          let b := set_pos b (stack b) (stackPtr b) n in
          off ← stack_load b n;
          let start := data b + off in
          if INT32_MAX <=? cur b - start then Ret (BSON_ERROR, Some (set_err b BSON_SIZE_OVERFLOW), s)
          else
            s ← poke s start (le_enc 4 (i32 (cur b - start)));
            Ret (BSON_OK, Some b, s)
  end.
Definition bson_append_finish_array (b : option bson) s := bson_append_finish_object b s.

(** bson_numstr: the text of numbers below 1000 is copied from a table (an index
    below 0 is outside it). *)
Definition bson_numstr (i : Z) (table : Z -> bytes) (sprintf : Z -> bytes) : res bytes :=
  if i <? 1000 then if 0 <=? i then Ret (table i) else Undef else Ret (sprintf i).

Definition bson_int64_to_double (i64 : Z) : lnumber := d_of_Z i64.
End Bson.
