(* ===== verification/BsonBuild.v ===== *)
(** * BsonBuild: what the BSON builder of Bson.v constructs

    [Built b s d ps] says that the structure [b] is an open document whose bytes so
    far, after the four of the size, are [d], and whose open subobjects start at the
    positions [ps].  Every operation of the builder keeps it; a whole document is
    built by [build_doc], whose bytes are the encoding [enc_doc]. *)
From S2P Require Import Prelude Mem Lua Bson.
Local Open Scope Z_scope.

(** The checks of encoding.h: a good text is accepted, with no error recorded but
    warnings (bson.h, bson_validity_t). *)
Class BsonEnvOk (E : Type) {EV : BsonEnv E} := {
  good_text : bytes -> Prop;
  check_name_ok : forall b n, good_text n -> exists e, bson_check_field_name b n = (BSON_OK, set_err b e) /\
    Z.land e BSON_NOT_UTF8 = Z.land (err b) BSON_NOT_UTF8;
  check_string_ok : forall b n, good_text n -> exists e, bson_check_string b n = (BSON_OK, set_err b e) /\
    Z.land e BSON_NOT_UTF8 = Z.land (err b) BSON_NOT_UTF8;
}.

(** ** Documents and their encoding *)

Inductive value :=
| VDouble (d : Z) | VString (t : bytes) | VSymbol (t : bytes) | VCode (t : bytes)
| VBin (type : Z) (t : bytes) | VUndefined | VOid (o : bytes) | VBool (v : bool) | VDate (ms : Z)
| VNull | VRegex (p o : bytes) | VInt (n : Z) | VTimestamp (i t : Z) | VLong (n : Z)
| VDoc (array : bool) (l : list (bytes * value)).

Definition vtype (v : value) : Z :=
  match v with
  | VDouble _ => BSON_DOUBLE | VString _ => BSON_STRING | VSymbol _ => BSON_SYMBOL | VCode _ => BSON_CODE
  | VBin _ _ => BSON_BINDATA | VUndefined => BSON_UNDEFINED | VOid _ => BSON_OID | VBool _ => BSON_BOOL
  | VDate _ => BSON_DATE | VNull => BSON_NULL | VRegex _ _ => BSON_REGEX | VInt _ => BSON_INT
  | VTimestamp _ _ => BSON_TIMESTAMP | VLong _ => BSON_LONG
  | VDoc true _ => BSON_ARRAY | VDoc false _ => BSON_OBJECT
  end.

(** The start of an element: type and key. *)
Definition header (type : Z) (name : bytes) : bytes := u8 type :: name ++ [0].
Definition enc_text (t : bytes) : bytes := le_enc 4 (Z.of_nat (length t) + 1) ++ t ++ [0].
Definition enc_frame (body : bytes) : bytes := le_enc 4 (5 + Z.of_nat (length body)) ++ body ++ [0].

Fixpoint enc_value (v : value) : bytes :=
  match v with
  | VDouble d => le_enc 8 d
  | VString t | VSymbol t | VCode t => enc_text t
  | VBin type t =>
      if type =? BSON_BIN_BINARY_OLD then
        le_enc 4 (Z.of_nat (length t) + 4) ++ [u8 type] ++ le_enc 4 (Z.of_nat (length t)) ++ t
      else le_enc 4 (Z.of_nat (length t)) ++ [u8 type] ++ t
  | VUndefined | VNull => []
  | VOid o => o
  | VBool v => [if v then 1 else 0]
  | VDate n | VLong n => le_enc 8 n
  | VRegex p o => (p ++ [0]) ++ o ++ [0]
  | VInt n => le_enc 4 n
  | VTimestamp i t => le_enc 4 i ++ le_enc 4 t
  | VDoc _ l =>
      enc_frame ((fix go (l : list (bytes * value)) : bytes :=
        match l with [] => [] | (k, x) :: l => header (vtype x) k ++ enc_value x ++ go l end) l)
  end.
Fixpoint enc_body (l : list (bytes * value)) : bytes :=
  match l with [] => [] | (k, x) :: l => header (vtype x) k ++ enc_value x ++ enc_body l end.
Definition enc_doc (l : list (bytes * value)) : bytes := enc_frame (enc_body l).

Lemma enc_value_doc a l : enc_value (VDoc a l) = enc_doc l.
Proof. reflexivity. Qed.

(** Induction over the values inside a value. *)
Fixpoint value_ind' (P : value -> Prop)
    (H : forall v, match v with VDoc _ l => Forall (fun kv => P kv.2) l | _ => True end -> P v) (v : value) : P v :=
  H v (match v return match v with VDoc _ l => Forall (fun kv => P kv.2) l | _ => True end with
       | VDoc _ l => (fix go (l : list (bytes * value)) : Forall (fun kv => P kv.2) l :=
           match l with
           | [] => List.Forall_nil _
           | kv :: l => List.Forall_cons _ kv l (value_ind' P H kv.2) (go l)
           end) l
       | _ => I
       end).

Record Built {E} (L : Z) (b : bson) (s : st E) (d : bytes) (ps : list Z) : Prop := {
  b_open : finished b = 0;
  b_owns : ownsData b = 1;
  b_err : Z.land (err b) BSON_NOT_UTF8 = 0;
  b_heap : heap_ok (hp s);
  b_blk : h_blk (hp s) !! data b = Some (dataSize b);
  b_cur : cur b = data b + 4 + Z.of_nat (length d);
  b_size : 4 + Z.of_nat (length d) <= dataSize b <= 128 + 3 * L;
  b_data : mload (mem s) (data b + 4) (length d) = Some d;
  b_pos : stackPos b = Z.of_nat (length ps);
  b_depth : (length ps <= length d)%nat;
  b_room : (length ps <= length (stack_cells b))%nat;
  b_ssize : stackSize b = Z.of_nat (length (stack_cells b)) /\ stackSize b <= 64 + 2 * Z.of_nat (length d);
  b_cells : forall i x, ps !! i = Some x -> stack_cells b !! i = Some (Some x);
  b_local : length (stack b) = STACK_LEN;
  b_own : match stackPtr b with
          | StackHeap p a => p <> data b /\ (0 < length a)%nat /\ h_blk (hp s) !! p = Some (8 * Z.of_nat (length a))
          | _ => True
          end;
}.

(** A finished document in a block of its own, of the bytes [d]. *)
Record Closed {E} (b : bson) (s : st E) (d : bytes) : Prop := {
  c_finished : finished b = 1;
  c_owns : ownsData b = 1;
  c_heap : heap_ok (hp s);
  c_blk : exists n, h_blk (hp s) !! data b = Some n /\ Z.of_nat (length d) <= n;
  c_data : mload (mem s) (data b) (length d) = Some d;
  c_own : match stackPtr b with
          | StackHeap p _ => p <> data b /\ is_Some (h_blk (hp s) !! p)
          | _ => True
          end;
}.

Section Build.
Context {E : Type} {EV : BsonEnv E} {EOk : BsonEnvOk E} {A : Allocator} {AOk : AllocatorOk A}.
Context {RA : Reallocator} {ROk : ReallocatorOk RA} {ME : MemoryEnough A RA}.
Context (L : Z) (HL : 5 <= L <= 2 ^ 28).
Implicit Types (b : bson) (s : st E).
Local Abbreviation Built := (Built L).

(** ** Writing *)

Lemma poke_ok s p v n k :
  heap_ok (hp s) -> h_blk (hp s) !! p = Some n -> 0 <= k -> k + Z.of_nat (length v) <= n ->
  exists m, mstore (mem s) (p + k) v = Some m /\ poke s (p + k) v = Ret (set_hp s (Heap m (h_blk (hp s)))) /\
    heap_ok (Heap m (h_blk (hp s))).
Proof.
  intros Hh Hp Hk Hn. destruct (heap_mapped _ Hh _ _ Hp) as [_ Hm].
  destruct (mstore_mapped (mem s) (p + k) v) as [m Hs]; [intros x Hx; apply Hm; lia|].
  exists m. unfold poke. rewrite Hs. split_and!; [done|done|]. by eapply mstore_heap_ok.
Qed.

(** Bytes at the end. *)
Lemma Built_append b s d ps v :
  Built b s d ps -> 4 + Z.of_nat (length d) + Z.of_nat (length v) <= dataSize b ->
  exists s', poke s (cur b) v = Ret s' /\ Built (set_cur b (cur b + Z.of_nat (length v))) s' (d ++ v) ps.
Proof.
  intros B Hroom. destruct (b_size _ _ _ _ _ B) as [Hs1 Hs2].
  destruct (poke_ok s (data b) v (dataSize b) (4 + Z.of_nat (length d))) as (m & Hm & Hp & Hh);
    [apply B|apply B|lia|lia|].
  assert (Hc : data b + (4 + Z.of_nat (length d)) = cur b) by (rewrite (b_cur _ _ _ _ _ B); lia).
  rewrite Hc in *. eexists. split; [exact Hp|].
  destruct B. constructor; cbn; try done; rewrite ?length_app; try lia.
  - apply mload_app.
    + erewrite mload_mstore_disj; [exact b_data0|exact Hm|left; lia].
    + replace (data b + 4 + Z.of_nat (length d)) with (cur b) by lia. by eapply mload_mstore_same.
  - change (stack_cells (set_cur _ _)) with (stack_cells b). lia.
Qed.

Lemma from_buf_app v r : from_buf (v ++ r) (Z.of_nat (length v)) = Ret v.
Proof.
  unfold from_buf. rewrite length_app. destruct (Z.leb_spec (Z.of_nat (length v)) (Z.of_nat (length v + length r))); [|lia].
  by rewrite Nat2Z.id, take_app_length.
Qed.
Lemma from_buf_all v n : n = Z.of_nat (length v) -> from_buf v n = Ret v.
Proof. intros ->. pose proof (from_buf_app v []) as H. by rewrite app_nil_r in H. Qed.

Lemma append_ok b s d ps v r n :
  Built b s d ps -> n = Z.of_nat (length v) -> 4 + Z.of_nat (length d) + n <= dataSize b ->
  exists b' s', bson_append b (v ++ r) n s = Ret (b', s') /\ Built b' s' (d ++ v) ps /\ dataSize b' = dataSize b.
Proof.
  intros B -> Hr. destruct (Built_append _ _ _ _ v B Hr) as (s' & Hs & B').
  unfold bson_append. rewrite from_buf_app, bind_Ret_l, Hs, bind_Ret_l. eauto 6.
Qed.
Lemma append_all_ok b s d ps v n :
  Built b s d ps -> n = Z.of_nat (length v) -> 4 + Z.of_nat (length d) + n <= dataSize b ->
  exists b' s', bson_append b v n s = Ret (b', s') /\ Built b' s' (d ++ v) ps /\ dataSize b' = dataSize b.
Proof. intros. destruct (append_ok b s d ps v [] n) as (? & ? & H'); try done. rewrite app_nil_r in H'. eauto. Qed.

Lemma append_byte_ok b s d ps c :
  Built b s d ps -> 4 + Z.of_nat (length d) + 1 <= dataSize b ->
  exists b' s', bson_append_byte b c s = Ret (b', s') /\ Built b' s' (d ++ [u8 c]) ps /\ dataSize b' = dataSize b.
Proof.
  intros B Hr. destruct (Built_append _ _ _ _ [u8 c] B Hr) as (s' & Hs & B').
  unfold bson_append_byte. rewrite Hs, bind_Ret_l. eauto 6.
Qed.
Lemma append_int_ok b s d ps n :
  Built b s d ps -> 4 + Z.of_nat (length d) + 4 <= dataSize b ->
  exists b' s', bson_append32_as_int b n s = Ret (b', s') /\ Built b' s' (d ++ le_enc 4 n) ps /\ dataSize b' = dataSize b.
Proof.
  intros B Hr. destruct (Built_append _ _ _ _ (le_enc 4 n) B Hr) as (s' & Hs & B').
  unfold bson_append32_as_int. rewrite Hs, bind_Ret_l. eauto 6.
Qed.
Lemma append32_ok b s d ps n :
  Built b s d ps -> 4 + Z.of_nat (length d) + 4 <= dataSize b ->
  exists b' s', bson_append32 b (le_enc 4 n) s = Ret (b', s') /\ Built b' s' (d ++ le_enc 4 n) ps /\ dataSize b' = dataSize b.
Proof. apply append_int_ok. Qed.
Lemma append64_ok b s d ps n :
  Built b s d ps -> 4 + Z.of_nat (length d) + 8 <= dataSize b ->
  exists b' s', bson_append64 b (le_enc 8 n) s = Ret (b', s') /\ Built b' s' (d ++ le_enc 8 n) ps /\ dataSize b' = dataSize b.
Proof.
  intros B Hr. destruct (Built_append _ _ _ _ (le_enc 8 n) B Hr) as (s' & Hs & B').
  unfold bson_append64. rewrite (from_buf_all (le_enc 8 n)), bind_Ret_l by done. rewrite Hs, bind_Ret_l. eauto 6.
Qed.
(** ** Room *)

Lemma Built_position b s d ps : Built b s d ps -> _bson_position b = 4 + Z.of_nat (length d).
Proof.
  intros B. unfold _bson_position. rewrite (b_cur _ _ _ _ _ B). pose proof (b_size _ _ _ _ _ B).
  rewrite wrapU_id by (unfold in_u; lia). lia.
Qed.

Lemma ensure_space_ok b s d ps n :
  Built b s d ps -> 0 <= n -> 4 + Z.of_nat (length d) + n <= L ->
  exists b' s', bson_ensure_space b n s = Ret (BSON_OK, b', s') /\ Built b' s' d ps /\
    4 + Z.of_nat (length d) + n <= dataSize b' /\ err b' = err b.
Proof.
  intros B Hn HnL. pose proof (b_size _ _ _ _ _ B) as [Hs1 Hs2].
  unfold bson_ensure_space. rewrite (Built_position _ _ _ _ B).
  rewrite !(wrapU_id 64) by (unfold in_u; try (rewrite wrapU_id by (unfold in_u; lia)); lia).
  destruct (Z.leb_spec (4 + Z.of_nat (length d) + n) (dataSize b)) as [Hfit|Hgrow]; [by exists b, s|].
  assert (Hg : 3 * (dataSize b + n) / 2 <= 3 * L).
  { apply Z.div_le_upper_bound; lia. }
  unfold grow_size. destruct (Z.ltb_spec (3 * (dataSize b + n) / 2) (2 ^ 31)); [|lia]. rewrite bind_Ret_l.
  assert (Hge : dataSize b + n <= 3 * (dataSize b + n) / 2) by (apply Z.div_le_lower_bound; lia).
  set (m := 3 * (dataSize b + n) / 2) in *.
  destruct (Z.ltb_spec m (dataSize b)); [lia|]. cbv beta iota zeta.
  rewrite (b_owns _ _ _ _ _ B). change (1 =? 0) with false. cbv iota.
  unfold bson_realloc. rewrite bool_decide_true by (right; rewrite (b_blk _ _ _ _ _ B); eauto).
  rewrite wrapU_id by (unfold in_u; lia).
  destruct (realloc_some (hp s) (data b) _ m (b_heap _ _ _ _ _ B) (b_blk _ _ _ _ _ B)) as [[p h] Hre]; [lia|].
  rewrite Hre. cbn [bson_fatal_msg]. rewrite !bind_Ret_l.
  assert (R : realloc_spec (hp s) (data b) (dataSize b) m p h)
    by (eapply realloc_ok; [apply B|apply B|lia|exact Hre]).
  pose proof (re_pos _ _ _ _ _ _ R) as Hp. destruct (Z.eqb_spec p NULL); [unfold NULL in *; lia|].
  cbn [negb bson_fatal_msg]. rewrite bind_Ret_l. do 2 eexists. split; [done|].
  split; [|cbn; split; [lia|done]].
  pose proof (b_own _ _ _ _ _ B) as Hown. pose proof (b_ssize _ _ _ _ _ B) as Hss.
  pose proof (b_room _ _ _ _ _ B) as Hr. pose proof (b_cells _ _ _ _ _ B) as Hcl.
  constructor; cbn; try apply B; try done.
  - eapply realloc_heap_ok; [exact R|apply B|apply B].
  - by rewrite (re_blk _ _ _ _ _ _ R), lookup_insert_eq.
  - rewrite (b_cur _ _ _ _ _ B). lia.
  - lia.
  - pose proof (b_data _ _ _ _ _ B) as Hd. revert Hd. rewrite !mload_lookup. intros [_ Hd]. split; [done|].
    intros i Hi. rewrite <- Hd by done.
    replace (p + 4 + Z.of_nat i) with (p + (4 + Z.of_nat i)) by lia.
    replace (data b + 4 + Z.of_nat i) with (data b + (4 + Z.of_nat i)) by lia.
    apply (re_copy _ _ _ _ _ _ R). lia.
  - destruct (stackPtr b) as [| |q a]; [done..|]. destruct Hown as (Hq & Ha & Hqb).
    assert (q <> p).
    { intros ->. pose proof (re_new _ _ _ _ _ _ R) as Hnew. rewrite lookup_delete_ne in Hnew by done. congruence. }
    split_and!; [done|done|]. rewrite (re_blk _ _ _ _ _ _ R), lookup_insert_ne, lookup_delete_ne by done. done.
Qed.

Lemma Built_set_err b s d ps e :
  Built b s d ps -> Z.land e BSON_NOT_UTF8 = Z.land (err b) BSON_NOT_UTF8 -> Built (set_err b e) s d ps.
Proof. intros B He. destruct B. constructor; cbn; try done. by rewrite He. Qed.

Lemma header_length type name : Z.of_nat (length (header type name)) = 2 + Z.of_nat (length name).
Proof. unfold header. cbn. rewrite length_app. cbn. lia. Qed.

Lemma estart_ok b s d ps type name n :
  Built b s d ps -> good_text name -> 0 <= n ->
  4 + Z.of_nat (length d) + Z.of_nat (length (header type name)) + n <= L ->
  exists b' s', bson_append_estart b type name n s = Ret (BSON_OK, b', s') /\
    Built b' s' (d ++ header type name) ps /\
    4 + Z.of_nat (length (d ++ header type name)) + n <= dataSize b'.
Proof.
  intros B Hg Hn HnL. rewrite header_length in HnL.
  unfold bson_append_estart. rewrite (b_open _ _ _ _ _ B). change (negb (0 =? 0)) with false. cbv iota zeta.
  rewrite wrapU_id by (unfold in_u; lia).
  destruct (ensure_space_ok b s d ps (1 + (Z.of_nat (length name) + 1) + n) B) as (b1 & s1 & H1 & B1 & Hr1 & _); [lia..|].
  rewrite H1, bind_Ret_l. change (BSON_OK =? BSON_ERROR) with false. cbv iota.
  destruct (check_name_ok b1 name Hg) as (e & He & Hbit). rewrite He.
  change (BSON_OK =? BSON_ERROR) with false. cbv iota.
  pose proof (Built_set_err _ _ _ _ e B1 Hbit) as B2.
  destruct (append_byte_ok _ _ _ _ type B2) as (b3 & s3 & H3 & B3 & Hd3); [cbn; lia|].
  rewrite H3, bind_Ret_l. cbn in Hd3.
  destruct (append_all_ok b3 s3 _ _ (name ++ [0]) (Z.of_nat (length name) + 1) B3) as (b4 & s4 & H4 & B4 & Hd4).
  { rewrite length_app. cbn. lia. }
  { rewrite length_app. cbn. lia. }
  rewrite H4, bind_Ret_l. exists b4, s4. rewrite <- app_assoc in B4. split; [done|]. split; [exact B4|].
  rewrite length_app, Nat2Z.inj_add, header_length. lia.
Qed.

(** An element whose value is written by [k]. *)
Lemma with_estart_ok b s d ps type name n v k :
  Built b s d ps -> good_text name -> Z.of_nat (length v) = n ->
  4 + Z.of_nat (length d) + Z.of_nat (length (header type name)) + n <= L ->
  (forall b s d, Built b s d ps -> 4 + Z.of_nat (length d) + n <= dataSize b ->
     exists b' s', k b s = Ret (BSON_OK, b', s') /\ Built b' s' (d ++ v) ps) ->
  exists b' s', with_estart b type name n s k = Ret (BSON_OK, b', s') /\
    Built b' s' (d ++ header type name ++ v) ps.
Proof.
  intros B Hg Hv HnL Hk. unfold with_estart.
  destruct (estart_ok b s d ps type name n B Hg) as (b1 & s1 & H1 & B1 & Hr1); [lia|lia|].
  rewrite H1, bind_Ret_l. change (BSON_OK =? BSON_ERROR) with false. cbv iota.
  destruct (Hk b1 s1 _ B1 Hr1) as (b2 & s2 & H2 & B2). exists b2, s2.
  rewrite app_assoc. done.
Qed.

(** ** Subobjects *)

(** Any change of the memory that leaves the two blocks alone, with the bytes of the
    data block as they were. *)
Lemma Built_heap b s d ps sp n (h : heap) :
  Built b s d ps -> heap_ok h -> h_blk h !! data b = Some (dataSize b) ->
  (forall x, data b <= x < data b + dataSize b -> h_mem h !! x = mem s !! x) ->
  (length ps <= length (stack_cells (set_stack b sp n)))%nat ->
  n = Z.of_nat (length (stack_cells (set_stack b sp n))) -> n <= 64 + 2 * Z.of_nat (length d) ->
  (forall i x, ps !! i = Some x -> stack_cells (set_stack b sp n) !! i = Some (Some x)) ->
  match sp with
  | StackHeap p a => p <> data b /\ (0 < length a)%nat /\ h_blk h !! p = Some (8 * Z.of_nat (length a))
  | _ => True
  end ->
  Built (set_stack b sp n) (set_hp s h) d ps.
Proof.
  intros B Hh Hblk Hmem Hr Hn Hn2 Hc Hown. pose proof (b_size _ _ _ _ _ B).
  constructor; cbn [set_stack finished ownsData err data dataSize cur stackPos stackPtr stackSize stack]; try apply B; try done.
  erewrite mload_agree; [apply B|]. intros x Hx. apply Hmem. lia.
Qed.

Lemma grow_stack_ok b s d ps :
  Built b s d ps -> stackSize b <= stackPos b -> 4 + Z.of_nat (length d) <= L ->
  exists b' s', _bson_append_grow_stack b s = Ret (BSON_OK, b', s') /\ Built b' s' d ps /\
    (length ps < length (stack_cells b'))%nat /\ dataSize b' = dataSize b /\ cur b' = cur b /\ data b' = data b.
Proof.
  intros B Hfull HdL. pose proof (b_ssize _ _ _ _ _ B) as [Hss Hsb].
  pose proof (b_pos _ _ _ _ _ B) as Hpos. pose proof (b_depth _ _ _ _ _ B) as Hdep.
  pose proof (b_cells _ _ _ _ _ B) as Hcl. pose proof (b_own _ _ _ _ _ B) as Hown.
  pose proof (b_local _ _ _ _ _ B) as Hloc. pose proof (b_room _ _ _ _ _ B) as Hroom.
  unfold _bson_append_grow_stack, stack_cells in *. destruct (stackPtr b) as [| |q a] eqn:Esp.
  - cbn [length] in *. assert (ps = []) as -> by (apply length_zero_iff_nil; lia).
    do 2 eexists. split; [done|]. split; [|unfold stack_cells, STACK_LEN in *; cbn [set_stack stackPtr stack length]; rewrite Hloc; split_and!; (done || lia)].
    replace s with (set_hp s (hp s)) by (by destruct s).
    apply Built_heap; try apply B; try done; unfold stack_cells; cbn [set_stack stackPtr stack]; rewrite ?Hloc; try (cbn; lia).
    + reflexivity.
    + unfold SIZEOF_STACK, SIZEOF_SIZE_T. change (256 / 8) with 32. lia.
  - destruct (malloc_some (hp s) (2 * SIZEOF_STACK)) as [[p h] Hm]; [unfold SIZEOF_STACK; lia|].
    unfold bson_malloc. rewrite wrapU_id by (unfold in_u, SIZEOF_STACK; lia). rewrite Hm.
    cbn [bson_fatal_msg]. rewrite !bind_Ret_l.
    apply malloc_ok in Hm; [|unfold SIZEOF_STACK; lia]. pose proof Hm as (Hp0 & Hnew & Hblk & Hin & Hout).
    destruct (Z.eqb_spec p NULL); [unfold NULL in *; lia|]. do 2 eexists. split; [done|].
    split; [|unfold stack_cells; cbn [set_stack stackPtr data cur dataSize]; rewrite length_app, length_replicate, Hloc; unfold STACK_LEN in *; split_and!; (done || lia)].
    assert (Hpd : p <> data b) by (intros ->; rewrite (b_blk _ _ _ _ _ B) in Hnew; done).
    apply Built_heap; try done; unfold stack_cells; cbn [set_stack stackPtr stack]; rewrite ?length_app, ?length_replicate, ?Hloc; try (unfold STACK_LEN, STACK_DOUBLE in *; cbn; lia).
    + eapply malloc_heap_ok; [exact Hm|apply B].
    + rewrite Hblk, lookup_insert_ne by done. apply B.
    + intros x Hx. destruct (heap_mapped _ (b_heap _ _ _ _ _ B) _ _ (b_blk _ _ _ _ _ B)) as [_ Hmap].
      apply Hout. intros Hx'. destruct (Hin x Hx') as [Hn _]. destruct (Hmap x Hx) as [v Hv]. congruence.
    + reflexivity.
    + change STACK_DOUBLE with 64. lia.
    + intros i x Hi. rewrite lookup_app_l; [by apply Hcl|]. rewrite Hloc. apply lookup_lt_Some in Hi. lia.
    + rewrite Hblk, lookup_insert_eq. split_and!; [done|unfold STACK_LEN; lia|done].
  - destruct Hown as (Hq & Ha & Hqb). sint_step.
    unfold bson_realloc. rewrite bool_decide_true by (right; rewrite Hqb; eauto).
    assert (Hsz : u64 (u64 (u64 (stackSize b * 2) * SIZEOF_SIZE_T)) = 16 * stackSize b).
    { unfold SIZEOF_SIZE_T. rewrite (wrapU_id 64 (stackSize b * 2)) by (unfold in_u; lia).
      rewrite (wrapU_id 64 (stackSize b * 2 * 8)) by (unfold in_u; lia).
      rewrite wrapU_id by (unfold in_u; lia). lia. }
    rewrite Hsz.
    destruct (realloc_some (hp s) q _ (16 * stackSize b) (b_heap _ _ _ _ _ B) Hqb) as [[p h] Hre]; [lia|].
    rewrite Hre. cbn [bson_fatal_msg]. rewrite !bind_Ret_l.
    assert (R : realloc_spec (hp s) q (8 * Z.of_nat (length a)) (16 * stackSize b) p h)
      by (eapply realloc_ok; [apply B|exact Hqb|lia|exact Hre]).
    pose proof (re_pos _ _ _ _ _ _ R) as Hp. destruct (Z.eqb_spec p NULL); [unfold NULL in *; lia|].
    do 2 eexists. split; [done|].
    assert (Hla : length (a ++ replicate (length a) None) = (2 * length a)%nat) by (rewrite length_app, length_replicate; lia).
    split; [|unfold stack_cells; cbn [set_stack stackPtr data cur dataSize]; rewrite Hla; split_and!; [|done..]].
    2: lia.
    assert (Hdisj : forall x, data b <= x < data b + dataSize b -> ~ (q <= x < q + 8 * Z.of_nat (length a))).
    { intros x Hx Hx'. apply Hq. eapply (heap_disj _ (b_heap _ _ _ _ _ B)); [exact Hqb|apply B|exact Hx'|exact Hx]. }
    apply Built_heap; try done; unfold stack_cells; cbn [set_stack stackPtr stack]; rewrite ?Hla; try lia.
    + eapply realloc_heap_ok; [exact R|exact Hqb|apply B].
    + rewrite (re_blk _ _ _ _ _ _ R). rewrite lookup_insert_ne, lookup_delete_ne; [apply B|done|].
      intros ->. pose proof (re_new _ _ _ _ _ _ R) as Hnew. rewrite lookup_delete_ne in Hnew by done.
      rewrite (b_blk _ _ _ _ _ B) in Hnew. done.
    + intros x Hx. destruct (heap_mapped _ (b_heap _ _ _ _ _ B) _ _ (b_blk _ _ _ _ _ B)) as [_ Hmap].
      rewrite (re_out _ _ _ _ _ _ R), decide_False; [done|by apply Hdisj|].
      intros Hx'. destruct (Hmap x Hx) as [v Hv]. rewrite (re_fresh _ _ _ _ _ _ R) in Hv; [done|done|by apply Hdisj].
    + intros i x Hi. rewrite lookup_app_l; [by apply Hcl|]. apply Hcl, lookup_lt_Some in Hi. done.
    + split_and!; [|lia|].
      * intros ->. pose proof (re_new _ _ _ _ _ _ R) as Hnew. rewrite lookup_delete_ne in Hnew by done.
        rewrite (b_blk _ _ _ _ _ B) in Hnew. done.
      * rewrite (re_blk _ _ _ _ _ _ R), lookup_insert_eq. f_equal. lia.
Qed.

Lemma stack_push_ok b s d ps x :
  Built b s d ps -> (length ps < length (stack_cells b))%nat -> (length ps < length d)%nat ->
  exists b', stack_store b (stackPos b) x (stackPos b + 1) = Ret b' /\ Built b' s d (ps ++ [x]) /\
    dataSize b' = dataSize b /\ cur b' = cur b.
Proof.
  intros B Hr Hd. pose proof (b_pos _ _ _ _ _ B) as Hpos. pose proof (b_cells _ _ _ _ _ B) as Hcl.
  pose proof (b_ssize _ _ _ _ _ B) as [Hss Hss2]. pose proof (b_own _ _ _ _ _ B) as Hown.
  pose proof (b_local _ _ _ _ _ B) as Hloc.
  unfold stack_store. rewrite Hpos, Nat2Z.id.
  rewrite (proj2 (Z.leb_le _ _)), (proj2 (Z.ltb_lt _ _)) by lia. cbn [andb].
  set (l := <[length ps := Some x]> (stack_cells b)).
  assert (Hl : length l = length (stack_cells b)) by apply length_insert.
  assert (Hcl' : forall i y, (ps ++ [x]) !! i = Some y -> l !! i = Some (Some y)).
  { intros i y Hy. unfold l. destruct (decide (i = length ps)) as [->|Hne].
    - rewrite list_lookup_middle in Hy by done. injection Hy as ->. by rewrite list_lookup_insert_eq.
    - rewrite list_lookup_insert_ne by done. apply Hcl.
      rewrite lookup_app_l in Hy; [done|]. apply lookup_lt_Some in Hy. rewrite length_app in Hy. cbn in Hy. lia. }
  unfold stack_cells in *. destruct (stackPtr b) as [| |p a] eqn:Esp; [cbn in Hr; lia|..];
    (eexists; split; [done|]; split; [|done]); destruct B; constructor; unfold stack_cells; cbn; try done;
    rewrite ?length_app; cbn [length]; rewrite ?Hl; try lia.
  split_and!; [apply Hown|destruct Hown; lia|apply Hown].
Qed.

Lemma start_sub_ok b s d ps type name :
  Built b s d ps -> good_text name ->
  4 + Z.of_nat (length d) + Z.of_nat (length (header type name)) + 5 <= L ->
  exists b' s', start_sub type b name s = Ret (BSON_OK, b', s') /\
    Built b' s' ((d ++ header type name) ++ [0; 0; 0; 0])
      (ps ++ [4 + Z.of_nat (length (d ++ header type name))]).
Proof.
  intros B Hg HnL. unfold start_sub, with_estart.
  destruct (estart_ok b s d ps type name 5 B Hg) as (b1 & s1 & H1 & B1 & Hr1); [lia|lia|].
  rewrite H1, bind_Ret_l. change (BSON_OK =? BSON_ERROR) with false. cbv iota.
  assert (Hlen : Z.of_nat (length (d ++ header type name)) = Z.of_nat (length d) + Z.of_nat (length (header type name)))
    by (rewrite length_app; lia).
  pose proof (header_length type name) as Hhl.
  assert (Hgrow : exists b2 s2, (if stackSize b1 <=? stackPos b1 then _bson_append_grow_stack b1 s1
             else Ret (BSON_OK, b1, s1)) = Ret (BSON_OK, b2, s2) /\ Built b2 s2 (d ++ header type name) ps /\
             (length ps < length (stack_cells b2))%nat /\ dataSize b2 = dataSize b1).
  { destruct (Z.leb_spec (stackSize b1) (stackPos b1)) as [Hfull|Hroom].
    - destruct (grow_stack_ok b1 s1 _ _ B1 Hfull) as (b2 & s2 & ? & ? & ? & ? & _); [lia|]. by exists b2, s2.
    - exists b1, s1. split_and!; try done. pose proof (b_ssize _ _ _ _ _ B1) as [? _].
      pose proof (b_pos _ _ _ _ _ B1). lia. }
  destruct Hgrow as (b2 & s2 & H2 & B2 & Hcap & Hd2). rewrite H2, bind_Ret_l.
  change (BSON_OK =? BSON_ERROR) with false. cbv iota.
  pose proof (b_pos _ _ _ _ _ B2) as Hpos. pose proof (b_depth _ _ _ _ _ B) as Hdep.
  sint_step. rewrite (Built_position _ _ _ _ B2).
  destruct (stack_push_ok b2 s2 _ _ (4 + Z.of_nat (length (d ++ header type name))) B2 Hcap) as (b3 & H3 & B3 & Hd3 & _); [lia|].
  rewrite H3, bind_Ret_l.
  destruct (append32_ok b3 s2 _ _ 0 B3) as (b4 & s4 & H4 & B4 & _); [lia|].
  rewrite H4, bind_Ret_l. exists b4, s4. split; [done|]. exact B4.
Qed.

Lemma finish_object_ok b s d1 z body ps :
  Built b s (d1 ++ z ++ body) (ps ++ [4 + Z.of_nat (length d1)]) -> length z = 4%nat -> (length ps <= length d1)%nat ->
  4 + Z.of_nat (length (d1 ++ z ++ body)) + 1 <= L ->
  exists b' s', bson_append_finish_object (Some b) s = Ret (BSON_OK, Some b', s') /\
    Built b' s' (d1 ++ le_enc 4 (5 + Z.of_nat (length body)) ++ body ++ [0]) ps.
Proof.
  intros B Hz Hps HL'. unfold bson_append_finish_object.
  pose proof (b_pos _ _ _ _ _ B) as Hpos. rewrite length_app in Hpos. cbn in Hpos.
  destruct (Z.eqb_spec (stackPos b) 0); [lia|].
  destruct (ensure_space_ok b s _ _ 1 B) as (b1 & s1 & H1 & B1 & Hr1 & _); [lia..|].
  rewrite H1, bind_Ret_l. change (BSON_OK =? BSON_ERROR) with false. cbv iota.
  destruct (append_byte_ok b1 s1 _ _ 0 B1) as (b2 & s2 & H2 & B2 & Hd2); [lia|].
  rewrite H2, bind_Ret_l. change (u8 0) with 0 in B2.
  pose proof (b_pos _ _ _ _ _ B2) as Hpos2. rewrite length_app in Hpos2. cbn in Hpos2.
  pose proof (b_depth _ _ _ _ _ B) as Hdep. rewrite length_app in Hdep. cbn in Hdep.
  sint_step. unfold stack_load. destruct (Z.leb_spec 0 (stackPos b2 - 1)); [|lia].
  change (stack_cells (set_pos b2 (stack b2) (stackPtr b2) (stackPos b2 - 1))) with (stack_cells b2).
  replace (Z.to_nat (stackPos b2 - 1)) with (length ps) by lia.
  rewrite (b_cells _ _ _ _ _ B2 (length ps) (4 + Z.of_nat (length d1))) by by apply list_lookup_middle.
  change (mjoin (Some (Some ?x))) with (Some x). cbn [of_option]. rewrite bind_Ret_l. cbv zeta.
  cbn [set_pos cur data].
  assert (Hspan : cur b2 - (data b2 + (4 + Z.of_nat (length d1))) = 5 + Z.of_nat (length body)).
  { rewrite (b_cur _ _ _ _ _ B2). rewrite !length_app, Hz. cbn. lia. }
  rewrite Hspan. pose proof (b_size _ _ _ _ _ B2) as Hsz.
  assert (Htot : length ((d1 ++ z ++ body) ++ [0]) = (length d1 + 5 + length body)%nat)
    by (rewrite !length_app, Hz; cbn; lia).
  rewrite Htot in Hsz. rewrite !length_app, Hz in HL'.
  unfold INT32_MAX. destruct (Z.leb_spec 2147483647 (5 + Z.of_nat (length body))); [lia|].
  rewrite (wrapS_id 32) by (unfold in_s; lia).
  destruct (poke_ok s2 (data b2) (le_enc 4 (5 + Z.of_nat (length body))) (dataSize b2) (4 + Z.of_nat (length d1)))
    as (m & Hm & Hp & Hh); [apply B2|apply B2|lia|rewrite le_enc_length; lia|].
  rewrite Hp, bind_Ret_l. do 2 eexists. split; [done|].
  assert (Hlen' : length (d1 ++ le_enc 4 (5 + Z.of_nat (length body)) ++ body ++ [0]) = (length d1 + 5 + length body)%nat)
    by (rewrite !length_app, le_enc_length; cbn; lia).
  assert (Hdata : mload m (data b2 + 4) (length d1 + 5 + length body) =
    Some (d1 ++ le_enc 4 (5 + Z.of_nat (length body)) ++ body ++ [0])).
  { pose proof (b_data _ _ _ _ _ B2) as Hd. rewrite Htot in Hd.
    replace (length d1 + 5 + length body)%nat with (length d1 + (4 + (length body + 1)))%nat in * by lia.
    apply mload_app_inv in Hd as [Hda Hdb]. apply mload_app_inv in Hdb as [_ Hdc].
    rewrite <- !app_assoc, take_app_length in Hda. rewrite <- !app_assoc, drop_app_length in Hdc.
    rewrite <- Hz, drop_app_length in Hdc.
    apply mload_app; [|apply mload_app].
    - erewrite mload_mstore_disj; [exact Hda|exact Hm|left; lia].
    - replace (data b2 + 4 + Z.of_nat (length d1)) with (data b2 + (4 + Z.of_nat (length d1))) by lia.
      pose proof (mload_mstore_same _ _ _ _ Hm) as Hsame. by rewrite le_enc_length in Hsame.
    - erewrite mload_mstore_disj; [|exact Hm|right; rewrite le_enc_length; lia]. by rewrite Hz in Hdc. }
  set (d' := d1 ++ le_enc 4 (5 + Z.of_nat (length body)) ++ body ++ [0]) in *. clearbody d'.
  destruct B2. constructor; cbn; rewrite ?Hlen', ?Htot, ?length_app in *; cbn [length] in *; try done; try lia.
  - change (stack_cells (set_pos _ _ _ _)) with (stack_cells b2). lia.
  - intros i x Hi. apply b_cells0. rewrite lookup_app_l; [done|by eapply lookup_lt_Some].
Qed.
End Build.

(** ** Building a document by the calls of the builder *)

Section Documents.
Context {E : Type} {EV : BsonEnv E} {EOk : BsonEnvOk E} {A : Allocator} {AOk : AllocatorOk A}.
Context {RA : Reallocator} {ROk : ReallocatorOk RA} {ME : MemoryEnough A RA}.
Implicit Types (b : bson) (s : st E).

(** One call after the other, as long as they return BSON_OK. *)
Definition chain (r : res (Z * bson * st E)) (k : bson -> st E -> res (Z * bson * st E)) : res (Z * bson * st E) :=
  '(c, b, s) ← r; if c =? BSON_OK then k b s else Ret (c, b, s).
Definition finish_sub b s : res (Z * bson * st E) :=
  '(c, ob, s) ← bson_append_finish_object (Some b) s; Ret (c, default b ob, s).

Fixpoint put (v : value) (k : bytes) b s : res (Z * bson * st E) :=
  match v with
  | VDouble d => bson_append_double b k d s
  | VString t => bson_append_string b k t s
  | VSymbol t => bson_append_symbol b k t s
  | VCode t => bson_append_code b k t s
  | VBin type t => bson_append_binary b k type t (Z.of_nat (length t)) s
  | VUndefined => bson_append_undefined b k s
  | VOid o => bson_append_oid b k o s
  | VBool v => bson_append_bool b k (if v then 1 else 0) s
  | VDate n => bson_append_date b k n s
  | VNull => bson_append_null b k s
  | VRegex p o => bson_append_regex b k p o s
  | VInt n => bson_append_int b k n s
  | VTimestamp i t => bson_append_timestamp2 b k t i s
  | VLong n => bson_append_long b k n s
  | VDoc a l =>
      chain (if a then bson_append_start_array b k s else bson_append_start_object b k s) (fun b s =>
      chain ((fix go (l : list (bytes * value)) b s : res (Z * bson * st E) :=
        match l with
        | [] => Ret (BSON_OK, b, s)
        | (k, x) :: l => chain (put x k b s) (go l)
        end) l b s) finish_sub)
  end.
Fixpoint put_all (l : list (bytes * value)) b s : res (Z * bson * st E) :=
  match l with [] => Ret (BSON_OK, b, s) | (k, x) :: l => chain (put x k b s) (put_all l) end.

Definition build_doc (l : list (bytes * value)) s : res (Z * bson * st E) :=
  chain (bson_init s) (fun b s => chain (put_all l b s) bson_finish).

(** What the texts must satisfy. *)
Fixpoint texts_ok (v : value) : Prop :=
  match v with
  | VString t | VSymbol t | VCode t => good_text t
  | VRegex p _ => good_text p
  | VOid o => length o = 12%nat
  | VDoc _ l => (fix go (l : list (bytes * value)) : Prop :=
      match l with [] => True | (k, x) :: l => good_text k /\ texts_ok x /\ go l end) l
  | _ => True
  end.
Fixpoint all_texts_ok (l : list (bytes * value)) : Prop :=
  match l with [] => True | (k, x) :: l => good_text k /\ texts_ok x /\ all_texts_ok l end.

Lemma texts_ok_doc a l : texts_ok (VDoc a l) = all_texts_ok l.
Proof. reflexivity. Qed.
Lemma put_doc a l k b s :
  put (VDoc a l) k b s = chain (start_sub (vtype (VDoc a l)) b k s) (fun b s => chain (put_all l b s) finish_sub).
Proof. destruct a; reflexivity. Qed.

Context (L : Z) (HL : 5 <= L <= 2 ^ 28).
Local Abbreviation Built := (Built L).

Lemma put_text_ok type t k b s d ps :
  Built b s d ps -> good_text k -> good_text t ->
  4 + Z.of_nat (length d) + Z.of_nat (length (header type k)) + Z.of_nat (length (enc_text t)) <= L ->
  exists b' s', bson_append_string_base b k (string_of t) (Z.of_nat (length t)) type s = Ret (BSON_OK, b', s') /\
    Built b' s' (d ++ header type k ++ enc_text t) ps.
Proof.
  intros B Hk Ht HnL.
  assert (Hlen : Z.of_nat (length (enc_text t)) = 5 + Z.of_nat (length t)).
  { unfold enc_text. rewrite !length_app, le_enc_length. cbn. lia. }
  unfold bson_append_string_base. rewrite wrapU_id by (unfold in_u; lia). unfold INT32_MAX.
  destruct (Z.ltb_spec 2147483647 (Z.of_nat (length t) + 1)); [lia|]. cbv zeta.
  replace (Z.of_nat (length t) + 1 - 1) with (Z.of_nat (length t)) by lia.
  assert (Hfb : from_buf (string_of t) (Z.of_nat (length t)) = Ret t) by apply from_buf_app.
  rewrite Hfb, bind_Ret_l.
  destruct (check_string_ok b t Ht) as (e & He & Hbit). rewrite He.
  change (BSON_OK =? BSON_ERROR) with false. cbv iota.
  apply with_estart_ok; [done|by apply Built_set_err|done|lia|lia|].
  intros b1 s1 d1 B1 Hr1.
  destruct (append_int_ok L b1 s1 d1 ps (Z.of_nat (length t) + 1) B1) as (b2 & s2 & H2 & B2 & Hd2); [lia|].
  rewrite H2, bind_Ret_l.
  destruct (append_ok L b2 s2 _ ps t [0] _ B2 eq_refl) as (b3 & s3 & H3 & B3 & Hd3); [rewrite length_app, le_enc_length; lia|].
  unfold string_of. rewrite H3, bind_Ret_l.
  destruct (append_all_ok L b3 s3 _ ps [0] 1 B3 eq_refl) as (b4 & s4 & H4 & B4 & Hd4); [rewrite !length_app, le_enc_length; lia|].
  rewrite H4, bind_Ret_l. exists b4, s4. split; [done|]. unfold enc_text. by rewrite !app_assoc.
Qed.

Lemma put_bin_ok type t k b s d ps :
  Built b s d ps -> good_text k ->
  4 + Z.of_nat (length d) + Z.of_nat (length (header BSON_BINDATA k)) + Z.of_nat (length (enc_value (VBin type t))) <= L ->
  exists b' s', bson_append_binary b k type t (Z.of_nat (length t)) s = Ret (BSON_OK, b', s') /\
    Built b' s' (d ++ header BSON_BINDATA k ++ enc_value (VBin type t)) ps.
Proof.
  intros B Hk. cbn [enc_value]. unfold bson_append_binary.
  destruct (Z.eqb_spec type BSON_BIN_BINARY_OLD); rewrite !length_app, !le_enc_length; cbn [length]; intros HnL.
  - rewrite !wrapU_id by (unfold in_u; lia).
    apply with_estart_ok; [done|done|done|rewrite !length_app, !le_enc_length; cbn; lia|lia|].
    intros b1 s1 d1 B1 Hr1.
    destruct (append_int_ok L b1 s1 d1 ps (Z.of_nat (length t) + 4) B1) as (b2 & s2 & H2 & B2 & Hd2); [lia|].
    rewrite H2, bind_Ret_l.
    destruct (append_byte_ok L b2 s2 _ ps type B2) as (b3 & s3 & H3 & B3 & Hd3); [rewrite length_app, le_enc_length; lia|].
    rewrite H3, bind_Ret_l.
    destruct (append_int_ok L b3 s3 _ ps (Z.of_nat (length t)) B3) as (b4 & s4 & H4 & B4 & Hd4);
      [rewrite !length_app, le_enc_length; cbn; lia|].
    rewrite H4, bind_Ret_l.
    destruct (append_all_ok L b4 s4 _ ps t _ B4 eq_refl) as (b5 & s5 & H5 & B5 & _);
      [rewrite !length_app, !le_enc_length; cbn; lia|].
    rewrite H5, bind_Ret_l. exists b5, s5. split; [done|]. by rewrite !app_assoc in *.
  - rewrite !wrapU_id by (unfold in_u; lia).
    apply with_estart_ok; [done|done|done|rewrite !length_app, !le_enc_length; cbn; lia|lia|].
    intros b1 s1 d1 B1 Hr1.
    destruct (append_int_ok L b1 s1 d1 ps (Z.of_nat (length t)) B1) as (b2 & s2 & H2 & B2 & Hd2); [lia|].
    rewrite H2, bind_Ret_l.
    destruct (append_byte_ok L b2 s2 _ ps type B2) as (b3 & s3 & H3 & B3 & Hd3); [rewrite length_app, le_enc_length; lia|].
    rewrite H3, bind_Ret_l.
    destruct (append_all_ok L b3 s3 _ ps t _ B3 eq_refl) as (b5 & s5 & H5 & B5 & _);
      [rewrite !length_app, !le_enc_length; cbn; lia|].
    rewrite H5, bind_Ret_l. exists b5, s5. split; [done|]. by rewrite !app_assoc in *.
Qed.

Lemma put_regex_ok p o k b s d ps :
  Built b s d ps -> good_text k -> good_text p ->
  4 + Z.of_nat (length d) + Z.of_nat (length (header BSON_REGEX k)) + Z.of_nat (length (enc_value (VRegex p o))) <= L ->
  exists b' s', bson_append_regex b k p o s = Ret (BSON_OK, b', s') /\
    Built b' s' (d ++ header BSON_REGEX k ++ enc_value (VRegex p o)) ps.
Proof.
  intros B Hk Hp. cbn [enc_value]. rewrite !length_app. cbn [length]. intros HnL.
  unfold bson_append_regex. apply with_estart_ok; [done|done|done|rewrite !length_app; cbn; lia|lia|].
  intros b1 s1 d1 B1 Hr1.
  destruct (check_string_ok b1 p Hp) as (e & He & Hbit). rewrite He.
  change (BSON_OK =? BSON_ERROR) with false. cbv iota.
  destruct (append_all_ok L (set_err b1 e) s1 d1 ps (string_of p) (Z.of_nat (length p) + 1)) as (b2 & s2 & H2 & B2 & Hd2).
  { by apply Built_set_err. } { unfold string_of. rewrite length_app. cbn. lia. } { cbn. lia. }
  rewrite H2, bind_Ret_l. cbn in Hd2.
  destruct (append_all_ok L b2 s2 _ ps (string_of o) (Z.of_nat (length o) + 1) B2) as (b3 & s3 & H3 & B3 & Hd3).
  { unfold string_of. rewrite length_app. cbn. lia. } { unfold string_of. rewrite !length_app. cbn. lia. }
  rewrite H3, bind_Ret_l. exists b3, s3. split; [done|]. rewrite <- app_assoc in B3. exact B3.
Qed.

Lemma put_timestamp_ok i t k b s d ps :
  Built b s d ps -> good_text k ->
  4 + Z.of_nat (length d) + Z.of_nat (length (header BSON_TIMESTAMP k)) + 8 <= L ->
  exists b' s', bson_append_timestamp2 b k t i s = Ret (BSON_OK, b', s') /\
    Built b' s' (d ++ header BSON_TIMESTAMP k ++ le_enc 4 i ++ le_enc 4 t) ps.
Proof.
  intros B Hk HnL. apply with_estart_ok; [done|done|done|done|lia|].
  intros b1 s1 d1 B1 Hr1.
  destruct (append32_ok L b1 s1 d1 ps i B1) as (b2 & s2 & H2 & B2 & Hd2); [lia|]. rewrite H2, bind_Ret_l.
  destruct (append32_ok L b2 s2 _ ps t B2) as (b3 & s3 & H3 & B3 & Hd3); [rewrite length_app, le_enc_length; lia|].
  rewrite H3, bind_Ret_l. exists b3, s3. split; [done|]. by rewrite <- app_assoc in B3.
Qed.

Definition put_spec (v : value) : Prop := forall k b s d ps,
  Built b s d ps -> good_text k -> texts_ok v ->
  4 + Z.of_nat (length d) + Z.of_nat (length (header (vtype v) k)) + Z.of_nat (length (enc_value v)) <= L ->
  exists b' s', put v k b s = Ret (BSON_OK, b', s') /\ Built b' s' (d ++ header (vtype v) k ++ enc_value v) ps.

Lemma put_all_ok l : Forall (fun kv => put_spec kv.2) l -> forall b s d ps,
  Built b s d ps -> all_texts_ok l -> 4 + Z.of_nat (length d) + Z.of_nat (length (enc_body l)) <= L ->
  exists b' s', put_all l b s = Ret (BSON_OK, b', s') /\ Built b' s' (d ++ enc_body l) ps.
Proof.
  induction 1 as [|[k x] l Hx Hl IH]; intros b s d ps B Hok HnL; cbn [put_all enc_body all_texts_ok snd] in *.
  { exists b, s. by rewrite app_nil_r. }
  destruct Hok as (Hk & Hxt & Hlt). rewrite !length_app in HnL.
  destruct (Hx k b s d ps B Hk Hxt) as (b1 & s1 & H1 & B1); [lia|].
  unfold chain at 1. rewrite H1, bind_Ret_l. change (BSON_OK =? BSON_OK) with true. cbv iota.
  destruct (IH b1 s1 _ ps B1 Hlt) as (b2 & s2 & H2 & B2); [rewrite !length_app; lia|].
  exists b2, s2. split; [done|]. by rewrite <- !app_assoc in B2.
Qed.

Lemma put_doc_ok a l : Forall (fun kv => put_spec kv.2) l -> put_spec (VDoc a l).
Proof.
  intros Hl k b s d ps B Hk Ht HnL. rewrite texts_ok_doc in Ht. rewrite put_doc, enc_value_doc in *.
  assert (Hlen : Z.of_nat (length (enc_doc l)) = 5 + Z.of_nat (length (enc_body l))).
  { unfold enc_doc, enc_frame. rewrite !length_app, le_enc_length. cbn. lia. }
  destruct (start_sub_ok L HL b s d ps (vtype (VDoc a l)) k B Hk) as (b1 & s1 & H1 & B1); [lia|].
  unfold chain at 1. rewrite H1, bind_Ret_l. change (BSON_OK =? BSON_OK) with true. cbv iota.
  destruct (put_all_ok l Hl b1 s1 _ _ B1 Ht) as (b2 & s2 & H2 & B2);
    [rewrite !length_app; change (length [0; 0; 0; 0]) with 4%nat; lia|].
  unfold chain at 1. rewrite H2, bind_Ret_l. change (BSON_OK =? BSON_OK) with true. cbv iota.
  pose proof (b_depth _ _ _ _ _ B). rewrite <- app_assoc in B2.
  destruct (finish_object_ok L HL b2 s2 (d ++ header (vtype (VDoc a l)) k) [0; 0; 0; 0] (enc_body l) ps B2)
    as (b3 & s3 & H3 & B3); [done|rewrite length_app; lia|rewrite !length_app; change (length [0; 0; 0; 0]) with 4%nat; lia|].
  unfold finish_sub. rewrite H3, bind_Ret_l. exists b3, s3. split; [done|]. by rewrite <- app_assoc in B3.
Qed.

Lemma put_ok v : put_spec v.
Proof.
  induction v as [v IH] using value_ind'. intros k b s d ps B Hk Ht HnL.
  destruct v as [z|t|t|t|ty t| |o|w|z| |p o|z|i t|z|a l]; cbn [put vtype texts_ok] in *.
  - apply with_estart_ok; [done|done|done|done|exact HnL|]. intros b1 s1 d1 B1 Hr1.
    destruct (append64_ok L b1 s1 d1 ps z B1 Hr1) as (b2 & s2 & H2 & B2 & _). rewrite H2. by exists b2, s2.
  - by apply put_text_ok.
  - by apply put_text_ok.
  - by apply put_text_ok.
  - by apply put_bin_ok.
  - apply with_estart_ok; [done|done|done|done|exact HnL|]. intros b1 s1 d1 B1 Hr1.
    exists b1, s1. by rewrite app_nil_r.
  - apply with_estart_ok; [done|done|done|cbn; lia|cbn [enc_value] in HnL; lia|]. intros b1 s1 d1 B1 Hr1.
    destruct (append_all_ok L b1 s1 d1 ps o 12 B1) as (b2 & s2 & H2 & B2 & _); [lia|lia|]. rewrite H2. by exists b2, s2.
  - apply with_estart_ok; [done|done|done|done|exact HnL|]. intros b1 s1 d1 B1 Hr1.
    destruct (append_byte_ok L b1 s1 d1 ps (if (if w then 1 else 0) =? 0 then 0 else 1) B1 Hr1) as (b2 & s2 & H2 & B2 & _).
    rewrite H2. exists b2, s2. by destruct w.
  - apply with_estart_ok; [done|done|done|done|exact HnL|]. intros b1 s1 d1 B1 Hr1.
    destruct (append64_ok L b1 s1 d1 ps z B1 Hr1) as (b2 & s2 & H2 & B2 & _). rewrite H2. by exists b2, s2.
  - apply with_estart_ok; [done|done|done|done|exact HnL|]. intros b1 s1 d1 B1 Hr1.
    exists b1, s1. by rewrite app_nil_r.
  - by apply put_regex_ok.
  - apply with_estart_ok; [done|done|done|done|exact HnL|]. intros b1 s1 d1 B1 Hr1.
    destruct (append32_ok L b1 s1 d1 ps z B1 Hr1) as (b2 & s2 & H2 & B2 & _). rewrite H2. by exists b2, s2.
  - by apply put_timestamp_ok.
  - apply with_estart_ok; [done|done|done|done|exact HnL|]. intros b1 s1 d1 B1 Hr1.
    destruct (append64_ok L b1 s1 d1 ps z B1 Hr1) as (b2 & s2 & H2 & B2 & _). rewrite H2. by exists b2, s2.
  - apply put_doc_ok; done.
Qed.

Lemma bson_malloc_ok s n : heap_ok (hp s) -> 0 <= n <= 2 ^ 32 ->
  exists p s', bson_malloc n s = Ret (p, s') /\ malloc_spec (hp s) n p (hp s').
Proof.
  intros Hh Hn. unfold bson_malloc. rewrite wrapU_id by (unfold in_u; lia).
  destruct (malloc_some (hp s) n Hn) as [[p h] Hm]. rewrite Hm. cbn [bson_fatal_msg]. rewrite bind_Ret_l.
  exists p. eexists. split; [done|]. by apply malloc_ok; [lia|].
Qed.

Lemma init_size_ok s n : heap_ok (hp s) -> 4 <= n <= 2 ^ 31 ->
  exists p s', bson_init_size n s = Ret (BSON_OK, Bson p (p + 4) n 0 1 (replicate STACK_LEN (Some 0)) 0 0 StackNull 0, s') /\
    malloc_spec (hp s) n p (hp s').
Proof.
  intros Hh Hn. unfold bson_init_size. destruct (Z.eqb_spec n 0); [lia|]. cbn [negb].
  destruct (bson_malloc_ok s n Hh) as (p & s1 & H & Hm); [lia|]. rewrite H, bind_Ret_l.
  destruct (Z.eqb_spec p NULL); [destruct Hm; unfold NULL in *; lia|]. by exists p, s1.
Qed.

Lemma init_ok s : heap_ok (hp s) ->
  exists b s', bson_init s = Ret (BSON_OK, b, s') /\ Built b s' [] [].
Proof.
  intros Hh. unfold bson_init.
  destruct (init_size_ok s initialBufferSize Hh) as (p & s1 & H & Hm); [unfold initialBufferSize; lia|].
  rewrite H. do 2 eexists. split; [done|]. pose proof Hm as (_ & _ & Hblk & _).
  constructor; cbn; try done; try lia.
  - eapply malloc_heap_ok; [exact Hm|done].
  - rewrite Hblk, lookup_insert_eq. done.
  - unfold initialBufferSize. lia.
Qed.

Lemma finish_ok b s d :
  Built b s d [] -> 4 + Z.of_nat (length d) + 1 <= L ->
  exists b' s', bson_finish b s = Ret (BSON_OK, b', s') /\ Closed b' s' (enc_frame d).
Proof.
  intros B HnL. unfold bson_finish. rewrite (b_err _ _ _ _ _ B), (b_open _ _ _ _ _ B).
  change (0 =? 0) with true. cbn [negb]. rewrite (b_pos _ _ _ _ _ B). cbn [length].
  change (Z.of_nat 0 =? 0) with true. cbn [bson_fatal_msg]. rewrite bind_Ret_l.
  destruct (ensure_space_ok L HL b s _ _ 1 B) as (b1 & s1 & H1 & B1 & Hr1 & _); [lia..|].
  rewrite H1, bind_Ret_l. change (BSON_OK =? BSON_ERROR) with false. cbv iota.
  destruct (append_byte_ok L b1 s1 _ _ 0 B1) as (b2 & s2 & H2 & B2 & Hd2); [lia|].
  rewrite H2, bind_Ret_l. rewrite (Built_position L HL _ _ _ _ B2). rewrite length_app. cbn [length].
  unfold INT32_MAX. destruct (Z.leb_spec 2147483647 (4 + Z.of_nat (length d + 1))); [lia|].
  rewrite (wrapS_id 32) by (unfold in_s; lia). pose proof (b_size _ _ _ _ _ B2) as Hsz. rewrite length_app in Hsz. cbn [length] in Hsz.
  destruct (poke_ok s2 (data b2) (le_enc 4 (4 + Z.of_nat (length d + 1))) (dataSize b2) 0)
    as (m & Hm & Hp & Hh); [apply B2|apply B2|lia|rewrite le_enc_length; lia|].
  rewrite Z.add_0_r in *. rewrite Hp, bind_Ret_l. do 2 eexists. split; [done|].
  assert (Hlen : length (enc_frame d) = (4 + length (d ++ [0%Z]))%nat) by (unfold enc_frame; by rewrite length_app, le_enc_length).
  change (u8 0) with 0 in *. remember (enc_frame d) as fr eqn:Hfr. destruct B2. constructor; cbn; try done.
  - exists (dataSize b2). split; [done|]. rewrite Hlen, length_app. cbn [length]. lia.
  - rewrite Hlen, Hfr. unfold enc_frame. replace (5 + Z.of_nat (length d)) with (4 + Z.of_nat (length d + 1)) by lia.
    apply mload_app; [pose proof (mload_mstore_same _ _ _ _ Hm) as Hsame; by rewrite le_enc_length in Hsame|].
    erewrite mload_mstore_disj; [exact b_data0|exact Hm|right; rewrite le_enc_length; lia].
  - destruct (stackPtr b2); [done|done|]. destruct b_own0 as (? & _ & ->). eauto.
Qed.

Lemma build_doc_ok l s :
  heap_ok (hp s) -> all_texts_ok l -> Z.of_nat (length (enc_doc l)) <= L ->
  exists b s', build_doc l s = Ret (BSON_OK, b, s') /\ Closed b s' (enc_doc l).
Proof.
  intros Hh Ht HnL. unfold build_doc.
  assert (Hlen : Z.of_nat (length (enc_doc l)) = 5 + Z.of_nat (length (enc_body l))).
  { unfold enc_doc, enc_frame. rewrite !length_app, le_enc_length. cbn. lia. }
  destruct (init_ok s Hh) as (b1 & s1 & H1 & B1).
  unfold chain at 1. rewrite H1, bind_Ret_l. change (BSON_OK =? BSON_OK) with true. cbv iota.
  destruct (put_all_ok l (Forall_true _ _ (fun kv => put_ok kv.2)) b1 s1 _ _ B1 Ht) as (b2 & s2 & H2 & B2); [cbn; lia|].
  unfold chain at 1. rewrite H2, bind_Ret_l. change (BSON_OK =? BSON_OK) with true. cbv iota.
  apply finish_ok; [exact B2|cbn; lia].
Qed.

(** *** Copies of finished documents *)

(** [b'] is a document in a block of its own, of which [b] knows nothing. *)
Definition apart (b b' : bson) : Prop :=
  data b' <> data b /\ stackPtr b' = StackNull /\ match stackPtr b with StackHeap p _ => p <> data b' | _ => True end.

Lemma bson_copy_ok o b s body : Closed b s (enc_frame body) -> 5 + Z.of_nat (length body) <= L ->
  exists b' s', bson_copy (Some o) (Some b) s = Ret (BSON_OK, Some b', s') /\
    Closed b' s' (enc_frame body) /\ Closed b s' (enc_frame body) /\ apart b b'.
Proof.
  intros C HnL. assert (Hlen : Z.of_nat (length (enc_frame body)) = 5 + Z.of_nat (length body)).
  { unfold enc_frame. rewrite !length_app, le_enc_length. cbn. lia. }
  destruct C as [Hf Ho Hh (n & Hn & Hnl) Hd Hst].
  assert (Hld : load_int s (data b) = Ret (5 + Z.of_nat (length body))).
  { unfold load_int. assert (H4 : mload (mem s) (data b) 4 = Some (le_enc 4 (5 + Z.of_nat (length body)))).
    { remember (enc_frame body) as d eqn:Ed. unfold enc_frame in Ed. rewrite Ed, length_app, le_enc_length in Hd.
      apply mload_app_inv in Hd as [Hd _]. rewrite take_app_length' in Hd by by rewrite le_enc_length. exact Hd. }
    rewrite H4. cbn [of_option]. rewrite bind_Ret_l. f_equal. change 32 with (8 * Z.of_nat 4). rewrite wrapS_le.
    apply wrapS_id; unfold in_s; lia. }
  unfold bson_copy. rewrite Hf. change (1 =? 0) with false. cbv iota. unfold bson_init_finished_data_with_copy, bson_finished_data_size.
  rewrite Hld, bind_Ret_l. destruct (init_size_ok s (5 + Z.of_nat (length body)) Hh) as (q & s1 & H1 & Hm); [lia|].
  rewrite H1, bind_Ret_l. change (BSON_OK =? BSON_ERROR) with false. cbv iota. cbn [data]. rewrite wrapU_id by (unfold in_u; lia).
  remember (enc_frame body) as d eqn:Ed. clear Ed.
  assert (Hd1 : mload (mem s1) (data b) (length d) = Some d) by (eapply malloc_mload; [exact Hm|exact Hd]).
  rewrite <- Hlen, (loadz_mload _ _ _ Hd1). cbn [of_option]. rewrite bind_Ret_l.
  pose proof Hm as (Hq & Hnew & Hblk & _ & _). pose proof (malloc_heap_ok _ _ _ _ Hm Hh) as Hh1.
  assert (Hqb : q <> data b) by (intros ->; congruence).
  destruct (poke_ok s1 q d (5 + Z.of_nat (length body)) 0) as (m & Hs & Hp & Hh2);
    [done|by rewrite Hblk, lookup_insert_eq|lia|lia|]. rewrite Z.add_0_r in *. rewrite Hp, !bind_Ret_l.
  do 2 eexists. split; [done|]. split_and!.
  - constructor; cbn; try done; [|by eapply mload_mstore_same]. exists (5 + Z.of_nat (length body)). split; [|lia].
    by rewrite Hblk, lookup_insert_eq.
  - constructor; cbn; try done.
    + exists n. split; [|done]. by rewrite Hblk, lookup_insert_ne.
    + erewrite mload_mstore_disj; [exact Hd1|exact Hs|].
      assert (Hb1 : h_blk (hp s1) !! data b = Some n) by by rewrite Hblk, lookup_insert_ne.
      assert (Hb2 : h_blk (hp s1) !! q = Some (5 + Z.of_nat (length body))) by by rewrite Hblk, lookup_insert_eq.
      destruct (blocks_apart _ _ _ _ _ Hh1 Hb1 Hb2) as [|[|[|]]]; (congruence || lia).
    + destruct (stackPtr b) as [| |p ?]; try done. destruct Hst as [Hne [k Hk]]. split; [done|].
      rewrite Hblk, lookup_insert_ne by congruence. eauto.
  - split; [done|]. split; [done|]. cbn. destruct (stackPtr b) as [| |p ?]; try done. destruct Hst as [_ [k Hk]]. congruence.
Qed.

Lemma free_Closed p n b s d : Closed b s d -> h_blk (hp s) !! p = Some n -> p <> data b -> stackPtr b = StackNull ->
  exists s', bson_free p s = Ret s' /\ Closed b s' d /\ h_blk (hp s') = delete p (h_blk (hp s)).
Proof.
  intros [Hf Ho Hh (k & Hk & Hkl) Hd _] Hp Hne Hst.
  destruct (free_heap_ok _ _ _ Hh Hp) as (h & H & Hh' & Hblk & Hmem). unfold bson_free. rewrite H, bind_Ret_l.
  eexists. split; [done|]. split; [|done]. constructor; cbn; try done.
  - exists k. split; [|done]. by rewrite Hblk, lookup_delete_ne.
  - rewrite mload_lookup in *. destruct Hd as [_ Hd]. split; [done|]. intros i Hi. rewrite Hmem; [by apply Hd|].
    destruct (blocks_apart _ _ _ _ _ Hh Hp Hk Hne) as [|[|[|]]]; lia.
  - by rewrite Hst.
Qed.

(** Destroying a document leaves the others. *)
Lemma bson_destroy_ok b s d b' d' : Closed b s d -> Closed b' s d' -> apart b b' ->
  exists b1 s1, bson_destroy b s = Ret (b1, s1) /\ Closed b' s1 d'.
Proof.
  intros [Hf Ho Hh (n & Hn & _) _ Hst] C' (Hne & Hst' & Hsp). unfold bson_destroy. rewrite Ho. change (negb (1 =? 0)) with true.
  destruct (Z.eqb_spec (data b) NULL) as [Hz|_]; [destruct (heap_mapped _ Hh _ _ Hn); unfold NULL in *; lia|]. cbn [negb andb].
  destruct (free_Closed (data b) n b' s d' C' Hn) as (s1 & H1 & C1 & Hblk); [congruence|done|]. rewrite H1, bind_Ret_l.
  destruct (stackPtr b) as [| |p a]; try (rewrite bind_Ret_l; eauto; fail).
  destruct Hst as [Hp [k Hk]].
  destruct (free_Closed p k b' s1 d' C1) as (s2 & H2 & C2 & _); [by rewrite Hblk, lookup_delete_ne|done|done|].
  rewrite H2, !bind_Ret_l. eauto.
Qed.
End Documents.
