(* ===== verification/BsonIter.v ===== *)
(** * BsonIter: reading BSON documents, ObjectIds, and the round trip

    Source: src/src/bson/bson.c (iterators, printing, ObjectIds, bson_append_element).
    An iterator is a raw address into the memory; every access reads the memory at
    the address the C code computes, with the lengths found in the data. *)
From Stdlib Require Import SpecFloat.
From S2P Require Import Prelude Mem CStr Lua Bson BsonBuild.
Local Open Scope Z_scope.

(** ** Doubles as 64 bits (IEEE binary64) *)

Definition d_of_bits (z : Z) : lnumber :=
  let s := Z.testbit z 63 in
  let e := Z.land (Z.shiftr z 52) 2047 in
  let f := Z.land z (2 ^ 52 - 1) in
  if e =? 2047 then if f =? 0 then S754_infinity s else S754_nan
  else
    match (if e =? 0 then f else 2 ^ 52 + f) with
    | Zpos m => S754_finite s m (if e =? 0 then -1074 else e - 1075)
    | _ => S754_zero s
    end.

Definition sign_bit (s : bool) : Z := if s then 2 ^ 63 else 0.
(** The other way; every NaN is written as the quiet one. *)
Definition bits_of_d (d : lnumber) : Z :=
  match d with
  | S754_zero s => sign_bit s
  | S754_infinity s => sign_bit s + 2047 * 2 ^ 52
  | S754_nan => 2047 * 2 ^ 52 + 2 ^ 51
  | S754_finite s m e =>
      sign_bit s + (if Z.pos m <? 2 ^ 52 then Z.pos m else (e + 1075) * 2 ^ 52 + (Z.pos m - 2 ^ 52))
  end.

(** The numbers a double can hold. *)
Definition is_double (d : lnumber) : Prop :=
  match d with
  | S754_finite _ m e => (2 ^ 52 <= Z.pos m < 2 ^ 53 /\ - 1074 <= e <= 971) \/ (Z.pos m < 2 ^ 52 /\ e = - 1074)
  | _ => True
  end.

Lemma bits_fields s e f : 0 <= e < 2048 -> 0 <= f < 2 ^ 52 ->
  let z := sign_bit s + (e * 2 ^ 52 + f) in
  Z.testbit z 63 = s /\ Z.land (Z.shiftr z 52) 2047 = e /\ Z.land z (2 ^ 52 - 1) = f /\ in_u 64 z.
Proof.
  intros He Hf z.
  assert (Hz : z = (Z.b2z s * 2048 + e) * 2 ^ 52 + f) by (unfold z, sign_bit; destruct s; cbn [Z.b2z]; lia).
  assert (Hdiv : z / 2 ^ 52 = Z.b2z s * 2048 + e) by (rewrite Hz, Z.div_add_l, Z.div_small by lia; lia).
  assert (Hmod : z mod 2 ^ 52 = f) by (rewrite Hz, Z.add_comm, Z_mod_plus_full, Z.mod_small by lia; done).
  split_and!.
  - apply Z.b2z_inj. rewrite Z.testbit_spec' by lia. change (2 ^ 63) with (2 ^ 52 * 2048). rewrite <- Z.div_div, Hdiv by lia.
    rewrite Z.add_comm, Z.div_add, Z.div_small by lia. by destruct s.
  - rewrite Z.shiftr_div_pow2, Hdiv by lia. change 2047 with (Z.ones 11). rewrite Z.land_ones by lia.
    change (2 ^ 11) with 2048. rewrite Z.add_comm, Z_mod_plus_full, Z.mod_small by lia. done.
  - change (2 ^ 52 - 1) with (Z.ones 52). by rewrite Z.land_ones by lia.
  - unfold in_u. rewrite Hz. destruct s; cbn [Z.b2z]; lia.
Qed.

(** The bits of a double that is a number are read back as it. *)
Lemma d_of_bits_of_d d : is_double d -> d <> S754_nan -> d_of_bits (bits_of_d d) = d /\ in_u 64 (bits_of_d d).
Proof.
  intros Hd Hn. destruct d as [s|s| |s m e]; [|..|cbn [bits_of_d is_double] in *]; try done.
  - by destruct s.
  - by destruct s.
  - destruct Hd as [[Hm He]|[Hm ->]].
    + destruct (Z.ltb_spec (Z.pos m) (2 ^ 52)); [lia|].
      destruct (bits_fields s (e + 1075) (Z.pos m - 2 ^ 52)) as (H1 & H2 & H3 & H4); [lia..|].
      split; [|exact H4]. unfold d_of_bits. rewrite H1, H2, H3.
      destruct (Z.eqb_spec (e + 1075) 2047); [lia|]. destruct (Z.eqb_spec (e + 1075) 0); [lia|].
      replace (2 ^ 52 + (Z.pos m - 2 ^ 52)) with (Z.pos m) by lia. f_equal. lia.
    + destruct (Z.ltb_spec (Z.pos m) (2 ^ 52)); [|lia].
      destruct (bits_fields s 0 (Z.pos m)) as (H1 & H2 & H3 & H4); [lia..|].
      rewrite Z.mul_0_l, Z.add_0_l in *. split; [|exact H4]. unfold d_of_bits. by rewrite H1, H2, H3.
Qed.

(** A char of the memory, as a signed value. *)
Definition load_char (m : gmap Z Z) (p : Z) : res Z := c ← of_option (m !! p); Ret (i8 c).
Definition load_le (m : gmap Z Z) (p : Z) (n : nat) : res Z := v ← of_option (mload m p n); Ret (le_dec v).

(** ** Iterators *)

Record bson_iterator := Iter { it_cur : Z; it_first : Z }.

Definition bson_iterator_from_buffer (buffer : Z) : bson_iterator := Iter (buffer + 4) 1.
Definition bson_iterator_init (b : bson) : bson_iterator := Iter (data b + 4) 1.

Section Iter.
Variable m : gmap Z Z.
Implicit Types i : bson_iterator.

Definition bson_iterator_more i : res Z := load_char m (it_cur i).
Definition bson_iterator_type i : res Z := load_char m (it_cur i).
Definition bson_iterator_key i : Z := it_cur i + 1.
Definition bson_iterator_value i : res Z :=
  let t := it_cur i + 1 in n ← strlen m t; Ret (t + n + 1).

Definition bson_iterator_int_raw i : res Z :=
  p ← bson_iterator_value i; v ← load_le m p 4; Ret (i32 v).
(** The 64 bits of the double. *)
Definition bson_iterator_double_raw i : res Z := p ← bson_iterator_value i; load_le m p 8.
Definition bson_iterator_long_raw i : res Z :=
  p ← bson_iterator_value i; v ← load_le m p 8; Ret (i64 v).
Definition bson_iterator_bool_raw i : res Z := p ← bson_iterator_value i; load_char m p.
Definition bson_iterator_oid i : res Z := bson_iterator_value i.

(** The size of the value, as the int or size_t the switch computes; the type of an
    unknown element indexes a table of numbers (a negative one lies outside it),
    then the process ends. *)
Definition next_size i (t : Z) : res (option Z) :=
  if t =? BSON_EOO then Ret None
  else if (t =? BSON_UNDEFINED) || (t =? BSON_NULL) then Ret (Some 0)
  else if t =? BSON_BOOL then Ret (Some 1)
  else if t =? BSON_INT then Ret (Some 4)
  else if (t =? BSON_LONG) || (t =? BSON_DOUBLE) || (t =? BSON_TIMESTAMP) || (t =? BSON_DATE) then Ret (Some 8)
  else if t =? BSON_OID then Ret (Some 12)
  else if (t =? BSON_STRING) || (t =? BSON_SYMBOL) || (t =? BSON_CODE) then
    n ← bson_iterator_int_raw i; n ← sint (4 + n); Ret (Some n)
  else if t =? BSON_BINDATA then n ← bson_iterator_int_raw i; n ← sint (5 + n); Ret (Some n)
  else if (t =? BSON_OBJECT) || (t =? BSON_ARRAY) || (t =? BSON_CODEWSCOPE) then
    n ← bson_iterator_int_raw i; Ret (Some n)
  else if t =? BSON_DBREF then n ← bson_iterator_int_raw i; n ← sint (4 + 12 + n); Ret (Some n)
  else if t =? BSON_REGEX then
    s ← bson_iterator_value i;
    n1 ← strlen m s; n2 ← strlen m (s + n1 + 1);
    Ret (Some (n1 + 1 + n2 + 1))
  else if t <? 0 then Undef else Raise.

Definition bson_iterator_next i : res (Z * bson_iterator) :=
  if negb (it_first i =? 0) then
    t ← load_char m (it_cur i); Ret (t, Iter (it_cur i) 0)
  else
    t ← bson_iterator_type i;
    ds ← next_size i t;
    match ds with
    | None => Ret (BSON_EOO, i)
    | Some ds =>
        n ← strlen m (it_cur i + 1);
        (* a size_t: a huge one moves the pointer back *)
        let c := it_cur i + i64 (1 + n + 1 + ds) in
        t ← load_char m c; Ret (t, Iter c 0)
    end.

(** *** Values *)

Definition bson_iterator_int i : res Z :=
  t ← bson_iterator_type i;
  if t =? BSON_INT then bson_iterator_int_raw i
  else if t =? BSON_LONG then n ← bson_iterator_long_raw i; Ret (i32 n)
  else if t =? BSON_DOUBLE then d ← bson_iterator_double_raw i; Ret (d2i32 (d_of_bits d))
  else Ret 0.
Definition bson_iterator_double i : res lnumber :=
  t ← bson_iterator_type i;
  if t =? BSON_INT then n ← bson_iterator_int_raw i; Ret (d_of_Z n)
  else if t =? BSON_LONG then n ← bson_iterator_long_raw i; Ret (d_of_Z n)
  else if t =? BSON_DOUBLE then d ← bson_iterator_double_raw i; Ret (d_of_bits d)
  else Ret (S754_zero false).
Definition bson_iterator_long i : res Z :=
  t ← bson_iterator_type i;
  if t =? BSON_INT then bson_iterator_int_raw i
  else if t =? BSON_LONG then bson_iterator_long_raw i
  else if t =? BSON_DOUBLE then d ← bson_iterator_double_raw i; Ret (d2i64 (d_of_bits d))
  else Ret 0.
(** The fields i and t. *)
Definition bson_iterator_timestamp i : res (Z * Z) :=
  p ← bson_iterator_value i;
  x ← load_le m p 4; y ← load_le m (p + 4) 4; Ret (i32 x, i32 y).
Definition bson_iterator_timestamp_time i : res Z :=
  p ← bson_iterator_value i; x ← load_le m (p + 4) 4; Ret (i32 x).
Definition bson_iterator_timestamp_increment i : res Z :=
  p ← bson_iterator_value i; x ← load_le m p 4; Ret (i32 x).

(** A double that is not zero (NaN is not). *)
Definition d_true (d : lnumber) : bool := match d with S754_zero _ => false | _ => true end.
Definition bson_iterator_bool i : res Z :=
  t ← bson_iterator_type i;
  if t =? BSON_BOOL then bson_iterator_bool_raw i
  else if t =? BSON_INT then n ← bson_iterator_int_raw i; Ret (if n =? 0 then 0 else 1)
  else if t =? BSON_LONG then n ← bson_iterator_long_raw i; Ret (if n =? 0 then 0 else 1)
  else if t =? BSON_DOUBLE then d ← bson_iterator_double_raw i; Ret (if d_true (d_of_bits d) then 1 else 0)
  else if (t =? BSON_EOO) || (t =? BSON_NULL) then Ret 0
  else Ret 1.

(** The text; other types give the literal "". *)
Definition bson_iterator_string i : res bytes :=
  t ← bson_iterator_type i;
  if (t =? BSON_STRING) || (t =? BSON_SYMBOL) then p ← bson_iterator_value i; c_string m (p + 4)
  else Ret [].
Definition bson_iterator_string_len i : res Z := bson_iterator_int_raw i.
(** The address of the text, NULL for other types. *)
Definition bson_iterator_code i : res Z :=
  t ← bson_iterator_type i;
  if (t =? BSON_STRING) || (t =? BSON_CODE) then p ← bson_iterator_value i; Ret (p + 4)
  else if t =? BSON_CODEWSCOPE then p ← bson_iterator_value i; Ret (p + 8)
  else Ret NULL.
Definition bson_iterator_date i : res Z := bson_iterator_long_raw i.
(** C division truncates. *)
Definition bson_iterator_time_t i : res Z := n ← bson_iterator_date i; Ret (Z.quot n 1000).
Definition bson_iterator_bin_type i : res Z := p ← bson_iterator_value i; load_char m (p + 4).
Definition bson_iterator_bin_len i : res Z :=
  t ← bson_iterator_bin_type i; n ← bson_iterator_int_raw i;
  if t =? BSON_BIN_BINARY_OLD then sint (n - 4) else Ret n.
Definition bson_iterator_bin_data i : res Z :=
  t ← bson_iterator_bin_type i; p ← bson_iterator_value i;
  Ret (if t =? BSON_BIN_BINARY_OLD then p + 9 else p + 5).
Definition bson_iterator_regex i : res Z := bson_iterator_value i.
Definition bson_iterator_regex_opts i : res Z :=
  p ← bson_iterator_value i; n ← strlen m p; Ret (p + n + 1).
Definition bson_iterator_subiterator i : res bson_iterator :=
  p ← bson_iterator_value i; Ret (bson_iterator_from_buffer p).

(** bson_find: strcmp of the name with each key. *)
Fixpoint find_from (fuel : nat) (name : bytes) i : res (Z * bson_iterator) :=
  match fuel with
  | O => NoFuel
  | S fuel =>
      '(t, i) ← bson_iterator_next i;
      if t =? 0 then t ← bson_iterator_type i; Ret (t, i)
      else
        k ← c_string m (bson_iterator_key i);
        if bool_decide (k = name) then t ← bson_iterator_type i; Ret (t, i) else find_from fuel name i
  end.
Definition bson_find (fuel : nat) (obj : bson) (name : bytes) : res (Z * bson_iterator) :=
  find_from fuel name (bson_iterator_init obj).
End Iter.

(** *** Documents inside documents *)

Section Sub.
Context {E : Type} {EV : BsonEnv E} {A : Allocator} {RA : Reallocator}.
Implicit Types s : st E.

(** [empty]: the address of bson_shared_empty_data. *)
Definition bson_iterator_code_scope_init (empty : Z) (i : bson_iterator) (copyData : bool) s
    : res (Z * bson * st E) :=
  t ← bson_iterator_type (mem s) i;
  if t =? BSON_CODEWSCOPE then
    p ← bson_iterator_value (mem s) i;
    codeLen ← bson_finished_data_size (p + 4) s;
    let scopeData := p + 8 + codeLen in
    if copyData then bson_init_finished_data_with_copy scopeData s
    else '(r, b) ← bson_init_finished_data scopeData 0 s; Ret (r, b, s)
  else '(r, b) ← bson_init_empty empty s; Ret (r, b, s).

Definition bson_iterator_subobject_init (i : bson_iterator) (copyData : bool) s : res (Z * bson * st E) :=
  p ← bson_iterator_value (mem s) i;
  if copyData then bson_init_finished_data_with_copy p s
  else '(r, b) ← bson_init_finished_data p 0 s; Ret (r, b, s).

(** The element an iterator is at, copied under its own name ([None]) or another
    one.  The result of bson_append_estart is not looked at. *)
Definition bson_append_element (b : bson) (name_or_null : option bytes) (elem : bson_iterator) s
    : res (Z * bson * st E) :=
  '(_, next) ← bson_iterator_next (mem s) elem;
  let size := u64 (it_cur next - it_cur elem) in
  match name_or_null with
  | None =>
      '(r, b, s) ← bson_ensure_space b size s;
      if r =? BSON_ERROR then Ret (BSON_ERROR, b, s)
      else append_from b (it_cur elem) size s ≫= ok
  | Some name =>
      n ← strlen (mem s) (bson_iterator_key elem);
      let data_size := u64 (size - 2 - n) in
      type ← load_char (mem s) (it_cur elem);
      '(_, b, s) ← bson_append_estart b type name data_size s;
      p ← bson_iterator_value (mem s) elem;
      append_from b p data_size s ≫= ok
  end.

End Sub.

(** ** ObjectIds: twelve bytes *)

(** A char of the text. *)
Definition hexbyte (hex : Z) : Z :=
  if (48 <=? hex) && (hex <=? 57) then hex - 48
  else if (65 <=? hex) && (hex <=? 70) then hex - 65 + 10
  else if (97 <=? hex) && (hex <=? 102) then hex - 97 + 10
  else 0.
Definition hex : list Z := [48; 49; 50; 51; 52; 53; 54; 55; 56; 57; 97; 98; 99; 100; 101; 102].

(** [str]: the bytes of the object the pointer points to. *)
Fixpoint from_string_loop (n : nat) (str : bytes) : res bytes :=
  match n with
  | O => Ret []
  | S n =>
      match str with
      | h :: l :: str =>
          let b := u8 (Z.lor (Z.shiftl (hexbyte (i8 h)) 4) (hexbyte (i8 l))) in
          r ← from_string_loop n str; Ret (b :: r)
      | _ => Undef
      end
  end.
Definition bson_oid_from_string (str : bytes) : res bytes := from_string_loop 12 str.

Definition hex_digit (n : Z) : Z := default 0 (hex !! Z.to_nat n).
Fixpoint to_string_loop (oid : bytes) : bytes :=
  match oid with
  | [] => []
  | b :: oid => hex_digit (Z.shiftr (Z.land (i8 b) 240) 4) :: hex_digit (Z.land (i8 b) 15) :: to_string_loop oid
  end.
(** The 25 bytes written, the terminator last. *)
Definition bson_oid_to_string (oid : bytes) : bytes := to_string_loop oid ++ [0].

Definition bson_swap_endian32 (inp : bytes) : bytes := rev (take 4 inp).
Definition bson_swap_endian64 (inp : bytes) : bytes := rev (take 8 inp).

Section Oid.
Context {E : Type} {EV : BsonEnv E} {A : Allocator} {RA : Reallocator}.
Implicit Types s : st E.

Definition bson_set_oid_fuzz (func : Z) s : st E :=
  St (hp s) (err_handler s) func (oid_inc_func s) (incr s) (fuzz s) (env s).
Definition bson_set_oid_inc (func : Z) s : st E :=
  St (hp s) (err_handler s) (oid_fuzz_func s) func (incr s) (fuzz s) (env s).

Definition set_incr s (n : Z) : st E :=
  St (hp s) (err_handler s) (oid_fuzz_func s) (oid_inc_func s) n (fuzz s) (env s).
Definition set_fuzz s (n : Z) : st E :=
  St (hp s) (err_handler s) (oid_fuzz_func s) (oid_inc_func s) (incr s) n (env s).

Definition bson_oid_gen s : res (bytes * st E) :=
  let '(t, e) := c_time (env s) in
  let s := set_env s e in
  '(i, s) ← (if negb (oid_inc_func s =? 0) then
               let '(i, e) := call_int (oid_inc_func s) (env s) in Ret (i, set_env s e)
             else n ← sint (incr s + 1); Ret (incr s, set_incr s n));
  let s := if fuzz s =? 0 then
             if negb (oid_fuzz_func s =? 0) then
               let '(f, e) := call_int (oid_fuzz_func s) (env s) in set_fuzz (set_env s e) f
             else
               let '(f, e) := c_rand (c_srand (i32 t) (env s)) in set_fuzz (set_env s e) f
           else s in
  Ret (bson_swap_endian32 (le_enc 8 t) ++ le_enc 4 (fuzz s) ++ bson_swap_endian32 (le_enc 4 i), s).

(** Only four of the eight bytes of the result are written; [junk]: what the upper
    four of the uninitialised variable are. *)
Definition bson_oid_generated_time (oid junk : bytes) : Z :=
  i64 (le_dec (bson_swap_endian32 oid ++ take 4 junk)).

Definition bson_append_new_oid (b : bson) (name : bytes) s : res (Z * bson * st E) :=
  '(oid, s) ← bson_oid_gen s; bson_append_oid b name oid s.
End Oid.

(** ** Printing *)

(** What bson_print_raw hands to bson_printf, call by call ([PLabel t]: the constant
    text of the type [t]; [PText t x]: the text of the type [t] with a string). *)
Inductive pitem :=
| PTab | PKey (k : bytes) (t : Z) | PDouble (d : lnumber) | PText (t : Z) (x : bytes)
| PBool (b : bool) | PInt (n : Z) | PLabel (t : Z) | PTs (i t : Z) | PScope | PNewline | PBadType (t : Z).

Section Print.
Variable m : gmap Z Z.

(** The items of a scalar value; [None] for the values printed recursively. *)
Definition print_scalar (i : bson_iterator) (t : Z) : res (option (list pitem)) :=
  if t =? BSON_DOUBLE then d ← bson_iterator_double m i; Ret (Some [PDouble d])
  else if (t =? BSON_STRING) || (t =? BSON_SYMBOL) then x ← bson_iterator_string m i; Ret (Some [PText t x])
  else if t =? BSON_OID then
    p ← bson_iterator_oid m i; o ← of_option (mload m p 12); Ret (Some [PText t (to_string_loop o)])
  else if t =? BSON_BOOL then b ← bson_iterator_bool m i; Ret (Some [PBool (negb (b =? 0))])
  else if t =? BSON_DATE then n ← bson_iterator_date m i; Ret (Some [PInt n])
  else if (t =? BSON_BINDATA) || (t =? BSON_UNDEFINED) || (t =? BSON_NULL) then Ret (Some [PLabel t])
  else if t =? BSON_REGEX then p ← bson_iterator_regex m i; x ← c_string m p; Ret (Some [PText t x])
  else if t =? BSON_CODE then p ← bson_iterator_code m i; x ← c_string m p; Ret (Some [PText t x])
  else if t =? BSON_INT then n ← bson_iterator_int m i; Ret (Some [PInt n])
  else if t =? BSON_LONG then n ← bson_iterator_long m i; Ret (Some [PInt (u64 n)])
  else if t =? BSON_TIMESTAMP then '(a, b) ← bson_iterator_timestamp m i; Ret (Some [PTs a b])
  else if (t =? BSON_CODEWSCOPE) || (t =? BSON_OBJECT) || (t =? BSON_ARRAY) then Ret None
  else Ret (Some [PBadType t]).

Fixpoint print_from (fuel : nat) (i : bson_iterator) (depth : nat) : res (list pitem) :=
  match fuel with
  | O => NoFuel
  | S fuel =>
      '(_, i) ← bson_iterator_next m i;
      t ← bson_iterator_type m i;
      if t =? 0 then Ret []
      else
        key ← c_string m (bson_iterator_key i);
        sc ← print_scalar i t;
        body ← (match sc with
                | Some l => Ret l
                | None =>
                    p ← bson_iterator_value m i;
                    if t =? BSON_CODEWSCOPE then
                      c ← bson_iterator_code m i; x ← c_string m c;
                      v ← load_le m (p + 4) 4;
                      let scope := p + 8 + i32 v in
                      _ ← load_le m scope 4;
                      l ← print_from fuel (bson_iterator_from_buffer scope) 0;
                      Ret ([PText t x; PScope] ++ l)
                    else
                      l ← print_from fuel (bson_iterator_from_buffer p) (S depth);
                      Ret (PNewline :: l)
                end);
        rest ← print_from fuel i depth;
        Ret (replicate (S depth) PTab ++ [PKey key t] ++ body ++ [PNewline] ++ rest)
  end.
Definition bson_print_raw (fuel : nat) (p : Z) (depth : nat) : res (list pitem) :=
  print_from fuel (bson_iterator_from_buffer p) depth.
Definition bson_print (fuel : nat) (b : bson) : res (list pitem) := bson_print_raw fuel (data b) 0.
End Print.

(** ** Reading a document back *)

(** The values of a document, each through the function for its type; the walk is
    that of bson_print_raw.  Types that [put] never writes end it. *)
Section Read.
Variable m : gmap Z Z.

Definition read_scalar (i : bson_iterator) (t : Z) : res (option value) :=
  if t =? BSON_DOUBLE then d ← bson_iterator_double_raw m i; Ret (Some (VDouble d))
  else if t =? BSON_STRING then x ← bson_iterator_string m i; Ret (Some (VString x))
  else if t =? BSON_SYMBOL then x ← bson_iterator_string m i; Ret (Some (VSymbol x))
  else if t =? BSON_CODE then p ← bson_iterator_code m i; x ← c_string m p; Ret (Some (VCode x))
  else if t =? BSON_BINDATA then
    ty ← bson_iterator_bin_type m i; n ← bson_iterator_bin_len m i; p ← bson_iterator_bin_data m i;
    x ← of_option (mload m p (Z.to_nat n)); Ret (Some (VBin ty x))
  else if t =? BSON_UNDEFINED then Ret (Some VUndefined)
  else if t =? BSON_OID then
    p ← bson_iterator_oid m i; o ← of_option (mload m p 12); Ret (Some (VOid o))
  else if t =? BSON_BOOL then b ← bson_iterator_bool m i; Ret (Some (VBool (negb (b =? 0))))
  else if t =? BSON_DATE then n ← bson_iterator_date m i; Ret (Some (VDate n))
  else if t =? BSON_NULL then Ret (Some VNull)
  else if t =? BSON_REGEX then
    p ← bson_iterator_regex m i; x ← c_string m p;
    q ← bson_iterator_regex_opts m i; y ← c_string m q; Ret (Some (VRegex x y))
  else if t =? BSON_INT then n ← bson_iterator_int m i; Ret (Some (VInt n))
  else if t =? BSON_TIMESTAMP then '(a, b) ← bson_iterator_timestamp m i; Ret (Some (VTimestamp a b))
  else if t =? BSON_LONG then n ← bson_iterator_long m i; Ret (Some (VLong n))
  else if (t =? BSON_OBJECT) || (t =? BSON_ARRAY) then Ret None
  else Undef.

Fixpoint read_from (fuel : nat) (i : bson_iterator) : res (list (bytes * value)) :=
  match fuel with
  | O => NoFuel
  | S fuel =>
      '(t, i) ← bson_iterator_next m i;
      if t =? 0 then Ret []
      else
        key ← c_string m (bson_iterator_key i);
        sc ← read_scalar i t;
        v ← (match sc with
             | Some v => Ret v
             | None =>
                 j ← bson_iterator_subiterator m i;
                 l ← read_from fuel j; Ret (VDoc (t =? BSON_ARRAY) l)
             end);
        rest ← read_from fuel i;
        Ret ((key, v) :: rest)
  end.
Definition read_doc (fuel : nat) (p : Z) : res (list (bytes * value)) :=
  read_from fuel (bson_iterator_from_buffer p).
End Read.

(** ** The round trip *)

Section ReadLemmas.
Variable m : gmap Z Z.

Lemma load_le_ok p n z r : holds m p (le_enc n z ++ r) -> load_le m p n = Ret (le_dec (le_enc n z)).
Proof.
  intros H. apply holds_app in H as [H _]. unfold holds in H. rewrite le_enc_length in H.
  unfold load_le. by rewrite H.
Qed.
Lemma int_ok z r p : holds m p (le_enc 4 z ++ r) -> in_s 32 z -> (v ← load_le m p 4; Ret (i32 v)) = Ret z.
Proof.
  intros H Hz. rewrite (load_le_ok _ _ _ _ H), bind_Ret_l. f_equal.
  change 32 with (8 * Z.of_nat 4). rewrite wrapS_le. by apply wrapS_id.
Qed.
Lemma long_ok z r p : holds m p (le_enc 8 z ++ r) -> in_s 64 z -> (v ← load_le m p 8; Ret (i64 v)) = Ret z.
Proof.
  intros H Hz. rewrite (load_le_ok _ _ _ _ H), bind_Ret_l. f_equal.
  change 64 with (8 * Z.of_nat 8). rewrite wrapS_le. by apply wrapS_id.
Qed.
Lemma double_ok z r p : holds m p (le_enc 8 z ++ r) -> in_u 64 z -> load_le m p 8 = Ret z.
Proof.
  intros H Hz. rewrite (load_le_ok _ _ _ _ H), wrapU_le. f_equal. by apply wrapU_id.
Qed.
Lemma char_ok p c v : holds m p (u8 c :: v) -> in_s 8 c -> load_char m p = Ret c.
Proof.
  intros H Hc. apply holds_cons in H as [H _]. unfold load_char. rewrite H. cbn [of_option]. rewrite bind_Ret_l.
  f_equal. unfold wrapU. rewrite wrapS_mod. by apply wrapS_id.
Qed.

(** ** One element *)

(** What a value must satisfy to come back: strings without a zero byte, numbers of
    the width of their type. *)
Fixpoint readable (v : value) : Prop :=
  match v with
  | VDouble d => in_u 64 d
  | VString t | VSymbol t | VCode t => nozero t
  | VBin ty _ => in_s 8 ty
  | VOid o => length o = 12%nat
  | VDate n | VLong n => in_s 64 n
  | VRegex p o => nozero p /\ nozero o
  | VInt n => in_s 32 n
  | VTimestamp i t => in_s 32 i /\ in_s 32 t
  | VDoc _ l => (fix go (l : list (bytes * value)) : Prop :=
      match l with [] => True | (k, x) :: l => nozero k /\ readable x /\ go l end) l
  | _ => True
  end.
Fixpoint all_readable (l : list (bytes * value)) : Prop :=
  match l with [] => True | (k, x) :: l => nozero k /\ readable x /\ all_readable l end.
Lemma readable_doc a l : readable (VDoc a l) = all_readable l.
Proof. reflexivity. Qed.

Lemma vtype_range v : 0 < vtype v <= 18.
Proof. destruct v as [| | | | | | | | | | | | | |[] l]; (split; [reflexivity|discriminate]). Qed.

Section Element.
Context (i : bson_iterator) (k : bytes) (v : bytes) (ty : Z).
Hypothesis (Hel : holds m (it_cur i) (header ty k ++ v)) (Hk : nozero k) (Hty : in_s 8 ty).
Let q := it_cur i + 2 + Z.of_nat (length k).

Lemma elem_type : bson_iterator_type m i = Ret ty.
Proof. eapply char_ok; [exact Hel|done]. Qed.
Lemma elem_key_holds : holds m (it_cur i + 1) (k ++ [0]).
Proof. apply holds_app in Hel as [H _]. by apply holds_cons in H as [_ H]. Qed.
Lemma elem_key : c_string m (bson_iterator_key i) = Ret k.
Proof. apply c_string_ok; [apply elem_key_holds|done]. Qed.
Lemma elem_strlen : strlen m (it_cur i + 1) = Ret (Z.of_nat (length k)).
Proof. apply strlen_ok; [apply elem_key_holds|done]. Qed.
Lemma elem_value : bson_iterator_value m i = Ret q.
Proof. unfold bson_iterator_value. rewrite elem_strlen, bind_Ret_l. unfold q. f_equal. lia. Qed.
Lemma elem_holds : holds m q v.
Proof.
  apply holds_app in Hel as [_ H]. rewrite header_length in H. unfold q.
  by replace (it_cur i + 2 + Z.of_nat (length k)) with (it_cur i + (2 + Z.of_nat (length k))) by lia.
Qed.

Lemma elem_next n : it_first i = 0 -> next_size m i ty = Ret (Some n) -> 0 <= n -> 2 + Z.of_nat (length k) + n < 2 ^ 63 ->
  bson_iterator_next m i = (t ← load_char m (q + n); Ret (t, Iter (q + n) 0)).
Proof.
  intros H0 Hn Hn0 Hb. unfold bson_iterator_next. rewrite H0. change (negb (0 =? 0)) with false. cbv iota.
  rewrite elem_type, bind_Ret_l, Hn, bind_Ret_l, elem_strlen, bind_Ret_l.
  rewrite wrapS_id by (unfold in_s; lia). unfold q. cbv zeta.
  by replace (it_cur i + (1 + Z.of_nat (length k) + 1 + n)) with (it_cur i + 2 + Z.of_nat (length k) + n) by lia.
Qed.
End Element.

(** The size of the value, for every type [put] writes. *)
Lemma text_size i k t ty : holds m (it_cur i) (header ty k ++ enc_text t) -> nozero k -> in_s 8 ty ->
  Z.of_nat (length (enc_text t)) < 2 ^ 30 ->
  (n ← bson_iterator_int_raw m i; n ← sint (4 + n); Ret (Some n)) = Ret (Some (Z.of_nat (length (enc_text t)))).
Proof.
  intros Hel Hk Hty Hb.
  assert (Hlen : Z.of_nat (length (enc_text t)) = 5 + Z.of_nat (length t))
    by (unfold enc_text; rewrite !length_app, le_enc_length; cbn; lia). rewrite Hlen in *.
  unfold bson_iterator_int_raw. rewrite (elem_value i k _ ty) by done. rewrite bind_Ret_l.
  pose proof (elem_holds i k _ ty Hel) as Hv. unfold enc_text in Hv.
  rewrite (int_ok _ _ _ Hv), bind_Ret_l by (unfold in_s; lia). sint_step. do 2 f_equal. lia.
Qed.

Lemma bin_head ty t : exists n r, enc_value (VBin ty t) = le_enc 4 n ++ u8 ty :: r /\
  Z.of_nat (length (enc_value (VBin ty t))) = 5 + n /\ 0 <= n.
Proof.
  cbn [enc_value]. destruct (Z.eqb_spec ty BSON_BIN_BINARY_OLD).
  - exists (Z.of_nat (length t) + 4). eexists. split; [done|]. rewrite !length_app, !le_enc_length. cbn. lia.
  - exists (Z.of_nat (length t)). eexists. split; [done|]. rewrite !length_app, !le_enc_length. cbn. lia.
Qed.

Lemma next_size_ok i k v :
  holds m (it_cur i) (header (vtype v) k ++ enc_value v) -> nozero k -> readable v ->
  Z.of_nat (length (enc_value v)) < 2 ^ 30 ->
  next_size m i (vtype v) = Ret (Some (Z.of_nat (length (enc_value v)))).
Proof.
  intros Hel Hk Hv Hb. pose proof (vtype_range v) as Hr.
  assert (Hty : in_s 8 (vtype v)) by (unfold in_s; lia).
  pose proof (elem_value i k _ _ Hel Hk) as Hval. pose proof (elem_holds i k _ _ Hel) as Hh.
  destruct v as [z|t|t|t|ty t| |o|w|z| |p o|z|j t|z|a l]; unfold next_size; cbn [vtype] in *;
    cbn [Z.eqb Pos.eqb orb BSON_DOUBLE BSON_STRING BSON_SYMBOL BSON_CODE BSON_BINDATA BSON_UNDEFINED BSON_OID
         BSON_BOOL BSON_DATE BSON_NULL BSON_REGEX BSON_INT BSON_TIMESTAMP BSON_LONG BSON_OBJECT BSON_ARRAY
         BSON_EOO BSON_CODEWSCOPE BSON_DBREF]; try done.
  - by eapply text_size.
  - by eapply text_size.
  - by eapply text_size.
  - destruct (bin_head ty t) as (n & r & He & Hl & Hn). rewrite Hl in *. rewrite He in Hh.
    unfold bson_iterator_int_raw. rewrite Hval, bind_Ret_l.
    rewrite (int_ok _ _ _ Hh), bind_Ret_l by (unfold in_s; lia). by sint_step.
  - cbn [enc_value readable] in *. by rewrite Hv.
  - cbn [enc_value readable] in *. destruct Hv as [Hp Ho]. rewrite Hval, bind_Ret_l.
    apply holds_app in Hh as [Hh1 Hh2]. rewrite (strlen_ok _ _ Hh1 Hp), bind_Ret_l.
    rewrite length_app in Hh2. cbn [length] in Hh2.
    rewrite (strlen_ok _ o); [|by replace (it_cur i + 2 + Z.of_nat (length k) + Z.of_nat (length p) + 1) with (it_cur i + 2 + Z.of_nat (length k) + Z.of_nat (length p + 1)) by lia|done].
    rewrite bind_Ret_l, !length_app. cbn [length]. do 2 f_equal. lia.
  - rewrite enc_value_doc in *. unfold enc_doc, enc_frame in *. rewrite !length_app, le_enc_length in *. cbn [length] in *.
    assert (Hint : bson_iterator_int_raw m i = Ret (5 + Z.of_nat (length (enc_body l)))).
    { unfold bson_iterator_int_raw. rewrite Hval, bind_Ret_l. apply (int_ok _ _ _ Hh). unfold in_s. lia. }
    destruct a; cbn [Z.eqb Pos.eqb orb BSON_OBJECT BSON_ARRAY]; rewrite Hint; cbn; do 2 f_equal; lia.
Qed.

Lemma read_text_ok q t : holds m q (enc_text t) -> nozero t -> c_string m (q + 4) = Ret t.
Proof. unfold enc_text. intros H Hz. apply holds_app in H as [_ H]. by apply c_string_ok. Qed.

Lemma read_bin_ok i k ty t :
  holds m (it_cur i) (header BSON_BINDATA k ++ enc_value (VBin ty t)) -> nozero k -> in_s 8 ty ->
  Z.of_nat (length (enc_value (VBin ty t))) < 2 ^ 30 ->
  read_scalar m i BSON_BINDATA = Ret (Some (VBin ty t)).
Proof.
  intros Hel Hk Hty Hb.
  assert (Hval := elem_value i k _ _ Hel Hk). pose proof (elem_holds i k _ _ Hel) as Hh.
  set (q := it_cur i + 2 + Z.of_nat (length k)) in *.
  destruct (bin_head ty t) as (n & r & He & Hl & Hn). rewrite Hl in *.
  assert (Hint : bson_iterator_int_raw m i = Ret n).
  { unfold bson_iterator_int_raw. rewrite Hval, bind_Ret_l. rewrite He in Hh. apply (int_ok _ _ _ Hh). unfold in_s. lia. }
  assert (Htype : bson_iterator_bin_type m i = Ret ty).
  { unfold bson_iterator_bin_type. rewrite Hval, bind_Ret_l. rewrite He in Hh. apply holds_app in Hh as [_ Hh].
    rewrite le_enc_length in Hh. by eapply char_ok. }
  change (read_scalar m i BSON_BINDATA) with
    (ty ← bson_iterator_bin_type m i; n ← bson_iterator_bin_len m i; p ← bson_iterator_bin_data m i;
     x ← of_option (mload m p (Z.to_nat n)); Ret (Some (VBin ty x))).
  unfold bson_iterator_bin_len, bson_iterator_bin_data. rewrite Htype, !bind_Ret_l, Hint, bind_Ret_l.
  cbn [enc_value] in Hh, Hl. destruct (Z.eqb_spec ty BSON_BIN_BINARY_OLD).
  - rewrite !length_app, !le_enc_length in Hl. cbn [length] in Hl.
    sint_step. rewrite Hval, !bind_Ret_l. replace (Z.to_nat (n - 4)) with (length t) by lia.
    apply holds_app in Hh as [_ Hh]. apply holds_app in Hh as [_ Hh]. apply holds_app in Hh as [_ Hh].
    rewrite !le_enc_length in Hh. cbn [length] in Hh. unfold holds in Hh.
    replace (q + 9) with (q + Z.of_nat 4 + Z.of_nat 1 + Z.of_nat 4) by lia. rewrite Hh. done.
  - rewrite !length_app, !le_enc_length in Hl. cbn [length] in Hl.
    rewrite Hval, !bind_Ret_l. replace (Z.to_nat n) with (length t) by lia.
    apply holds_app in Hh as [_ Hh]. apply holds_app in Hh as [_ Hh].
    rewrite !le_enc_length in Hh. cbn [length] in Hh. unfold holds in Hh.
    replace (q + 5) with (q + Z.of_nat 4 + Z.of_nat 1) by lia. rewrite Hh. done.
Qed.

Definition is_doc (v : value) : bool := match v with VDoc _ _ => true | _ => false end.

Lemma read_scalar_ok i k v :
  holds m (it_cur i) (header (vtype v) k ++ enc_value v) -> nozero k -> readable v ->
  Z.of_nat (length (enc_value v)) < 2 ^ 30 ->
  read_scalar m i (vtype v) = Ret (if is_doc v then None else Some v).
Proof.
  intros Hel Hk Hv Hb. pose proof (vtype_range v) as Hr.
  assert (Hty : in_s 8 (vtype v)) by (unfold in_s; lia).
  pose proof (elem_type i k _ _ Hel Hty) as Ht.
  assert (Hval := elem_value i k _ _ Hel Hk). pose proof (elem_holds i k _ _ Hel) as Hh.
  set (q := it_cur i + 2 + Z.of_nat (length k)) in *.
  assert (Hh0 : holds m q (enc_value v ++ [])) by by rewrite app_nil_r.
  destruct v as [z|t|t|t|ty t| |o|w|z| |p o|z|j t|z|a l]; cbn [vtype enc_value readable is_doc] in *;
    [..|by destruct a]; unfold read_scalar, bson_iterator_string, bson_iterator_code, bson_iterator_oid,
      bson_iterator_bool, bson_iterator_date, bson_iterator_int, bson_iterator_long,
      bson_iterator_timestamp, bson_iterator_regex, bson_iterator_regex_opts;
    try (rewrite Ht, !bind_Ret_l);
    cbn [Z.eqb Pos.eqb orb BSON_DOUBLE BSON_STRING BSON_SYMBOL BSON_CODE BSON_BINDATA BSON_UNDEFINED BSON_OID
         BSON_BOOL BSON_DATE BSON_NULL BSON_REGEX BSON_INT BSON_TIMESTAMP BSON_LONG BSON_OBJECT BSON_ARRAY
         BSON_EOO BSON_CODEWSCOPE BSON_DBREF]; try done.
  - unfold bson_iterator_double_raw. rewrite Hval, bind_Ret_l, (double_ok _ _ _ Hh0) by done. done.
  - rewrite Hval, bind_Ret_l, (read_text_ok _ _ Hh) by done. done.
  - rewrite Hval, bind_Ret_l, (read_text_ok _ _ Hh) by done. done.
  - rewrite Hval, !bind_Ret_l, (read_text_ok _ _ Hh) by done. done.
  - by apply (read_bin_ok i k ty t).
  - rewrite Hval, bind_Ret_l. unfold holds in Hh. rewrite Hv in Hh. by rewrite Hh.
  - unfold bson_iterator_bool_raw. rewrite Hval, bind_Ret_l. apply holds_cons in Hh as [Hc _].
    unfold load_char. rewrite Hc. by destruct w.
  - unfold bson_iterator_long_raw. rewrite Hval, bind_Ret_l, (long_ok _ _ _ Hh0) by done. done.
  - destruct Hv as [Hp Ho]. rewrite Hval, !bind_Ret_l. apply holds_app in Hh as [Hh1 Hh2].
    rewrite (c_string_ok _ _ Hh1 Hp), bind_Ret_l, (strlen_ok _ _ Hh1 Hp), !bind_Ret_l.
    rewrite length_app in Hh2. cbn [length] in Hh2.
    replace (q + Z.of_nat (length p) + 1) with (q + Z.of_nat (length p + 1)) by lia.
    by rewrite (c_string_ok _ _ Hh2 Ho).
  - unfold bson_iterator_int_raw. rewrite Hval, bind_Ret_l, (int_ok _ _ _ Hh0) by done. done.
  - destruct Hv as [Hj Hz]. rewrite Hval, bind_Ret_l.
    pose proof (int_ok _ _ _ Hh Hj) as H1. apply holds_app in Hh as [_ Hh2].
    rewrite le_enc_length in Hh2. change (Z.of_nat 4) with 4 in Hh2.
    assert (Hh3 : holds m (q + 4) (le_enc 4 t ++ [])) by by rewrite app_nil_r.
    pose proof (int_ok _ _ _ Hh3 Hz) as H2.
    destruct (load_le m q 4); try discriminate H1. destruct (load_le m (q + 4) 4); try discriminate H2.
    rewrite !bind_Ret_l in *. injection H1 as ->. injection H2 as ->. done.
  - unfold bson_iterator_long_raw. rewrite Hval, bind_Ret_l, (long_ok _ _ _ Hh0) by done. done.
Qed.

(** ** The walk *)

(** What the iterator finds at the first element of a body: the type, the key, the value,
    and the next element. *)
Record at_element (p : Z) (k : bytes) (v : value) (l : list (bytes * value)) : Prop := {
  ae_header : holds m p (header (vtype v) k ++ enc_value v);
  ae_type : load_char m p = Ret (vtype v);
  ae_key : c_string m (bson_iterator_key (Iter p 0)) = Ret k;
  ae_value : bson_iterator_value m (Iter p 0) = Ret (p + 2 + Z.of_nat (length k));
  ae_holds : holds m (p + 2 + Z.of_nat (length k)) (enc_value v);
  ae_next : exists q, bson_iterator_next m (Iter p 0) = (t ← load_char m q; Ret (t, Iter q 0)) /\
    holds m q (enc_body l ++ [0]);
}.

Lemma body_step p k v l : holds m p (enc_body ((k, v) :: l) ++ [0]) -> nozero k -> readable v ->
  Z.of_nat (length (enc_body ((k, v) :: l))) < 2 ^ 30 -> at_element p k v l.
Proof.
  intros Hh Hk Hv Hb. cbn [enc_body] in *. rewrite !length_app in Hb. pose proof (header_length (vtype v) k) as Hhl.
  pose proof (vtype_range v) as Hty. assert (Hty8 : in_s 8 (vtype v)) by (unfold in_s; lia).
  rewrite <- !app_assoc, app_assoc in Hh. apply holds_app in Hh as [Hel Hrest].
  set (i := Iter p 0). change p with (it_cur i) in Hel. split.
  - exact Hel.
  - exact (elem_type i k _ _ Hel Hty8).
  - exact (elem_key i k _ _ Hel Hk).
  - exact (elem_value i k _ _ Hel Hk).
  - exact (elem_holds i k _ _ Hel).
  - eexists. split; [|exact Hrest].
    change (Iter p 0) with i. rewrite (elem_next i k _ _ Hel Hk Hty8 (Z.of_nat (length (enc_value v))));
      [|done|apply (next_size_ok i k v); (done || lia)|lia|lia].
    cbn [it_cur i]. rewrite length_app.
    by replace (p + 2 + Z.of_nat (length k) + Z.of_nat (length (enc_value v)))
      with (p + Z.of_nat (length (header (vtype v) k) + length (enc_value v))) by lia.
Qed.

Lemma body_end p : holds m p (enc_body [] ++ [0]) -> load_char m p = Ret 0.
Proof. intros [Hc _]%holds_cons. unfold load_char. by rewrite Hc. Qed.

(** The body of a document at [p]. *)
Lemma doc_body p l : holds m p (enc_doc l) -> holds m (p + 4) (enc_body l ++ [0]).
Proof. unfold enc_doc, enc_frame. intros [_ H]%holds_app. by rewrite le_enc_length in H. Qed.
Lemma enc_doc_length l : length (enc_doc l) = (5 + length (enc_body l))%nat.
Proof. unfold enc_doc, enc_frame. rewrite !length_app, le_enc_length. cbn. lia. Qed.

(** From an iterator whose next element is at [p]. *)
Lemma read_from_ok fuel : forall l j p,
  bson_iterator_next m j = (t ← load_char m p; Ret (t, Iter p 0)) ->
  holds m p (enc_body l ++ [0]) -> all_readable l -> Z.of_nat (length (enc_body l)) < 2 ^ 30 ->
  (length (enc_body l) < fuel)%nat -> read_from m fuel j = Ret l.
Proof.
  induction fuel as [|fuel IH]; intros [|[k v] l] j p Hj Hh Hr Hb Hf; [lia..| |]; cbn [read_from]; rewrite Hj.
  - by rewrite (body_end _ Hh).
  - destruct Hr as (Hk & Hv & Hl). destruct (body_step p k v l Hh Hk Hv Hb) as [Hel Ht Hkey Hval Hsub (q & Hnext & Hrest)].
    cbn [enc_body] in *. rewrite !length_app in Hb, Hf. pose proof (header_length (vtype v) k) as Hhl. pose proof (vtype_range v) as Hty.
    rewrite Ht, !bind_Ret_l. destruct (Z.eqb_spec (vtype v) 0); [lia|]. rewrite Hkey, bind_Ret_l.
    rewrite (read_scalar_ok (Iter p 0) k v Hel Hk Hv), bind_Ret_l by lia.
    assert (Htail : read_from m fuel (Iter p 0) = Ret l) by (eapply IH; [exact Hnext|exact Hrest|done|lia|lia]).
    rewrite Htail. destruct v as [| | | | | | | | | | | | | |a l']; cbn [is_doc]; rewrite ?bind_Ret_l; try done.
    unfold bson_iterator_subiterator. rewrite Hval, !bind_Ret_l, enc_value_doc, enc_doc_length in *.
    erewrite (IH l'); [by destruct a|reflexivity|exact (doc_body _ _ Hsub)|by rewrite readable_doc in Hv|lia|lia].
Qed.

Lemma read_doc_ok l p fuel :
  holds m p (enc_doc l) -> all_readable l -> Z.of_nat (length (enc_doc l)) < 2 ^ 30 ->
  (length (enc_doc l) <= fuel)%nat -> read_doc m fuel p = Ret l.
Proof.
  intros H Hl Hb Hf. rewrite enc_doc_length in *. eapply read_from_ok; [reflexivity|exact (doc_body _ _ H)|done|lia|lia].
Qed.
End ReadLemmas.

(** ** Hexadecimal ObjectIds *)

Definition digits_value (b : Z) : Z :=
  u8 (Z.lor (Z.shiftl (hexbyte (i8 (hex_digit (Z.shiftr (Z.land (i8 b) 240) 4)))) 4)
            (hexbyte (i8 (hex_digit (Z.land (i8 b) 15))))).
Definition digits_hex (b : Z) : bool :=
  bool_decide (hex_digit (Z.shiftr (Z.land (i8 b) 240) 4) ∈ hex) && bool_decide (hex_digit (Z.land (i8 b) 15) ∈ hex).

(** A byte is its two digits. *)
Lemma digits_byte b : byte_ok b -> digits_value b = b.
Proof.
  intros H. apply Z.eqb_eq. revert b H. apply (range_cases (fun b => digits_value b =? b)). vm_compute. reflexivity.
Qed.
Lemma digits_hex_ok b : byte_ok b -> digits_hex b = true.
Proof. revert b. apply (range_cases digits_hex). vm_compute. reflexivity. Qed.

Lemma from_to_string n oid r : Forall byte_ok oid -> length oid = n ->
  from_string_loop n (to_string_loop oid ++ r) = Ret oid.
Proof.
  revert oid; induction n as [|n IH]; intros [|b oid] Hb Hl; try discriminate Hl; [done|].
  apply Forall_cons in Hb as [Hb Hbs]. cbn [to_string_loop app from_string_loop].
  rewrite IH by (done || (cbn in Hl; lia)). cbv zeta. rewrite bind_Ret_l. fold (digits_value b).
  by rewrite digits_byte.
Qed.
Lemma to_string_length oid : length (to_string_loop oid) = (2 * length oid)%nat.
Proof. induction oid as [|b oid IH]; [done|]. cbn [to_string_loop length]. rewrite IH. lia. Qed.
Lemma to_string_hex oid : Forall byte_ok oid -> Forall (fun c => c ∈ hex) (to_string_loop oid).
Proof.
  induction 1 as [|b oid Hb _ IH]; [constructor|]. apply digits_hex_ok, andb_true_iff in Hb as [H1 H2].
  apply bool_decide_eq_true in H1, H2. cbn [to_string_loop]. by rewrite !Forall_cons.
Qed.

(** The hexadecimal form of an ObjectId is 24 digits and a terminator, and
    reading it gives the twelve bytes back. *)
Theorem oid_roundtrip oid :
  Forall byte_ok oid -> length oid = 12%nat ->
  bson_oid_from_string (bson_oid_to_string oid) = Ret oid /\ length (bson_oid_to_string oid) = 25%nat /\
  exists text, bson_oid_to_string oid = text ++ [0] /\ Forall (fun c => c ∈ hex) text.
Proof.
  intros Hb Hl. split; [by apply from_to_string|]. split.
  - unfold bson_oid_to_string. rewrite length_app, to_string_length, Hl. done.
  - exists (to_string_loop oid). split; [done|]. by apply to_string_hex.
Qed.

Lemma oid_roundtrip_witness :
  bson_oid_from_string (bson_oid_to_string [79; 0; 255; 18; 1; 2; 3; 4; 5; 6; 171; 9])
    = Ret [79; 0; 255; 18; 1; 2; 3; 4; 5; 6; 171; 9] /\
  length (bson_oid_to_string [79; 0; 255; 18; 1; 2; 3; 4; 5; 6; 171; 9]) = 25%nat /\
  exists text, bson_oid_to_string [79; 0; 255; 18; 1; 2; 3; 4; 5; 6; 171; 9] = text ++ [0] /\
    Forall (fun c => c ∈ hex) text.
Proof.
  apply (oid_roundtrip [79; 0; 255; 18; 1; 2; 3; 4; 5; 6; 171; 9]); [|reflexivity].
  unfold byte_ok. repeat constructor; lia.
Defined.

(** ** The theorems about documents *)

(** C11.  A document written with the builder, whatever the nesting, comes back
    unchanged: the calls return BSON_OK, the block holds the BSON encoding of the
    document, and walking it with the iterators gives every key and value, in
    order, within as many steps as the document has bytes. *)
Theorem bson_roundtrip {E} {EV : BsonEnv E} {EOk : BsonEnvOk E} {A : Allocator} {AOk : AllocatorOk A}
    {RA : Reallocator} {ROk : ReallocatorOk RA} {ME : MemoryEnough A RA} l (s : st E) :
  heap_ok (hp s) -> all_texts_ok l -> all_readable l -> Z.of_nat (length (enc_doc l)) <= 2 ^ 28 ->
  exists b s', build_doc l s = Ret (BSON_OK, b, s') /\ finished b = 1 /\
    holds (mem s') (data b) (enc_doc l) /\
    forall fuel, (length (enc_doc l) <= fuel)%nat -> read_doc (mem s') fuel (data b) = Ret l.
Proof.
  intros Hh Ht Hr Hl. destruct (build_doc_ok (2 ^ 28) ltac:(lia) l s Hh Ht Hl) as (b & s' & H & [Hf _ _ _ Hm _]).
  exists b, s'. split_and!; [done|done|exact Hm|]. intros fuel Hfuel. apply read_doc_ok; [exact Hm|done|lia|done].
Qed.

(** The guard of bson_ensure_space against sizes beyond INT_MAX comes after the
    conversion it is meant to guard: a document that must grow while its size and
    the request are 2^32/3 bytes or more together is undefined, and the overflow
    error is never the one reported. *)
Theorem ensure_space_overflow {E} {RA : Reallocator} b n (s : st E) :
  0 <= dataSize b <= INT_MAX -> 0 <= n < 2 ^ 62 -> 0 <= cur b - data b <= dataSize b ->
  dataSize b < cur b - data b + n ->
  (2 ^ 32 <= 3 * (dataSize b + n) -> bson_ensure_space b n s = Undef) /\
  (forall b' s', bson_ensure_space b n s = Ret (BSON_ERROR, b', s') -> err b' = BSON_DOES_NOT_OWN_DATA).
Proof.
  unfold INT_MAX. intros Hd Hn Hc Hg. unfold bson_ensure_space, _bson_position.
  rewrite (wrapU_id 64 (cur b - data b)) by (unfold in_u; lia).
  rewrite (wrapU_id 64 (cur b - data b + n)) by (unfold in_u; lia).
  rewrite (wrapU_id 64 (dataSize b)) by (unfold in_u; lia).
  rewrite (wrapU_id 64 (dataSize b + n)) by (unfold in_u; lia).
  destruct (Z.leb_spec (cur b - data b + n) (dataSize b)); [lia|]. cbv zeta. unfold grow_size.
  assert (Hdiv : 3 * (dataSize b + n) / 2 < 2 ^ 31 -> 3 * (dataSize b + n) < 2 ^ 32).
  { intros H'. pose proof (Z.div_mod (3 * (dataSize b + n)) 2 ltac:(lia)).
    pose proof (Z.mod_pos_bound (3 * (dataSize b + n)) 2 ltac:(lia)). lia. }
  assert (Hge : dataSize b + n <= 3 * (dataSize b + n) / 2) by (apply Z.div_le_lower_bound; lia).
  destruct (Z.ltb_spec (3 * (dataSize b + n) / 2) (2 ^ 31)) as [H1|H1]; [split; [lia|]|split; [done|done]].
  intros b' s' H2. rewrite bind_Ret_l in H2. set (k := 3 * (dataSize b + n) / 2) in *.
  destruct (Z.ltb_spec k (dataSize b)); [lia|]. destruct (ownsData b =? 0).
  - by injection H2 as <- <-.
  - res_inv. destruct v as [p s1]. res_inv.
Qed.

(** The iterator trusts the lengths in the data: when the first element is a
    string whose length field is the negative of its key's length plus six, the
    iterator comes back to the element it is at, and a search for any other key
    never ends. *)
Theorem find_never_ends m obj k name :
  holds m (data obj + 4) (header BSON_STRING k ++ le_enc 4 (- (Z.of_nat (length k) + 6))) ->
  nozero k -> Z.of_nat (length k) < 2 ^ 30 -> k <> name ->
  forall fuel, bson_find m fuel obj name = NoFuel.
Proof.
  intros Hel Hk Hb Hne. set (i := Iter (data obj + 4) 0). change (data obj + 4) with (it_cur i) in Hel.
  assert (Hty : in_s 8 BSON_STRING) by (unfold in_s, BSON_STRING; lia).
  pose proof (elem_type m i k _ _ Hel Hty) as Ht. pose proof (elem_key m i k _ _ Hel Hk) as Hkey.
  assert (Hint : bson_iterator_int_raw m i = Ret (- (Z.of_nat (length k) + 6))).
  { unfold bson_iterator_int_raw. rewrite (elem_value m i k _ _ Hel Hk), bind_Ret_l.
    pose proof (elem_holds m i k _ _ Hel) as Hv. rewrite <- app_nil_r in Hv. apply (int_ok _ _ _ _ Hv). unfold in_s. lia. }
  assert (Hnext : bson_iterator_next m i = Ret (BSON_STRING, i)).
  { unfold bson_iterator_next. change (negb (it_first i =? 0)) with false. cbv iota. rewrite Ht, bind_Ret_l.
    unfold next_size. cbn [BSON_STRING BSON_EOO BSON_UNDEFINED BSON_NULL BSON_BOOL BSON_INT BSON_LONG BSON_DOUBLE
      BSON_TIMESTAMP BSON_DATE BSON_OID Z.eqb Pos.eqb orb].
    rewrite Hint, bind_Ret_l. sint_step. rewrite bind_Ret_l, (elem_strlen m i k _ _ Hel Hk), bind_Ret_l.
    rewrite wrapS_id by (unfold in_s; lia). cbv zeta.
    replace (it_cur i + (1 + Z.of_nat (length k) + 1 + (4 + - (Z.of_nat (length k) + 6)))) with (it_cur i) by lia.
    change (load_char m (it_cur i)) with (bson_iterator_type m i). rewrite Ht. done. }
  assert (Hloop : forall fuel, find_from m fuel name i = NoFuel).
  { induction fuel as [|fuel IH]; [done|]. cbn [find_from]. rewrite Hnext, bind_Ret_l.
    change (BSON_STRING =? 0) with false. cbv iota. rewrite Hkey, bind_Ret_l. by rewrite bool_decide_false. }
  intros [|fuel]; [done|]. unfold bson_find, bson_iterator_init. cbn [find_from].
  unfold bson_iterator_next. cbn [it_first it_cur]. change (negb (1 =? 0)) with true. cbv iota.
  change (load_char m (data obj + 4)) with (bson_iterator_type m i). rewrite Ht, !bind_Ret_l.
  change (BSON_STRING =? 0) with false. cbv iota. fold i. rewrite Hkey, bind_Ret_l, bool_decide_false by done.
  apply Hloop.
Qed.

(** ** Examples *)

(** Checks that accept everything, no clock. *)
#[export] Instance ExBsonEnv : BsonEnv unit := {|
  call_handler := fun _ _ e => e; call_int := fun _ e => (1, e); c_time := fun e => (0, e);
  c_srand := fun _ e => e; c_rand := fun e => (4, e);
  bson_check_field_name := fun b _ => (BSON_OK, b); bson_check_string := fun b _ => (BSON_OK, b) |}.
#[export] Instance ExBsonEnvOk : BsonEnvOk unit.
Proof.
  refine {| good_text := fun _ => True |}; intros b n _; exists (err b); (split; [by destruct b|done]).
Defined.
Definition ex_bson_st : st unit := St (Heap ∅ ∅) 0 0 0 0 0 tt.
Definition ex_doc : list (bytes * value) :=
  [([97], VInt (-5)); ([98], VDoc false [([99], VString [104; 105]); ([], VDoc true [])]); ([100], VRegex [120] [])].

Lemma bson_roundtrip_witness :
  exists b s', @build_doc unit ExBsonEnv Bump BumpRe ex_doc ex_bson_st = Ret (BSON_OK, b, s') /\ finished b = 1 /\
    holds (mem s') (data b) (enc_doc ex_doc) /\
    forall fuel, (length (enc_doc ex_doc) <= fuel)%nat -> read_doc (mem s') fuel (data b) = Ret ex_doc.
Proof.
  apply (@bson_roundtrip unit ExBsonEnv ExBsonEnvOk Bump Bump_ok BumpRe BumpRe_ok Bump_enough ex_doc ex_bson_st).
  - split; intros; cbn in *; by rewrite lookup_empty in *.
  - cbn. tauto.
  - cbn. unfold nozero, in_s. split_and!; try done; try lia; repeat constructor; discriminate.
  - vm_compute. discriminate.
Defined.

Lemma ensure_space_overflow_witness :
  (2 ^ 32 <= 3 * (1000000000 + 500000000) ->
   @bson_ensure_space unit BumpRe
     (Bson 4096 (4096 + 900000000) 1000000000 0 1 [] 0 0 StackNull 0) 500000000 ex_bson_st = Undef) /\
  (forall b' s', @bson_ensure_space unit BumpRe
     (Bson 4096 (4096 + 900000000) 1000000000 0 1 [] 0 0 StackNull 0) 500000000 ex_bson_st
     = Ret (BSON_ERROR, b', s') -> err b' = BSON_DOES_NOT_OWN_DATA).
Proof.
  apply (@ensure_space_overflow unit BumpRe
    (Bson 4096 (4096 + 900000000) 1000000000 0 1 [] 0 0 StackNull 0) 500000000 ex_bson_st);
    cbn; unfold INT_MAX; lia.
Defined.

Definition ex_stuck : gmap Z Z :=
  list_to_map (zip (seqZ 4100 7) ([2; 97; 0] ++ le_enc 4 (-7))).
Lemma find_never_ends_witness :
  bson_find ex_stuck 100 (Bson 4096 0 12 1 0 [] 0 0 StackNull 0) [98] = NoFuel.
Proof.
  apply (find_never_ends ex_stuck (Bson 4096 0 12 1 0 [] 0 0 StackNull 0) [97] [98]);
    [vm_compute; reflexivity|repeat constructor; discriminate|cbn; lia|discriminate].
Defined.
