(* ===== verification/Lbson.v ===== *)
(** * Lbson: the BSON module for scripts

    Source: src/src/bson/bson_encode.cpp and cBson.cpp.  Encode walks the value on top of
    the Lua stack (LuaStack.v) with the builder of Bson.v and leaves the document in a full
    userdata; Decode walks the document with the iterators of BsonIter.v.  The structs that
    bson_alloc takes from the heap are never given back; their contents are passed as values.
    The messages written to the log and the console are left out. *)
From Stdlib Require Import SpecFloat.
From S2P Require Import Prelude Fmt Mem CStr Lua LuaStack Dbl Bson BsonBuild BsonIter.
Local Open Scope Z_scope.

Definition SIZEOF_BSON : Z := 312.

(** The library, and the userdata of the metatable bson by address ([None]: a struct that
    was never filled in). *)
Record lst (E : Type) := LSt { lib : st E; userdata : gmap Z (option bson); next_ud : Z }.
Arguments LSt {E}. Arguments lib {E}. Arguments userdata {E}. Arguments next_ud {E}.

Section Module.
Context {E : Type} {EV : BsonEnv E} {A : Allocator} {RA : Reallocator}.
Implicit Types (s : st E) (b : bson).

Definition bson_alloc s : res (Z * st E) := bson_malloc SIZEOF_BSON s.

(** ** cBson.cpp *)

(** [empty]: the address of bson_shared_empty_data. *)
Definition cBSON_CreateNull (empty : Z) s : res (option bson * st E) :=
  '(item, s) ← bson_alloc s;
  if item =? NULL then Ret (None, s)
  else
    '(_, b) ← bson_init_empty empty s;
    '(_, b, s) ← bson_finish b s;
    Ret (Some b, s).

(** A new document of one element. *)
Definition created (append : bson -> st E -> res (Z * bson * st E)) s : res (option bson * st E) :=
  '(item, s) ← bson_alloc s;
  if item =? NULL then Ret (None, s)
  else
    '(_, b, s) ← bson_init s;
    '(_, b, s) ← append b s;
    '(_, b, s) ← bson_finish b s;
    Ret (Some b, s).
Definition cBSON_CreateBool (data : Z) s := created (fun b s => bson_append_bool b (lit "0") data s) s.
Definition cBSON_CreateNumber (data : lnumber) s := created (fun b s => bson_append_double b (lit "0") (bits_of_d data) s) s.
Definition cBSON_CreateString (string : bytes) s := created (fun b s => bson_append_string b (lit "0") string s) s.

(** The value is the one on top of the stack. *)
Definition cBSON_AppendBool (x : bool) b (key : bytes) s : res (Z * bson * st E) :=
  '(_, b, s) ← bson_append_bool b key (if x then 1 else 0) s; Ret (0, b, s).
Definition cBSON_AppendNumber (d : lnumber) b (key : bytes) s : res (Z * bson * st E) := bson_append_int b key (d2i32 d) s.
Definition cBSON_AppendString (t : bytes) b (key : bytes) s : res (Z * bson * st E) := bson_append_string b key (cstr t) s.

(** ** Encoding

    [limit]: the size of the Lua stack.  An entry under a string that cannot be encoded ends
    the loop of an inner table with the key and the value still on the stack. *)
Section Stack.
Variable limit : nat.

Fixpoint bson_encode_append (fuel : nat) b (key : bytes) (stk : list tree) s : res (Z * bson * list tree * st E) :=
  match fuel with
  | O => NoFuel
  | S fuel =>
      match stk with
      | Val (LBool x) :: _ => '(_, b, s) ← cBSON_AppendBool x b key s; Ret (0, b, stk, s)
      | Val (LNum d) :: _ => '(_, b, s) ← cBSON_AppendNumber d b key s; Ret (0, b, stk, s)
      | Val (LStr t) :: _ => '(_, b, s) ← cBSON_AppendString t b key s; Ret (0, b, stk, s)
      | Tab _ :: _ =>
          '(_, b, s) ← bson_append_start_array b (lit "0") s;
          stk ← lua_push limit (Val LNil) stk;
          '(b, stk, s) ← append_entries fuel b stk s;
          '(_, b, s) ← finish_sub b s;
          Ret (0, b, stk, s)
      | _ => Ret (1, b, stk, s)
      end
  end
with append_entries (fuel : nat) b (stk : list tree) s : res (bson * list tree * st E) :=
  match fuel with
  | O => NoFuel
  | S fuel =>
      '(more, stk) ← lua_next limit stk;
      if more : bool then
        match stk with
        | _ :: Val (LStr k) :: _ =>
            '(r, b, stk, s) ← bson_encode_append fuel b (cstr k) stk s;
            if r =? 0 then append_entries fuel b (tail stk) s else Ret (b, stk, s)
        | _ :: Val (LNum k) :: _ =>
            '(_, b, stk, s) ← bson_encode_append fuel b (fmt_d (d2i32 k)) stk s;
            append_entries fuel b (tail stk) s
        | _ => append_entries fuel b (tail stk) s
        end
      else Ret (b, stk, s)
  end.

(** The loop of the outermost table does not look at the results. *)
Fixpoint encode_entries (fuel : nat) b (stk : list tree) s : res (bson * list tree * st E) :=
  match fuel with
  | O => NoFuel
  | S fuel =>
      '(more, stk) ← lua_next limit stk;
      if more : bool then
        match stk with
        | _ :: Val (LStr k) :: _ =>
            '(_, b, stk, s) ← bson_encode_append fuel b (cstr k) stk s;
            encode_entries fuel b (tail stk) s
        | _ :: Val (LNum k) :: _ =>
            '(_, b, stk, s) ← bson_encode_append fuel b (fmt_d (d2i32 k)) stk s;
            encode_entries fuel b (tail stk) s
        | _ => encode_entries fuel b (tail stk) s
        end
      else Ret (b, stk, s)
  end.

Definition bson_encode (empty : Z) (fuel : nat) (stk : list tree) s : res (option bson * list tree * st E) :=
  match stk with
  | Val LNil :: _ => '(b, s) ← cBSON_CreateNull empty s; Ret (b, stk, s)
  | Val (LBool x) :: _ => '(b, s) ← cBSON_CreateBool (if x then 1 else 0) s; Ret (b, stk, s)
  | Val (LNum d) :: _ => '(b, s) ← cBSON_CreateNumber d s; Ret (b, stk, s)
  | Val (LStr t) :: _ => '(b, s) ← cBSON_CreateString (cstr t) s; Ret (b, stk, s)
  | Tab _ :: _ =>
      '(item, s) ← bson_alloc s;
      if item =? NULL then Ret (None, stk, s)
      else
        '(_, b, s) ← bson_init s;
        '(_, b, s) ← bson_append_start_array b (lit "0") s;
        stk ← lua_push limit (Val LNil) stk;
        '(b, stk, s) ← encode_entries fuel b stk s;
        '(_, b, s) ← finish_sub b s;
        '(_, b, s) ← bson_finish b s;
        Ret (Some b, stk, s)
  | _ => Ret (None, stk, s)
  end.

(** ** Decoding *)

(** The switch over the types; [decode]: the call for a document inside. *)
Definition decode_value (decode : bson_iterator -> bool -> list tree -> res (list tree)) (m : gmap Z Z) (i : bson_iterator)
    (t : Z) (stk : list tree) : res (list tree) :=
  if t =? BSON_DOUBLE then d ← bson_iterator_double m i; lua_push limit (Val (LNum d)) stk
  else if t =? BSON_STRING then x ← bson_iterator_string m i; lua_push limit (Val (lua_pushstring x)) stk
  else if t =? BSON_BOOL then x ← bson_iterator_bool m i; lua_push limit (Val (LBool (negb (x =? 0)))) stk
  else if t =? BSON_NULL then lua_push limit (Val LNil) stk
  else if t =? BSON_INT then n ← bson_iterator_int m i; lua_push limit (Val (lua_pushinteger n)) stk
  else if t =? BSON_OBJECT then
    j ← bson_iterator_subiterator m i;
    stk ← decode j false stk;
    lua_settable stk
  else if t =? BSON_ARRAY then
    stk ← lua_push limit (Tab []) stk;
    j ← bson_iterator_subiterator m i;
    decode j true stk
  else Ret stk.

Fixpoint bson_decode_tree (fuel : nat) (m : gmap Z Z) (i : bson_iterator) (set_t : bool) (stk : list tree) : res (list tree) :=
  match fuel with
  | O => NoFuel
  | S fuel =>
      '(more, i) ← bson_iterator_next m i;
      if more =? 0 then Ret stk
      else
        t ← bson_iterator_type m i;
        if t =? 0 then lua_push limit (Val LNil) stk
        else
          key ← c_string m (bson_iterator_key i);
          stk ← (if set_t then lua_push limit (Val (lua_pushstring key)) stk else Ret stk);
          stk ← decode_value (bson_decode_tree fuel m) m i t stk;
          stk ← (if set_t then lua_settable stk else Ret stk);
          bson_decode_tree fuel m i set_t stk
  end.

Definition bson_decode (fuel : nat) (b_lua : bson) (stk : list tree) s : res (list tree) :=
  bson_decode_tree fuel (mem s) (bson_iterator_init b_lua) false stk.
End Stack.

(** ** The Lua functions *)

(** [fuel]: for the walk of bson_print.  The result -1 for a value that cannot be encoded is
    no number of results. *)
Definition Encode (empty : Z) (fuel : nat) (args : list tree) (l : lst E) : res (list tree * lst E) :=
  let limit := frame args in
  '(b, stk, s) ← bson_encode limit empty (1 + tree_size (Tab (map (pair LNil) args))) (rev args) (lib l);
  match b with
  | None => Undef
  | Some b =>
      _ ← bson_print (mem s) fuel b;
      let p := next_ud l in
      stk ← lua_push limit (Val (LUser p)) stk;
      '(ret, bson_field, s) ← bson_copy (Some _bson_zero) (Some b) s;
      _ ← lua_push limit (Val LNil) stk;          (* the metatable *)
      '(_, s) ← bson_destroy b s;
      Ret ([Val (LUser p)], LSt s (<[p := if ret =? 0 then bson_field else None]> (userdata l)) (p + 1))
  end.

Definition Decode (fuel : nat) (args : list tree) (l : lst E) : res (list tree * lst E) :=
  match args with
  | Val (LUser p) :: _ =>
      match userdata l !! p with
      | None => Raise
      | Some None => Undef
      | Some (Some b_lua) =>
          stk ← bson_decode (frame args) fuel b_lua (rev args) (lib l);
          match stk with v :: _ => Ret ([v], l) | [] => Undef end
      end
  | _ => Raise
  end.
End Module.

(** ** Scripts' values and their documents *)

Definition key_name (k : lval) : bytes := match k with LStr t => t | LNum d => fmt_d (d2i32 d) | _ => [] end.
(** A table that is an entry is written under the name 0, whatever its key. *)
Definition elem_name (key : bytes) (v : tree) : bytes := match v with Tab _ => lit "0" | Val _ => key end.
Fixpoint bval (t : tree) : value :=
  match t with
  | Val (LBool x) => VBool x
  | Val (LNum d) => VInt (d2i32 d)
  | Val (LStr t) => VString t
  | Val _ => VNull
  | Tab l => VDoc true (map (fun '(k, v) => (elem_name (key_name k) v, bval v)) l)
  end.
Definition members (l : list (lval * tree)) : list (bytes * value) := map (fun '(k, v) => (elem_name (key_name k) v, bval v)) l.
Definition doc_of (t : tree) : list (bytes * value) :=
  [(lit "0", match t with Val (LNum d) => VDouble (bits_of_d d) | t => bval t end)].

(** What a script gets for a value of a document. *)
Fixpoint back (v : value) : tree :=
  match v with
  | VDouble z => Val (LNum (d_of_bits z))
  | VString t => Val (LStr t)
  | VBool x => Val (LBool x)
  | VInt n => Val (LNum (d_of_Z n))
  | VDoc _ l => Tab (fold_left (fun acc '(k, x) => settable (LStr k) (back x) acc) l [])
  | _ => Val LNil
  end.
Definition back_doc (l : list (bytes * value)) : option tree := match l with [(_, v)] => Some (back v) | _ => None end.

(** The types Encode writes in a table. *)
Fixpoint plain (v : value) : Prop :=
  match v with
  | VBool _ | VInt _ | VString _ | VDouble _ => True
  | VDoc a l => a = true /\ fold_right (fun '(_, x) R => plain x /\ R) True l
  | _ => False
  end.
Fixpoint vdepth (v : value) : nat :=
  match v with VDoc _ l => S (fold_right (fun '(_, x) n => Nat.max (vdepth x) n) 0%nat l) | _ => 0 end.
Definition max_depth (l : list (bytes * value)) : nat := fold_right (fun '(_, x) n => Nat.max (vdepth x) n) 0%nat l.

(** ** Decoding *)

Section Decode.
Variable m : gmap Z Z.

Lemma plain_doc a l : plain (VDoc a l) <-> a = true /\ Forall (fun e => plain e.2) l.
Proof.
  cbn [plain]. f_equiv. induction l as [|[k x] l IH]; cbn; [split; constructor|]. by rewrite Forall_cons, IH.
Qed.

Lemma decode_scalar decode limit p k v l stk : at_element m p k v l -> nozero k -> plain v -> is_doc v = false -> readable v ->
  (length stk < limit)%nat -> decode_value limit decode m (Iter p 0) (vtype v) stk = Ret (back v :: stk).
Proof.
  intros [Hel Ht Hkey Hval Hh _] Hk Hp Hd Hr Hlim. set (i := Iter p 0) in *. change (load_char m p) with (bson_iterator_type m i) in Ht.
  assert (Hh0 : holds m (p + 2 + Z.of_nat (length k)) (enc_value v ++ [])) by by rewrite app_nil_r.
  destruct v as [z|t|t|t|ty t| |o|w|z| |p' o|z|j t|z|a l']; try done; cbn [vtype enc_value readable back] in *;
    unfold decode_value; cbn [Z.eqb Pos.eqb orb BSON_DOUBLE BSON_STRING BSON_BOOL BSON_NULL BSON_INT];
    unfold bson_iterator_double, bson_iterator_string, bson_iterator_bool, bson_iterator_int; rewrite Ht, !bind_Ret_l;
    cbn [Z.eqb Pos.eqb orb BSON_DOUBLE BSON_STRING BSON_BOOL BSON_NULL BSON_INT BSON_LONG BSON_SYMBOL].
  - unfold bson_iterator_double_raw. rewrite Hval, bind_Ret_l, (double_ok _ _ _ _ Hh0), !bind_Ret_l by done. by apply push_ok.
  - rewrite Hval, bind_Ret_l, (read_text_ok _ _ _ Hh), bind_Ret_l by done. unfold lua_pushstring. rewrite cstr_nozero by done. by apply push_ok.
  - unfold bson_iterator_bool_raw. rewrite Hval, bind_Ret_l. apply holds_cons in Hh as [Hc _].
    unfold load_char. rewrite Hc. cbn [of_option]. rewrite !bind_Ret_l. destruct w; by apply push_ok.
  - unfold bson_iterator_int_raw. rewrite Hval, bind_Ret_l, (int_ok _ _ _ _ Hh0), bind_Ret_l by done. by apply push_ok.
Qed.

Definition add_member (acc : list (lval * tree)) (e : bytes * value) : list (lval * tree) := settable (LStr e.1) (back e.2) acc.
Lemma back_doc_fold a l : back (VDoc a l) = Tab (fold_left add_member l []).
Proof. cbn [back]. f_equal. generalize (@nil (lval * tree)). induction l as [|[k x] l IH]; intros acc; [done|]. cbn. by rewrite IH. Qed.

(** The members of a document are added to the table on top. *)
Definition body_spec (limit fuel : nat) : Prop := forall l j p acc stk,
  bson_iterator_next m j = (t ← load_char m p; Ret (t, Iter p 0)) ->
  holds m p (enc_body l ++ [0]) -> all_readable l -> Forall (fun e => plain e.2) l -> Z.of_nat (length (enc_body l)) < 2 ^ 30 ->
  (length (enc_body l) < fuel)%nat -> (length stk + 2 * S (max_depth l) < limit)%nat ->
  bson_decode_tree limit fuel m j true (Tab acc :: stk) = Ret (Tab (fold_left add_member l acc) :: stk).

Lemma decode_value_ok limit fuel p k v l stk : body_spec limit fuel ->
  at_element m p k v l -> nozero k -> plain v -> readable v ->
  Z.of_nat (length (enc_value v)) < 2 ^ 30 -> (length (enc_value v) <= fuel)%nat -> (length stk + 2 * vdepth v < limit)%nat ->
  decode_value limit (bson_decode_tree limit fuel m) m (Iter p 0) (vtype v) stk = Ret (back v :: stk).
Proof.
  intros Hbody Hae Hk Hp Hr Hb Hf Hlim.
  destruct (is_doc v) eqn:Ed; [|apply (decode_scalar _ limit p k v l); (done || lia)].
  destruct v as [| | | | | | | | | | | | | |a l']; try done. apply plain_doc in Hp as [-> Hpl'].
  unfold decode_value. cbn [vtype Z.eqb Pos.eqb BSON_DOUBLE BSON_STRING BSON_BOOL BSON_NULL BSON_INT BSON_OBJECT BSON_ARRAY].
  cbn [vdepth] in Hlim. fold (max_depth l') in Hlim.
  rewrite push_ok, bind_Ret_l by (cbn [length]; lia). unfold bson_iterator_subiterator.
  destruct Hae as [_ _ _ Hval Hsub _]. rewrite Hval, !bind_Ret_l. rewrite enc_value_doc, enc_doc_length in *. rewrite back_doc_fold.
  apply (Hbody l' _ (p + 2 + Z.of_nat (length k) + 4)); [done|exact (doc_body _ _ _ Hsub)|by rewrite readable_doc in Hr|done|lia..].
Qed.

Lemma decode_body_ok limit fuel : body_spec limit fuel.
Proof.
  induction fuel as [|fuel IH]; intros [|[k v] l] j p acc stk Hj Hh Hr Hp Hb Hf Hlim; [lia..| |]; cbn [bson_decode_tree]; rewrite Hj.
  - by rewrite (body_end _ _ Hh).
  - destruct Hr as (Hk & Hv & Hl). apply Forall_cons in Hp as [Hpv Hpl]. cbn [snd] in Hpv.
    pose proof (body_step m p k v l Hh Hk Hv Hb) as Hae. pose proof Hae as [_ Ht Hkey _ _ (q & Hnext & Hrest)].
    cbn [enc_body max_depth fold_right] in *. fold (max_depth l) in *. rewrite !length_app in Hb, Hf. pose proof (header_length (vtype v) k) as Hhl.
    pose proof (vtype_range v) as Hty. rewrite Ht, !bind_Ret_l. change (bson_iterator_type m (Iter p 0)) with (load_char m p). rewrite Ht, bind_Ret_l.
    destruct (Z.eqb_spec (vtype v) 0); [lia|]. rewrite Hkey, bind_Ret_l.
    rewrite push_ok, bind_Ret_l by (cbn [length]; lia). unfold lua_pushstring. rewrite cstr_nozero by done.
    rewrite (decode_value_ok limit fuel p k v l) by (done || (cbn [length]; lia)).
    rewrite bind_Ret_l, settable_ok, bind_Ret_l by done. cbn [fold_left]. change (settable (LStr k) (back v) acc) with (add_member acc (k, v)).
    apply (IH l _ q); (done || lia).
Qed.

(** The document Encode makes. *)
Lemma decode_doc_ok limit fuel p k v stk : holds m p (enc_doc [(k, v)]) -> nozero k -> readable v -> plain v ->
  Z.of_nat (length (enc_doc [(k, v)])) < 2 ^ 30 -> (length (enc_doc [(k, v)]) <= fuel)%nat ->
  (length stk + 2 * vdepth v < limit)%nat ->
  bson_decode_tree limit fuel m (bson_iterator_from_buffer p) false stk = Ret (back v :: stk).
Proof.
  intros Hh Hk Hr Hp Hb Hf Hlim. rewrite enc_doc_length in *. apply doc_body in Hh.
  pose proof (body_step m (p + 4) k v [] Hh Hk Hr ltac:(lia)) as Hae. pose proof Hae as [_ Ht Hkey _ _ (q & Hnext & Hrest)].
  cbn [enc_body] in Hb, Hf. rewrite !length_app in Hb, Hf. pose proof (header_length (vtype v) k) as Hhl. pose proof (vtype_range v) as Hty.
  destruct fuel as [|fuel]; [lia|]. cbn [bson_decode_tree].
  change (bson_iterator_next m (bson_iterator_from_buffer p)) with (t ← load_char m (p + 4); Ret (t, Iter (p + 4) 0)).
  rewrite Ht, !bind_Ret_l. change (bson_iterator_type m (Iter (p + 4) 0)) with (load_char m (p + 4)). rewrite Ht.
  destruct (Z.eqb_spec (vtype v) 0); [lia|]. rewrite bind_Ret_l, Hkey, !bind_Ret_l.
  rewrite (decode_value_ok limit fuel (p + 4) k v []) by (apply decode_body_ok || done || lia).
  destruct (Z.eqb_spec (vtype v) 0); [lia|]. rewrite !bind_Ret_l. destruct fuel as [|fuel]; [lia|]. cbn [bson_decode_tree]. by rewrite Hnext, (body_end _ _ Hrest).
Qed.

(** bson_print gets to the end of such a document. *)
Lemma print_scalar_ok p k v l : at_element m p k v l -> plain v -> is_doc v = false -> readable v ->
  exists x, print_scalar m (Iter p 0) (vtype v) = Ret (Some x).
Proof.
  intros [Hel Ht Hkey Hval Hh _] Hp Hd Hr. change (load_char m p) with (bson_iterator_type m (Iter p 0)) in Ht.
  assert (Hh0 : holds m (p + 2 + Z.of_nat (length k)) (enc_value v ++ [])) by by rewrite app_nil_r.
  destruct v as [z|t|t|t|ty t| |o|w|z| |p' o|z|j t|z|a l']; try done; cbn [vtype enc_value readable] in *;
    unfold print_scalar; cbn [Z.eqb Pos.eqb orb BSON_DOUBLE BSON_STRING BSON_SYMBOL BSON_BOOL BSON_OID BSON_INT BSON_DATE BSON_BINDATA BSON_UNDEFINED
      BSON_NULL BSON_REGEX BSON_CODE];
    unfold bson_iterator_double, bson_iterator_string, bson_iterator_bool, bson_iterator_int; rewrite Ht, !bind_Ret_l;
    cbn [Z.eqb Pos.eqb orb BSON_DOUBLE BSON_STRING BSON_BOOL BSON_NULL BSON_INT BSON_LONG BSON_SYMBOL].
  - unfold bson_iterator_double_raw. rewrite Hval, bind_Ret_l, (double_ok _ _ _ _ Hh0) by done. eexists; done.
  - rewrite Hval, bind_Ret_l, (read_text_ok _ _ _ Hh) by done. eexists; done.
  - unfold bson_iterator_bool_raw. rewrite Hval, bind_Ret_l. apply holds_cons in Hh as [Hc _].
    unfold load_char. rewrite Hc. eexists; done.
  - unfold bson_iterator_int_raw. rewrite Hval, bind_Ret_l, (int_ok _ _ _ _ Hh0) by done. eexists; done.
Qed.

Lemma print_body_ok fuel : forall l j p dep,
  bson_iterator_next m j = (t ← load_char m p; Ret (t, Iter p 0)) ->
  holds m p (enc_body l ++ [0]) -> all_readable l -> Forall (fun e => plain e.2) l -> Z.of_nat (length (enc_body l)) < 2 ^ 30 ->
  (length (enc_body l) < fuel)%nat -> exists x, print_from m fuel j dep = Ret x.
Proof.
  induction fuel as [|fuel IH]; intros [|[k v] l] j p dep Hj Hh Hr Hp Hb Hf; [lia..| |]; cbn [print_from]; rewrite Hj.
  - rewrite (body_end _ _ Hh), !bind_Ret_l. change (bson_iterator_type m (Iter p 0)) with (load_char m p).
    rewrite (body_end _ _ Hh). by eexists.
  - destruct Hr as (Hk & Hv & Hl). apply Forall_cons in Hp as [Hpv Hpl]. cbn [snd] in Hpv.
    pose proof (body_step m p k v l Hh Hk Hv Hb) as Hae. pose proof Hae as [_ Ht Hkey Hval Hsub (q & Hnext & Hrest)].
    cbn [enc_body] in *. rewrite !length_app in Hb, Hf. pose proof (header_length (vtype v) k) as Hhl.
    pose proof (vtype_range v) as Hty. rewrite Ht, !bind_Ret_l. change (bson_iterator_type m (Iter p 0)) with (load_char m p). rewrite Ht, bind_Ret_l.
    destruct (Z.eqb_spec (vtype v) 0); [lia|]. rewrite Hkey, bind_Ret_l.
    destruct (IH l (Iter p 0) q dep) as [rest Htail]; [done|done|done|done|lia|lia|].
    destruct (is_doc v) eqn:Ed.
    + destruct v as [| | | | | | | | | | | | | |a l']; try done. apply plain_doc in Hpv as [-> Hpl'].
      change (print_scalar m (Iter p 0) (vtype (VDoc true l'))) with (Ret (A := option (list pitem)) None). rewrite bind_Ret_l.
      rewrite Hval, bind_Ret_l. change (vtype (VDoc true l') =? BSON_CODEWSCOPE) with false. cbv iota.
      rewrite enc_value_doc, enc_doc_length in *.
      destruct (IH l' (bson_iterator_from_buffer (p + 2 + Z.of_nat (length k))) (p + 2 + Z.of_nat (length k) + 4) (S dep)) as [x Hx];
        [done|exact (doc_body _ _ _ Hsub)|by rewrite readable_doc in Hv|done|lia|lia|].
      rewrite Hx, !bind_Ret_l, Htail. by eexists.
    + destruct (print_scalar_ok p k v l Hae Hpv Ed Hv) as [x Hx]. rewrite Hx, !bind_Ret_l, Htail. by eexists.
Qed.
End Decode.

(** ** Encoding *)

Section Values.
Context {E : Type} {EV : BsonEnv E} {EOk : BsonEnvOk E}.

(** The values that can be stored: booleans, ints, strings, and tables of them. *)
Definition text_fine (t : bytes) : Prop := nozero t /\ good_text t.
Definition key_fine (k : lval) : Prop :=
  text_fine (key_name k) /\ ((exists t, k = LStr t) \/ (exists n, k = LNum (d_of_Z n) /\ in_s 32 n)).
Definition val_fine (v : lval) : Prop :=
  (exists x, v = LBool x) \/ (exists n, v = LNum (d_of_Z n) /\ in_s 32 n) \/ (exists t, v = LStr t /\ text_fine t).
Fixpoint storable (t : tree) : Prop :=
  match t with
  | Val v => val_fine v
  | Tab l => NoDup (map fst l) /\ fold_right (fun '(k, v) R => (key_fine k /\ storable v) /\ R) True l
  end.
Lemma storable_entries l :
  fold_right (fun '(k, v) R => (key_fine k /\ storable v) /\ R) True l <-> Forall (fun e => key_fine e.1 /\ storable e.2) l.
Proof. induction l as [|[k v] l IH]; cbn; [split; constructor|]. by rewrite Forall_cons, IH. Qed.

Lemma key_fine_nil k : key_fine k -> is_nil k = false.
Proof. by intros [_ [(? & ->)|(? & -> & _)]]. Qed.

Lemma bval_scalar v : val_fine v -> texts_ok (bval (Val v)) /\ readable (bval (Val v)) /\ plain (bval (Val v)) /\ is_doc (bval (Val v)) = false.
Proof.
  intros [(x & ->)|[(n & -> & Hn)|(t & -> & Hz & Hg)]]; cbn; split_and!; try done. by rewrite d2i32_of_Z.
Qed.

(** What Decode and bson_print need of the document. *)
Lemma bval_ok t : storable t -> readable (bval t) /\ plain (bval t) /\ vdepth (bval t) = depth t.
Proof.
  induction t as [v|l IH] using tree_nest_ind.
  - intros Hv. destruct (bval_scalar v Hv) as (_ & Hr & Hp & _). split_and!; [done|done|].
    by destruct Hv as [(x & ->)|[(n & -> & Hn)|(t & -> & Hz & Hg)]].
  - intros [_ Hl%storable_entries]. cbn [bval]. fold (members l). rewrite readable_doc, plain_doc. cbn [vdepth depth]. fold (max_depth (members l)).
    assert (H : all_readable (members l) /\ Forall (fun e => plain e.2) (members l) /\
      max_depth (members l) = fold_right (fun '(_, v) n => Nat.max (depth v) n) 0%nat l); [|naive_solver].
    induction Hl as [|[k v] l [[[Hk _] _] Hv] Hl IHl]; [done|]. apply Forall_cons in IH as [IH1 IH2].
    destruct (IH1 Hv) as (Hr1 & Hp1 & Hd1), (IHl IH2) as (Hr2 & Hp2 & Hd2). cbn [members map all_readable max_depth fold_right snd] in *.
    fold (members l) (max_depth (members l)). rewrite Hd1, Hd2. split_and!; [|done|done|by constructor|done].
    by destruct v; [|repeat constructor].
Qed.

Definition top_value (t : tree) : value := match t with Val (LNum d) => VDouble (bits_of_d d) | t => bval t end.
Lemma doc_of_top t : doc_of t = [(lit "0", top_value t)].
Proof. done. Qed.

Lemma int_double n : in_s 32 n -> is_double (d_of_Z n).
Proof.
  unfold in_s. intros Hn. destruct n as [|p|p]; [done|rewrite d_of_Z_pos|rewrite d_of_Z_neg];
    [destruct (d_of_pos_form false p) as (m & -> & Hm)|destruct (d_of_pos_form true p) as (m & -> & Hm)]; try lia.
  all: assert (Hd : Z.pos (digits2_pos m) = 53) by (rewrite (digits_shift p m (53 - Z.pos (digits2_pos p))) by (pose proof (digits_53 p); lia); lia).
  all: pose proof (digits2_pos_bound m) as Hb; rewrite Hd in Hb; pose proof (digits_53 p ltac:(lia)); cbn [is_double]; left; lia.
Qed.

Lemma top_ok t : storable t -> readable (top_value t) /\ plain (top_value t) /\ vdepth (top_value t) = depth t /\ texts_ok (top_value t) \/ exists l, t = Tab l.
Proof.
  destruct t as [v|l]; [|by eauto]. intros Hv. left.
  destruct Hv as [(x & ->)|[(n & -> & Hn)|(t & -> & Hz & Hg)]]; cbn; split_and!; try done.
  apply d_of_bits_of_d; [by apply int_double|]. unfold in_s in Hn. apply d_of_Z_not_nan. lia.
Qed.

Lemma top_fine t : storable t -> readable (top_value t) /\ plain (top_value t) /\ vdepth (top_value t) = depth t.
Proof.
  intros Hs. destruct (top_ok t Hs) as [(? & ? & ? & _)|(l & ->)]; [done|]. by apply (bval_ok (Tab l)).
Qed.
End Values.

Section Encode.
Context {E : Type} {EV : BsonEnv E} {EOk : BsonEnvOk E} {A : Allocator} {AOk : AllocatorOk A}.
Context {RA : Reallocator} {ROk : ReallocatorOk RA} {ME : MemoryEnough A RA}.
Context (L : Z) (HL : 5 <= L <= 2 ^ 28) (H0 : good_text (lit "0")).
Implicit Types (b : bson) (s : st E).

(** The entry on top of the stack is written behind what there is. *)
Definition appends (limit : nat) (v : tree) : Prop := forall fuel key stk b s d ps,
  Built L b s d ps -> good_text key -> (length stk + 2 * depth v < limit)%nat -> (tree_size v <= fuel)%nat ->
  4 + Z.of_nat (length d) + Z.of_nat (length (header (vtype (bval v)) (elem_name key v))) + Z.of_nat (length (enc_value (bval v))) <= L ->
  exists b' s', bson_encode_append limit fuel b key (v :: stk) s = Ret (0, b', v :: stk, s') /\
    Built L b' s' (d ++ header (vtype (bval v)) (elem_name key v) ++ enc_value (bval v)) ps.

(** The equations of the mutual recursion. *)
Lemma append_tab limit fuel b key l stk s :
  bson_encode_append limit (S fuel) b key (Tab l :: stk) s =
    ('(_, b, s) ← bson_append_start_array b (lit "0") s;
     stk ← lua_push limit (Val LNil) (Tab l :: stk);
     '(b, stk, s) ← append_entries limit fuel b stk s;
     '(_, b, s) ← finish_sub b s;
     Ret (0, b, stk, s)).
Proof. reflexivity. Qed.
Lemma append_entries_step limit fuel b stk s :
  append_entries limit (S fuel) b stk s =
    ('(more, stk) ← lua_next limit stk;
     if more : bool then
       match stk with
       | _ :: Val (LStr k) :: _ =>
           '(r, b, stk, s) ← bson_encode_append limit fuel b (cstr k) stk s;
           if r =? 0 then append_entries limit fuel b (tail stk) s else Ret (b, stk, s)
       | _ :: Val (LNum k) :: _ =>
           '(_, b, stk, s) ← bson_encode_append limit fuel b (fmt_d (d2i32 k)) stk s;
           append_entries limit fuel b (tail stk) s
       | _ => append_entries limit fuel b (tail stk) s
       end
     else Ret (b, stk, s)).
Proof. reflexivity. Qed.

(** Both loops over the entries of a table write an entry and go on with the next. *)
Definition walks (limit : nat) (loop : nat -> bson -> list tree -> st E -> res (bson * list tree * st E)) : Prop :=
  forall fuel b k0 l stk s, (length stk + 3 <= limit)%nat ->
    (cursor k0 l = Some [] -> loop (S fuel) b (Val k0 :: Tab l :: stk) s = Ret (b, Tab l :: stk, s)) /\
    (forall k v rest b' s', cursor k0 l = Some ((k, v) :: rest) -> key_fine k ->
      bson_encode_append limit fuel b (key_name k) (v :: Val k :: Tab l :: stk) s = Ret (0, b', v :: Val k :: Tab l :: stk, s') ->
      loop (S fuel) b (Val k0 :: Tab l :: stk) s = loop fuel b' (Val k :: Tab l :: stk) s').

Lemma append_entries_walks limit : walks limit (append_entries limit).
Proof.
  intros fuel b k0 l stk s Hlim. split.
  - intros Hc. rewrite append_entries_step. cbn [lua_next]. by rewrite Hc.
  - intros k v rest b' s' Hc [[Hz _] Hk] He. rewrite append_entries_step. cbn [lua_next]. rewrite Hc.
    rewrite push_ok, bind_Ret_l, push_ok, !bind_Ret_l by (cbn [length]; lia).
    destruct Hk as [(t & ->)|(n & -> & _)]; cbn [key_name] in *; [rewrite (cstr_nozero t) by done|]; by rewrite He.
Qed.
Lemma encode_entries_walks limit : walks limit (encode_entries limit).
Proof.
  intros fuel b k0 l stk s Hlim. split.
  - intros Hc. cbn [encode_entries lua_next]. by rewrite Hc.
  - intros k v rest b' s' Hc [[Hz _] Hk] He. cbn [encode_entries lua_next]. rewrite Hc.
    rewrite push_ok, bind_Ret_l, push_ok, !bind_Ret_l by (cbn [length]; lia).
    destruct Hk as [(t & ->)|(n & -> & _)]; cbn [key_name] in *; [rewrite (cstr_nozero t) by done|]; by rewrite He.
Qed.

Lemma entries_ok limit loop l stk : walks limit loop -> NoDup (map fst l) ->
  Forall (fun e => key_fine e.1 /\ appends limit e.2) l ->
  forall rest pre k0 fuel b s d ps, l = pre ++ rest -> cursor k0 l = Some rest -> Built L b s d ps ->
  (length stk + 2 * S (fold_right (fun '(_, v) n => Nat.max (depth v) n) 0 rest) < limit)%nat ->
  (1 + fold_right (fun '(_, v) n => 1 + tree_size v + n)%nat 0%nat rest <= fuel)%nat ->
  4 + Z.of_nat (length d) + Z.of_nat (length (enc_body (members rest))) <= L ->
  exists b' s', loop fuel b (Val k0 :: Tab l :: stk) s = Ret (b', Tab l :: stk, s') /\ Built L b' s' (d ++ enc_body (members rest)) ps.
Proof.
  intros Hw Hnd Hl. induction rest as [|[k v] rest IH]; intros pre k0 fuel b s d ps El Hk0 HB Hlim Hf HnL; (destruct fuel as [|fuel]; [lia|]);
    destruct (Hw fuel b k0 l stk s) as [Hend Hstep]; [lia| |lia|].
  - rewrite Hend by done. exists b, s. cbn. by rewrite app_nil_r.
  - cbn [fold_right members map enc_body] in *. fold (members rest) in *. rewrite !length_app in HnL.
    assert (Hkv : key_fine k /\ appends limit v) by (apply (proj1 (Forall_forall _ _) Hl (k, v)); subst l; set_solver).
    destruct Hkv as [Hk Hv]. pose proof Hk as [[_ Hgood] _].
    destruct (Hv fuel (key_name k) (Val k :: Tab l :: stk) b s d ps HB Hgood) as (b1 & s1 & He & B1); [cbn [length]; lia|lia|lia|].
    rewrite (Hstep k v rest b1 s1 Hk0 Hk He).
    destruct (IH (pre ++ [(k, v)]) k fuel b1 s1
      (d ++ header (vtype (bval v)) (elem_name (key_name k) v) ++ enc_value (bval v)) ps) as (b2 & s2 & H2 & B2);
      [by rewrite <- app_assoc| |exact B1|lia|lia|rewrite !length_app; lia|].
    + subst l. apply cursor_app; [done|by apply key_fine_nil].
    + exists b2, s2. split; [exact H2|]. by rewrite <- !app_assoc in B2.
Qed.

Lemma append_scalar_ok limit v : val_fine v -> appends limit (Val v).
Proof.
  intros Hv fuel key stk b s d ps HB Hkey _ Hf HnL. destruct (bval_scalar v Hv) as (Ht & _).
  destruct (put_ok L HL (bval (Val v)) key b s d ps HB Hkey Ht HnL) as (b' & s' & Hp & B').
  exists b', s'. split; [|exact B']. destruct fuel as [|fuel]; [cbn in Hf; lia|].
  destruct Hv as [(x & ->)|[(n & -> & Hn)|(t & -> & Hz & Hg)]]; cbn [bson_encode_append put bval] in *.
  - unfold cBSON_AppendBool. by rewrite Hp.
  - unfold cBSON_AppendNumber. by rewrite Hp.
  - unfold cBSON_AppendString. rewrite cstr_nozero by done. by rewrite Hp.
Qed.

Lemma append_table_ok limit l : NoDup (map fst l) -> Forall (fun e => key_fine e.1 /\ appends limit e.2) l -> appends limit (Tab l).
Proof.
  intros Hnd Hl fuel key stk b s d ps HB Hkey Hlim Hf HnL. cbn [elem_name bval tree_size depth] in *. fold (members l) in *.
  assert (Hlen : Z.of_nat (length (enc_value (VDoc true (members l)))) = 5 + Z.of_nat (length (enc_body (members l)))).
  { rewrite enc_value_doc, enc_doc_length. lia. }
  rewrite Hlen in HnL. destruct fuel as [|fuel]; [lia|]. rewrite append_tab.
  destruct (start_sub_ok L HL b s d ps (vtype (VDoc true (members l))) (lit "0") HB H0) as (b1 & s1 & H1 & B1); [lia|].
  change (bson_append_start_array b (lit "0") s) with (start_sub (vtype (VDoc true (members l))) b (lit "0") s).
  rewrite H1, bind_Ret_l, push_ok, bind_Ret_l by (cbn [length]; lia).
  destruct (entries_ok limit (append_entries limit) l stk (append_entries_walks limit) Hnd Hl l [] LNil fuel b1 s1 _ _ eq_refl eq_refl B1)
    as (b2 & s2 & H2 & B2); [lia|lia|rewrite !length_app; change (length [0; 0; 0; 0]) with 4%nat; lia|].
  rewrite H2, bind_Ret_l. pose proof (b_depth _ _ _ _ _ HB). rewrite <- app_assoc in B2.
  destruct (finish_object_ok L HL b2 s2 (d ++ header (vtype (VDoc true (members l))) (lit "0")) [0; 0; 0; 0] (enc_body (members l)) ps B2)
    as (b3 & s3 & H3 & B3); [done|rewrite length_app; lia|rewrite !length_app; change (length [0; 0; 0; 0]) with 4%nat; lia|].
  unfold finish_sub. rewrite H3, !bind_Ret_l. exists b3, s3. split; [done|]. by rewrite <- app_assoc in B3.
Qed.

Lemma append_tree_ok limit t : storable t -> appends limit t.
Proof.
  induction t as [v|l IH] using tree_nest_ind; [by apply append_scalar_ok|]. intros [Hnd Hl%storable_entries].
  apply append_table_ok; [done|]. rewrite Forall_forall in *. intros e He. destruct (Hl e He). split; [done|]. by apply IH.
Qed.

Lemma bson_alloc_ok s : heap_ok (hp s) -> exists p s', bson_alloc s = Ret (p, s') /\ p <> NULL /\ heap_ok (hp s').
Proof.
  intros Hh. destruct (bson_malloc_ok s SIZEOF_BSON Hh) as (p & s' & H & Hm); [unfold SIZEOF_BSON; lia|].
  exists p, s'. split; [exact H|]. split; [destruct Hm; unfold NULL; lia|]. by eapply malloc_heap_ok.
Qed.

Lemma enc_doc_one k v : enc_doc [(k, v)] = enc_frame ([] ++ header (vtype v) k ++ enc_value v).
Proof. unfold enc_doc. cbn [enc_body app]. by rewrite app_nil_r. Qed.

Lemma created_ok append v s : (forall b s, append b s = put v (lit "0") b s) -> heap_ok (hp s) -> texts_ok v ->
  Z.of_nat (length (enc_doc [(lit "0", v)])) <= L ->
  exists b s', created append s = Ret (Some b, s') /\ Closed b s' (enc_doc [(lit "0", v)]).
Proof.
  intros Ha Hh Ht HnL. rewrite enc_doc_length in HnL. cbn [enc_body] in HnL. rewrite !length_app in HnL. unfold created.
  destruct (bson_alloc_ok s Hh) as (p & s1 & H1 & Hp & Hh1). rewrite H1, bind_Ret_l. destruct (Z.eqb_spec p NULL); [done|].
  destruct (init_ok L HL s1 Hh1) as (b2 & s2 & H2 & B2). rewrite H2, bind_Ret_l, Ha.
  destruct (put_ok L HL v (lit "0") b2 s2 [] [] B2 H0 Ht) as (b3 & s3 & H3 & B3); [cbn [length]; lia|]. rewrite H3, bind_Ret_l.
  destruct (finish_ok L HL b3 s3 _ B3) as (b4 & s4 & H4 & C4); [rewrite !length_app; cbn [length]; lia|].
  rewrite H4, bind_Ret_l. exists b4, s4. split; [done|]. by rewrite enc_doc_one.
Qed.

Lemma encode_ok limit empty fuel t s : heap_ok (hp s) -> storable t -> (2 * depth t < limit)%nat -> (tree_size t <= fuel)%nat ->
  Z.of_nat (length (enc_doc (doc_of t))) <= L ->
  exists b s', bson_encode limit empty fuel [t] s = Ret (Some b, [t], s') /\ Closed b s' (enc_doc (doc_of t)).
Proof.
  intros Hh Hs Hlim Hf HnL. rewrite doc_of_top in *. destruct t as [v|l].
  - destruct (top_ok (Val v) Hs) as [(_ & _ & _ & Ht)|(l & ?)]; [|done].
    destruct Hs as [(x & ->)|[(n & -> & Hn)|(t & -> & Hz & Hg)]]; cbn [bson_encode top_value bval] in *.
    + destruct (created_ok (fun b s => bson_append_bool b (lit "0") (if x then 1 else 0) s) (VBool x) s) as (b & s' & H & C); try done.
      unfold cBSON_CreateBool. rewrite H. by exists b, s'.
    + destruct (created_ok (fun b s => bson_append_double b (lit "0") (bits_of_d (d_of_Z n)) s) (VDouble (bits_of_d (d_of_Z n))) s)
        as (b & s' & H & C); try done. unfold cBSON_CreateNumber. rewrite H. by exists b, s'.
    + rewrite cstr_nozero by done.
      destruct (created_ok (fun b s => bson_append_string b (lit "0") t s) (VString t) s) as (b & s' & H & C); try done.
      unfold cBSON_CreateString. rewrite H. by exists b, s'.
  - rewrite enc_doc_length in HnL. cbn [enc_body top_value bval bson_encode tree_size depth] in *. fold (members l) in *. rewrite !length_app in HnL.
    assert (Hlen : Z.of_nat (length (enc_value (VDoc true (members l)))) = 5 + Z.of_nat (length (enc_body (members l)))).
    { rewrite enc_value_doc, enc_doc_length. lia. }
    destruct (bson_alloc_ok s Hh) as (p & s1 & H1 & Hp & Hh1). rewrite H1, bind_Ret_l. destruct (Z.eqb_spec p NULL); [done|].
    destruct (init_ok L HL s1 Hh1) as (b2 & s2 & H2 & B2). rewrite H2, bind_Ret_l.
    destruct (start_sub_ok L HL b2 s2 [] [] (vtype (VDoc true (members l))) (lit "0") B2 H0) as (b3 & s3 & H3 & B3); [cbn [length]; lia|].
    change (bson_append_start_array b2 (lit "0") s2) with (start_sub (vtype (VDoc true (members l))) b2 (lit "0") s2).
    rewrite H3, bind_Ret_l, push_ok, bind_Ret_l by (cbn [length]; lia). destruct Hs as [Hnd Hl%storable_entries].
    destruct (entries_ok limit (encode_entries limit) l [] (encode_entries_walks limit) Hnd) with (rest := l) (pre := @nil (lval * tree))
      (k0 := LNil) (fuel := fuel) (4 := B3) as (b4 & s4 & H4 & B4); try done; try (cbn [length]; lia).
    { eapply Forall_impl; [exact Hl|]. intros e [Hk Hv]. split; [done|]. by apply append_tree_ok. }
    { rewrite !length_app. change (length [0; 0; 0; 0]) with 4%nat. cbn [length]. lia. }
    rewrite H4, bind_Ret_l. rewrite <- app_assoc in B4.
    destruct (finish_object_ok L HL b4 s4 ([] ++ header (vtype (VDoc true (members l))) (lit "0")) [0; 0; 0; 0] (enc_body (members l)) [] B4)
      as (b5 & s5 & H5 & B5); [done|cbn [length]; lia|rewrite !length_app; change (length [0; 0; 0; 0]) with 4%nat; cbn [length]; lia|].
    unfold finish_sub. rewrite H5, !bind_Ret_l.
    destruct (finish_ok L HL _ _ _ B5) as (b6 & s6 & H6 & C6);
      [unfold enc_frame in *; rewrite !length_app, le_enc_length; cbn [length]; lia|].
    change (default b4 (Some b5)) with b5. rewrite H6, bind_Ret_l. exists b6, s6. split; [done|]. rewrite enc_doc_one. by rewrite <- app_assoc in C6.
Qed.

Lemma Encode_ok empty fuel t (l : lst E) : heap_ok (hp (lib l)) -> storable t -> (depth t <= 9)%nat ->
  Z.of_nat (length (enc_doc (doc_of t))) <= L -> (length (enc_doc (doc_of t)) <= fuel)%nat -> nozero (lit "0") ->
  exists b l', Encode empty fuel [t] l = Ret ([Val (LUser (next_ud l))], l') /\
    userdata l' !! next_ud l = Some (Some b) /\ Closed b (lib l') (enc_doc (doc_of t)).
Proof.
  intros Hh Hs Hd HnL Hf Hz. unfold Encode. cbn [rev app].
  destruct (encode_ok (frame [t]) empty (1 + tree_size (Tab (map (pair LNil) [t]))) t (lib l) Hh Hs) as (b & s1 & H1 & C1);
    [unfold frame, LUA_MINSTACK; cbn [length]; lia|cbn; lia|done|]. rewrite H1, bind_Ret_l.
  destruct (top_fine t Hs) as (Hr & Hp & _).
  destruct (print_body_ok (mem s1) fuel (doc_of t) (bson_iterator_from_buffer (data b)) (data b + 4) 0) as [x Hx].
  - done.
  - apply doc_body. exact (c_data _ _ _ C1).
  - rewrite doc_of_top. done.
  - rewrite doc_of_top. repeat constructor. exact Hp.
  - rewrite enc_doc_length in HnL. lia.
  - rewrite enc_doc_length in Hf. lia.
  - unfold bson_print, bson_print_raw. rewrite Hx, bind_Ret_l, push_ok, bind_Ret_l by (unfold frame, LUA_MINSTACK; cbn [length]; lia).
    pose proof HnL as HnL'. rewrite enc_doc_length in HnL'.
    destruct (bson_copy_ok L HL _bson_zero b s1 (enc_body (doc_of t)) C1) as (b2 & s2 & H2 & C2 & C2' & Hap); [lia|].
    rewrite H2, bind_Ret_l. rewrite push_ok, bind_Ret_l by (unfold frame, LUA_MINSTACK; cbn [length]; lia).
    destruct (bson_destroy_ok b s2 _ b2 _ C2' C2 Hap) as (b3 & s3 & H3 & C3). rewrite H3, bind_Ret_l.
    exists b2. eexists. split; [done|]. split; [|exact C3]. cbn [userdata]. by rewrite lookup_insert_eq.
Qed.
End Encode.

(** Tables of scalars under strings. *)
Definition flat (t : tree) : Prop :=
  match t with Val _ => True | Tab l => Forall (fun e => (exists s, e.1 = LStr s) /\ exists v, e.2 = Val v) l end.

Section Roundtrip.
Context {E : Type} {EV : BsonEnv E} {EOk : BsonEnvOk E}.

Lemma back_scalar v : val_fine v -> back (bval (Val v)) = Val v.
Proof. intros [(x & ->)|[(n & -> & Hn)|(t & -> & _)]]; cbn; [done| |done]. by rewrite d2i32_of_Z. Qed.

Lemma flat_members rest : forall pre, NoDup (map fst (pre ++ rest)) ->
  Forall (fun e => key_fine e.1 /\ storable e.2) rest -> flat (Tab rest) -> fold_left add_member (members rest) pre = pre ++ rest.
Proof.
  induction rest as [|[k v] rest IH]; intros pre Hnd Hl Hflat; [by rewrite app_nil_r|].
  apply Forall_cons in Hl as [[Hk Hv] Hl]. apply Forall_cons in Hflat as [[(s & Hks) (x & Hvx)] Hflat]. cbn [fst snd] in *. subst k v.
  cbn [members map fold_left]. fold (members rest). unfold add_member at 2. cbn [fst snd elem_name key_name]. rewrite back_scalar by done.
  rewrite settable_new.
  - rewrite IH; [by rewrite <- app_assoc|by rewrite <- app_assoc|done|done].
  - apply tree_get_fresh. rewrite map_app in Hnd. apply NoDup_app in Hnd as (_ & Hnd & _). intros Hin. specialize (Hnd _ Hin). set_solver.
  - destruct Hv as [(b & ->)|[(n & -> & Hn)|(t & -> & _)]]; discriminate.
Qed.

Lemma back_flat t : storable t -> flat t -> back (top_value t) = t.
Proof.
  destruct t as [v|l]; intros Hs Hflat.
  - destruct Hs as [(x & ->)|[(n & -> & Hn)|(t & -> & _)]]; [done| |done]. cbn [top_value back].
    do 2 f_equal. apply d_of_bits_of_d; [by apply int_double|]. unfold in_s in Hn. apply d_of_Z_not_nan. lia.
  - destruct Hs as [Hnd Hl%storable_entries]. cbn [top_value bval]. fold (members l). rewrite back_doc_fold. f_equal.
    by apply (flat_members l []).
Qed.

(** C19. BSON.Encode and BSON.Decode for scripts: a boolean, an int, a string or a table of
    these, of any nesting up to nine, is encoded, and the userdata holds the BSON encoding
    of it, an array of the entries in the order of the table with every table inside it
    under the name 0.  Decoding gives the entries of that document; for a table without
    tables in it whose keys are strings this is the value itself.  The numbers are ints of
    32 bits, the keys strings or such ints and distinct, and every string, a key or a value,
    is without zero bytes and accepted by the UTF-8 check of the library (another string is
    cut at the zero byte, or left out); memory does not run out and the document has at
    most 2^28 bytes. *)
Theorem bson_script_roundtrip {A : Allocator} {AOk : AllocatorOk A} {RA : Reallocator} {ROk : ReallocatorOk RA}
    {ME : MemoryEnough A RA} empty fuel t (l : lst E) :
  good_text (lit "0") -> heap_ok (hp (lib l)) -> storable t -> (depth t <= 9)%nat ->
  Z.of_nat (length (enc_doc (doc_of t))) <= 2 ^ 28 -> (length (enc_doc (doc_of t)) <= fuel)%nat ->
  exists b l', Encode empty fuel [t] l = Ret ([Val (LUser (next_ud l))], l') /\
    userdata l' !! next_ud l = Some (Some b) /\ holds (mem (lib l')) (data b) (enc_doc (doc_of t)) /\
    Decode fuel [Val (LUser (next_ud l))] l' = Ret ([back (top_value t)], l') /\
    (flat t -> back (top_value t) = t).
Proof.
  intros H0 Hh Hs Hd HnL Hf. assert (Hz : nozero (lit "0")) by (repeat constructor; discriminate).
  destruct (Encode_ok (2 ^ 28) ltac:(lia) H0 empty fuel t l Hh Hs Hd HnL Hf Hz) as (b & l' & H1 & Hu & C).
  exists b, l'. split; [done|]. split; [done|]. split; [exact (c_data _ _ _ C)|]. split; [|by apply back_flat].
  destruct (top_fine t Hs) as (Hr & Hp & Hv). unfold Decode. rewrite Hu. cbn [rev app]. unfold bson_decode.
  change (bson_iterator_init b) with (bson_iterator_from_buffer (data b)).
  rewrite (decode_doc_ok (mem (lib l')) _ fuel (data b) (lit "0") (top_value t) [Val (LUser (next_ud l))]);
    [done|exact (c_data _ _ _ C)|done|done|done|rewrite <- doc_of_top; lia|rewrite <- doc_of_top; lia|].
  rewrite Hv. unfold frame, LUA_MINSTACK. cbn [length]. lia.
Qed.
End Roundtrip.

(** ** Examples *)

Definition ex_lst : lst unit := LSt ex_bson_st ∅ 1.
(** {a = 'hi', b = -5, [7] = {true}} *)
Definition ex_bson_value : tree :=
  Tab [(LStr (lit "a"), Val (LStr (lit "hi"))); (LStr (lit "b"), Val (LNum (d_of_Z (-5))));
       (LNum (d_of_Z 7), Tab [(LNum (d_of_Z 1), Val (LBool true))])].
Lemma ex_bson_value_ok : @storable unit ExBsonEnv ExBsonEnvOk ex_bson_value.
Proof.
  assert (Hs : forall t, nozero t -> @key_fine unit ExBsonEnv ExBsonEnvOk (LStr t)) by (intros t Ht; split; [done|left; by eexists]).
  assert (Hn : forall n, in_s 32 n -> nozero (fmt_d n) -> @key_fine unit ExBsonEnv ExBsonEnvOk (LNum (d_of_Z n))).
  { intros n Hn Hz. split; [split; [by cbn; rewrite d2i32_of_Z|done]|right; by eexists]. }
  cbn [ex_bson_value storable map fst fold_right]. split_and!; try done.
  - apply (bool_decide_unpack _); by vm_compute.
  - apply Hs. repeat constructor; discriminate.
  - right. right. eexists. split; [done|]. split; [repeat constructor; discriminate|done].
  - apply Hs. repeat constructor; discriminate.
  - right. left. exists (-5). split; [done|by vm_compute].
  - apply Hn; [by vm_compute|repeat constructor; discriminate].
  - apply (bool_decide_unpack _); by vm_compute.
  - apply Hn; [by vm_compute|repeat constructor; discriminate].
  - left. by exists true.
Defined.

Lemma bson_script_roundtrip_witness :
  exists b l', @Encode unit ExBsonEnv Bump BumpRe 0 100 [ex_bson_value] ex_lst = Ret ([Val (LUser (next_ud ex_lst))], l') /\
    userdata l' !! next_ud ex_lst = Some (Some b) /\ holds (mem (lib l')) (data b) (enc_doc (doc_of ex_bson_value)) /\
    @Decode unit 100 [Val (LUser (next_ud ex_lst))] l' = Ret ([back (top_value ex_bson_value)], l') /\
    (flat ex_bson_value -> back (top_value ex_bson_value) = ex_bson_value).
Proof.
  apply (@bson_script_roundtrip unit ExBsonEnv ExBsonEnvOk Bump Bump_ok BumpRe BumpRe_ok Bump_enough 0 100 ex_bson_value ex_lst).
  - done.
  - split; intros; cbn in *; by rewrite lookup_empty in *.
  - exact ex_bson_value_ok.
  - cbn. lia.
  - vm_compute. discriminate.
  - vm_compute. lia.
Defined.

(** Encode and then Decode. *)
Definition there_and_back (t : tree) (l : lst unit) : res (list tree) :=
  '(r, l) ← @Encode unit ExBsonEnv Bump BumpRe 4096 100 [t] l; '(r, _) ← @Decode unit 100 r l; Ret r.

(** {x = {true}, y = {false}}: the inner tables lose their keys, the second replaces the
    first, and the keys that were numbers are strings. *)
Example nested_keys_lost :
  there_and_back (Tab [(LStr (lit "x"), Tab [(LNum (d_of_Z 1), Val (LBool true))]);
                       (LStr (lit "y"), Tab [(LNum (d_of_Z 1), Val (LBool false))])]) ex_lst
    = Ret [Tab [(LStr (lit "0"), Tab [(LStr (lit "1"), Val (LBool false))])]].
Proof. by vm_compute. Qed.

(** A number in a table is cut to an int; alone it is not. *)
Example number_in_table :
  let half := S754_finite false 4503599627370496 (-53) in
  there_and_back (Tab [(LStr (lit "x"), Val (LNum half))]) ex_lst = Ret [Tab [(LStr (lit "x"), Val (LNum (d_of_Z 0)))]] /\
  there_and_back (Val (LNum half)) ex_lst = Ret [Val (LNum half)].
Proof. by vm_compute. Qed.

(** nil is an empty document: Decode pushes nothing, and its result is its own argument. *)
Example nil_gives_userdata :
  there_and_back (Val LNil) (LSt (St (Heap (list_to_map (zip (seqZ 4096 5) [5; 0; 0; 0; 0])) ∅) 0 0 0 0 0 tt) ∅ 1) = Ret [Val (LUser 1)].
Proof. by vm_compute. Qed.

(** {a = {f = function, z = 1}, b = 2}: as in the JSON module the function ends the walk of
    the inner table, the outer one goes on in it, and b is lost. *)
Example bson_function_entry :
  there_and_back (Tab [(LStr (lit "a"), Tab [(LStr (lit "f"), Val (LFun 0)); (LStr (lit "z"), Val (LNum (d_of_Z 1)))]);
                       (LStr (lit "b"), Val (LNum (d_of_Z 2)))]) ex_lst
    = Ret [Tab [(LStr (lit "0"), Tab []); (LStr (lit "z"), Val (LNum (d_of_Z 1)))]] /\
  there_and_back (Val (LFun 0)) ex_lst = Undef.
Proof. by vm_compute. Qed.
