(* ===== verification/Strlib.v ===== *)
(** * Strlib: string and bit functions for scripts

    Source: src/src/stringpatch/lstringpatch.cc (split, join, cap, md5, gettable) and
    src/src/bitpatch/lbitpatch.cc.  A Lua table is the list of its entries in the
    order lua_next visits them; the tables the functions read and make are the
    field [tabs].  MD5 is a library function, a parameter. *)
From S2P Require Import Prelude Mem CStr Lua.
Local Open Scope Z_scope.

(** The memory, the static variables s_join_buf and s_join_buf_len, and the tables. *)
Record st := St { hp : heap; s_join_buf : Z; s_join_buf_len : Z; tabs : gmap Z (list (lval * lval)) }.

Definition set_join (s : st) (h : heap) (p n : Z) : st := St h p n (tabs s).
Definition new_table (s : st) (l : list (lval * lval)) : Z * st :=
  let t := fresh (dom (tabs s)) in (t, St (hp s) (s_join_buf s) (s_join_buf_len s) (<[t := l]> (tabs s))).

Section Strlib.
Context {F : LuaFmt} {A : Allocator} {RA : Reallocator} {SC : LuaScript st}.
Context (MD5 : bytes -> bytes) (toupper : Z -> Z).

(** ** split *)

(** strncmp(p, q, n) == 0 on strings with their terminators. *)
Fixpoint strncmp_eq (n : nat) (p q : bytes) : bool :=
  match n with
  | O => true
  | S n =>
      match p, q with
      | x :: p, y :: q => if x =? y then if x =? 0 then true else strncmp_eq n p q else false
      | _, _ => false
      end
  end.

(** The loop over i; [last]: last_str - str; the pieces pushed so far.  The counter
    and the pointer difference are size_t. *)
Fixpoint split_loop (fuel : nat) (str token : bytes) (i last : Z) : res (list bytes * Z) :=
  match fuel with
  | O => NoFuel
  | S fuel =>
      if i <? Z.of_nat (length str) then
        if strncmp_eq (length token) (drop (Z.to_nat i) str ++ [0]) (token ++ [0]) then
          piece ← (if (0 <=? last) && (last <=? i) then Ret (take (Z.to_nat (i - last)) (drop (Z.to_nat last) str)) else Undef);
          let i := u64 (i + Z.of_nat (length token) - 1) in
          '(l, e) ← split_loop fuel str token (u64 (i + 1)) (i64 (i + Z.of_nat (length token)));
          Ret (piece :: l, e)
        else split_loop fuel str token (u64 (i + 1)) last
      else Ret ([], last)
  end.

(** What follows the loop pushes the C string at last_str, whichever branch. *)
Definition split_pieces (fuel : nat) (str token : bytes) : res (list bytes) :=
  '(l, last) ← split_loop fuel str token 0 0;
  rest ← (if last =? 0 then Ret (cstr str)
          else if last <=? Z.of_nat (length str) then Ret (cstr (drop (Z.to_nat last) str)) else Undef);
  Ret (l ++ [rest]).

(** t[1], t[2], ... *)
Definition array (l : list bytes) : list (lval * lval) :=
  imap (fun i x => (lua_pushinteger (Z.of_nat i + 1), LStr x)) l.

Definition lsplit (fuel : nat) (L : list lval) (s : st) : res (list lval * st) :=
  if lua_isstring L 1 && lua_isstring L 2 then
    str ← of_option (lua_tolstring L 1);
    token ← of_option (lua_tolstring L 2);
    l ← split_pieces fuel str token;
    let '(t, s) := new_table s (array l) in
    Ret ([LTab t], s)
  else Ret ([], s).

(** ** join *)

(** The value as lua_tolstring sees it: NULL and length 0 for no string. *)
Definition elem_str (v : lval) : option bytes := lua_tolstring [v] 1.

(** The first walk: the size, and the number of entries. *)
Fixpoint join_size (l : list (lval * lval)) (size : Z) (count : Z) : res (Z * Z) :=
  match l with
  | [] => Ret (size, count)
  | (_, v) :: l =>
      n ← sint (count + 1);
      join_size l (u64 (size + (Z.of_nat (length (default [] (elem_str v))) + 1))) n
  end.

(** The second walk; strcat of a NULL string is undefined. *)
Fixpoint join_walk (l : list (lval * lval)) (buf : Z) (joinstr : bytes) (count : Z) (m : gmap Z Z) : res (gmap Z Z) :=
  match l with
  | [] => Ret m
  | (_, v) :: l =>
      str ← of_option (elem_str v);
      m ← strcat m buf (cstr str);
      m ← (if 1 <? count then strcat m buf (cstr joinstr) else Ret m);
      n ← sint (count - 1);
      join_walk l buf joinstr n m
  end.

Definition grow_join (size : Z) (s : st) : res (option st) :=
  if u64 (s_join_buf_len s) <? size then
    newbuf ← (if negb (s_join_buf s =? NULL)
              then if bool_decide (is_Some (h_blk (hp s) !! s_join_buf s))
                   then Ret (realloc (hp s) (s_join_buf s) size) else Undef
              else Ret (malloc (hp s) size));
    match newbuf with
    | None => Ret None
    | Some (p, h) => Ret (Some (set_join s h p (i32 size)))
    end
  else Ret (Some s).

Definition ljoin (L : list lval) (s : st) : res (list lval * st) :=
  match lua_isstring L 1, index2adr L 2 with
  | true, LTab t =>
      joinstr ← of_option (lua_tolstring L 1);
      l ← of_option (tabs s !! t);
      '(size, count) ← join_size l 1 0;
      g ← grow_join size s;
      match g with
      | None => Ret ([], s)
      | Some s =>
          m ← of_option (mstore (h_mem (hp s)) (s_join_buf s) [0]);
          m ← join_walk l (s_join_buf s) joinstr count m;
          text ← c_string m (s_join_buf s);
          Ret ([lua_pushstring text], set_join s (Heap m (h_blk (hp s))) (s_join_buf s) (s_join_buf_len s))
      end
  | _, _ => Ret ([], s)
  end.

(** ** cap, md5, gettable *)

(** The local buffer has 1024 bytes; what strcpy does not write of it is [junk]. *)
Definition lcap (junk : bytes) (L : list lval) (s : st) : res (list lval * st) :=
  if lua_isstring L 1 then
    str ← of_option (lua_tolstring L 1);
    let text := cstr str ++ [0] in
    if Z.of_nat (length text) <=? 1024 then
      let dst := take 1024 (text ++ junk) in
      let dst := match dst with c :: d => u8 (toupper (i8 c)) :: d | [] => [] end in
      if Z.of_nat (length str) <=? 1024 then Ret ([lua_pushlstring (take (length str) dst)], s) else Undef
    else Undef
  else Ret ([], s).

(** "%2.2x" of a byte. *)
Definition hex2 (b : Z) : bytes :=
  let digit n := if n <? 10 then 48 + n else 87 + n in [digit (b / 16); digit (b mod 16)].
Definition lmd5 (L : list lval) (s : st) : res (list lval * st) :=
  if (lua_gettop L =? 1) && lua_isstring L 1 then
    str ← of_option (lua_tolstring L 1);
    Ret ([lua_pushstring (concat (map hex2 (take 16 (MD5 str))))], s)
  else Ret ([lua_pushstring []], s).

(** The value of a dotted name; the walk is that of lua_pushluafunction. *)
Definition lgettable (L : list lval) (s : st) : res (list lval * st) :=
  func ← of_option (lua_tolstring L 1);
  '(ok, stk) ← pushluafunction s (cstr func) [];
  match stk with
  | v :: _ => Ret (if (ok : bool) then [v] else [], s)
  | [] => Undef
  end.

(** ** Bits of ints *)

Definition lbitand (L : list lval) (s : st) : res (list lval * st) :=
  let n1 := i32 (lua_tointeger L 1) in
  let n2 := i32 (lua_tointeger L 2) in
  Ret ([lua_pushinteger (Z.land n1 n2)], s).
Definition lbitor (L : list lval) (s : st) : res (list lval * st) :=
  let n1 := i32 (lua_tointeger L 1) in
  let n2 := i32 (lua_tointeger L 2) in
  Ret ([lua_pushinteger (Z.lor n1 n2)], s).
Definition lbitnot (L : list lval) (s : st) : res (list lval * st) :=
  let n1 := i32 (lua_tointeger L 1) in
  Ret ([lua_pushinteger (Z.lnot n1)], s).
End Strlib.

(** ** What split computes *)

Section Split.

Lemma strncmp_char x r c : strncmp_eq (length [c]) (x :: r) ([c] ++ [0]) = (x =? c).
Proof. cbn. destruct (x =? c); [by destruct (x =? 0)|done]. Qed.

Lemma drop_S_char (str : bytes) i x r : drop i str = x :: r -> drop (S i) str = r /\ (i < length str)%nat.
Proof.
  intros H. split.
  - replace (S i) with (i + 1)%nat by lia. by rewrite <- drop_drop, H.
  - destruct (decide (i < length str)%nat); [done|]. rewrite drop_ge in H by lia. done.
Qed.

(** From index [i], with the current piece begun at [l]. *)
Lemma split_loop_char fuel str c : forall i l,
  Z.of_nat (length str) < 2 ^ 62 -> (l <= i <= length str)%nat -> (length str - i < fuel)%nat ->
  none_in c (take (i - l) (drop l str)) ->
  exists ps e, split_loop fuel str [c] (Z.of_nat i) (Z.of_nat l) = Ret (ps, Z.of_nat e) /\
    (e <= length str)%nat /\ Forall (none_in c) (ps ++ [drop e str]) /\
    joined [c] (ps ++ [drop e str]) = drop l str.
Proof.
  induction fuel as [|fuel IH]; intros i l Hb Hi Hf Hno; [lia|]. cbn [split_loop].
  destruct (Z.ltb_spec (Z.of_nat i) (Z.of_nat (length str))) as [Hlt|Hge].
  - rewrite Nat2Z.id. destruct (drop i str) as [|x r] eqn:Ed.
    { apply (f_equal length) in Ed. rewrite length_drop in Ed. cbn in Ed. lia. }
    cbn [app]. rewrite strncmp_char. cbn [length]. change (Z.of_nat 1) with 1.
    destruct (drop_S_char _ _ _ _ Ed) as [Hr _].
    rewrite (wrapU_id 64 (Z.of_nat i + 1)) by (unfold in_u; lia).
    replace (Z.of_nat i + 1) with (Z.of_nat (S i)) by lia.
    destruct (Z.eqb_spec x c) as [->|Hxc].
    + rewrite (proj2 (Z.leb_le 0 (Z.of_nat l))), (proj2 (Z.leb_le (Z.of_nat l) (Z.of_nat i))) by lia. cbn [andb].
      rewrite bind_Ret_l. cbv zeta. replace (Z.of_nat (S i) - 1) with (Z.of_nat i) by lia.
      replace (Z.of_nat i + 1 - 1) with (Z.of_nat i) by lia.
      rewrite (wrapU_id 64 (Z.of_nat i)) by (unfold in_u; lia).
      rewrite (wrapU_id 64 (Z.of_nat i + 1)) by (unfold in_u; lia).
      rewrite (wrapS_id 64 (Z.of_nat i + 1)) by (unfold in_s; lia).
      replace (Z.of_nat i + 1) with (Z.of_nat (S i)) by lia.
      destruct (IH (S i) (S i)) as (ps & e & Hs & He & Hall & Hj); [lia|lia|lia|by rewrite Nat.sub_diag; constructor|].
      rewrite Hs, bind_Ret_l. rewrite !Nat2Z.id. replace (Z.to_nat (Z.of_nat i - Z.of_nat l)) with (i - l)%nat by lia.
      exists (take (i - l) (drop l str) :: ps), e. split; [done|]. split; [done|].
      split; [by rewrite <- app_comm_cons, Forall_cons|].
      rewrite <- app_comm_cons, joined_cons by (by destruct ps). rewrite Hj, Hr.
      rewrite <- (take_drop (i - l) (drop l str)) at 2. f_equal.
      rewrite drop_drop. replace (l + (i - l))%nat with i by lia. by rewrite Ed.
    + destruct (IH (S i) l) as (ps & e & Hs & He & Hall & Hj); [lia|lia|lia| |].
      * replace (S i - l)%nat with (i - l + 1)%nat by lia. rewrite <- take_take_drop.
        unfold none_in in *. rewrite Forall_app. split; [done|]. rewrite drop_drop.
        replace (l + (i - l))%nat with i by lia. rewrite Ed. cbn. by repeat constructor.
      * by exists ps, e.
  - exists [], l. assert (i = length str) as -> by lia. split; [done|]. split; [lia|].
    split; [|done]. cbn [app]. rewrite Forall_singleton.
    rewrite take_ge in Hno; [done|]. rewrite length_drop. lia.
Qed.

Lemma nozero_drop n t : nozero t -> nozero (drop n t).
Proof. intros H. by apply Forall_drop. Qed.

(** With a separator of one character, split cuts the text at exactly the
    separators: the pieces contain none, and put together with the separator
    between them they are the text again. *)
Theorem split_join_char str c fuel :
  nozero str -> Z.of_nat (length str) < 2 ^ 62 -> (length str < fuel)%nat ->
  exists pieces, split_pieces fuel str [c] = Ret pieces /\ Forall (none_in c) pieces /\
    joined [c] pieces = str.
Proof.
  intros Hz Hb Hf.
  destruct (split_loop_char fuel str c 0 0) as (ps & e & Hs & He & Hall & Hj); [done|lia|lia|constructor|].
  unfold split_pieces. change (Z.of_nat 0) with 0 in Hs. rewrite Hs, bind_Ret_l.
  exists (ps ++ [drop e str]). split; [|done].
  destruct (Z.eqb_spec (Z.of_nat e) 0).
  - assert (e = 0%nat) as -> by lia. by rewrite bind_Ret_l, cstr_nozero, drop_0.
  - destruct (Z.leb_spec (Z.of_nat e) (Z.of_nat (length str))); [|lia].
    rewrite bind_Ret_l, Nat2Z.id, cstr_nozero by by apply nozero_drop. done.
Qed.

Definition no_match (str token : bytes) (i j : nat) : Prop := forall x, (i <= x < j)%nat ->
  strncmp_eq (length token) (drop x str ++ [0]) (token ++ [0]) = false.

Lemma split_skip fuel str token : forall i j l,
  Z.of_nat (length str) < 2 ^ 62 -> no_match str token i j -> (i <= j <= length str)%nat ->
  split_loop (j - i + fuel) str token (Z.of_nat i) l = split_loop fuel str token (Z.of_nat j) l.
Proof.
  intros i j l Hb Hno Hij. remember (j - i)%nat as n eqn:En. revert i Hno Hij En.
  induction n as [|n IH]; intros i Hno Hij En.
  { by replace j with i by lia. }
  cbn [Nat.add split_loop]. destruct (Z.ltb_spec (Z.of_nat i) (Z.of_nat (length str))); [|lia].
  rewrite Nat2Z.id, Hno by lia. rewrite (wrapU_id 64 (Z.of_nat i + 1)) by (unfold in_u; lia).
  replace (Z.of_nat i + 1) with (Z.of_nat (S i)) by lia. apply IH; [|lia|lia].
  intros x Hx. apply Hno. lia.
Qed.

Lemma strncmp_prefix t r : nozero t -> strncmp_eq (length t) (t ++ r) (t ++ [0]) = true.
Proof.
  intros H. generalize [0] as q. induction H as [|x t Hx _ IH]; intros q; [done|]. cbn [app length strncmp_eq].
  rewrite Z.eqb_refl. destruct (Z.eqb_spec x 0); [done|apply IH].
Qed.

(** A separator of k > 1 characters that occurs once costs the k - 1 characters
    that follow it: they are in no piece, and when fewer are left split reads
    beyond the end of the text. *)
Theorem split_long_separator a token b fuel :
  nozero (a ++ token ++ b) -> (2 <= length token)%nat -> Z.of_nat (length (a ++ token ++ b)) < 2 ^ 62 ->
  no_match (a ++ token ++ b) token 0 (length a) ->
  no_match (a ++ token ++ b) token (length a + length token) (length (a ++ token ++ b)) ->
  (length (a ++ token ++ b) < fuel)%nat ->
  split_pieces fuel (a ++ token ++ b) token =
    if (length token - 1 <=? length b)%nat then Ret [a; drop (length token - 1) b] else Undef.
Proof.
  intros Hz Hk Hb Hno1 Hno2 Hf. set (str := a ++ token ++ b) in *. set (k := length token) in *.
  assert (Hlen : length str = (length a + k + length b)%nat) by (unfold str; rewrite !length_app; fold k; lia).
  assert (Htok : nozero token) by (unfold str, nozero in Hz; rewrite !Forall_app in Hz; tauto).
  assert (Hloop : split_loop fuel str token 0 0 = Ret ([a], Z.of_nat (length a + 2 * k - 1))).
  { replace fuel with (length a - 0 + (S (length b + (fuel - length a - 1 - length b))))%nat by lia.
    rewrite (split_skip _ str token 0 (length a) 0) by (done || lia). cbn [split_loop].
    destruct (Z.ltb_spec (Z.of_nat (length a)) (Z.of_nat (length str))); [|lia].
    rewrite Nat2Z.id. unfold str at 1. rewrite drop_app_length, <- app_assoc. fold k.
    unfold k at 1. rewrite strncmp_prefix by done. fold k. change (0 <=? 0) with true.
    rewrite (proj2 (Z.leb_le 0 (Z.of_nat (length a)))) by lia. cbn [andb]. rewrite bind_Ret_l. cbv zeta.
    rewrite (wrapU_id 64 (Z.of_nat (length a) + Z.of_nat k - 1)) by (unfold in_u; lia).
    rewrite (wrapU_id 64) by (unfold in_u; lia). rewrite (wrapS_id 64) by (unfold in_s; lia).
    replace (Z.of_nat (length a) + Z.of_nat k - 1 + 1) with (Z.of_nat (length a + k)) by lia.
    replace (length b + (fuel - length a - 1 - length b))%nat
      with (length str - (length a + k) + (fuel - length a - 1 - length b))%nat by lia.
    rewrite split_skip by (done || lia).
    destruct (fuel - length a - 1 - length b)%nat as [|f'] eqn:Ef; [lia|]. cbn [split_loop].
    rewrite Z.ltb_irrefl, bind_Ret_l. rewrite Z.sub_0_r, Nat2Z.id. cbn [Z.to_nat]. rewrite drop_0.
    unfold str. rewrite take_app_length. do 2 f_equal. lia. }
  unfold split_pieces. rewrite Hloop, bind_Ret_l.
  destruct (Z.eqb_spec (Z.of_nat (length a + 2 * k - 1)) 0); [lia|].
  destruct (Nat.leb_spec (k - 1) (length b)), (Z.leb_spec (Z.of_nat (length a + 2 * k - 1)) (Z.of_nat (length str))); try lia; [|done].
  rewrite bind_Ret_l, Nat2Z.id, cstr_nozero by by apply nozero_drop. cbn [app]. do 3 f_equal.
  unfold str. rewrite app_assoc, drop_app_ge by (rewrite length_app; fold k; lia).
  f_equal. rewrite length_app. fold k. lia.
Qed.

Lemma split_join_char_witness :
  exists pieces, split_pieces 9 [97; 44; 44; 98; 99] [44] = Ret pieces /\ Forall (none_in 44) pieces /\
    joined [44] pieces = [97; 44; 44; 98; 99].
Proof. apply (split_join_char [97; 44; 44; 98; 99] 44 9); [repeat constructor; discriminate|cbn; lia|cbn; lia]. Defined.

(** "key::val" at "::" gives "key" and "al". *)
Lemma split_long_separator_witness :
  split_pieces 20 ([107; 101; 121] ++ [58; 58] ++ [118; 97; 108]) [58; 58] =
    if (length [58; 58] - 1 <=? length [118; 97; 108])%nat then Ret [[107; 101; 121]; drop 1 [118; 97; 108]] else Undef.
Proof.
  apply (split_long_separator [107; 101; 121] [58; 58] [118; 97; 108] 20).
  - repeat constructor; discriminate.
  - cbn; lia.
  - cbn; lia.
  - intros x Hx. cbn in Hx. do 3 (destruct x as [|x]; [reflexivity|]). lia.
  - intros x Hx. cbn in Hx. do 8 (destruct x as [|x]; [try lia; reflexivity|]). lia.
  - cbn; lia.
Defined.
End Split.

(** ** What join computes *)

(** The entries hold the strings [xs]. *)
Definition strings (l : list (lval * lval)) (xs : list bytes) : Prop := map snd l = map LStr xs.
Definition room (xs : list bytes) : Z := fold_right (fun x n => Z.of_nat (length x) + 1 + n) 0 xs.

(** The static buffer is NULL with length 0, or a live block of its length. *)
Record join_ok (s : st) : Prop := {
  jo_heap : heap_ok (hp s);
  jo_buf : (s_join_buf s = NULL /\ s_join_buf_len s = 0) \/
           (s_join_buf s <> NULL /\ 0 <= s_join_buf_len s <= INT_MAX /\
            h_blk (hp s) !! s_join_buf s = Some (s_join_buf_len s));
}.

Section Join.
Context {F : LuaFmt} {A : Allocator} {AOk : AllocatorOk A} {RA : Reallocator} {ROk : ReallocatorOk RA}.
Context {ME : MemoryEnough A RA}.

Lemma room_nonneg xs : 0 <= room xs.
Proof. induction xs as [|x xs IH]; cbn [room fold_right]; [lia|]. unfold room in IH. lia. Qed.

Lemma strings_cons k v l xs : strings ((k, v) :: l) xs -> exists x ys, xs = x :: ys /\ v = LStr x /\ strings l ys.
Proof. destruct xs as [|x ys]; [discriminate|]. intros [= -> H]. by exists x, ys. Qed.

Lemma strcat_ok m dst cur src n :
  holds m dst (cur ++ [0]) -> nozero cur -> mapped m dst n ->
  Z.of_nat (length cur) + Z.of_nat (length src) + 1 <= n ->
  exists m', strcat m dst src = Ret m' /\ holds m' dst ((cur ++ src) ++ [0]) /\ mapped m' dst n /\
    forall b, heap_ok (Heap m b) -> heap_ok (Heap m' b).
Proof.
  intros H Hz Hm Hn. unfold strcat. rewrite (strlen_ok _ _ H Hz), bind_Ret_l.
  destruct (mstore_mapped m (dst + Z.of_nat (length cur)) (src ++ [0])) as [m' Hs].
  { rewrite length_app. cbn. intros x Hx. apply Hm. lia. }
  exists m'. rewrite Hs. split; [done|]. split; [|split].
  - rewrite <- app_assoc. apply holds_app in H as [H _]. apply holds_app. split.
    + unfold holds in *. erewrite mload_mstore_disj; [exact H|exact Hs|left; lia].
    + by eapply mload_mstore_same.
  - by eapply mstore_mapped_same.
  - intros b Hh. by apply (mstore_heap_ok (Heap m b) _ _ _ Hs).
Qed.

Lemma join_size_ok l : forall xs size count,
  strings l xs -> 0 <= size -> 0 <= count -> size + room xs < 2 ^ 63 -> count + Z.of_nat (length xs) <= INT_MAX ->
  join_size l size count = Ret (size + room xs, count + Z.of_nat (length xs)).
Proof.
  induction l as [|[k v] l IH]; intros xs size count Hl Hs Hc Hb Hn.
  { destruct xs; [|discriminate]. cbn. f_equal. f_equal; lia. }
  apply strings_cons in Hl as (x & ys & -> & -> & Hl). cbn [join_size room fold_right length] in *.
  pose proof (room_nonneg ys). unfold room in *. sint_step.
  change (elem_str (LStr x)) with (Some x). cbn [default from_option id].
  rewrite wrapU_id by (unfold in_u; lia). rewrite (IH ys) by (done || lia). f_equal. f_equal; lia.
Qed.

Lemma join_walk_ok buf n sep : nozero sep -> (length sep <= 1)%nat -> forall l xs cur m,
  strings l xs -> Forall nozero xs -> holds m buf (cur ++ [0]) -> nozero cur -> mapped m buf n ->
  Z.of_nat (length cur) + room xs + 1 <= n -> Z.of_nat (length xs) <= INT_MAX ->
  exists m', join_walk l buf sep (Z.of_nat (length xs)) m = Ret m' /\ holds m' buf ((cur ++ joined sep xs) ++ [0]) /\
    nozero (cur ++ joined sep xs) /\ forall b, heap_ok (Heap m b) -> heap_ok (Heap m' b).
Proof.
  intros Hsep Hlen. induction l as [|[k v] l IH]; intros xs cur m Hl Hz H Hc Hm Hn Hi.
  { destruct xs; [|discriminate]. exists m. cbn. by rewrite app_nil_r. }
  apply strings_cons in Hl as (x & ys & -> & -> & Hl). apply Forall_cons in Hz as [Hx Hys].
  cbn [join_walk room fold_right length] in *. pose proof (room_nonneg ys). unfold room in *.
  change (elem_str (LStr x)) with (Some x). cbn [of_option]. rewrite bind_Ret_l, (cstr_nozero x Hx).
  destruct (strcat_ok m buf cur x n H Hc Hm) as (m1 & Hs1 & H1 & Hm1 & Hh1); [lia|]. rewrite Hs1, bind_Ret_l.
  assert (Hc1 : nozero (cur ++ x)) by by apply Forall_app.
  destruct (Z.ltb_spec 1 (Z.of_nat (S (length ys)))) as [Hmore|Hlast].
  - rewrite (cstr_nozero sep Hsep).
    destruct (strcat_ok m1 buf (cur ++ x) sep n H1 Hc1 Hm1) as (m2 & Hs2 & H2 & Hm2 & Hh2); [rewrite length_app; lia|].
    rewrite Hs2, bind_Ret_l. sint_step. replace (Z.of_nat (S (length ys)) - 1) with (Z.of_nat (length ys)) by lia.
    destruct (IH ys ((cur ++ x) ++ sep) m2 Hl Hys H2) as (m3 & Hw & H3 & Hz3 & Hh3);
      [by apply Forall_app|done|rewrite !length_app; lia|lia|].
    exists m3. rewrite joined_cons by (by destruct ys). rewrite <- !app_assoc in *. split_and!; [done|done|done|auto].
  - assert (ys = []) as -> by (apply length_zero_iff_nil; lia). rewrite bind_Ret_l. sint_step.
    destruct l; [|discriminate]. cbn [length joined join_walk]. exists m1. split_and!; [done|done|done|auto].
Qed.

Lemma grow_join_ok s size : join_ok s -> 0 < size <= INT_MAX ->
  exists s', grow_join size s = Ret (Some s') /\ join_ok s' /\ tabs s' = tabs s /\
    s_join_buf s' <> NULL /\ size <= s_join_buf_len s' <= INT_MAX /\
    h_blk (hp s') !! s_join_buf s' = Some (s_join_buf_len s').
Proof.
  intros [Hh Hb] Hs. unfold INT_MAX in *. unfold grow_join.
  rewrite (wrapU_id 64) by (unfold in_u; destruct Hb as [[_ ->]|(_ & ? & _)]; lia).
  destruct (Z.ltb_spec (s_join_buf_len s) size) as [Hlt|Hge].
  - destruct Hb as [[Hp Hn]|(Hp & Hn & Hblk)].
    + rewrite Hp. change (negb (NULL =? NULL)) with false. cbv iota. rewrite bind_Ret_l.
      destruct (malloc_some (hp s) size) as [[p h] Hm]; [lia|]. rewrite Hm.
      apply malloc_ok in Hm; [|lia]. pose proof Hm as (Hp0 & _ & Hblk & _). rewrite wrapS_id by (unfold in_s; lia).
      exists (set_join s h p size). split; [done|]. assert (p <> NULL) by (unfold NULL; lia).
      assert (Hk : h_blk h !! p = Some size) by (rewrite Hblk; apply lookup_insert_eq).
      split; [|cbn; split_and!; (done || lia)].
      constructor; cbn; [by eapply malloc_heap_ok|]. right. unfold INT_MAX. split_and!; (done || lia).
    + destruct (Z.eqb_spec (s_join_buf s) NULL); [done|]. cbn [negb].
      rewrite bool_decide_true by (rewrite Hblk; eauto). rewrite bind_Ret_l.
      destruct (realloc_some (hp s) (s_join_buf s) _ size Hh Hblk) as [[p h] Hm]; [lia|]. rewrite Hm.
      assert (R : realloc_spec (hp s) (s_join_buf s) (s_join_buf_len s) size p h)
        by (eapply realloc_ok; [done|done|lia|exact Hm]).
      pose proof (re_pos _ _ _ _ _ _ R). rewrite wrapS_id by (unfold in_s; lia).
      exists (set_join s h p size). split; [done|]. assert (p <> NULL) by (unfold NULL; lia).
      assert (Hk : h_blk h !! p = Some size) by (rewrite (re_blk _ _ _ _ _ _ R); apply lookup_insert_eq).
      split; [|cbn; split_and!; (done || lia)].
      constructor; cbn; [by eapply realloc_heap_ok|]. right. unfold INT_MAX. split_and!; (done || lia).
  - exists s. destruct Hb as [[Hp Hn]|(Hp & Hn & Hblk)]; [lia|].
    split_and!; try done; try lia. constructor; [done|]. right. done.
Qed.
End Join.

(** With a separator of at most one character, join returns the strings of the
    table with the separator between them, and its buffer is large enough for
    them, whatever its size was before. *)
Theorem join_spec {F : LuaFmt} {A : Allocator} {AOk : AllocatorOk A} {RA : Reallocator} {ROk : ReallocatorOk RA}
    {ME : MemoryEnough A RA} s t l xs sep :
  join_ok s -> tabs s !! t = Some l -> strings l xs -> Forall nozero xs -> nozero sep -> (length sep <= 1)%nat ->
  1 + room xs <= INT_MAX ->
  exists s', ljoin [LStr sep; LTab t] s = Ret ([LStr (joined sep xs)], s') /\ join_ok s' /\ tabs s' = tabs s.
Proof.
  intros Hs Ht Hl Hz Hsep Hlen Hroom. pose proof (room_nonneg xs) as Hr0. unfold INT_MAX in *.
  assert (Hcount : Z.of_nat (length xs) <= room xs).
  { clear. induction xs as [|x xs IH]; cbn [room fold_right length]; [lia|]. unfold room in IH. lia. }
  unfold ljoin. change (lua_isstring [LStr sep; LTab t] 1) with true. change (index2adr [LStr sep; LTab t] 2) with (LTab t).
  cbv iota. change (lua_tolstring [LStr sep; LTab t] 1) with (Some sep). rewrite Ht. cbn [of_option]. rewrite !bind_Ret_l.
  rewrite (join_size_ok l xs 1 0 Hl), bind_Ret_l by (unfold INT_MAX; lia). rewrite Z.add_0_l.
  destruct (grow_join_ok s (1 + room xs) Hs) as (s1 & Hg & [Hh1 Hb1] & Ht1 & Hp1 & Hn1 & Hblk1); [unfold INT_MAX; lia|].
  rewrite Hg, bind_Ret_l. destruct (heap_mapped _ Hh1 _ _ Hblk1) as [_ Hm1].
  destruct (mstore_mapped (h_mem (hp s1)) (s_join_buf s1) [0]) as [m2 Hs2]; [intros x Hx; apply Hm1; cbn in Hx; lia|].
  rewrite Hs2. cbn [of_option]. rewrite bind_Ret_l.
  destruct (join_walk_ok (s_join_buf s1) (s_join_buf_len s1) sep Hsep Hlen l xs [] m2 Hl Hz) as (m3 & Hw & H3 & Hz3 & Hh3).
  { by apply (mload_mstore_same _ _ _ _ Hs2). } { constructor. } { by eapply mstore_mapped_same. }
  { cbn. lia. } { unfold INT_MAX. lia. }
  rewrite Hw, bind_Ret_l, (c_string_ok _ _ H3 Hz3), bind_Ret_l. cbn [app] in *.
  eexists. split; [unfold lua_pushstring; by rewrite cstr_nozero|]. split; [|done].
  constructor; cbn.
  - apply Hh3. by apply (mstore_heap_ok (hp s1) _ _ _ Hs2).
  - right. unfold INT_MAX in *. split_and!; (done || lia).
Qed.

(** Before the first call: no buffer, one table. *)
Definition ex_tab : list (lval * lval) := [(LNil, LStr [97]); (LNil, LStr [98; 99]); (LNil, LStr [])].
Definition ex_join : st := St (Heap ∅ ∅) 0 0 {[1 := ex_tab]}.
Lemma join_spec_witness :
  joined [44] [[97]; [98; 99]; []] = [97; 44; 98; 99; 44] /\
  exists s', @ljoin NoFmt Bump BumpRe [LStr [44]; LTab 1] ex_join
    = Ret ([LStr (joined [44] [[97]; [98; 99]; []])], s') /\ join_ok s' /\ tabs s' = tabs ex_join.
Proof.
  split; [reflexivity|].
  apply (@join_spec NoFmt Bump Bump_ok BumpRe BumpRe_ok Bump_enough ex_join 1 ex_tab [[97]; [98; 99]; []] [44]).
  - constructor; [split; intros; cbn in *; by rewrite lookup_empty in *|by left].
  - reflexivity.
  - reflexivity.
  - repeat constructor; discriminate.
  - repeat constructor; discriminate.
  - cbn; lia.
  - cbn. unfold INT_MAX. lia.
Defined.
