(* ===== verification/Dates.v ===== *)
(** * Dates: the clock and the calendar for scripts

    Source: src/src/date/ldate.cc.  The clock, localtime and strftime are
    parameters ([DateOs]); of struct tm the fields the code reads. *)
From S2P Require Import Prelude Lua.
Local Open Scope Z_scope.

Record tm := Tm { tm_year : Z; tm_mon : Z; tm_mday : Z; tm_wday : Z; tm_yday : Z }.

Class DateOs (E : Type) := {
  dt_gettimeofday : E -> Z * Z;
  dt_time : E -> Z;
  dt_localtime : Z -> option tm;             (* None: the year does not fit *)
  dt_strftime : bytes -> Z -> bytes -> option tm -> E -> bytes;   (* the buffer after the call *)
}.

Section Dates.
Context {F : LuaFmt} {E : Type} {OS : DateOs E}.

Definition in_long (z : Z) : res Z := if (- 2 ^ 63 <=? z) && (z <? 2 ^ 63) then Ret z else Undef.

Definition lmsectime (L : list lval) (e : E) : res (list lval * E) :=
  let '(tv_sec, tv_usec) := dt_gettimeofday e in
  a ← in_long (tv_sec * 1000);
  msec ← in_long (a + tv_usec ÷ 1000);
  Ret ([lua_pushnumber (d_of_Z msec)], e).

Definition lgettimeofday (L : list lval) (e : E) : res (list lval * E) :=
  let '(tv_sec, tv_usec) := dt_gettimeofday e in
  Ret ([lua_pushinteger tv_sec; lua_pushinteger tv_usec], e).

Definition ltime (L : list lval) (e : E) : res (list lval * E) :=
  let t := i32 (dt_time e) in
  Ret ([lua_pushinteger t], e).

(** The local array of 32 bytes, [junk] before the call, is pushed as a C string. *)
Definition lstrftime (junk : bytes) (L : list lval) (e : E) : res (list lval * E) :=
  if (lua_gettop L =? 2) && lua_isstring L 1 && lua_isnumber L 2 then
    format ← of_option (lua_tolstring L 1);
    let time := d2i64 (lua_tonumber L 2) in
    let str := dt_strftime (cstr format) 32 junk (dt_localtime time) e in
    if bool_decide (0 ∈ str) then Ret ([lua_pushstring str], e) else Undef
  else Ret ([], e).

(** The two dates the tests compare: the argument's and the current one.  A
    localtime_r that fails leaves its struct tm unset. *)
Definition two_dates (L : list lval) (e : E) : res (tm * tm) :=
  let t1 := d2i64 (lua_tonumber L 1) in
  let t2 := dt_time e in
  tm1 ← of_option (dt_localtime t1);
  tm2 ← of_option (dt_localtime t2);
  Ret (tm1, tm2).

Definition lissameday (L : list lval) (e : E) : res (list lval * E) :=
  if (lua_gettop L =? 1) && lua_isnumber L 1 then
    '(tm1, tm2) ← two_dates L e;
    if (tm_year tm1 =? tm_year tm2) && (tm_mon tm1 =? tm_mon tm2) && (tm_mday tm1 =? tm_mday tm2)
    then Ret ([lua_pushboolean true], e)
    else Ret ([lua_pushboolean false], e)
  else Ret ([], e).

Definition lissamemonth (L : list lval) (e : E) : res (list lval * E) :=
  if (lua_gettop L =? 1) && lua_isnumber L 1 then
    '(tm1, tm2) ← two_dates L e;
    if (tm_year tm1 =? tm_year tm2) && (tm_mon tm1 =? tm_mon tm2)
    then Ret ([lua_pushboolean true], e)
    else Ret ([lua_pushboolean false], e)
  else Ret ([], e).

Definition lissameweek (L : list lval) (e : E) : res (list lval * E) :=
  if (lua_gettop L =? 1) && lua_isnumber L 1 then
    '(tm1, tm2) ← two_dates L e;
    if negb (tm_year tm1 =? tm_year tm2) then Ret ([lua_pushboolean false], e)
    else if tm_yday tm1 =? tm_yday tm2 then Ret ([lua_pushboolean true], e)
    else if (tm_yday tm2 <? tm_yday tm1) && (tm_yday tm1 - tm_yday tm2 <=? tm_wday tm1)
    then Ret ([lua_pushboolean true], e)
    else if (tm_yday tm1 <? tm_yday tm2) && (tm_yday tm2 - tm_yday tm1 <=? 6 - tm_wday tm1)
    then Ret ([lua_pushboolean true], e)
    else Ret ([lua_pushboolean false], e)
  else Ret ([], e).

End Dates.

(** ** The week of a date *)

(** The day of the year on which the date's week began (a week begins on Sunday),
    not positive when that was in the year before. *)
Definition sunday (d : tm) : Z := tm_yday d - tm_wday d.

(** Two dates of a calendar: the days of the week go round with the days of the year. *)
Definition calendar (a b : tm) : Prop :=
  0 <= tm_wday a <= 6 /\ 0 <= tm_wday b <= 6 /\
  (tm_year a = tm_year b -> (sunday a - sunday b) mod 7 = 0).

(** issameweek says whether the date is in the year of today and in its week,
    Sunday to Saturday: two dates of one week that New Year's Day divides
    are not of the same week for it. *)
Theorem same_week_spec {F : LuaFmt} {E : Type} {OS : DateOs E} (n : lnumber) e tm1 tm2 :
  dt_localtime (d2i64 n) = Some tm1 -> dt_localtime (dt_time e) = Some tm2 -> calendar tm1 tm2 ->
  lissameweek [LNum n] e =
    Ret ([LBool (bool_decide (tm_year tm1 = tm_year tm2 /\ sunday tm1 = sunday tm2))], e).
Proof.
  intros H1 H2 (Hw1 & Hw2 & Hc). unfold lissameweek, two_dates.
  change (lua_tonumber [LNum n] 1) with n. rewrite H1, H2. cbn [of_option andb lua_gettop lua_isnumber].
  change ((lua_gettop [LNum n] =? 1) && lua_isnumber [LNum n] 1) with true. cbv iota. rewrite !bind_Ret_l.
  destruct (Z.eqb_spec (tm_year tm1) (tm_year tm2)) as [Hy|Hy]; cbn [negb].
  2:{ by rewrite bool_decide_false by naive_solver. }
  specialize (Hc Hy). apply Z.mod_divide in Hc as [k Hk]; [|lia]. unfold sunday in *.
  destruct (Z.eqb_spec (tm_yday tm1) (tm_yday tm2)).
  { rewrite bool_decide_true by lia. done. }
  destruct (Z.ltb_spec (tm_yday tm2) (tm_yday tm1)), (Z.ltb_spec (tm_yday tm1) (tm_yday tm2)),
    (Z.leb_spec (tm_yday tm1 - tm_yday tm2) (tm_wday tm1)),
    (Z.leb_spec (tm_yday tm2 - tm_yday tm1) (6 - tm_wday tm1)); cbn [andb]; try lia;
    (rewrite bool_decide_true by lia; done) || (rewrite bool_decide_false by lia; done).
Qed.

(** The first weeks of 1970, which began on a Thursday. *)
Definition ex_localtime (t : Z) : option tm :=
  let d := t / 86400 in Some (Tm 70 (d / 31) (1 + d mod 31) ((d + 4) mod 7) d).
Definition ExDateOs : DateOs Z :=
  {| dt_gettimeofday := fun t => (t, 0); dt_time := fun t => t; dt_localtime := ex_localtime;
     dt_strftime := fun _ _ junk _ _ => junk |}.

(** Sunday the 4th and Saturday the 3rd. *)
Lemma same_week_spec_witness :
  @lissameweek NoFmt Z ExDateOs [LNum (d_of_Z 259200)] 172800 = Ret ([LBool false], 172800).
Proof.
  apply (@same_week_spec NoFmt Z ExDateOs (d_of_Z 259200) 172800 (Tm 70 0 4 0 3) (Tm 70 0 3 6 2)).
  - vm_compute. reflexivity.
  - vm_compute. reflexivity.
  - repeat split; cbn; lia || reflexivity.
Defined.
