(* ===== verification/Files.v ===== *)
(** * Files: directories and file names for scripts

    Source: src/src/file/lfile.cc.  The system calls are parameters ([FileOs]); a
    path is a char pointer, NULL when the argument is not a string. *)
From S2P Require Import Prelude CStr Lua.
Local Open Scope Z_scope.

Abbreviation cpath := (option bytes).

Class FileOs (E : Type) := {
  fs_getcwd : Z -> E -> option bytes;           (* None: it failed, the buffer is as before *)
  fs_chdir : cpath -> E -> Z * E;
  fs_access : cpath -> Z -> E -> Z;
  fs_mkdir : cpath -> Z -> E -> Z * E;
  fs_remove : cpath -> E -> Z * E;
  fs_rename : cpath -> cpath -> E -> Z * E;
  fs_readdir : cpath -> E -> option (list (Z * bytes));   (* d_type and d_name of each entry; None: opendir failed *)
}.

Definition SLASH : Z := 47.
Definition DOT : Z := 46.
Definition DT_DIR : Z := 4.
Definition DT_REG : Z := 8.

(** A table of an entry of listdir, and what listdir returns. *)
Record file_entry := FileEntry { fe_type : bytes; fe_name : bytes }.

Section Files.
Context {F : LuaFmt} {E : Type} {OS : FileOs E}.
Implicit Types e : E.

Definition to_path (L : list lval) (i : Z) : cpath := option_map cstr (lua_tolstring L i).

Definition lgetcwd (L : list lval) (e : E) : res (list lval * E) :=
  Ret ([lua_pushstring (default [] (fs_getcwd 128 e))], e).

Definition lchdir (L : list lval) (e : E) : res (list lval * E) :=
  let '(error, e) := fs_chdir (to_path L 1) e in
  Ret ([lua_pushinteger error], e).

(** mkdir unless access finds the path. *)
Definition make_missing (p : bytes) (e : E) : E :=
  if negb (fs_access (Some p) 0 e =? 0) then snd (fs_mkdir (Some p) 511 e) else e.

(** The loop from [i] on: at a slash the string is cut there for the calls. *)
Fixpoint mkdirs_loop (n i : nat) (dir : bytes) (e : E) : E :=
  match n with
  | O => e
  | S n =>
      let e := if nth i dir 0 =? SLASH then make_missing (cstr (take i dir)) e else e in
      mkdirs_loop n (S i) dir e
  end.

Definition lmkdirs (L : list lval) (e : E) : res (list lval * E) :=
  if (lua_gettop L =? 1) && lua_isstring L 1 then
    dir ← of_option (lua_tolstring L 1);
    let e := mkdirs_loop (length dir) 0 dir e in
    let e := make_missing (cstr dir) e in
    Ret ([lua_pushboolean true], e)
  else Ret ([], e).

Definition lmkdir (L : list lval) (e : E) : res (list lval * E) :=
  if (lua_gettop L =? 1) && lua_isstring L 1 then
    let '(r, e) := fs_mkdir (to_path L 1) 511 e in
    Ret (if r =? 0 then [lua_pushboolean true] else [], e)
  else Ret ([], e).

Definition lexists (L : list lval) (e : E) : res (list lval * E) :=
  let amode := i32 (lua_tointeger L 2) in
  Ret (if fs_access (to_path L 1) amode e =? 0 then [lua_pushboolean true] else [], e).

Definition lremove (L : list lval) (e : E) : res (list lval * E) :=
  let '(r, e) := fs_remove (to_path L 1) e in
  Ret (if r =? 0 then [lua_pushboolean true] else [], e).

(** The last index below [n] that holds the character. *)
Fixpoint rfind (c : Z) (n : nat) (name : bytes) : option Z :=
  match n with
  | O => None
  | S i => if nth i name 0 =? c then Some (Z.of_nat i) else rfind c i name
  end.

Definition lbasename (L : list lval) (e : E) : res (list lval * E) :=
  let name := default [] (lua_tolstring L 1) in
  let last := i32 (u64 (Z.of_nat (length name) - 1)) in
  let startpos := match rfind SLASH (Z.to_nat (last + 1)) name with Some i => i + 1 | None => 0 end in
  let endpos := match rfind DOT (Z.to_nat (last + 1)) name with Some i => i - 1 | None => last end in
  if endpos <? startpos then Ret ([lua_pushstring []], e)
  else Ret ([lua_pushlstring (take (Z.to_nat (endpos - startpos + 1)) (drop (Z.to_nat startpos) name))], e).

Definition lrename (L : list lval) (e : E) : res (list lval * E) :=
  let '(error, e) := fs_rename (to_path L 1) (to_path L 2) e in
  Ret ([lua_pushinteger error], e).

(** The entries listed, in the order readdir gives them; "." and ".." are left out. *)
Fixpoint list_loop (l : list (Z * bytes)) : list file_entry :=
  match l with
  | [] => []
  | (d_type, d_name) :: l =>
      if negb (Z.land d_type DT_DIR =? 0) || negb (Z.land d_type DT_REG =? 0) then
        if bool_decide (d_name = [DOT]) then list_loop l
        else if bool_decide (d_name = [DOT; DOT]) then list_loop l
        else FileEntry (if negb (Z.land d_type DT_DIR =? 0) then [100; 105; 114] else [102; 105; 108; 101]) d_name
             :: list_loop l
      else list_loop l
  end.

(** The tables listdir would build, or None when it returns nothing. *)
Definition llistdir (L : list lval) (e : E) : res (option (list file_entry) * E) :=
  if (lua_gettop L =? 1) && lua_isstring L 1 then
    Ret (option_map list_loop (fs_readdir (to_path L 1) e), e)
  else Ret (None, e).

End Files.

(** ** basename *)

Section Basename.
Context {F : LuaFmt} {E : Type}.

Lemma rfind_skip c name k : forall n, (n <= k)%nat ->
  (forall i, (n <= i < k)%nat -> nth i name 0 <> c) -> rfind c k name = rfind c n name.
Proof.
  induction k as [|k IH]; intros n Hn H; [by replace n with O by lia|].
  destruct (decide (n = S k)) as [->|]; [done|]. cbn [rfind].
  destruct (Z.eqb_spec (nth k name 0) c) as [Hc|_]; [by destruct (H k ltac:(lia))|].
  apply IH; [lia|]. intros i Hi. apply H. lia.
Qed.

Lemma none_in_nth c t i : none_in c t -> (i < length t)%nat -> nth i t 0 <> c.
Proof. intros H Hi. eapply Forall_nth in H; [exact H|done]. Qed.

Lemma rfind_none c name : none_in c name -> rfind c (length name) name = None.
Proof.
  intros H. rewrite (rfind_skip c name _ 0); [done|lia|]. intros i Hi. by apply none_in_nth; [|lia].
Qed.

Lemma rfind_last c pre post : none_in c post ->
  rfind c (length (pre ++ c :: post)) (pre ++ c :: post) = Some (Z.of_nat (length pre)).
Proof.
  intros H. rewrite (rfind_skip c _ _ (S (length pre))).
  - cbn [rfind]. by rewrite nth_middle, Z.eqb_refl.
  - rewrite length_app. cbn. lia.
  - intros i Hi. rewrite length_app in Hi. cbn in Hi. rewrite app_nth2 by lia.
    replace (i - length pre)%nat with (S (i - length pre - 1)) by lia. cbn. apply none_in_nth; [done|lia].
Qed.

Lemma none_in_app c a b : none_in c (a ++ b) <-> none_in c a /\ none_in c b.
Proof. apply Forall_app. Qed.

(** The result from the two positions. *)
Lemma lbasename_eq name (e : E) st en :
  Z.of_nat (length name) <= INT_MAX ->
  match rfind SLASH (length name) name with Some i => i + 1 | None => 0 end = st ->
  match rfind DOT (length name) name with Some i => i - 1 | None => Z.of_nat (length name) - 1 end = en ->
  lbasename [LStr name] e =
    Ret ([LStr (if en <? st then [] else take (Z.to_nat (en - st + 1)) (drop (Z.to_nat st) name))], e).
Proof.
  unfold INT_MAX. intros Hl <- <-. unfold lbasename. change (lua_tolstring [LStr name] 1) with (Some name).
  cbn [default from_option id].
  assert (Hlast : i32 (u64 (Z.of_nat (length name) - 1)) = Z.of_nat (length name) - 1).
  { destruct name as [|x name]; [done|]. cbn [length] in *.
    rewrite (wrapU_id 64) by (unfold in_u; lia). rewrite (wrapS_id 32) by (unfold in_s; lia). done. }
  rewrite Hlast. replace (Z.to_nat (Z.of_nat (length name) - 1 + 1)) with (length name) by lia.
  by destruct (_ <? _).
Qed.
End Basename.

(** basename gives the last component of a path without its extension: for
    a path dir/stem.ext it is stem, and for a path without a dot it is all
    that follows the last slash. *)
Theorem basename_spec {F : LuaFmt} {E : Type} dir stem ext (e : E) :
  dir = [] \/ (exists d, dir = d ++ [SLASH]) ->
  none_in SLASH stem -> none_in SLASH ext -> none_in DOT ext ->
  Z.of_nat (length (dir ++ stem ++ [DOT] ++ ext)) <= INT_MAX ->
  lbasename [LStr (dir ++ stem ++ [DOT] ++ ext)] e = Ret ([LStr stem], e) /\
  (none_in DOT dir -> none_in DOT stem -> lbasename [LStr (dir ++ stem)] e = Ret ([LStr stem], e)).
Proof.
  intros Hdir Hs1 Hs2 Hd Hl.
  assert (Hslash : forall f, none_in SLASH f ->
    match rfind SLASH (length (dir ++ f)) (dir ++ f) with Some i => i + 1 | None => 0 end = Z.of_nat (length dir)).
  { intros f Hf. destruct Hdir as [->|[d ->]]; [by rewrite rfind_none|].
    rewrite <- app_assoc. cbn [app]. rewrite rfind_last by done. rewrite length_app. cbn. lia. }
  split.
  - erewrite lbasename_eq; [|done|apply Hslash|reflexivity].
    2:{ apply none_in_app. split; [done|]. apply none_in_app. split; [by repeat constructor|done]. }
    assert (Hdot := rfind_last DOT (dir ++ stem) ext Hd). rewrite <- app_assoc in Hdot. cbn [app]. rewrite Hdot.
    rewrite length_app, Nat2Z.id, drop_app_length. destruct (Z.ltb_spec (Z.of_nat (length dir + length stem) - 1) (Z.of_nat (length dir))).
    + by destruct stem; [|cbn in *; lia].
    + replace (Z.to_nat _) with (length stem) by lia. by rewrite take_app_length.
  - intros Hd1 Hd2. rewrite !length_app in Hl.
    erewrite lbasename_eq; [|rewrite length_app; lia|by apply Hslash|reflexivity].
    rewrite rfind_none by by apply none_in_app. rewrite length_app, Nat2Z.id, drop_app_length.
    destruct (Z.ltb_spec (Z.of_nat (length dir + length stem) - 1) (Z.of_nat (length dir))).
    + by destruct stem; [|cbn in *; lia].
    + replace (Z.to_nat _) with (length stem) by lia. by rewrite firstn_all.
Qed.

(** A path "d.1/f" has no basename: the dot found is that of the directory. *)
Lemma basename_dotted_dir {F : LuaFmt} {E : Type} (e : E) :
  lbasename [LStr [100; DOT; 49; SLASH; 102]] e = Ret ([LStr []], e).
Proof. reflexivity. Qed.

(** "s/f.c" *)
Lemma basename_spec_witness :
  @lbasename NoFmt unit [LStr ([115; SLASH] ++ [102] ++ [DOT] ++ [99])] tt = Ret ([LStr [102]], tt) /\
  (none_in DOT [115; SLASH] -> none_in DOT [102] ->
   @lbasename NoFmt unit [LStr ([115; SLASH] ++ [102])] tt = Ret ([LStr [102]], tt)).
Proof.
  apply (@basename_spec NoFmt unit [115; SLASH] [102] [99] tt).
  - right. by exists [115].
  - repeat constructor; discriminate.
  - repeat constructor; discriminate.
  - repeat constructor; discriminate.
  - cbn. unfold INT_MAX. lia.
Defined.

(** ** mkdirs *)

(** A name of one directory. *)
Definition name_ok (x : bytes) : Prop := x <> [] /\ none_in SLASH x /\ nozero x.

(** The paths of [l] below those of [pre], shortest first. *)
Fixpoint prefixes (pre l : list bytes) : list bytes :=
  match l with [] => [] | x :: l => joined [SLASH] (pre ++ [x]) :: prefixes (pre ++ [x]) l end.

(** What the system calls do, in a place where the caller may make directories:
    access finds the existing paths, and mkdir makes a missing one whose
    parent is a directory. *)
Class FileOsOk (E : Type) {OS : FileOs E} := {
  fs_paths : E -> gset bytes;
  fs_dirs : E -> gset bytes;
  fs_may : E -> Prop;
  fs_access_ok e p : fs_access (Some p) 0 e = 0 <-> p ∈ fs_paths e;
  fs_mkdir_ok e pre x mode :
    fs_may e -> Forall name_ok pre -> name_ok x -> pre = [] \/ joined [SLASH] pre ∈ fs_dirs e ->
    joined [SLASH] (pre ++ [x]) ∉ fs_paths e ->
    exists e', fs_mkdir (Some (joined [SLASH] (pre ++ [x]))) mode e = (0, e') /\ fs_may e' /\
      fs_paths e' = {[joined [SLASH] (pre ++ [x])]} ∪ fs_paths e /\
      fs_dirs e' = {[joined [SLASH] (pre ++ [x])]} ∪ fs_dirs e;
}.

Section Mkdirs.
Context {F : LuaFmt} {E : Type} {OS : FileOs E}.
Implicit Types e : E.

(** The calls of mkdirs, one path after the other. *)
Fixpoint make_all (pre l : list bytes) (e : E) : E :=
  match l with [] => e | x :: l => make_all (pre ++ [x]) l (make_missing (joined [SLASH] (pre ++ [x])) e) end.

Definition slashed (l : list bytes) : bytes := concat (map (fun x => x ++ [SLASH]) l).

Lemma slashed_snoc l x : slashed (l ++ [x]) = slashed l ++ x ++ [SLASH].
Proof. unfold slashed. rewrite map_app, concat_app. cbn. by rewrite app_nil_r. Qed.

Lemma joined_app l x r : joined [SLASH] (l ++ x :: r) = slashed l ++ joined [SLASH] (x :: r).
Proof.
  induction l as [|y l IH]; [done|]. cbn [app]. rewrite joined_cons by (by destruct l). rewrite IH.
  unfold slashed. cbn. by rewrite <- !app_assoc.
Qed.

Lemma joined_nozero l : Forall nozero l -> nozero (joined [SLASH] l).
Proof.
  induction 1 as [|x l Hx Hl IH]; [constructor|]. destruct l as [|y l]; [done|].
  rewrite joined_cons by done. apply Forall_app. split; [done|]. by apply Forall_cons.
Qed.

Lemma mkdirs_loop_skip n k i dir e :
  (forall j, (i <= j < i + k)%nat -> nth j dir 0 <> SLASH) ->
  mkdirs_loop (k + n) i dir e = mkdirs_loop n (i + k) dir e.
Proof.
  revert i. induction k as [|k IH]; intros i H; [by rewrite Nat.add_0_r|]. cbn [mkdirs_loop Nat.add].
  destruct (Z.eqb_spec (nth i dir 0) SLASH) as [Hs|_]; [by destruct (H i ltac:(lia))|].
  rewrite IH by (intros; apply H; lia). f_equal. lia.
Qed.

Lemma mkdirs_loop_ok l : forall pre x e,
  Forall name_ok pre -> Forall name_ok (x :: l) ->
  make_missing (joined [SLASH] (pre ++ x :: l))
    (mkdirs_loop (length (joined [SLASH] (x :: l))) (length (slashed pre)) (joined [SLASH] (pre ++ x :: l)) e)
  = make_all pre (x :: l) e.
Proof.
  assert (Hno : forall pre x rest j, none_in SLASH x ->
    (length (slashed pre) <= j < length (slashed pre) + length x)%nat -> nth j (slashed pre ++ x ++ rest) 0 <> SLASH).
  { intros pre x rest j Hx Hj. rewrite app_nth2, app_nth1 by lia. apply none_in_nth; [done|lia]. }
  induction l as [|y l IH]; intros pre x e Hpre Hl; apply Forall_cons in Hl as [(Hx0 & Hx & Hxz) Hl]; cbn [make_all].
  - rewrite joined_app. cbn [joined].
    rewrite <- (Nat.add_0_r (length x)), mkdirs_loop_skip; [done|].
    intros j Hj. rewrite <- (app_nil_r x). by apply Hno.
  - assert (Hd : joined [SLASH] (pre ++ x :: y :: l) = slashed pre ++ x ++ [SLASH] ++ joined [SLASH] (y :: l))
      by (by rewrite joined_app, (joined_cons _ x)).
    assert (Hp : joined [SLASH] (pre ++ [x]) = slashed pre ++ x) by (by rewrite joined_app).
    specialize (IH (pre ++ [x]) y (make_missing (joined [SLASH] (pre ++ [x])) e)).
    rewrite <- app_assoc in IH. cbn [app] in IH. cbn [make_all] in IH. rewrite <- IH; [|by apply Forall_app_2; [|apply Forall_singleton]|done].
    f_equal. rewrite (joined_cons _ x), !length_app by done. rewrite mkdirs_loop_skip.
    2:{ rewrite Hd. intros j Hj. by apply Hno. }
    assert (Hn : nth (length (slashed pre) + length x) (joined [SLASH] (pre ++ x :: y :: l)) 0 = SLASH)
      by (rewrite Hd, app_assoc, <- length_app; apply nth_middle).
    assert (Ht : take (length (slashed pre) + length x) (joined [SLASH] (pre ++ x :: y :: l)) = joined [SLASH] (pre ++ [x]))
      by (rewrite Hd, Hp, app_assoc, <- length_app; apply take_app_length).
    cbn [length Nat.add mkdirs_loop app]. rewrite Hn, Ht. change (SLASH =? SLASH) with true. cbv iota.
    rewrite cstr_nozero.
    + f_equal. rewrite slashed_snoc, !length_app. cbn. lia.
    + apply joined_nozero, Forall_app. split; [|by repeat constructor].
      eapply Forall_impl; [exact Hpre|]. by intros ? (? & ? & ?).
Qed.

Context {OK : FileOsOk E}.

Lemma make_all_ok l : forall pre e,
  Forall name_ok pre -> Forall name_ok l -> fs_may e -> pre = [] \/ joined [SLASH] pre ∈ fs_dirs e ->
  (forall p, p ∈ prefixes pre l -> p ∈ fs_paths e -> p ∈ fs_dirs e) ->
  fs_dirs (make_all pre l e) = list_to_set (prefixes pre l) ∪ fs_dirs e /\
  fs_paths (make_all pre l e) = list_to_set (prefixes pre l) ∪ fs_paths e.
Proof.
  induction l as [|x l IH]; intros pre e Hpre Hl Hm Hp Hf; cbn [make_all prefixes list_to_set].
  { split; by rewrite (left_id_L ∅ (∪)). }
  apply Forall_cons in Hl as [Hx Hl]. set (p := joined [SLASH] (pre ++ [x])) in *. cbn [prefixes] in Hf. fold p in Hf.
  assert (Hpre' : Forall name_ok (pre ++ [x])) by (apply Forall_app_2; [done|by apply Forall_singleton]).
  unfold make_missing. destruct (Z.eqb_spec (fs_access (Some p) 0 e) 0) as [Ha|Ha]; cbn [negb].
  - apply fs_access_ok in Ha. assert (Hd : p ∈ fs_dirs e) by (apply Hf; [left|done]).
    destruct (IH (pre ++ [x]) e) as [-> ->]; [done..|by right|intros q Hq; apply Hf; by right|].
    split; set_solver.
  - rewrite fs_access_ok in Ha. destruct (fs_mkdir_ok e pre x 511 Hm Hpre Hx Hp Ha) as (e' & He & Hm' & Hps & Hds).
    fold p in He, Hps, Hds. rewrite He. cbn [snd].
    destruct (IH (pre ++ [x]) e') as [-> ->]; [done..|right; fold p; rewrite Hds; set_solver| |].
    + intros q Hq. rewrite Hps, Hds. specialize (Hf q). set_solver.
    + rewrite Hps, Hds. split; set_solver.
Qed.
End Mkdirs.

(** mkdirs of a relative path makes exactly the directories of the path that
    were missing, from the first component on, when no file is in the way:
    afterwards the directories, and the paths, are those before and the
    prefixes of the path, and the result is true. *)
Theorem mkdirs_spec {F : LuaFmt} {E : Type} {OS : FileOs E} {OK : FileOsOk E} names e :
  names <> [] -> Forall name_ok names -> fs_may e ->
  (forall p, p ∈ prefixes [] names -> p ∈ fs_paths e -> p ∈ fs_dirs e) ->
  exists e', lmkdirs [LStr (joined [SLASH] names)] e = Ret ([LBool true], e') /\
    fs_dirs e' = list_to_set (prefixes [] names) ∪ fs_dirs e /\
    fs_paths e' = list_to_set (prefixes [] names) ∪ fs_paths e.
Proof.
  intros Hne Hok Hm Hf. exists (make_all [] names e). split.
  - destruct names as [|x l]; [done|]. unfold lmkdirs. set (d := joined [SLASH] (x :: l)).
    change ((lua_gettop [LStr d] =? 1) && lua_isstring [LStr d] 1) with true.
    change (lua_tolstring [LStr d] 1) with (Some d). cbv iota. cbn [of_option]. rewrite bind_Ret_l. cbv zeta.
    rewrite cstr_nozero. { by rewrite <- (mkdirs_loop_ok l [] x e). }
    apply joined_nozero. eapply Forall_impl; [exact Hok|]. by intros ? (? & ? & ?).
  - apply make_all_ok; try done. by left.
Qed.

(** A file system of directories only: the set of their paths. *)
Definition ExFileOs : FileOs (gset bytes) :=
  {| fs_getcwd := fun _ _ => None; fs_chdir := fun _ e => (-1, e);
     fs_access := fun p _ e => if decide (default [] p ∈ e) then 0 else -1;
     fs_mkdir := fun p _ e => if decide (default [] p ∈ e) then (-1, e) else (0, {[default [] p]} ∪ e);
     fs_remove := fun _ e => (-1, e); fs_rename := fun _ _ e => (-1, e); fs_readdir := fun _ _ => None |}.
Definition ExFileOk : @FileOsOk _ ExFileOs.
Proof.
  refine {| fs_paths := fun e => e; fs_dirs := fun e => e; fs_may := fun _ => True |}.
  - intros e p. cbn. by destruct (decide (p ∈ e)).
  - intros e pre x mode _ _ _ _ H. cbn. rewrite decide_False by done. eauto.
Defined.

(** "a/bc" where "a" exists. *)
Lemma mkdirs_spec_witness :
  exists e', @lmkdirs NoFmt _ ExFileOs [LStr (joined [SLASH] [[97]; [98; 99]])] {[ [97] ]} = Ret ([LBool true], e') /\
    @fs_dirs _ _ ExFileOk e' = list_to_set (prefixes [] [[97]; [98; 99]]) ∪ @fs_dirs _ _ ExFileOk {[ [97] ]} /\
    @fs_paths _ _ ExFileOk e' = list_to_set (prefixes [] [[97]; [98; 99]]) ∪ @fs_paths _ _ ExFileOk {[ [97] ]}.
Proof.
  apply (@mkdirs_spec NoFmt _ ExFileOs ExFileOk [[97]; [98; 99]] {[ [97] ]}).
  - discriminate.
  - repeat constructor; discriminate.
  - exact I.
  - intros p _ H. exact H.
Defined.
