(* ===== verification/Redis.v ===== *)
(** * Redis: the redis client for scripts

    Source: src/src/redis/lredis.cc.  A script sends a command over a connection and
    gets the reply as a table.  The connection and the sending and receiving of
    commands are those of hiredis, the class [Hiredis]; the arrays of the
    arguments of MSET and HMSET are static variables that grow, which live here
    in a heap of arrays. *)
From Stdlib Require Import SpecFloat.
From S2P Require Import Prelude Lua LuaStack Dbl.
Local Open Scope Z_scope.

(** ** Replies and tables *)

(** redisReply; the other types have no name here. *)
Inductive reply :=
| RNil
| RInt (n : Z)
| RStr (s : bytes)
| RErr (s : bytes)
| RStatus (s : bytes)
| RArr (l : list reply)
| ROther.

Definition s_type : lval := LStr [116; 121; 112; 101].
Definition s_value : lval := LStr [118; 97; 108; 117; 101].

(** The name of the type; with none pushed lua_settable would take the wrong
    values from the stack. *)
Definition type_name (r : reply) : option bytes :=
  match r with
  | RNil => Some [110; 117; 108; 108]
  | RInt _ => Some [105; 110; 116; 101; 103; 101; 114]
  | RStr _ => Some [115; 116; 114; 105; 110; 103]
  | RErr _ => Some [101; 114; 114; 111; 114]
  | RStatus _ => Some [115; 116; 97; 116; 117; 115]
  | RArr _ => Some [97; 114; 114; 97; 121]
  | ROther => None
  end.

Section Push.
(** The loop over the elements, from the index [i], below which the stack holds the table, the
    name and the array; [push] is the function itself, called with the index on the stack.
    lua_checkstack is not called: [room] is what is free of the stack. *)
Definition push_elements (room : nat) (push : reply -> res tree)
    : list reply -> Z -> list (lval * tree) -> res (list (lval * tree)) :=
  fix go l i t :=
    match l with
    | [] => Ret t
    | r :: l =>
        v ← with_slots room 4 (push r);
        go l (u32 (i + 1)) (settable (lua_pushnumber (d_of_Z (u32 (i + 1)))) v t)
    end.

Fixpoint getCallback_push_reply (room : nat) (r : reply) : res tree :=
  name ← with_slots room 3 (of_option (type_name r));
  let t := settable s_type (Val (lua_pushstring name)) [] in
  v ← match r with
      | RNil => Ret (Val LNil)
      | RInt n => Ret (Val (lua_pushnumber (d_of_Z n)))
      | RStr s => Ret (Val (lua_pushlstring s))
      | RErr s => Ret (Val (lua_pushstring s))
      | RStatus s => Ret (Val (lua_pushstring s))
      | RArr l => e ← push_elements room (getCallback_push_reply (room - 4)) l 0 []; Ret (Tab e)
      | ROther => Undef
      end;
  Ret (Tab (settable s_value v t)).
End Push.

(** ** The connection *)

(** What follows the format of a command: %s, %f (a float, promoted) and %b. *)
Inductive rarg := AStr (s : bytes) | AFloat (d : lnumber) | ABin (s : bytes).

Class Hiredis (E : Type) := {
  rd_connect : bytes -> Z -> E -> (Z * bool) * E;      (* the context, or NULL; REDIS_CONNECTED *)
  rd_free : Z -> E -> E;
  rd_command : Z -> bytes -> list rarg -> E -> option reply * E;
  rd_command_argv : Z -> list bytes -> E -> option reply * E;
}.

(** ** The static arrays *)

(** An element: not written, a pointer to a string (NULL: None), a string that may
    be gone since the call that stored it returned, a length. *)
Inductive cell := Uninit | Ptr (s : option bytes) | Stale | Len (n : Z).

Class ArrayMalloc := { array_malloc : gmap Z (list cell) -> Z -> option Z }.
Class ArrayMallocOk (A : ArrayMalloc) : Prop := {
  array_fresh h n p : array_malloc h n = Some p -> p <> 0 /\ h !! p = None;
  array_enough h n : 0 < n -> is_Some (array_malloc h n);
}.

Record st (E : Type) := St {
  arrays : gmap Z (list cell);
  redis_argv : Z;
  redis_argvlen : Z;
  redis_argc : Z;
  os : E;
}.
Arguments St {E} _ _ _ _ _.
Arguments arrays {E} _.
Arguments redis_argv {E} _.
Arguments redis_argvlen {E} _.
Arguments redis_argc {E} _.
Arguments os {E} _.

Definition set_arrays {E} (s : st E) (a : gmap Z (list cell)) : st E := St a (redis_argv s) (redis_argvlen s) (redis_argc s) (os s).
Definition set_os {E} (s : st E) (e : E) : st E := St (arrays s) (redis_argv s) (redis_argvlen s) (redis_argc s) e.

(** The script may drop the strings of a call once it returned. *)
Definition expire (c : cell) : cell := match c with Ptr (Some _) => Stale | _ => c end.
Definition leave {E} (s : st E) : st E := set_arrays s (fmap (map expire) (arrays s)).

Section Commands.
Context {F : LuaFmt} {E : Type} {H : Hiredis E} {A : ArrayMalloc}.
Implicit Types s : st E.

Definition lconnect (L : list lval) s : res (list tree * st E) :=
  if (lua_gettop L =? 2) && lua_isstring L 1 && lua_isnumber L 2 then
    ip ← of_option (lua_tolstring L 1);
    let port := u16 (d2i32 (lua_tonumber L 2)) in
    let '((c, connected), e) := rd_connect (cstr ip) port (os s) in
    if c =? 0 then Ret ([], set_os s e)
    else if negb connected then Ret ([], set_os s (rd_free c e))
    else Ret ([Val (lua_pushlightuserdata c)], set_os s e)
  else Ret ([], s).

Definition lclose (L : list lval) s : res (list tree * st E) :=
  if (lua_gettop L =? 1) && lua_isuserdata L 1 then Ret ([], set_os s (rd_free (lua_touserdata L 1) (os s)))
  else Ret ([], s).

(** The end of every command: the reply as a table, on a stack with nothing but the
    arguments. *)
Definition finish (r : option reply * E) s : res (list tree * st E) :=
  match r with
  | (None, e) => Ret ([], set_os s e)
  | (Some r, e) => t ← getCallback_push_reply LUA_MINSTACK r; Ret ([t], set_os s e)
  end.

(** [format] with the key as %s and a value as %b. *)
Definition key_value (format : bytes) (L : list lval) s : res (list tree * st E) :=
  if negb (lua_isuserdata L 1) || negb (lua_isstring L 2) || negb (lua_isstring L 3) then Ret ([], s)
  else
    let c := lua_touserdata L 1 in
    if c =? 0 then Ret ([], s)
    else
      key ← of_option (lua_tolstring L 2);
      match lua_tolstring L 3 with
      | None => Ret ([], s)
      | Some value => finish (rd_command c format [AStr (cstr key); ABin value] (os s)) s
      end.

(** "ZREVRANK %s %b" and so on. *)
Definition lzrevrank := key_value [90; 82; 69; 86; 82; 65; 78; 75; 32; 37; 115; 32; 37; 98].
Definition lzrem := key_value [90; 82; 69; 77; 32; 37; 115; 32; 37; 98].
Definition lzrank := key_value [90; 82; 65; 78; 75; 32; 37; 115; 32; 37; 98].
Definition lset := key_value [115; 101; 116; 32; 37; 115; 32; 37; 98].
Definition llpush := key_value [76; 80; 85; 83; 72; 32; 37; 115; 32; 37; 98].

(** "ZADD %s %f %b" *)
Definition lzadd (L : list lval) s : res (list tree * st E) :=
  if negb (lua_isuserdata L 1) || negb (lua_isstring L 2) || negb (lua_isnumber L 3) || negb (lua_isstring L 4)
  then Ret ([], s)
  else
    let c := lua_touserdata L 1 in
    if c =? 0 then Ret ([], s)
    else
      key ← of_option (lua_tolstring L 2);
      let score := to_float (lua_tonumber L 3) in
      match lua_tolstring L 4 with
      | None => Ret ([], s)
      | Some value =>
          finish (rd_command c [90; 65; 68; 68; 32; 37; 115; 32; 37; 102; 32; 37; 98]
            [AStr (cstr key); AFloat score; ABin value] (os s)) s
      end.

(** "hset %s %s %s" *)
Definition lhset (L : list lval) s : res (list tree * st E) :=
  if negb (lua_isuserdata L 1) || negb (lua_isstring L 2) || negb (lua_isstring L 3) || negb (lua_isstring L 4)
  then Ret ([], s)
  else
    let c := lua_touserdata L 1 in
    if c =? 0 then Ret ([], s)
    else
      table ← of_option (lua_tolstring L 2);
      key ← of_option (lua_tolstring L 3);
      value ← of_option (lua_tolstring L 4);
      finish (rd_command c [104; 115; 101; 116; 32; 37; 115; 32; 37; 115; 32; 37; 115]
        [AStr (cstr table); AStr (cstr key); AStr (cstr value)] (os s)) s.

(** The format is the script's text: a % that is neither doubled nor last takes an
    argument that was not passed. *)
Fixpoint wants_args (format : bytes) : bool :=
  match format with
  | 37 :: (x :: r) as t => if x =? 37 then wants_args r else true
  | _ :: r => wants_args r
  | [] => false
  end.

Definition lcommand (L : list lval) s : res (list tree * st E) :=
  if negb (lua_isuserdata L 1) || negb (lua_isstring L 2) then Ret ([], s)
  else
    let c := lua_touserdata L 1 in
    command ← of_option (lua_tolstring L 2);
    if c =? 0 then Ret ([], s)
    else if wants_args (cstr command) then Undef
    else finish (rd_command c (cstr command) [] (os s)) s.

(** ** MSET and HMSET *)

Definition array_free (p : Z) s : res (st E) :=
  match arrays s !! p with Some _ => Ret (set_arrays s (delete p (arrays s))) | None => Undef end.
Definition array_store (p i : Z) (c : cell) s : res (st E) :=
  l ← of_option (arrays s !! p);
  if (0 <=? i) && (i <? Z.of_nat (length l)) then Ret (set_arrays s (<[p := <[Z.to_nat i := c]> l]> (arrays s))) else Undef.

(** malloc(argc * 8), the result in one of the static pointers. *)
Definition new_array (argc : Z) s : Z * gmap Z (list cell) :=
  match array_malloc (arrays s) argc with
  | Some p => (p, <[p := replicate (Z.to_nat argc) Uninit]> (arrays s))
  | None => (0, arrays s)
  end.

(** Both arrays freed; the pointers keep their values. *)
Definition drop_array (p : Z) s : res (st E) :=
  if negb (p =? 0) then array_free p (St (arrays s) (redis_argv s) (redis_argvlen s) 0 (os s)) else Ret s.
Definition drop_args s : res (st E) :=
  s ← drop_array (redis_argv s) s; drop_array (redis_argvlen s) s.

(** The arrays have room for [argc] elements afterwards; false when malloc failed: the
    second pointer stays as it was freed. *)
Definition grow_args (argc : Z) s : res (bool * st E) :=
  if redis_argc s <? argc then
    s ← drop_args s;
    let '(p, a) := new_array argc s in
    let s := St a p (redis_argvlen s) (redis_argc s) (os s) in
    let '(q, a) := new_array argc s in
    let s := St a (redis_argv s) q (redis_argc s) (os s) in
    if (redis_argv s =? 0) || (redis_argvlen s =? 0) then
      let s := St (arrays s) 0 (redis_argvlen s) (redis_argc s) (os s) in
      s ← (if negb (redis_argvlen s =? 0) then array_free (redis_argvlen s) s else Ret s);
      Ret (false, s)
    else Ret (true, St (arrays s) (redis_argv s) (redis_argvlen s) argc (os s))
  else Ret (true, s).

Definition put_arg (j : Z) (v : option bytes) s : res (st E) :=
  s ← array_store (redis_argv s) j (Ptr v) s;
  array_store (redis_argvlen s) j (Len (Z.of_nat (length (default [] v)))) s.

(** The loop from [i] on: the Lua values at 2i + src and the next go to 2i + dst and the next. *)
Fixpoint pair_loop (n : nat) (L : list lval) (i src dst : Z) s : res (st E) :=
  match n with
  | O => Ret s
  | S n =>
      s ← put_arg (2 * i + dst) (lua_tolstring L (2 * i + src)) s;
      s ← put_arg (2 * i + dst + 1) (lua_tolstring L (2 * i + src + 1)) s;
      pair_loop n L (i + 1) src dst s
  end.

(** The arguments redisCommandArgv copies: for each its pointer and its length. *)
Fixpoint read_args (argc : nat) (argv argvlen : list cell) : res (list bytes) :=
  match argc with
  | O => Ret []
  | S argc =>
      match argv, argvlen with
      | Ptr v :: argv, Len n :: argvlen =>
          if n <=? Z.of_nat (length (default [] v)) then
            l ← read_args argc argv argvlen; Ret (take (Z.to_nat n) (default [] v) :: l)
          else Undef
      | _, _ => Undef
      end
  end.
Definition command_argv (c argc : Z) s : res (list tree * st E) :=
  argv ← of_option (arrays s !! redis_argv s);
  argvlen ← of_option (arrays s !! redis_argvlen s);
  args ← read_args (Z.to_nat argc) argv argvlen;
  '(l, s) ← finish (rd_command_argv c args (os s)) s;
  Ret (l, leave s).

Definition MSET : bytes := [77; 83; 69; 84].
Definition HMSET : bytes := [72; 77; 83; 69; 84].

Definition lmset (L : list lval) s : res (list tree * st E) :=
  let c := lua_touserdata L 1 in
  if c =? 0 then Ret ([], s)
  else
    let argc := lua_gettop L in
    '(ok, s) ← grow_args argc s;
    if (ok : bool) then
      s ← put_arg 0 (Some MSET) s;
      s ← pair_loop (Z.to_nat ((argc - 1) / 2)) L 0 2 1 s;
      command_argv c argc s
    else Ret ([], s).

Definition lhmset (L : list lval) s : res (list tree * st E) :=
  let c := lua_touserdata L 1 in
  if c =? 0 then Ret ([], s)
  else
    let argc := lua_gettop L in
    if negb (argc mod 2 =? 0) then Ret ([], s)
    else
      '(ok, s) ← grow_args argc s;
      if (ok : bool) then
        match lua_tolstring L 2 with
        | None => Ret ([], s)
        | Some key =>
            s ← put_arg 0 (Some HMSET) s;
            s ← put_arg 1 (Some key) s;
            s ← pair_loop (Z.to_nat ((argc - 1) / 2)) L 0 3 2 s;
            command_argv c argc s
        end
      else Ret ([], s).

End Commands.

(** ** The table of a reply *)

Definition key (i : Z) : lval := LNum (d_of_Z i).

(** The table shows the reply: its type by name and its value, for an array the
    tables of its elements at 1, 2, ... *)
Definition show_elements (shows : reply -> tree -> Prop) : list reply -> Z -> list (lval * tree) -> Prop :=
  fix go l i t :=
    match l with
    | [] => True
    | r :: l => (exists v, tree_get (key (i + 1)) t = Some v /\ shows r v) /\ go l (i + 1) t
    end.
Fixpoint shows (r : reply) (v : tree) : Prop :=
  exists l, v = Tab l /\ (exists n, type_name r = Some n /\ tree_get s_type l = Some (Val (LStr n))) /\
  match r with
  | RNil => tree_get s_value l = None
  | RInt n => tree_get s_value l = Some (Val (LNum (d_of_Z n))) /\ (- 2 ^ 53 < n < 2 ^ 53 -> d2i64 (d_of_Z n) = n)
  | RStr s => tree_get s_value l = Some (Val (LStr s))
  | RErr s | RStatus s => tree_get s_value l = Some (Val (LStr (cstr s)))
  | RArr rs => exists es, tree_get s_value l = Some (Tab es) /\ length es = length rs /\ show_elements shows rs 0 es
  | ROther => False
  end.

(** The type is one the code names, and an array has fewer elements than its counter counts. *)
Fixpoint reply_ok (r : reply) : Prop :=
  match r with
  | RNil | RStr _ | RInt _ | RErr _ | RStatus _ => True
  | RArr l => Z.of_nat (length l) < 2 ^ 32 /\ fold_right (fun r P => reply_ok r /\ P) True l
  | ROther => False
  end.

(** The slots of the stack: the table, a name and a value, or an array in its place with the
    index of an element and what the element takes. *)
Fixpoint slots (r : reply) : nat :=
  match r with
  | RArr l => Nat.max 3 (max_list_with (fun r => 4 + slots r)%nat l)
  | _ => 3
  end.

Section Shows.

Lemma reply_ind' (P : reply -> Prop) :
  P RNil -> (forall n, P (RInt n)) -> (forall s, P (RStr s)) -> (forall s, P (RErr s)) -> (forall s, P (RStatus s)) ->
  (forall l, Forall P l -> P (RArr l)) -> P ROther -> forall r, P r.
Proof.
  intros H1 H2 H3 H4 H5 H6 H7. fix IH 1.
  intros [| | | | |l|]; [apply H1|apply H2|apply H3|apply H4|apply H5| |apply H7].
  apply H6. induction l as [|r l IHl]; constructor; [apply IH|done].
Qed.

Lemma key_inj i j : 0 <= i < 2 ^ 53 -> 0 <= j < 2 ^ 53 -> key i = key j -> i = j.
Proof. intros Hi Hj [= H]. apply d_of_Z_inj; [lia..|done]. Qed.

(** The entries pushed from the index [i] on. *)
Fixpoint entries (i : Z) (vs : list tree) : list (lval * tree) :=
  match vs with [] => [] | v :: vs => (key (i + 1), v) :: entries (i + 1) vs end.

Lemma shows_table r v : shows r v -> exists l, v = Tab l.
Proof. destruct r; intros (t & -> & _); eauto. Qed.

(** What the function does with [room] slots. *)
Definition pushes (room : nat) (r : reply) : Prop :=
  if (slots r <=? room)%nat then exists v, getCallback_push_reply room r = Ret v /\ shows r v
  else getCallback_push_reply room r = Undef.

Lemma push_elements_ok room l : forall i t, Forall (pushes (room - 4)) l ->
  0 <= i -> i + Z.of_nat (length l) < 2 ^ 32 -> (forall j, i < j < 2 ^ 32 -> tree_get (key j) t = None) ->
  if (max_list_with (fun r => 4 + slots r) l <=? room)%nat
  then exists vs, push_elements room (getCallback_push_reply (room - 4)) l i t = Ret (t ++ entries i vs) /\ Forall2 shows l vs
  else push_elements room (getCallback_push_reply (room - 4)) l i t = Undef.
Proof.
  induction l as [|r l IH]; intros i t Hl Hi Hb Ht.
  { exists []. split; [by rewrite app_nil_r|constructor]. }
  apply Forall_cons in Hl as [Hr Hl]. cbn [length] in Hb. cbn [push_elements].
  change (max_list_with (fun r => 4 + slots r)%nat (r :: l)) with (Nat.max (4 + slots r) (max_list_with (fun r => 4 + slots r)%nat l)).
  unfold with_slots at 1. unfold with_slots at 1. unfold pushes in Hr. destruct (Nat.ltb_spec room 4) as [H4|H4].
  { by destruct (Nat.leb_spec (Nat.max (4 + slots r) (max_list_with (fun r => 4 + slots r)%nat l)) room); [lia|]. }
  destruct (Nat.leb_spec (slots r) (room - 4)) as [Hs|Hs].
  2:{ rewrite Hr. by destruct (Nat.leb_spec (Nat.max (4 + slots r) (max_list_with (fun r => 4 + slots r)%nat l)) room); [lia|]. }
  destruct Hr as (v & Hv & Hsh). rewrite Hv, bind_Ret_l. rewrite (wrapU_id 32) by (unfold in_u; lia).
  destruct (shows_table _ _ Hsh) as [e ->].
  change (lua_pushnumber (d_of_Z (i + 1))) with (key (i + 1)). rewrite settable_new by (done || (apply Ht; lia)).
  specialize (IH (i + 1) (t ++ [(key (i + 1), Tab e)]) Hl ltac:(lia) ltac:(lia)).
  assert (Hnext : forall j, i + 1 < j < 2 ^ 32 -> tree_get (key j) (t ++ [(key (i + 1), Tab e)]) = None).
  { intros j Hj. rewrite tree_get_app, Ht by lia. cbn. rewrite decide_False; [done|]. intros Hk. apply key_inj in Hk; lia. }
  specialize (IH Hnext). destruct (Nat.leb_spec (max_list_with (fun r => 4 + slots r)%nat l) room),
    (Nat.leb_spec (Nat.max (4 + slots r) (max_list_with (fun r => 4 + slots r)%nat l)) room); try lia; [|exact IH].
  destruct IH as (vs & Hp & Hvs). exists (Tab e :: vs). split; [|by constructor]. etransitivity; [exact Hp|].
  cbn. by rewrite <- app_assoc.
Qed.

Lemma show_elements_ok l vs : Forall2 shows l vs -> forall i pre,
  0 <= i -> i + Z.of_nat (length l) < 2 ^ 32 -> (forall j, i < j < 2 ^ 32 -> tree_get (key j) pre = None) ->
  show_elements shows l i (pre ++ entries i vs).
Proof.
  induction 1 as [|r v l vs Hs Hl IH]; intros i pre Hi Hb Hpre; [done|]. cbn [show_elements entries length] in *. split.
  - exists v. split; [|done]. rewrite tree_get_app, Hpre by lia. cbn. by rewrite decide_True.
  - change ((key (i + 1), v) :: entries (i + 1) vs) with ([(key (i + 1), v)] ++ entries (i + 1) vs).
    rewrite app_assoc. apply IH; [lia|lia|]. intros j Hj. rewrite tree_get_app, Hpre by lia. cbn.
    rewrite decide_False; [done|]. intros Hk. apply key_inj in Hk; lia.
Qed.

Lemma entries_length i vs : length (entries i vs) = length vs.
Proof. revert i. induction vs as [|v vs IH]; intros i; [done|]. cbn. by rewrite IH. Qed.
End Shows.

(** A reply without elements takes three slots: its table and its type. *)
Ltac show_table :=
  unfold pushes; change (slots _) with 3%nat; cbn [getCallback_push_reply type_name of_option]; unfold with_slots;
  match goal with |- context [(3 <=? ?room)%nat] => destruct (Nat.leb_spec 3 room), (Nat.ltb_spec room 3); try lia; [|done] end;
  rewrite !bind_Ret_l; eexists; split; [reflexivity|]; eexists; split; [reflexivity|]; split; [by eexists|].

Lemma push_reply_ok r : forall room, reply_ok r -> pushes room r.
Proof.
  induction r as [|n|s|s|s|l IH|] using reply_ind'; intros room Hok.
  - by show_table.
  - show_table. split; [reflexivity|]. apply d2i64_of_Z.
  - by show_table.
  - by show_table.
  - by show_table.
  - destruct Hok as [Hlen Hok].
    assert (Hl : Forall (pushes (room - 4)) l).
    { clear Hlen. induction IH as [|r l Hr Hl IHl]; constructor; destruct Hok; auto. }
    pose proof (push_elements_ok room l 0 [] Hl ltac:(lia) ltac:(lia) ltac:(done)) as Hp.
    unfold pushes. cbn [getCallback_push_reply type_name of_option slots]. unfold with_slots.
    destruct (Nat.ltb_spec room 3) as [H3|H3].
    { by destruct (Nat.leb_spec (Nat.max 3 (max_list_with (fun r => 4 + slots r)%nat l)) room); [lia|]. }
    rewrite bind_Ret_l. destruct (Nat.leb_spec (max_list_with (fun r => 4 + slots r)%nat l) room),
      (Nat.leb_spec (Nat.max 3 (max_list_with (fun r => 4 + slots r)%nat l)) room); try lia.
    2:{ by rewrite Hp. }
    destruct Hp as (vs & Hp & Hvs). rewrite Hp, !bind_Ret_l. eexists. split; [reflexivity|].
    cbn [shows]. eexists. split; [reflexivity|]. split; [by eexists|]. exists (entries 0 vs). split; [reflexivity|]. split.
    + rewrite entries_length. symmetry. by eapply Forall2_length.
    + by apply (show_elements_ok l vs Hvs 0 []).
  - destruct Hok.
Qed.

(** C31.  The script gets a table that shows the reply, as long as the Lua stack has room for
    its nesting: the name of its type, and its value, with the elements of an array at 1, 2,
    ...  An integer is the nearest number, itself below 2^53; a string has any bytes, an
    error or a status ends at its first zero byte.  A reply takes three slots of the stack,
    an element of an array four more than the reply it is in, and lua_checkstack is not
    called: with the LUA_MINSTACK (20) slots of a call arrays nest four levels deep, and a
    deeper reply is undefined.  The types are the six the code names (it has no name for
    another one, and takes wrong values from the stack), and an array has fewer than 2^32
    elements. *)
Theorem reply_table room r : reply_ok r ->
  if (slots r <=? room)%nat then exists v, getCallback_push_reply room r = Ret v /\ shows r v
  else getCallback_push_reply room r = Undef.
Proof. apply push_reply_ok. Qed.

Definition ex_reply : reply := RArr [RInt 7; RNil; RStr [97]].
Lemma reply_table_witness :
  (slots ex_reply <=? LUA_MINSTACK)%nat = true /\
  if (slots ex_reply <=? LUA_MINSTACK)%nat then exists v, getCallback_push_reply LUA_MINSTACK ex_reply = Ret v /\ shows ex_reply v
  else getCallback_push_reply LUA_MINSTACK ex_reply = Undef.
Proof. split; [done|]. apply (reply_table LUA_MINSTACK ex_reply). cbn. lia. Defined.

(** Four levels of arrays with a number inside, and five. *)
Fixpoint nested (n : nat) : reply := match n with O => RInt 7 | S n => RArr [nested n] end.
Example reply_too_deep :
  (match getCallback_push_reply LUA_MINSTACK (nested 4) with Ret _ => true | _ => false end) = true /\
  getCallback_push_reply LUA_MINSTACK (nested 5) = Undef.
Proof. by vm_compute. Qed.

(** ** The commands with many arguments *)

Section Args.
Context {F : LuaFmt} {E : Type} {H : Hiredis E} {A : ArrayMalloc} {AOk : ArrayMallocOk A}.
Implicit Types s : st E.

Definition arg_ptr (x : bytes) : cell := Ptr (Some x).
Definition arg_len (x : bytes) : cell := Len (Z.of_nat (length x)).

(** The static arrays are live and of size redis_argc; the first elements are the arguments [xs]. *)
Definition args_are (xs : list bytes) s : Prop :=
  exists r1 r2,
    redis_argv s <> 0 /\ redis_argvlen s <> 0 /\ redis_argv s <> redis_argvlen s /\
    arrays s !! redis_argv s = Some (map arg_ptr xs ++ r1) /\ arrays s !! redis_argvlen s = Some (map arg_len xs ++ r2) /\
    Z.of_nat (length xs + length r1) = redis_argc s /\ length r2 = length r1.

(** Between calls: no arrays yet, or two live ones. *)
Definition args_ok s : Prop :=
  (redis_argv s = 0 /\ redis_argvlen s = 0 /\ redis_argc s = 0) \/ args_are [] s.

Lemma new_array_ok argc s p a : 0 < argc -> new_array argc s = (p, a) ->
  p <> 0 /\ arrays s !! p = None /\ a = <[p := replicate (Z.to_nat argc) Uninit]> (arrays s).
Proof.
  intros Ha. unfold new_array. destruct (array_enough (arrays s) argc Ha) as [q Hq]. rewrite Hq. intros [= <- <-].
  by destruct (array_fresh _ _ _ Hq).
Qed.

Lemma drop_args_ok s : args_ok s ->
  exists a, drop_args s = Ret (St a (redis_argv s) (redis_argvlen s) 0 (os s)).
Proof.
  destruct s as [a p q n e]. unfold args_ok, args_are, drop_args, drop_array, array_free. cbn.
  intros [(-> & -> & ->)|(r1 & r2 & H1 & H2 & H3 & H4 & H5 & _)]; cbn in *; [by eexists|].
  destruct (Z.eqb_spec p 0); [done|]. cbn. rewrite H4. cbn. destruct (Z.eqb_spec q 0); [done|]. cbn.
  rewrite lookup_delete_ne, H5 by done. by eexists.
Qed.

Lemma grow_args_ok argc s : args_ok s -> 0 < argc ->
  exists s', grow_args argc s = Ret (true, s') /\ args_are [] s' /\ argc <= redis_argc s' /\ os s' = os s.
Proof.
  intros Hs Ha. unfold grow_args. destruct (Z.ltb_spec (redis_argc s) argc) as [Hlt|Hge].
  2:{ exists s. destruct Hs as [(_ & _ & Hn)|Hs]; [lia|done]. }
  destruct (drop_args_ok s Hs) as [a Hd]. rewrite Hd, bind_Ret_l.
  destruct (new_array argc _) as [p a1] eqn:H1. apply new_array_ok in H1 as (Hp & Hpn & ->); [|done].
  destruct (new_array argc _) as [q a2] eqn:H2. apply new_array_ok in H2 as (Hq & Hqn & ->); [|done].
  cbn in *. destruct (Z.eqb_spec p 0), (Z.eqb_spec q 0); try done. cbn [orb].
  eexists. split; [reflexivity|]. split; [|by split]. exists (replicate (Z.to_nat argc) Uninit), (replicate (Z.to_nat argc) Uninit).
  cbn. assert (p <> q) by (intros ->; by rewrite lookup_insert_eq in Hqn).
  rewrite lookup_insert_ne, !lookup_insert_eq, length_replicate by done. split_and!; (done || lia).
Qed.

Lemma put_arg_next xs x s : args_are xs s -> Z.of_nat (length xs) < redis_argc s ->
  exists s', put_arg (Z.of_nat (length xs)) (Some x) s = Ret s' /\ args_are (xs ++ [x]) s' /\
    redis_argc s' = redis_argc s /\ os s' = os s.
Proof.
  intros (r1 & r2 & H1 & H2 & H3 & H4 & H5 & H6 & H7) Hn.
  destruct r1 as [|c1 r1]; [cbn in *; lia|]. destruct r2 as [|c2 r2]; [done|]. cbn [length] in *.
  unfold put_arg, array_store. rewrite H4. cbn [of_option]. rewrite bind_Ret_l, length_app, length_map. cbn [length].
  destruct (Z.leb_spec 0 (Z.of_nat (length xs))); [|lia].
  destruct (Z.ltb_spec (Z.of_nat (length xs)) (Z.of_nat (length xs + S (length r1)))); [|lia]. cbn [andb].
  rewrite bind_Ret_l. cbn [arrays set_arrays redis_argvlen]. rewrite lookup_insert_ne, H5 by done. cbn [of_option].
  rewrite bind_Ret_l, length_app, length_map. cbn [length].
  destruct (Z.ltb_spec (Z.of_nat (length xs)) (Z.of_nat (length xs + S (length r2)))); [|lia]. cbn [andb].
  eexists. split; [reflexivity|]. split; [|done]. exists r1, r2.
  cbn [arrays redis_argv redis_argvlen redis_argc set_arrays os default from_option id].
  rewrite lookup_insert_ne, !lookup_insert_eq, !map_app, <- !app_assoc, Nat2Z.id by done. cbn [map app].
  assert (Hi : forall f (c c' : cell) r, <[length xs := c]> (map f xs ++ c' :: r) = map f xs ++ c :: r).
  { intros f c c' r. rewrite insert_app_r_alt by (rewrite length_map; lia). by rewrite length_map, Nat.sub_diag. }
  rewrite !Hi, length_app. cbn. split_and!; (done || lia).
Qed.

Definition flat (kvs : list (bytes * bytes)) : list bytes := concat (map (fun kv => [fst kv; snd kv]) kvs).

Lemma flat_length kvs : length (flat kvs) = (2 * length kvs)%nat.
Proof. unfold flat. induction kvs as [|kv kvs IH]; [done|]. cbn [map concat length app]. rewrite IH. lia. Qed.

Lemma tolstring_app (front : list lval) x rest i : i = Z.of_nat (length front) + 1 ->
  lua_tolstring (front ++ LStr x :: rest) i = Some x.
Proof.
  intros ->. unfold lua_tolstring, index2adr. destruct (Z.ltb_spec 0 (Z.of_nat (length front) + 1)); [|lia].
  replace (Z.to_nat (Z.of_nat (length front) + 1 - 1)) with (length front) by lia.
  by rewrite list_lookup_middle.
Qed.

Lemma pair_loop_ok src dst kvs : forall front xs i s,
  Z.of_nat (length front) + 1 = 2 * i + src -> Z.of_nat (length xs) = 2 * i + dst ->
  args_are xs s -> Z.of_nat (length xs + 2 * length kvs) <= redis_argc s ->
  exists s', pair_loop (length kvs) (front ++ map LStr (flat kvs)) i src dst s = Ret s' /\
    args_are (xs ++ flat kvs) s' /\ redis_argc s' = redis_argc s /\ os s' = os s.
Proof.
  induction kvs as [|[k v] kvs IH]; intros front xs i s Hf Hx Hs Hn.
  { exists s. cbn. by rewrite app_nil_r. }
  cbn [length] in Hn. cbn [pair_loop length].
  change (flat ((k, v) :: kvs)) with (k :: v :: flat kvs). cbn [map].
  rewrite (tolstring_app front k _ (2 * i + src)) by lia. rewrite <- Hx.
  destruct (put_arg_next xs k s Hs) as (s1 & Hp1 & Hs1 & Hn1 & Ho1); [lia|]. rewrite Hp1, bind_Ret_l.
  replace (Z.of_nat (length xs) + 1) with (Z.of_nat (length (xs ++ [k]))) by (rewrite length_app; cbn; lia).
  change (front ++ LStr k :: LStr v :: map LStr (flat kvs)) with (front ++ [LStr k] ++ LStr v :: map LStr (flat kvs)).
  rewrite (app_assoc front), tolstring_app by (rewrite length_app; cbn; lia).
  destruct (put_arg_next (xs ++ [k]) v s1 Hs1) as (s2 & Hp2 & Hs2 & Hn2 & Ho2); [rewrite length_app; cbn; lia|].
  rewrite Hp2, bind_Ret_l.
  change ((front ++ [LStr k]) ++ LStr v :: map LStr (flat kvs)) with ((front ++ [LStr k]) ++ [LStr v] ++ map LStr (flat kvs)).
  rewrite (app_assoc (front ++ [LStr k])).
  destruct (IH ((front ++ [LStr k]) ++ [LStr v]) ((xs ++ [k]) ++ [v]) (i + 1) s2) as (s3 & Hp3 & Hs3 & Hn3 & Ho3);
    [rewrite !length_app; cbn; lia..|done|rewrite !length_app; cbn; lia|].
  exists s3. rewrite Hp3. rewrite <- !app_assoc in Hs3. split_and!; (done || congruence).
Qed.

Lemma read_args_ok xs : forall r1 r2,
  read_args (length xs) (map arg_ptr xs ++ r1) (map arg_len xs ++ r2) = Ret xs.
Proof.
  induction xs as [|x xs IH]; intros r1 r2; [done|]. cbn.
  rewrite Z.leb_refl, IH, bind_Ret_l, Nat2Z.id. by rewrite firstn_all.
Qed.

Lemma leave_ok xs s : args_are xs s -> args_ok (leave s).
Proof.
  intros (r1 & r2 & H1 & H2 & H3 & H4 & H5 & H6 & H7). right.
  exists (map expire (map arg_ptr xs ++ r1)), (map expire (map arg_len xs ++ r2)). cbn.
  rewrite !lookup_fmap, H4, H5, !length_map, !length_app, !length_map. cbn.
  split_and!; (done || lia).
Qed.

Lemma command_argv_ok c xs s r v e : args_are xs s ->
  rd_command_argv c xs (os s) = (Some r, e) -> getCallback_push_reply LUA_MINSTACK r = Ret v ->
  exists s', command_argv c (Z.of_nat (length xs)) s = Ret ([v], s') /\ args_ok s' /\ os s' = e.
Proof.
  intros Hs He Hv. pose proof Hs as (r1 & r2 & _ & _ & _ & H4 & H5 & _). unfold command_argv, finish.
  rewrite H4, H5. cbn [of_option]. rewrite !bind_Ret_l, Nat2Z.id, read_args_ok, bind_Ret_l, He. cbn [finish].
  rewrite Hv, !bind_Ret_l. eexists. split; [reflexivity|]. split; [|done]. by apply (leave_ok xs (set_os s e)).
Qed.

Lemma half_double (n : nat) : Z.to_nat (2 * Z.of_nat n / 2) = n.
Proof. rewrite Z.mul_comm, Z.div_mul by lia. lia. Qed.
Lemma half_odd (n : nat) : Z.to_nat ((2 * Z.of_nat n + 1) / 2) = n.
Proof. rewrite Z.mul_comm, Z.div_add_l by lia. change (1 / 2) with 0. lia. Qed.

Lemma lmset_ok c kvs s r v e : args_ok s -> c <> 0 ->
  rd_command_argv c (MSET :: flat kvs) (os s) = (Some r, e) -> getCallback_push_reply LUA_MINSTACK r = Ret v ->
  exists s', lmset (LLight c :: map LStr (flat kvs)) s = Ret ([v], s') /\ args_ok s' /\ os s' = e.
Proof.
  intros Hs Hc He Hv. unfold lmset. set (L := LLight c :: map LStr (flat kvs)). change (lua_touserdata L 1) with c.
  destruct (Z.eqb_spec c 0); [done|].
  assert (Htop : lua_gettop L = 2 * Z.of_nat (length kvs) + 1)
    by (unfold lua_gettop, L; cbn [length]; rewrite length_map, flat_length; lia).
  rewrite Htop. destruct (grow_args_ok (2 * Z.of_nat (length kvs) + 1) s Hs) as (s1 & Hg & Hs1 & Hn1 & Ho1); [lia|].
  rewrite Hg, bind_Ret_l. destruct (put_arg_next [] MSET s1 Hs1) as (s2 & Hp & Hs2 & Hn2 & Ho2); [cbn; lia|].
  change (Z.of_nat (length ([] : list bytes))) with 0 in Hp. rewrite Hp, bind_Ret_l.
  rewrite Z.add_simpl_r, half_double.
  destruct (pair_loop_ok 2 1 kvs [LLight c] [MSET] 0 s2) as (s3 & Hl & Hs3 & _ & Ho3); [done|done|done|cbn [length]; lia|].
  cbn [app] in Hl. fold L in Hl. rewrite Hl, bind_Ret_l.
  replace (2 * Z.of_nat (length kvs) + 1) with (Z.of_nat (length ([MSET] ++ flat kvs)))
    by (rewrite length_app, flat_length; cbn [length]; lia).
  apply (command_argv_ok c _ s3 r v e Hs3); [|done]. by rewrite Ho3, Ho2, Ho1.
Qed.

Lemma lhmset_ok c key kvs s r v e : args_ok s -> c <> 0 ->
  rd_command_argv c (HMSET :: key :: flat kvs) (os s) = (Some r, e) -> getCallback_push_reply LUA_MINSTACK r = Ret v ->
  exists s', lhmset (LLight c :: LStr key :: map LStr (flat kvs)) s = Ret ([v], s') /\ args_ok s' /\ os s' = e.
Proof.
  intros Hs Hc He Hv. unfold lhmset. set (L := LLight c :: LStr key :: map LStr (flat kvs)).
  change (lua_touserdata L 1) with c. destruct (Z.eqb_spec c 0); [done|].
  assert (Htop : lua_gettop L = 2 * Z.of_nat (length kvs) + 1 + 1)
    by (unfold lua_gettop, L; cbn [length]; rewrite length_map, flat_length; lia).
  rewrite Htop. replace ((2 * Z.of_nat (length kvs) + 1 + 1) mod 2) with 0
    by (replace (2 * Z.of_nat (length kvs) + 1 + 1) with ((Z.of_nat (length kvs) + 1) * 2) by lia; by rewrite Z.mod_mul).
  cbn [Z.eqb negb].
  destruct (grow_args_ok (2 * Z.of_nat (length kvs) + 1 + 1) s Hs) as (s1 & Hg & Hs1 & Hn1 & Ho1); [lia|].
  rewrite Hg, bind_Ret_l. change (lua_tolstring L 2) with (Some key).
  destruct (put_arg_next [] HMSET s1 Hs1) as (s2 & Hp & Hs2 & Hn2 & Ho2); [cbn; lia|].
  change (Z.of_nat (length ([] : list bytes))) with 0 in Hp. cbv iota. rewrite Hp, bind_Ret_l.
  destruct (put_arg_next [HMSET] key s2 Hs2) as (s3 & Hp3 & Hs3 & Hn3 & Ho3); [cbn [length]; lia|].
  change (Z.of_nat (length [HMSET])) with 1 in Hp3. rewrite Hp3, bind_Ret_l, Z.add_simpl_r, half_odd.
  destruct (pair_loop_ok 3 2 kvs [LLight c; LStr key] [HMSET; key] 0 s3) as (s4 & Hl & Hs4 & _ & Ho4);
    [done|done|done|cbn [length]; lia|].
  cbn [app] in Hl. fold L in Hl. rewrite Hl, bind_Ret_l.
  replace (2 * Z.of_nat (length kvs) + 1 + 1) with (Z.of_nat (length ([HMSET; key] ++ flat kvs)))
    by (rewrite length_app, flat_length; cbn [length]; lia).
  apply (command_argv_ok c _ s4 r v e Hs4); [|done]. by rewrite Ho4, Ho3, Ho2, Ho1.
Qed.
End Args.

(** C30.  MSET and HMSET send exactly the command of their arguments, however many
    there are and whatever earlier calls left in the static arrays: the
    command's name, the key of HMSET, then keys and values in order, with the
    lengths of the Lua strings.  The reply is returned, and the arrays are
    ready for the next call. *)
Theorem mset_command {F : LuaFmt} {E : Type} {H : Hiredis E} {A : ArrayMalloc} {AOk : ArrayMallocOk A} c kvs (s : st E) :
  args_ok s -> c <> 0 ->
  (forall r v e, rd_command_argv c (MSET :: flat kvs) (os s) = (Some r, e) -> getCallback_push_reply LUA_MINSTACK r = Ret v ->
    exists s', lmset (LLight c :: map LStr (flat kvs)) s = Ret ([v], s') /\ args_ok s' /\ os s' = e) /\
  (forall key r v e, rd_command_argv c (HMSET :: key :: flat kvs) (os s) = (Some r, e) -> getCallback_push_reply LUA_MINSTACK r = Ret v ->
    exists s', lhmset (LLight c :: LStr key :: map LStr (flat kvs)) s = Ret ([v], s') /\ args_ok s' /\ os s' = e).
Proof. intros Hs Hc. split; intros; [by eapply lmset_ok|by eapply lhmset_ok]. Qed.

(** A connection that answers with the number of the arguments. *)
Definition ExHiredis : Hiredis (list (list bytes)) :=
  {| rd_connect := fun _ _ e => ((1, true), e); rd_free := fun _ e => e; rd_command := fun _ _ _ e => (None, e);
     rd_command_argv := fun _ args e => (Some (RInt (Z.of_nat (length args))), args :: e) |}.
Definition ExArrays : ArrayMalloc := {| array_malloc := fun h _ => Some (fresh ({[0]} ∪ dom h)) |}.
Definition ExArraysOk : ArrayMallocOk ExArrays.
Proof.
  constructor; [|by eauto]. intros h n p [= <-]. pose proof (is_fresh ({[0]} ∪ dom h)) as Hf. split.
  - intros H0. apply Hf. set_solver.
  - apply not_elem_of_dom. set_solver.
Qed.

Lemma mset_command_witness :
  (forall r v e, @rd_command_argv _ ExHiredis 1 (MSET :: flat [([97], [98])]) [] = (Some r, e) -> getCallback_push_reply LUA_MINSTACK r = Ret v ->
    exists s', @lmset NoFmt _ ExHiredis ExArrays (LLight 1 :: map LStr (flat [([97], [98])])) (St ∅ 0 0 0 []) = Ret ([v], s') /\
      args_ok s' /\ os s' = e) /\
  (forall key r v e, @rd_command_argv _ ExHiredis 1 (HMSET :: key :: flat [([97], [98])]) [] = (Some r, e) ->
    getCallback_push_reply LUA_MINSTACK r = Ret v ->
    exists s', @lhmset NoFmt _ ExHiredis ExArrays (LLight 1 :: LStr key :: map LStr (flat [([97], [98])])) (St ∅ 0 0 0 [])
      = Ret ([v], s') /\ args_ok s' /\ os s' = e).
Proof.
  apply (@mset_command NoFmt _ ExHiredis ExArrays ExArraysOk 1 [([97], [98])] (St ∅ 0 0 0 [])).
  - left. repeat split.
  - discriminate.
Defined.

(** ** Edges *)

(** A key without a value: the last pointer of the command was never stored. *)
Example mset_odd_undefined : @lmset NoFmt _ ExHiredis ExArrays [LLight 1; LStr [97]] (St ∅ 0 0 0 []) = Undef.
Proof. vm_compute. reflexivity. Qed.

(** The score passes through a float: 2^24 + 1 is sent as 2^24. *)
Example zadd_score_rounded : to_float (d_of_Z 16777217) = to_float (d_of_Z 16777216).
Proof. vm_compute. reflexivity. Qed.
