(* ===== verification/Mysql.v ===== *)
(** * Mysql: the MySQL client for scripts

    Source: src/src/mysql/lmysql.cc.  The calls of the connector are the class [MysqlApi]; a
    connection is the pointer a script holds as light userdata, and a call with NULL is
    undefined where the module passes it on.  A result set is its columns and its rows. *)
From S2P Require Import Prelude Fmt Mem Lua LuaStack.
Local Open Scope Z_scope.

(** The types of columns (mysql_com.h). *)
Definition FIELD_TYPE_FLOAT : Z := 4.
Definition FIELD_TYPE_DOUBLE : Z := 5.
Definition FIELD_TYPE_TINY_BLOB : Z := 249.
Definition FIELD_TYPE_MEDIUM_BLOB : Z := 250.
Definition FIELD_TYPE_LONG_BLOB : Z := 251.
Definition FIELD_TYPE_BLOB : Z := 252.
Definition FIELD_TYPE_VAR_STRING : Z := 253.
Definition FIELD_TYPE_STRING : Z := 254.
Definition MYSQL_OPT_RECONNECT : Z := 20.

Record field := Field { f_name : bytes; f_type : Z }.
(** [None] for the fields: mysql_fetch_fields gives NULL; a value that is NULL is [None]. *)
Record result := Result { r_fields : option (list field); r_rows : list (list (option bytes)) }.

Class MysqlApi (W : Type) := {
  my_init : W -> Z * W;
  my_options : Z -> Z -> bool -> W -> W;
  my_real_connect : Z -> bytes -> bytes -> bytes -> bytes -> Z -> W -> Z * W;   (* handle, host, user, password, database, flags *)
  my_error : Z -> W -> bytes;
  my_query : Z -> bytes -> W -> Z * W;
  my_affected_rows : Z -> W -> Z;
  my_store_result : Z -> W -> option result * W;
  my_next_result : Z -> W -> Z * W;
  my_escape : Z -> W -> bytes -> bytes;      (* the text without its terminator *)
  my_close : Z -> W -> W;
  c_atof : bytes -> lnumber;
}.

(** The static buffer of escape, the heap and the connector. *)
Record st (W : Type) := St { hp : heap; escape_buf : Z; escape_buf_len : Z; world : W }.
Arguments St {W}. Arguments hp {W}. Arguments escape_buf {W}. Arguments escape_buf_len {W}. Arguments world {W}.

Section Mysql.
Context {F : LuaFmt} {W : Type} {MY : MysqlApi W} {A : Allocator}.
Implicit Types s : st W.

Definition set_world s (w : W) : st W := St (hp s) (escape_buf s) (escape_buf_len s) w.
Definition set_escape s (h : heap) (p n : Z) : st W := St h p n (world s).

(** lua_tostring: a C string. *)
Definition arg_str (L : list lval) (i : Z) : res bytes := t ← of_option (lua_tolstring L i); Ret (cstr t).

Definition lconnect (L : list lval) s : res (list lval * st W) :=
  if (lua_gettop L =? 4) && lua_isstring L 1 && lua_isstring L 2 && lua_isstring L 3 && lua_isstring L 4 then
    host ← arg_str L 1;
    dbname ← arg_str L 2;
    user ← arg_str L 3;
    passwd ← arg_str L 4;
    let '(conn, w) := my_init (world s) in
    if conn =? NULL then Undef
    else
      let w := my_options conn MYSQL_OPT_RECONNECT true w in
      let '(conn, w) := my_real_connect conn host user passwd dbname MYSQL_OPT_RECONNECT w in
      if conn =? NULL then Ret ([], set_world s w)
      else
        let '(_, w) := my_query conn (lit "set names utf8") w in
        Ret ([LLight conn], set_world s w)
  else Ret ([], s).

Definition lcommand (L : list lval) s : res (list lval * st W) :=
  if (lua_gettop L =? 2) && lua_isstring L 2 then
    let conn := lua_touserdata L 1 in
    if conn =? NULL then Ret ([lua_pushboolean false], s)
    else
      let '(_, w) := my_query conn (lit "set names utf8") (world s) in
      command ← arg_str L 2;
      let '(r, w) := my_query conn command w in
      if negb (r =? 0) then Ret ([lua_pushboolean false; lua_pushstring (my_error conn w)], set_world s w)
      else Ret ([lua_pushboolean true], set_world s w)
  else Ret ([lua_pushboolean false], s).

(** The count is a 64-bit unsigned number. *)
Definition laffectedrows (L : list lval) s : res (list lval * st W) :=
  if lua_gettop L =? 1 then
    let conn := lua_touserdata L 1 in
    if conn =? NULL then Undef else Ret ([lua_pushnumber (d_of_Z (my_affected_rows conn (world s)))], s)
  else Ret ([lua_pushnumber (d_of_Z 0)], s).

(** ** select *)

Definition is_text (t : Z) : bool :=
  (t =? FIELD_TYPE_STRING) || (t =? FIELD_TYPE_VAR_STRING) || (t =? FIELD_TYPE_TINY_BLOB) || (t =? FIELD_TYPE_MEDIUM_BLOB)
  || (t =? FIELD_TYPE_LONG_BLOB) || (t =? FIELD_TYPE_BLOB).
Definition column_value (t : Z) (v : option bytes) : res lval :=
  match v with
  | None => Ret LNil
  | Some x =>
      if is_text t then Ret (lua_pushlstring x)
      else if (t =? FIELD_TYPE_FLOAT) || (t =? FIELD_TYPE_DOUBLE) then Ret (lua_pushnumber (c_atof (cstr x)))
      else n ← atoi (cstr x); Ret (lua_pushnumber (d_of_Z n))
  end.

(** The loop over the columns; a row has as many values as there are. *)
Fixpoint row_table (fields : list field) (row : list (option bytes)) (t : list (lval * tree)) : res (list (lval * tree)) :=
  match fields, row with
  | [], _ => Ret t
  | f :: fields, v :: row =>
      x ← column_value (f_type f) v;
      row_table fields row (settable (lua_pushstring (f_name f)) (Val x) t)
  | _ :: _, [] => Undef
  end.

Fixpoint rows_loop (fields : list field) (rows : list (list (option bytes))) (index : Z) (t : list (lval * tree))
    : res (Z * list (lval * tree)) :=
  match rows with
  | [] => Ret (index, t)
  | row :: rows =>
      r ← row_table fields row [];
      n ← sint (index + 1);
      rows_loop fields rows n (settable (lua_pushnumber (d_of_Z index)) (Tab r) t)
  end.

(** The loop over the result sets. *)
Fixpoint results_loop (fuel : nat) (conn : Z) (result : option result) (index : Z) (t : list (lval * tree)) (w : W)
    : res (list (lval * tree) * W) :=
  match fuel with
  | O => NoFuel
  | S fuel =>
      match result with
      | None => Ret (t, w)
      | Some r =>
          match r_fields r with
          | None => Ret (t, w)
          | Some fields =>
              '(index, t) ← rows_loop fields (r_rows r) index t;
              let '(more, w) := my_next_result conn w in
              let '(result, w) := if more =? 0 then my_store_result conn w else (None, w) in
              results_loop fuel conn result index t w
          end
      end
  end.

Definition lselect (fuel : nat) (L : list lval) s : res (list tree * st W) :=
  if (lua_gettop L =? 2) && lua_isstring L 2 then
    let conn := lua_touserdata L 1 in
    if conn =? NULL then Ret ([], s)
    else
      command ← arg_str L 2;
      let '(_, w) := my_query conn (lit "set names utf8") (world s) in
      let '(_, w) := my_query conn command w in
      let '(result, w) := my_store_result conn w in
      match result with
      | None => Ret ([], set_world s w)
      | Some _ =>
          '(t, w) ← results_loop fuel conn result 1 [] w;
          Ret ([Tab t], set_world s w)
      end
  else Ret ([], s).

(** ** escape *)

(** The connector writes into the block at [to]; beyond its end is undefined. *)
Definition write_block (h : heap) (to : Z) (v : bytes) : res heap :=
  match h_blk h !! to with
  | Some n =>
      if Z.of_nat (length v) <=? n then m ← of_option (mstore (h_mem h) to v); Ret (Heap m (h_blk h)) else Undef
  | None => Undef
  end.

(** A buffer of at least twice the length of the text. *)
Definition grow_escape (str_len : Z) s : res (bool * st W) :=
  '(grown, (h, p, len)) ← regrow (hp s) (escape_buf s) (escape_buf_len s) (u64 (str_len * 2));
  Ret (grown, set_escape s h p len).

Definition lrealescapestring (L : list lval) s : res (list lval * st W) :=
  if lua_gettop L =? 2 then
    let conn := lua_touserdata L 1 in
    if conn =? NULL then Ret ([], s)
    else
      let str := default [] (lua_tolstring L 2) in
      let str_len := Z.of_nat (length str) in
      if str_len =? 0 then Ret ([lua_pushstring []], s)
      else
        '(grown, s) ← grow_escape str_len s;
        if negb grown then Ret ([], s)
        else
          let text := my_escape conn (world s) str in
          h ← write_block (hp s) (escape_buf s) (text ++ [0]);
          Ret ([lua_pushlstring text], set_escape s h (escape_buf s) (escape_buf_len s))
  else Ret ([], s).

Definition lclose (L : list lval) s : res (list lval * st W) :=
  if lua_gettop L =? 1 then
    let conn := lua_touserdata L 1 in
    if conn =? NULL then Ret ([], s)
    else Ret ([lua_pushboolean true], set_world s (my_close conn (world s)))
  else Ret ([], s).
End Mysql.

(** ** select numbers the rows of all result sets *)

Section Select.
Context {F : LuaFmt} {W : Type} {MY : MysqlApi W} {A : Allocator}.
Implicit Types s : st W.

(** The result sets a connection still has: the current one, and those that
    mysql_next_result announces with 0. *)
Inductive delivers (conn : Z) : W -> option result -> list (list field * list (list (option bytes))) -> W -> Prop :=
| delivers_none w : delivers conn w None [] w
| delivers_last w w1 r fields rows : my_next_result conn w = (r, w1) -> r <> 0 ->
    delivers conn w (Some (Result (Some fields) rows)) [(fields, rows)] w1
| delivers_more w w1 w2 w3 fields rows res l : my_next_result conn w = (0, w1) -> my_store_result conn w1 = (res, w2) ->
    delivers conn w2 res l w3 -> delivers conn w (Some (Result (Some fields) rows)) ((fields, rows) :: l) w3.

(** The value a script gets for a column; NULL has none, a whole number must be an int. *)
Definition atoi_val (t : bytes) : Z := match atoi t with Ret n => n | _ => 0 end.
Definition column_view (f : field) (v : option bytes) : option lval :=
  t ← v;
  Some (if is_text (f_type f) then LStr t
        else if (f_type f =? FIELD_TYPE_FLOAT) || (f_type f =? FIELD_TYPE_DOUBLE) then LNum (c_atof (cstr t))
        else LNum (d_of_Z (atoi_val (cstr t)))).
Definition column_ok (e : field * option bytes) : Prop :=
  match e.2 with
  | Some t => is_text (f_type e.1) = true \/ f_type e.1 = FIELD_TYPE_FLOAT \/ f_type e.1 = FIELD_TYPE_DOUBLE \/
      exists n, atoi (cstr t) = Ret n
  | None => True
  end.

(** The entries of the table of a row, of a result set, and of all of them. *)
Definition row_view (fields : list field) (row : list (option bytes)) : list (lval * tree) :=
  omap (fun e => x ← column_view e.1 e.2; Some (LStr (cstr (f_name e.1)), Val x)) (zip fields row).
Definition sets_view (l : list (list field * list (list (option bytes)))) : list (list (lval * tree)) :=
  concat (map (fun '(fields, rows) => map (row_view fields) rows) l).
Definition numbered (i : Z) (l : list (list (lval * tree))) : list (lval * tree) :=
  zip_with (fun i t => (LNum (d_of_Z i), Tab t)) (seqZ i (Z.of_nat (length l))) l.

Definition row_ok (fields : list field) (row : list (option bytes)) : Prop :=
  length row = length fields /\ Forall column_ok (zip fields row).
Definition set_ok (e : list field * list (list (option bytes))) : Prop :=
  NoDup (map (fun f => cstr (f_name f)) e.1) /\ Forall (row_ok e.1) e.2.

Lemma column_value_ok f v : column_ok (f, v) -> column_value (f_type f) v = Ret (default LNil (column_view f v)).
Proof.
  destruct v as [t|]; [|done]. unfold column_ok, column_value, column_view. cbn [fst snd]. cbn [mbind option_bind default from_option].
  destruct (is_text (f_type f)); [done|].
  destruct (Z.eqb_spec (f_type f) FIELD_TYPE_FLOAT); [done|]. destruct (Z.eqb_spec (f_type f) FIELD_TYPE_DOUBLE); [done|].
  cbn [orb]. intros [?|[?|[?|(z & Hz)]]]; try done. unfold atoi_val. by rewrite Hz.
Qed.

Lemma settable_view k x t : tree_get k t = None -> (forall v, x = Some v -> v <> LNil) ->
  settable k (Val (default LNil x)) t = t ++ match x with Some v => [(k, Val v)] | None => [] end.
Proof.
  intros Hk Hx. destruct x as [v|]; cbn [default from_option].
  - apply settable_new; [done|]. intros [= ->]. by destruct (Hx LNil).
  - rewrite app_nil_r. cbn. induction t as [|[y w] t IH]; [done|]. cbn in *. destruct (decide (y = k)); [done|]. by rewrite IH.
Qed.
Lemma column_view_not_nil f v x : column_view f v = Some x -> x <> LNil.
Proof. destruct v as [t|]; [|done]. cbn. intros [= <-]. by repeat destr_if. Qed.

Lemma row_table_ok fields : forall row t, row_ok fields row -> NoDup (map (fun f => cstr (f_name f)) fields) ->
  (forall f, f ∈ fields -> LStr (cstr (f_name f)) ∉ map fst t) -> row_table fields row t = Ret (t ++ row_view fields row).
Proof.
  induction fields as [|f fields IH]; intros [|v row] t [Hlen Hrow] Hnd Hfresh; try done; cbn [row_table].
  - by rewrite app_nil_r.
  - cbn [zip zip_with] in *. apply Forall_cons in Hrow as [Hv Hrow]. cbn [map] in Hnd. apply NoDup_cons in Hnd as [Hn Hnd].
    rewrite column_value_ok, bind_Ret_l by done. unfold lua_pushstring.
    rewrite settable_view; [|apply tree_get_fresh, Hfresh; set_solver|apply column_view_not_nil].
    rewrite IH; [|split; [by injection Hlen|done]|done|].
    + rewrite <- app_assoc. do 2 f_equal. unfold row_view. cbn [zip zip_with omap list_omap fst snd]. by destruct (column_view f v).
    + intros g Hg. rewrite map_app, not_elem_of_app. split; [apply Hfresh; set_solver|].
      destruct (column_view f v) as [x|]; cbn; [|set_solver]. rewrite list_elem_of_singleton. intros [= Heq].
      apply Hn. rewrite <- Heq. apply list_elem_of_fmap. by exists g.
Qed.

Lemma numbered_app i a b : numbered i (a ++ b) = numbered i a ++ numbered (i + Z.of_nat (length a)) b.
Proof.
  unfold numbered. rewrite length_app, Nat2Z.inj_add, seqZ_app by lia. rewrite zip_with_app; [done|]. rewrite length_seqZ. lia.
Qed.
Lemma numbered_keys i l k : k ∈ map fst (numbered i l) -> exists j, k = LNum (d_of_Z j) /\ i <= j < i + Z.of_nat (length l).
Proof.
  unfold numbered. intros ([k' v] & -> & Hin)%list_elem_of_fmap. cbn.
  apply elem_of_zip_with in Hin as (j & t & [= -> ->] & Hj & _). apply elem_of_seqZ in Hj. by exists j.
Qed.

Lemma rows_loop_ok fields rows : NoDup (map (fun f => cstr (f_name f)) fields) -> forall i t, Forall (row_ok fields) rows ->
  0 <= i -> i + Z.of_nat (length rows) <= INT_MAX -> (forall k, k ∈ map fst t -> exists j, k = LNum (d_of_Z j) /\ 0 <= j < i) ->
  rows_loop fields rows i t = Ret (i + Z.of_nat (length rows), t ++ numbered i (map (row_view fields) rows)).
Proof.
  intros Hnd. induction rows as [|row rows IH]; intros i t Hrows Hi Hb Ht; cbn [rows_loop length map].
  - by rewrite app_nil_r, Z.add_0_r.
  - apply Forall_cons in Hrows as [Hrow Hrows]. cbn [length] in Hb. unfold INT_MAX in *.
    rewrite (row_table_ok fields row []), bind_Ret_l by (done || set_solver). sint_step. unfold lua_pushnumber.
    rewrite settable_new; [|apply tree_get_fresh; intros (j & [= Hj] & Hlt)%Ht; apply d_of_Z_inj in Hj; lia|done].
    rewrite IH; [|done|lia|lia|].
    + rewrite <- app_assoc. f_equal. f_equal; [lia|]. f_equal. unfold numbered. cbn [length app].
      rewrite (seqZ_cons i) by lia. cbn [zip_with]. do 3 f_equal; lia.
    + intros k. rewrite map_app, elem_of_app. intros [Hk|Hk]; [destruct (Ht k Hk) as (j & -> & Hj); exists j; split; [done|lia]|].
      cbn in Hk. apply list_elem_of_singleton in Hk as ->. exists i. split; [done|lia].
Qed.

Lemma sets_view_cons fields rows l : sets_view ((fields, rows) :: l) = map (row_view fields) rows ++ sets_view l.
Proof. done. Qed.

Lemma results_loop_ok conn l : forall w res w' fuel i t, delivers conn w res l w' -> Forall set_ok l -> (length l < fuel)%nat ->
  0 <= i -> i + Z.of_nat (length (sets_view l)) <= INT_MAX -> (forall k, k ∈ map fst t -> exists j, k = LNum (d_of_Z j) /\ 0 <= j < i) ->
  results_loop fuel conn res i t w = Ret (t ++ numbered i (sets_view l), w').
Proof.
  induction l as [|[fields rows] l IH]; intros w res w' fuel i t Hd Hok Hf Hi Hb Ht; (destruct fuel as [|fuel]; [cbn in Hf; lia|]).
  { inversion Hd; subst. cbn. by rewrite app_nil_r. }
  apply Forall_cons in Hok as [[Hnd Hrows] Hok]. cbn [fst snd] in *. rewrite sets_view_cons in *. rewrite length_app, length_map in Hb. cbn [length] in Hf.
  inversion Hd as [|? w1 r ? ? Hnext Hr|? w1 w2 ? ? ? res' ? Hnext Hstore Hd']; subst; cbn [results_loop r_fields r_rows];
    (rewrite rows_loop_ok, bind_Ret_l by (done || lia)); rewrite Hnext.
  - destruct (Z.eqb_spec r 0); [done|]. destruct fuel as [|fuel]; [lia|]. cbn [results_loop sets_view map concat]. by rewrite app_nil_r.
  - change (0 =? 0) with true. cbv iota. rewrite Hstore. rewrite (IH w2 res' w'); [|done|done|lia|lia|lia|].
    + by rewrite <- app_assoc, numbered_app, length_map.
    + intros k. rewrite map_app, elem_of_app. intros [Hk|Hk].
      * destruct (Ht k Hk) as (j & -> & Hj). exists j. split; [done|lia].
      * apply numbered_keys in Hk as (j & -> & Hj). rewrite length_map in Hj. exists j. split; [done|lia].
Qed.

(** C22. select returns the rows of all result sets of a query in one table, numbered from 1
    in the order they are delivered, each a table of its columns that are not NULL under
    their names: texts and blobs with any bytes, float and double through atof, all other
    types through atoi.  It ends when the sets do.  The columns of a set have distinct names,
    the values read by atoi are ints (date_column), and the rows can be counted in an int. *)
Theorem select_rows fuel conn command s r1 w1 r2 w2 res w3 l w4 :
  conn <> NULL -> my_query conn (lit "set names utf8") (world s) = (r1, w1) ->
  my_query conn (cstr command) w1 = (r2, w2) -> my_store_result conn w2 = (Some res, w3) -> delivers conn w3 (Some res) l w4 ->
  Forall set_ok l -> (length l < fuel)%nat -> 1 + Z.of_nat (length (sets_view l)) <= INT_MAX ->
  lselect fuel [LLight conn; LStr command] s = Ret ([Tab (numbered 1 (sets_view l))], set_world s w4).
Proof.
  intros Hc Hq1 Hq2 Hst Hd Hok Hf Hb. unfold lselect, arg_str.
  change ((lua_gettop [LLight conn; LStr command] =? 2) && lua_isstring [LLight conn; LStr command] 2) with true. cbv iota.
  change (lua_touserdata [LLight conn; LStr command] 1) with conn. destruct (Z.eqb_spec conn NULL); [done|].
  change (lua_tolstring [LLight conn; LStr command] 2) with (Some command). cbn [of_option]. rewrite !bind_Ret_l, Hq1, Hq2, Hst.
  by rewrite (results_loop_ok conn l w3 (Some res) w4) by (done || lia || set_solver).
Qed.
End Select.

(** ** escape and the size of its buffer *)

Section Escape.
Context {F : LuaFmt} {W : Type} {MY : MysqlApi W} {A : Allocator} {AOk : AllocatorOk A}.
Implicit Types s : st W.

Definition escape_ok s : Prop := buffer_ok (hp s) (escape_buf s) (escape_buf_len s).

Lemma write_block_ok h p n v : heap_ok h -> h_blk h !! p = Some n -> Z.of_nat (length v) <= n ->
  exists m, write_block h p v = Ret (Heap m (h_blk h)) /\ heap_ok (Heap m (h_blk h)).
Proof.
  intros Hh Hp Hn. unfold write_block. rewrite Hp. destruct (Z.leb_spec (Z.of_nat (length v)) n); [|lia].
  destruct (heap_mapped _ Hh _ _ Hp) as [_ Hm]. destruct (mstore_mapped (h_mem h) p v) as [m Hs]; [intros x Hx; apply Hm; lia|].
  rewrite Hs. exists m. split; [done|]. by eapply mstore_heap_ok.
Qed.

(** The buffer afterwards has the old length or twice that of the text, or malloc failed. *)
Lemma grow_escape_ok n s : escape_ok s -> 0 < n < 2 ^ 62 ->
  let grown := room_for (hp s) (escape_buf s) (escape_buf_len s) (2 * n) in
  exists s', grow_escape n s = Ret (grown, s') /\ escape_ok s' /\ world s' = world s /\
    escape_buf_len s' = (if grown then Z.max (escape_buf_len s) (2 * n) else 0) /\
    (grown = true -> h_blk (hp s') !! escape_buf s' = Some (escape_buf_len s')).
Proof.
  intros Hs Hn grown. unfold grow_escape, grown. rewrite wrapU_id by (unfold in_u; lia). rewrite (Z.mul_comm n 2).
  destruct (regrow_ok (hp s) (escape_buf s) (escape_buf_len s) (2 * n) Hs) as (h & p & len & H & Hb & _ & Hlen & Hg); [lia|].
  rewrite H, bind_Ret_l. eexists. split; [done|]. split; [exact Hb|]. split; [done|]. split; [exact Hlen|]. intros Eg. by destruct (Hg Eg).
Qed.

(** C23. escape gives the script the escaped text exactly when the text and its terminator
    fit the static buffer, which is made twice as long as the longest text so far: as the
    connector asks for twice the length and one byte more, a text of which every character is
    escaped makes it write behind the block, unless a longer text came before.  There is no
    result, and no buffer, only when the buffer is too small and malloc has no larger block;
    the buffer stays good for the next call. *)
Theorem escape_spec conn str s :
  conn <> NULL -> escape_ok s -> 0 < Z.of_nat (length str) < 2 ^ 62 ->
  let text := my_escape conn (world s) str in
  let room := Z.max (escape_buf_len s) (2 * Z.of_nat (length str)) in
  let call := lrealescapestring [LLight conn; LStr str] s in
  if room_for (hp s) (escape_buf s) (escape_buf_len s) (2 * Z.of_nat (length str)) then
    if Z.of_nat (length text) <? room then
      exists s', call = Ret ([LStr text], s') /\ escape_ok s' /\ escape_buf_len s' = room /\ world s' = world s
    else call = Undef
  else exists s', call = Ret ([], s') /\ escape_ok s' /\ escape_buf_len s' = 0 /\ world s' = world s.
Proof.
  intros Hc Hs Hn text room. unfold lrealescapestring. change (lua_gettop [LLight conn; LStr str] =? 2) with true. cbv iota.
  change (lua_touserdata [LLight conn; LStr str] 1) with conn. destruct (Z.eqb_spec conn NULL); [done|].
  change (default [] (lua_tolstring [LLight conn; LStr str] 2)) with str. cbv zeta.
  destruct (Z.eqb_spec (Z.of_nat (length str)) 0); [lia|].
  destruct (grow_escape_ok _ s Hs Hn) as (s1 & H1 & Hs1 & Hw & Hlen & Hg). rewrite H1, bind_Ret_l.
  destruct (room_for _ _ _ _); cbn [negb]; [|by exists s1]. specialize (Hg eq_refl) as Hblk. rewrite Hw. fold text. fold room in Hlen.
  destruct (Z.ltb_spec (Z.of_nat (length text)) room).
  - destruct Hs1 as (Hh1 & Hl1 & _).
    destruct (write_block_ok (hp s1) (escape_buf s1) (escape_buf_len s1) (text ++ [0]) Hh1 Hblk) as (m & Hm & Hhm);
      [rewrite length_app; cbn [length]; lia|]. rewrite Hm, bind_Ret_l.
    eexists. split; [done|]. split; [by split_and!; [..|right]|]. by split.
  - unfold write_block. rewrite Hblk, Hlen, length_app. cbn [length].
    by destruct (Z.leb_spec (Z.of_nat (length text + 1)) room); [lia|].
Qed.
End Escape.

(** ** Examples *)

(** A connector with the results still to come, whose escape doubles quotes. *)
#[export] Instance ExMysql : MysqlApi (list result) := {|
  my_init := fun w => (1, w); my_options := fun _ _ _ w => w; my_real_connect := fun c _ _ _ _ _ w => (c, w);
  my_error := fun _ _ => []; my_query := fun _ _ w => (0, w); my_affected_rows := fun _ _ => 0;
  my_store_result := fun _ w => (head w, tail w); my_next_result := fun _ w => (match w with [] => -1 | _ => 0 end, w);
  my_escape := fun _ _ t => concat (map (fun c => if c =? 39 then [92; 39] else [c]) t);
  my_close := fun _ w => w; c_atof := fun _ => d_of_Z 0 |}.

Definition ex_fields : list field := [Field (lit "name") 253; Field (lit "level") 3].
Definition ex_rows : list (list (option bytes)) := [[Some (lit "bob"); Some (lit "12")]; [None; Some (lit "-3")]].
Definition ex_mysql : st (list result) := St (Heap ∅ ∅) 0 0 [Result (Some ex_fields) ex_rows].

Lemma select_rows_witness :
  lselect (F := NoFmt) 2 [LLight 1; LStr (lit "select name, level from t")] ex_mysql
    = Ret ([Tab (numbered 1 (sets_view [(ex_fields, ex_rows)]))], set_world ex_mysql []).
Proof.
  apply (@select_rows NoFmt (list result) ExMysql 2 1 (lit "select name, level from t") ex_mysql 0 [Result (Some ex_fields) ex_rows]
    0 [Result (Some ex_fields) ex_rows] (Result (Some ex_fields) ex_rows) [] [(ex_fields, ex_rows)] []); try done.
  - by apply (delivers_last 1 [] [] (-1)).
  - constructor; [|constructor]. split; cbn [fst snd].
    + apply (bool_decide_unpack _). by vm_compute.
    + repeat (apply Forall_cons; split); try apply List.Forall_nil; (split; [done|]);
        repeat (apply Forall_cons; split); try apply List.Forall_nil; unfold column_ok; cbn; try done; try (by left); right; right; right; by eexists.
  - cbn. lia.
Defined.

Lemma escape_spec_witness :
  exists s', @lrealescapestring NoFmt (list result) ExMysql Bump [LLight 1; LStr (lit "it's")] ex_mysql
      = Ret ([LStr (my_escape 1 (world ex_mysql) (lit "it's"))], s') /\
    escape_ok s' /\ escape_buf_len s' = Z.max (escape_buf_len ex_mysql) (2 * Z.of_nat (length (lit "it's"))) /\ world s' = world ex_mysql.
Proof.
  apply (@escape_spec NoFmt (list result) ExMysql Bump Bump_ok 1 (lit "it's") ex_mysql); [done| |cbn; lia].
  split_and!; [split; intros; cbn in *; by rewrite lookup_empty in *|cbn; lia|by left].
Defined.

(** Two quotes need five bytes and get four; after a longer text they fit. *)
Example escape_overflow :
  @lrealescapestring NoFmt (list result) ExMysql Bump [LLight 1; LStr (lit "''")] ex_mysql = Undef /\
  ('(_, s) ← @lrealescapestring NoFmt (list result) ExMysql Bump [LLight 1; LStr (lit "abcd")] ex_mysql;
   '(r, _) ← @lrealescapestring NoFmt (list result) ExMysql Bump [LLight 1; LStr (lit "''")] s; Ret r) = Ret [LStr [92; 39; 92; 39]].
Proof. by vm_compute. Qed.

(** A column of another type ends where its digits do, and one beyond an int is undefined. *)
Example date_column : column_value 10 (Some (lit "2014-05-06")) = Ret (LNum (d_of_Z 2014)) /\ column_value 8 (Some (lit "3000000000")) = Undef.
Proof. by vm_compute. Qed.
