(* ===== verification/Sys.v ===== *)
(** * Sys: processes, signals and plain sockets for scripts

    Source: src/src/system/lsystem.cc, src/src/srvmain/lsrvmain.cc and src/src/socket/socket.cc,
    the modules that hand a script's arguments to the system.  The system calls are the class
    [SysOs]; what a fork returns is what it returns in the process that goes on.  Where the
    process ends or becomes another program the result is [Raise]. *)
From S2P Require Import Prelude Fmt Lua CStr.
Local Open Scope Z_scope.

Definition SIGHUP : Z := 1.
Definition SIGINT : Z := 2.
Definition SIGQUIT : Z := 3.
Definition SIGABRT : Z := 6.
Definition SIGPIPE : Z := 13.
Definition SIGTERM : Z := 15.
Definition SIGCHLD : Z := 17.
Definition SIGTTIN : Z := 21.
Definition SIGTTOU : Z := 22.
Inductive handler := SIG_IGN | Handler_sig_int.
Definition F_GETFD : Z := 1.
Definition F_SETFL : Z := 4.
Definition O_NONBLOCK : Z := 2048.

Class SysOs (W : Type) := {
  sy_fork : W -> Z * W;
  sy_getpid : W -> Z * W;
  sy_setsid : W -> Z * W;
  sy_time : W -> Z * W;
  sy_nanosleep : Z -> Z -> W -> W;
  sy_sleep : Z -> W -> Z * W;                    (* unsigned in, unsigned out *)
  sy_waitpid : Z -> Z -> W -> (Z * option Z) * W;   (* the status, if it was stored *)
  sy_errno : W -> Z;
  sy_strerror : Z -> bytes;
  sy_close : Z -> W -> Z * W;
  sy_atexit : W -> W;
  sy_signal : Z -> handler -> W -> W;
  sy_socket : Z -> Z -> Z -> W -> Z * W;
  sy_accept : Z -> W -> Z * W;
  sy_inet_addr : bytes -> option Z;              (* None: INADDR_NONE *)
  sy_gethostbyname : bytes -> W -> option (list Z) * W;
  sy_connect : Z -> Z -> Z -> W -> Z * W;        (* descriptor, address, port *)
  sy_reuseaddr : Z -> W -> W;
  sy_bind : Z -> Z -> W -> Z * W;
  sy_listen : Z -> W -> Z * W;
  sy_recv : Z -> Z -> Z -> W -> Z * W;           (* descriptor, address, size *)
  sy_send : Z -> Z -> Z -> W -> Z * W;
  sy_fcntl : Z -> Z -> Z -> W -> Z * W;
  sy_peer_ip : Z -> W -> bytes;
}.

Section Sys.
Context {F : LuaFmt} {W : Type} {OS : SysOs W} {SC : LuaScript W}.
Implicit Types w : W.

(** ** lsystem.cc *)

Definition int_result (f : W -> Z * W) w : res (list lval * W) :=
  let '(ir, w) := f w in Ret ([lua_pushinteger ir], w).
Definition lfork (L : list lval) w := int_result sy_fork w.
Definition lgetpid (L : list lval) w := int_result sy_getpid w.
Definition lsetsid (L : list lval) w := int_result sy_setsid w.
(** A time_t, as an int. *)
Definition ltime (L : list lval) w : res (list lval * W) :=
  let '(t, w) := sy_time w in Ret ([lua_pushinteger (i32 t)], w).

(** C division truncates; the product fits an int. *)
Definition lsleepmsec (L : list lval) w : res (list lval * W) :=
  if (lua_gettop L =? 1) && lua_isnumber L 1 then
    let t := d2i32 (lua_tonumber L 1) in
    Ret ([], sy_nanosleep (Z.quot t 1000) (Z.rem t 1000 * 1000000) w)
  else Ret ([], w).

(** The result is unsigned and becomes an int. *)
Definition lsleep (L : list lval) w : res (list lval * W) :=
  let '(error, w) := sy_sleep (u32 (i32 (lua_tointeger L 1))) w in Ret ([lua_pushinteger (i32 error)], w).

Definition lwaitpid (L : list lval) w : res (list lval * W) :=
  let pid := i32 (lua_tointeger L 1) in
  let status := i32 (lua_tointeger L 2) in
  let options := i32 (lua_tointeger L 3) in
  let '((pid, st), w) := sy_waitpid pid options w in
  Ret ([lua_pushinteger pid; lua_pushinteger (default status st)], w).

Definition lstrerror (L : list lval) w : res (list lval * W) := Ret ([lua_pushstring (sy_strerror (sy_errno w))], w).
Definition lerrno (L : list lval) w : res (list lval * W) := Ret ([lua_pushinteger (sy_errno w)], w).
Definition lclose (L : list lval) w := int_result (sy_close (d2i32 (lua_tonumber L 1))) w.

(** *** cmd *)

Definition BLANK : Z := 32.
Definition CMD_BUF : Z := 256.
Definition CMD_ARGV : Z := 128.

(** The loop from the character [i] on: words start where a blank is not needed, and the
    blank behind one becomes a zero.  [argv]: offsets into the buffer. *)
Fixpoint cmd_loop (n : nat) (i : Z) (need_blank : bool) (pbuf : bytes) (argv : list Z) : res (bytes * list Z) :=
  match n with
  | O => Ret (pbuf, argv)
  | S n =>
      let c := nth (Z.to_nat i) pbuf 0 in
      if negb need_blank && negb (c =? BLANK) then
        if Z.of_nat (length argv) <? CMD_ARGV then cmd_loop n (i + 1) true pbuf (argv ++ [i]) else Undef
      else if need_blank && (c =? BLANK) then cmd_loop n (i + 1) false (<[Z.to_nat i := 0]> pbuf) argv
      else cmd_loop n (i + 1) need_blank pbuf argv
  end.

(** The command and its arguments, as execvp reads them. *)
Definition cmd_split (str : bytes) : res (bytes * list bytes) :=
  if Z.of_nat (length str) <? CMD_BUF then
    '(pbuf, argv) ← cmd_loop (length str) 0 false (str ++ [0]) [];
    if Z.of_nat (length argv) <? CMD_ARGV then Ret (cstr pbuf, map (fun i => cstr (drop (Z.to_nat i) pbuf)) argv) else Undef
  else Undef.

(** A process goes on with the results of the call, or becomes the command (execvp; when
    that fails it exits). *)
Inductive outcome := Goes (r : list lval) (w : W) | Becomes (cmd : bytes) (argv : list bytes) (w : W).

Definition lcmd (L : list lval) w : res outcome :=
  if lua_isstring L 1 then
    str ← of_option (lua_tolstring L 1);
    '(cmd, argv) ← cmd_split (cstr str);
    let '(pid, w) := sy_fork w in
    if pid =? 0 then Ret (Becomes cmd argv w)
    else
      let w := if 0 <? pid then snd (sy_waitpid pid 0 w) else w in
      Ret (Goes [lua_pushboolean true] w)
  else Ret (Goes [] w).

(** ** lsrvmain.cc

    [s_L]: whether main was called. *)
Definition call_global (name : bytes) w : option W :=
  let f := getglobal w name in if is_nil f then None else Some (fst (pcall f [] w)).
Definition atexit (s_L : bool) w : W := if s_L then default w (call_global (lit "_atexit") w) else w.
(** Without a handler of the script the process ends. *)
Definition sig_int (s_L : bool) w : res W :=
  match (if s_L then call_global (lit "_atint") w else None) with Some w => Ret w | None => Raise end.

Definition lmain (L : list lval) (s_L : bool) w : res (list lval * bool * W) :=
  let w := sy_atexit w in
  let ignored := [SIGHUP; SIGQUIT; SIGTTOU; SIGTTIN; SIGCHLD; SIGTERM; SIGHUP; SIGPIPE; SIGABRT] in
  let w := fold_left (fun w s => sy_signal s SIG_IGN w) ignored w in
  Ret ([lua_pushboolean true], true, sy_signal SIGINT Handler_sig_int w).

(** Any result but 0 ends the process. *)
Definition ldaemon (L : list lval) w : res (list lval * W) :=
  let '(pid, w) := sy_fork w in
  if negb (pid =? 0) then Raise
  else
    let '(_, w) := sy_setsid w in
    let '(pid, w) := sy_fork w in
    if negb (pid =? 0) then Raise else Ret ([lua_pushboolean true], w).

(** ** socket.cc *)

Definition arg_int (L : list lval) (i : Z) : Z := i32 (lua_tointeger L i).
Definition socket_fd (L : list lval) : Z := d2i32 (lua_tonumber L 1).

Definition lgetpeerip (L : list lval) w : res (list lval * W) := Ret ([lua_pushstring (sy_peer_ip (socket_fd L) w)], w).
Definition lsetnonblock (L : list lval) w : res (list lval * W) :=
  let sockfd := socket_fd L in
  let '(flags, w) := sy_fcntl sockfd F_GETFD 0 w in
  int_result (sy_fcntl sockfd F_SETFL (Z.lor flags O_NONBLOCK)) w.
Definition socket_lclose (L : list lval) w := int_result (sy_close (socket_fd L)) w.
Definition lsocket (L : list lval) w := int_result (sy_socket (arg_int L 1) (arg_int L 2) (arg_int L 3)) w.
Definition laccept (L : list lval) w := int_result (sy_accept (arg_int L 1)) w.

Definition port_arg (L : list lval) (i : Z) : Z := u16 (lua_tointeger L i).
(** gethostbyname's result is not tested. *)
Definition lconnect (L : list lval) w : res (list lval * W) :=
  if negb (lua_gettop L =? 3) || negb (lua_isnumber L 1) || negb (lua_isstring L 2) || negb (lua_isnumber L 3) then Ret ([], w)
  else
    let sockfd := arg_int L 1 in
    host ← of_option (lua_tolstring L 2);
    let port := port_arg L 3 in
    '(addr, w) ← match sy_inet_addr (cstr host) with
                 | Some a => Ret (Some a, w)
                 | None =>
                     let '(hostent, w) := sy_gethostbyname (cstr host) w in
                     match hostent with None => Undef | Some [] => Ret (None, w) | Some (a :: _) => Ret (Some a, w) end
                 end;
    match addr with
    | None => Ret ([], w)
    | Some a => int_result (sy_connect sockfd a port) w
    end.

Definition llisten (L : list lval) w : res (list lval * W) :=
  let sockfd := arg_int L 1 in
  let port := port_arg L 3 in
  let '(error, w) := sy_bind sockfd port (sy_reuseaddr sockfd w) in
  if error <? 0 then Ret ([lua_pushinteger error], w) else int_result (sy_listen sockfd) w.

Definition lrecv (L : list lval) w := int_result (sy_recv (arg_int L 1) (lua_touserdata L 2) (u64 (arg_int L 3))) w.
Definition lsend (L : list lval) w := int_result (sy_send (arg_int L 1) (lua_touserdata L 2) (u64 (arg_int L 3))) w.
End Sys.

(** ** The words of a command *)

(** The pieces between blanks, and the words: those that are not empty. *)
Fixpoint pieces (s : bytes) : list bytes :=
  match s with
  | [] => [[]]
  | c :: s => if c =? BLANK then [] :: pieces s else match pieces s with p :: l => (c :: p) :: l | [] => [[c]] end
  end.
Definition words (s : bytes) : list bytes := filter (fun p => p <> []) (pieces s).
Fixpoint blanks (s : bytes) : bytes := match s with c :: s => if c =? BLANK then c :: blanks s else [] | [] => [] end.

(** The text after the loop and the offsets of the words, from the offset [i] on. *)
Fixpoint zap (need_blank : bool) (s : bytes) : bytes :=
  match s with
  | [] => []
  | c :: s => if need_blank then (if c =? BLANK then 0 :: zap false s else c :: zap true s)
              else (if c =? BLANK then c :: zap false s else c :: zap true s)
  end.
Fixpoint starts (need_blank : bool) (i : Z) (s : bytes) : list Z :=
  match s with
  | [] => []
  | c :: s => if c =? BLANK then starts false (i + 1) s
              else if need_blank then starts true (i + 1) s else i :: starts true (i + 1) s
  end.

Lemma cmd_loop_ok s : forall done nb argv, let i := Z.of_nat (length done) in Z.of_nat (length argv) <= CMD_ARGV ->
  cmd_loop (length s) i nb (done ++ s ++ [0]) argv
    = if Z.of_nat (length argv + length (starts nb i s)) <=? CMD_ARGV then Ret (done ++ zap nb s ++ [0], argv ++ starts nb i s) else Undef.
Proof.
  induction s as [|c s IH]; intros done nb argv i Ha; cbn [length cmd_loop starts zap].
  - destruct (Z.leb_spec (Z.of_nat (length argv + 0)) CMD_ARGV); [by rewrite app_nil_r|lia].
  - assert (Hc : nth (Z.to_nat i) (done ++ (c :: s) ++ [0]) 0 = c).
    { unfold i. rewrite Nat2Z.id, app_nth2, Nat.sub_diag by lia. done. }
    rewrite Hc. cbv zeta.
    assert (Hnext : forall x nb' argv', Z.of_nat (length argv') <= CMD_ARGV ->
      cmd_loop (length s) (i + 1) nb' (done ++ (x :: s) ++ [0]) argv'
        = if Z.of_nat (length argv' + length (starts nb' (i + 1) s)) <=? CMD_ARGV
          then Ret (done ++ (x :: zap nb' s) ++ [0], argv' ++ starts nb' (i + 1) s) else Undef).
    { intros x nb' argv' Ha'. pose proof (IH (done ++ [x]) nb' argv') as H. cbv zeta in H. rewrite length_app in H. cbn [length] in H.
      replace (Z.of_nat (length done + 1)) with (i + 1) in H by (unfold i; lia). rewrite <- !app_assoc in H. cbn [app] in *. by apply H. }
    destruct (c =? BLANK) eqn:Eb, nb; cbn [negb andb].
    + replace (<[Z.to_nat i := 0]> (done ++ (c :: s) ++ [0])) with (done ++ (0 :: s) ++ [0]); [by apply Hnext|].
      unfold i. rewrite Nat2Z.id. rewrite <- (Nat.add_0_r (length done)). by rewrite insert_app_r.
    + by apply Hnext.
    + by apply Hnext.
    + destruct (Z.ltb_spec (Z.of_nat (length argv)) CMD_ARGV) as [Hlt|Hge].
      * rewrite Hnext by (rewrite length_app; cbn [length]; lia). rewrite length_app, <- app_assoc. cbn [length app].
        by replace (length argv + 1 + length (starts true (i + 1) s))%nat with (length argv + S (length (starts true (i + 1) s)))%nat by lia.
      * destruct (Z.leb_spec (Z.of_nat (length argv + length (i :: starts true (i + 1) s))) CMD_ARGV) as [H|]; [cbn [length] in H; lia|done].
Qed.

Lemma pieces_cons s : exists p l, pieces s = p :: l.
Proof. destruct s as [|c s]; [by exists [], []|]. cbn. destruct (c =? BLANK); [by eexists _, _|]. destruct (pieces s); by eexists _, _. Qed.

Lemma words_blank s : words (BLANK :: s) = words s.
Proof. done. Qed.

(** Reading the offsets back: behind a word is a zero. *)
Lemma starts_words s : nozero s -> forall done nb, let i := Z.of_nat (length done) in
  let read j := cstr (drop (Z.to_nat j) (done ++ zap nb s ++ [0])) in
  map read (starts nb i s) = (if nb then filter (fun p => p <> []) (tail (pieces s)) else words s) /\
  (nb = true -> Some (cstr (zap nb s ++ [0])) = head (pieces s)).
Proof.
  induction 1 as [|c s Hc Hs IH]; intros done nb i read; [by destruct nb|].
  assert (Hnext : forall x nb', zap nb (c :: s) = x :: zap nb' s ->
    map read (starts nb' (i + 1) s) = (if nb' then filter (fun p => p <> []) (tail (pieces s)) else words s) /\
    (nb' = true -> Some (cstr (zap nb' s ++ [0])) = head (pieces s))).
  { intros x nb' Hz. destruct (IH (done ++ [x]) nb') as [H1 H2]. split; [|exact H2]. rewrite <- H1. unfold read. rewrite Hz.
    rewrite length_app. cbn [length]. replace (Z.of_nat (length done + 1)) with (i + 1) by (unfold i; lia).
    apply map_ext. intros j. by rewrite <- app_assoc. }
  clear IH. unfold words in *. cbn [zap starts pieces] in *. destruct (Z.eqb_spec c BLANK) as [->|Hne].
  - destruct nb; (destruct (Hnext _ false eq_refl) as [H1 _]; split; [exact H1|done]).
  - destruct (pieces_cons s) as (p & l & Hp). rewrite Hp in *. cbn [tail head] in *. destruct nb.
    + destruct (Hnext _ true eq_refl) as [H1 H2]. split; [exact H1|]. intros _. cbn [app cstr].
      destruct (Z.eqb_spec c 0); [done|]. specialize (H2 eq_refl). injection H2 as <-. done.
    + destruct (Hnext _ true eq_refl) as [H1 H2]. split; [|done]. cbn [map]. rewrite filter_cons_True by done. f_equal; [|exact H1].
      unfold read, i. rewrite Nat2Z.id, drop_app_length. cbn [app cstr]. destruct (Z.eqb_spec c 0); [done|].
      specialize (H2 eq_refl). injection H2 as <-. done.
Qed.

Lemma cmd_text s : nozero s -> cstr (zap false s ++ [0]) = blanks s ++ default [] (head (words s)).
Proof.
  induction 1 as [|c s Hc Hs IH]; [done|]. cbn [zap blanks]. destruct (Z.eqb_spec c BLANK) as [->|Hne].
  - change (words (BLANK :: s)) with (words s). change (cstr ((BLANK :: zap false s) ++ [0])) with (BLANK :: cstr (zap false s ++ [0])). by rewrite IH.
  - destruct (starts_words s Hs [] true) as [_ H2]. specialize (H2 eq_refl). unfold words. cbn [pieces app cstr].
    destruct (Z.eqb_spec c BLANK); [done|]. destruct (Z.eqb_spec c 0); [done|].
    destruct (pieces_cons s) as (p & l & Hp). rewrite Hp in *. injection H2 as ->. by rewrite filter_cons_True.
Qed.

Lemma cmd_split_ok s : nozero s ->
  cmd_split s = if (Z.of_nat (length s) <? CMD_BUF) && (Z.of_nat (length (words s)) <? CMD_ARGV)
                then Ret (blanks s ++ default [] (head (words s)), words s) else Undef.
Proof.
  intros Hs. unfold cmd_split. destruct (Z.ltb_spec (Z.of_nat (length s)) CMD_BUF); [|done]. cbn [andb].
  pose proof (cmd_loop_ok s [] false [] ltac:(by vm_compute)) as HL. cbv zeta in HL. cbn [app length] in HL.
  destruct (starts_words s Hs [] false) as [Hw _]. cbv zeta in Hw. cbn [app length] in Hw.
  assert (Hlen : length (starts false 0 s) = length (words s)) by by rewrite <- Hw, length_map.
  change (Z.of_nat 0) with 0 in *. change (0 + length ?x)%nat with (length x) in HL. rewrite Hlen in HL. rewrite HL.
  destruct (Z.leb_spec (Z.of_nat (length (words s))) CMD_ARGV), (Z.ltb_spec (Z.of_nat (length (words s))) CMD_ARGV);
    try lia; rewrite ?bind_Ret_l, ?Hlen; try done.
  - destruct (Z.ltb_spec (Z.of_nat (length (words s))) CMD_ARGV); [|lia]. by rewrite cmd_text, Hw.
  - by destruct (Z.ltb_spec (Z.of_nat (length (words s))) CMD_ARGV); [lia|].
Qed.

Section Cmd.
Context {F : LuaFmt} {W : Type} {OS : SysOs W}.
Implicit Types w : W.

(** C24. System.cmd splits its text at blanks: the child gets the words as its arguments, in
    order, and the program to run is the text up to the end of the first word, so with a
    leading blank no program is found.  The parent waits for the child and returns true,
    also when the fork failed.  A text of 256 characters or more, or of 128 words or more,
    overruns the arrays. *)
Theorem cmd_spec str w : nozero str ->
  lcmd [LStr str] w =
    if (Z.of_nat (length str) <? CMD_BUF) && (Z.of_nat (length (words str)) <? CMD_ARGV) then
      let '(pid, w) := sy_fork w in
      Ret (if pid =? 0 then Becomes (blanks str ++ default [] (head (words str))) (words str) w
           else Goes [LBool true] (if 0 <? pid then snd (sy_waitpid pid 0 w) else w))
    else Undef.
Proof.
  intros Hs. unfold lcmd. change (lua_isstring [LStr str] 1) with true. cbv iota.
  change (lua_tolstring [LStr str] 1) with (Some str). cbn [of_option]. rewrite bind_Ret_l, cstr_nozero by done. rewrite cmd_split_ok by done.
  destruct (_ && _); [|done]. rewrite bind_Ret_l. destruct (sy_fork w) as [pid w1]. by destruct (pid =? 0).
Qed.
End Cmd.

(** ** Examples *)

(** Forks give the numbers of the world; nothing else happens. *)
#[export] Instance ExSys : SysOs Z := {|
  sy_fork := fun w => (w, w); sy_getpid := fun w => (1, w); sy_setsid := fun w => (1, w); sy_time := fun w => (0, w);
  sy_nanosleep := fun _ _ w => w; sy_sleep := fun _ w => (0, w); sy_waitpid := fun p _ w => ((p, Some 0), w);
  sy_errno := fun _ => 0; sy_strerror := fun _ => []; sy_close := fun _ w => (0, w); sy_atexit := fun w => w;
  sy_signal := fun _ _ w => w; sy_socket := fun _ _ _ w => (3, w); sy_accept := fun _ w => (4, w); sy_inet_addr := fun _ => None;
  sy_gethostbyname := fun _ w => (None, w); sy_connect := fun _ _ _ w => (0, w); sy_reuseaddr := fun _ w => w;
  sy_bind := fun _ _ w => (0, w); sy_listen := fun _ w => (0, w); sy_recv := fun _ _ _ w => (0, w); sy_send := fun _ _ _ w => (0, w);
  sy_fcntl := fun _ _ _ w => (0, w); sy_peer_ip := fun _ _ => [] |}.

Lemma cmd_spec_witness :
  lcmd (F := NoFmt) [LStr (lit "ls  -l /tmp ")] 0 =
    if (Z.of_nat (length (lit "ls  -l /tmp ")) <? CMD_BUF) && (Z.of_nat (length (words (lit "ls  -l /tmp "))) <? CMD_ARGV) then
      let '(pid, w) := sy_fork 0 in
      Ret (if pid =? 0 then Becomes (blanks (lit "ls  -l /tmp ") ++ default [] (head (words (lit "ls  -l /tmp ")))) (words (lit "ls  -l /tmp ")) w
           else Goes [LBool true] (if 0 <? pid then snd (sy_waitpid pid 0 w) else w))
    else Undef.
Proof. apply (@cmd_spec NoFmt Z ExSys (lit "ls  -l /tmp ") 0). repeat constructor; discriminate. Defined.

(** A leading blank is part of the name of the program. *)
Example cmd_leading_blank : lcmd (F := NoFmt) [LStr (lit " ls -l")] 0 = Ret (Becomes (lit " ls") [lit "ls"; lit "-l"] 0) /\
  words (lit "ls  -l /tmp ") = [lit "ls"; lit "-l"; lit "/tmp"].
Proof. by vm_compute. Qed.

(** A fork that fails ends the process as if it were the parent, without a message. *)
Example daemon_fork_fails : ldaemon (W := Z) [] (-1) = Raise.
Proof. by vm_compute. Qed.

(** connect uses the result of gethostbyname without a test. *)
Example connect_unknown_host : lconnect (F := NoFmt) [LNum (d_of_Z 3); LStr (lit "nowhere"); LNum (d_of_Z 80)] 0 = Undef.
Proof. by vm_compute. Qed.
