(* ===== verification/Actordb.v ===== *)
(** * Actordb: records for scripts, packed into strings

    Source: src/src/lstrc/actordb.cc, actordb.h and lstrc.h, the code the generator of that
    directory makes for the schema actordb.scp.  The objects Task and User live in a store of
    their own; scripts hold them through full userdata (LuaStruct) by raw pointers, which no
    collector follows and no type check guards.  Packing writes into a static buffer of the
    memory.  The messages printed are left out. *)
From S2P Require Import Prelude Fmt Mem Lua.
Local Open Scope Z_scope.

Inductive obj :=
| Task (taskid uid : Z)
| User (task_array : list Z) (uid : Z) (task : Z) (uname : bytes).

(** isdirty is never written in a struct made by lua_newuserdata. *)
Record LuaStruct := LStruct { msg : Z; root : Z }.

Record st := St {
  objs : gmap Z obj; next_obj : Z; structs : gmap Z LuaStruct; next_struct : Z;
  hp : heap; s_tostring_buf : Z; s_tostring_buf_len : Z }.

Definition set_objs (s : st) (o : gmap Z obj) : st :=
  St o (next_obj s) (structs s) (next_struct s) (hp s) (s_tostring_buf s) (s_tostring_buf_len s).
Definition put_obj (s : st) (p : Z) (o : obj) : st := set_objs s (<[p := o]> (objs s)).
Definition set_buf (s : st) (h : heap) (p n : Z) : st := St (objs s) (next_obj s) (structs s) (next_struct s) h p n.

(** new, and delete: of NULL it does nothing, of an object that is gone it is undefined. *)
Definition new (o : obj) (s : st) : Z * st :=
  (next_obj s, St (<[next_obj s := o]> (objs s)) (next_obj s + 1) (structs s) (next_struct s) (hp s) (s_tostring_buf s) (s_tostring_buf_len s)).
Definition delete_Task (p : Z) (s : st) : res st :=
  if p =? 0 then Ret s else match objs s !! p with Some (Task _ _) => Ret (set_objs s (delete p (objs s))) | _ => Undef end.
(** A new LuaStruct; [root]: its own address when there is none given. *)
Definition new_struct (m : Z) (r : option Z) (s : st) : lval * st :=
  let p := next_struct s in
  (LUser p, St (objs s) (next_obj s) (<[p := LStruct m (default p r)]> (structs s)) (p + 1) (hp s) (s_tostring_buf s) (s_tostring_buf_len s)).

(** An object through a pointer that is taken for one of its class. *)
Definition as_task (s : st) (p : Z) : res (Z * Z) := match objs s !! p with Some (Task t u) => Ret (t, u) | _ => Undef end.
Definition as_user (s : st) (p : Z) : res (list Z * Z * Z * bytes) :=
  match objs s !! p with Some (User l u t n) => Ret (l, u, t, n) | _ => Undef end.

(** ** Sizes, reading and writing *)

Definition SIZEOF_INT64 : Z := 8.
Definition len_varint (val : Z) : Z := SIZEOF_INT64.
Definition len_string (val : bytes) : res Z :=
  totallen ← sint (0 + len_varint (Z.of_nat (length val)));
  Ret (i32 (u64 (u64 totallen + Z.of_nat (length val)))).
Definition read_varint (m : gmap Z Z) (buf : Z) : res (Z * Z) :=
  v ← of_option (mload m buf 8); Ret (SIZEOF_INT64, i64 (le_dec v)).
Definition write_varint (val : Z) (buf : Z) (m : gmap Z Z) : res (Z * gmap Z Z) :=
  m ← of_option (mstore m buf (le_enc 8 val)); Ret (SIZEOF_INT64, m).
Definition write_buf (src : bytes) (buf : Z) (m : gmap Z Z) : res (Z * gmap Z Z) :=
  if Z.of_nat (length src) <=? INT_MAX then m ← of_option (mstore m buf src); Ret (Z.of_nat (length src), m) else Undef.

(** A place in the buffer: the pointer, what was written so far, the memory.  The rest of
    the size, which the code also counts, decides nothing. *)
Definition place : Type := Z * Z * gmap Z Z.
Definition emit (w : Z -> gmap Z Z -> res (Z * gmap Z Z)) (pl : place) : res place :=
  let '(buf, totallen, m) := pl in
  '(ir, m) ← w buf m;
  totallen ← sint (totallen + ir);
  Ret (buf + ir, totallen, m).
Definition written (pl : place) : Z * gmap Z Z := let '(_, totallen, m) := pl in (totallen, m).

Definition write_string (val : bytes) (buf : Z) (m : gmap Z Z) : res (Z * gmap Z Z) :=
  pl ← emit (write_varint (Z.of_nat (length val))) (buf, 0, m);
  pl ← emit (write_buf val) pl;
  Ret (written pl).

(** ** Task *)

Definition new_Task : obj := Task 0 0.
Definition Task_packlen : res Z :=
  totallen ← sint (0 + len_varint 2);
  totallen ← sint (totallen + len_varint 0);
  totallen ← sint (totallen + len_varint 1);
  sint (totallen + len_varint 0).
Definition Task_pack (t : Z * Z) (buf : Z) (m : gmap Z Z) : res (Z * gmap Z Z) :=
  let '(taskid, uid) := t in
  pl ← emit (write_varint 2) (buf, 0, m);
  pl ← emit (write_varint taskid) pl;
  pl ← emit (write_varint 1) pl;
  pl ← emit (write_varint uid) pl;
  Ret (written pl).

(** ** User *)

Definition User_new (s : st) : obj * st := let '(t, s) := new new_Task s in (User [] 0 t [], s).

(** The loop over the vector. *)
Fixpoint tasks_packlen (s : st) (l : list Z) (totallen : Z) : res Z :=
  match l with
  | [] => Ret totallen
  | p :: l => _ ← as_task s p; n ← Task_packlen; totallen ← sint (totallen + n); tasks_packlen s l totallen
  end.
Definition User_packlen (s : st) (p : Z) : res Z :=
  '(task_array, uid, task, uname) ← as_user s p;
  totallen ← sint (0 + len_varint 3);
  totallen ← tasks_packlen s task_array totallen;
  totallen ← sint (totallen + len_varint 1);
  totallen ← sint (totallen + len_varint uid);
  totallen ← sint (totallen + len_varint 5);
  _ ← as_task s task; n ← Task_packlen; totallen ← sint (totallen + n);
  totallen ← sint (totallen + len_varint 2);
  n ← len_string uname;
  sint (totallen + n).

Fixpoint tasks_pack (s : st) (l : list Z) (pl : place) : res place :=
  match l with
  | [] => Ret pl
  | p :: l => t ← as_task s p; pl ← emit (Task_pack t) pl; tasks_pack s l pl
  end.
Definition User_pack (s : st) (p : Z) (buf : Z) (m : gmap Z Z) : res (Z * gmap Z Z) :=
  '(task_array, uid, task, uname) ← as_user s p;
  pl ← emit (write_varint 3) (buf, 0, m);
  pl ← tasks_pack s task_array pl;
  pl ← emit (write_varint 1) pl;
  pl ← emit (write_varint uid) pl;
  pl ← emit (write_varint 5) pl;
  t ← as_task s task;
  pl ← emit (Task_pack t) pl;
  pl ← emit (write_varint 2) pl;
  pl ← emit (write_string uname) pl;
  Ret (written pl).

(** ** unpack

    [methods]: the array of the class, [None] where nothing was stored; the handlers take the
    object and the bytes and do nothing with them.  A tag outside the array, which is a size_t
    there, is undefined. *)
Definition unpack_method : Type := Z -> Z -> Z -> st -> res (Z * st).
Definition unpack_nothing : unpack_method := fun self buf buflen s => Ret (0, s).
Definition actordb_task_unpack_method : list (option unpack_method) := [None; Some unpack_nothing; Some unpack_nothing].
Definition actordb_user_unpack_method : list (option unpack_method) :=
  [None; Some unpack_nothing; Some unpack_nothing; Some unpack_nothing; None; Some unpack_nothing].

(** int arithmetic with an int64: computed in 64 bits, then cut. *)
Definition int64_sum (z : Z) : res Z := if (- 2 ^ 63 <=? z) && (z <? 2 ^ 63) then Ret (i32 z) else Undef.
Fixpoint unpack (fuel : nat) (methods : list (option unpack_method)) (self buf buflen totallen : Z) (s : st) : res (Z * st) :=
  if 0 <? buflen then
    match fuel with
    | O => NoFuel
    | S fuel =>
        '(ir, tag) ← read_varint (h_mem (hp s)) buf;
        let buf := buf + ir in
        buflen ← sint (buflen - ir);
        totallen ← sint (totallen + ir);
        '(ir, varlen) ← read_varint (h_mem (hp s)) buf;
        let buf := buf + ir in
        buflen ← sint (buflen - ir);
        totallen ← sint (totallen + ir);
        method ← of_option (if 0 <=? tag then methods !! Z.to_nat tag else None);
        '(_, s) ← match method with Some f => f self buf buflen s | None => Ret (0, s) end;
        buflen ← int64_sum (buflen - varlen);
        totallen ← int64_sum (totallen + varlen);
        unpack fuel methods self (buf + varlen) buflen totallen s
    end
  else Ret (totallen, s).
Definition Task_unpack fuel := unpack fuel actordb_task_unpack_method.
Definition User_unpack fuel := unpack fuel actordb_user_unpack_method.

(** ** The Lua functions *)

Section Scripts.
Context {F : LuaFmt} {A : Allocator}.
Implicit Types s : st.

(** lua_touserdata(L, 1), used as a LuaStruct. *)
Definition self (L : list lval) s : res LuaStruct := of_option (structs s !! lua_touserdata L 1).
Definition self_task (L : list lval) s : res (LuaStruct * (Z * Z)) := x ← self L s; t ← as_task s (msg x); Ret (x, t).
Definition self_user (L : list lval) s : res (LuaStruct * (list Z * Z * Z * bytes)) := x ← self L s; u ← as_user s (msg x); Ret (x, u).
(** (int32)(long long)lua_tonumber(L, 3) *)
Definition int_arg (L : list lval) : Z := i32 (d2i64 (lua_tonumber L 3)).
Definition nothing s : res (list lval * st) := Ret ([], s).

(** *** tostring and bytesize *)

Definition grow_tostring (totallen : Z) s : res (bool * st) :=
  '(grown, (h, p, len)) ← regrow (hp s) (s_tostring_buf s) (s_tostring_buf_len s) totallen;
  Ret (grown, set_buf s h p len).
Definition tostring (packlen : res Z) (pack : Z -> gmap Z Z -> res (Z * gmap Z Z)) s : res (list lval * st) :=
  totallen ← packlen;
  '(grown, s) ← grow_tostring totallen s;
  if negb grown then nothing s
  else
    '(totallen, m) ← pack (s_tostring_buf s) (h_mem (hp s));
    text ← of_option (loadz m (s_tostring_buf s) totallen);
    Ret ([lua_pushlstring text], set_buf s (Heap m (h_blk (hp s))) (s_tostring_buf s) (s_tostring_buf_len s)).

Definition lactordb_task_bytesize (L : list lval) s : res (list lval * st) :=
  '(x, _) ← self_task L s; n ← Task_packlen; Ret ([lua_pushinteger n], s).
Definition lactordb_task_tostring (L : list lval) s : res (list lval * st) :=
  '(x, t) ← self_task L s; tostring Task_packlen (Task_pack t) s.
Definition lactordb_task_totable (L : list lval) s := nothing s.
Definition lactordb_user_bytesize (L : list lval) s : res (list lval * st) :=
  x ← self L s; n ← User_packlen s (msg x); Ret ([lua_pushinteger n], s).
Definition lactordb_user_tostring (L : list lval) s : res (list lval * st) :=
  x ← self L s; tostring (User_packlen s (msg x)) (User_pack s (msg x)) s.
Definition lactordb_user_totable (L : list lval) s := nothing s.

(** *** Fields *)

Definition lactordb_task_get_taskid (L : list lval) s : res (list lval * st) :=
  '(_, (taskid, _)) ← self_task L s; Ret ([lua_pushnumber (d_of_Z taskid)], s).
Definition lactordb_task_set_taskid (L : list lval) s : res (list lval * st) :=
  '(x, (_, uid)) ← self_task L s; nothing (put_obj s (msg x) (Task (int_arg L) uid)).
Definition lactordb_task_get_uid (L : list lval) s : res (list lval * st) :=
  '(_, (_, uid)) ← self_task L s; Ret ([lua_pushnumber (d_of_Z uid)], s).
Definition lactordb_task_set_uid (L : list lval) s : res (list lval * st) :=
  '(x, (taskid, _)) ← self_task L s; nothing (put_obj s (msg x) (Task taskid (int_arg L))).

Definition lactordb_user_get_uid (L : list lval) s : res (list lval * st) :=
  '(_, (_, uid, _, _)) ← self_user L s; Ret ([lua_pushnumber (d_of_Z uid)], s).
Definition lactordb_user_set_uid (L : list lval) s : res (list lval * st) :=
  '(x, (l, _, task, uname)) ← self_user L s; nothing (put_obj s (msg x) (User l (int_arg L) task uname)).
Definition lactordb_user_get_task (L : list lval) s : res (list lval * st) :=
  '(x, (_, _, task, _)) ← self_user L s;
  let '(v, s) := new_struct task (Some (root x)) s in Ret ([v], s).
Definition lactordb_user_get_uname (L : list lval) s : res (list lval * st) :=
  '(_, (_, _, _, uname)) ← self_user L s; Ret ([lua_pushstring uname], s).
(** A std::string from NULL is undefined. *)
Definition lactordb_user_set_uname (L : list lval) s : res (list lval * st) :=
  '(x, (l, uid, task, _)) ← self_user L s;
  val ← of_option (lua_tolstring L 3);
  nothing (put_obj s (msg x) (User l uid task (cstr val))).

(** *** The vector of tasks *)

Definition index_arg (L : list lval) : Z := i32 (lua_tointeger L 2).
Definition lactordb_user_add_task_array (L : list lval) s : res (list lval * st) :=
  '(x, (l, uid, task, uname)) ← self_user L s;
  let '(nest_msg, s) := new new_Task s in
  let s := put_obj s (msg x) (User (l ++ [nest_msg]) uid task uname) in
  let '(v, s) := new_struct nest_msg (Some (root x)) s in Ret ([v], s).
(** The comparison with the size is one of size_t. *)
Definition in_array (index : Z) (l : list Z) : bool := negb ((index <? 0) || (Z.of_nat (length l) <=? u64 index)).
Definition lactordb_user_get_task_array (L : list lval) s : res (list lval * st) :=
  '(x, (l, _, _, _)) ← self_user L s;
  if negb (in_array (index_arg L) l) then nothing s
  else
    p ← of_option (l !! Z.to_nat (index_arg L));
    let '(v, s) := new_struct p (Some (root x)) s in Ret ([v], s).
Definition lactordb_user_count_task_array (L : list lval) s : res (list lval * st) :=
  '(_, (l, _, _, _)) ← self_user L s; Ret ([lua_pushinteger (i32 (Z.of_nat (length l)))], s).
Definition lactordb_user_del_task_array (L : list lval) s : res (list lval * st) :=
  '(x, (l, uid, task, uname)) ← self_user L s;
  let index := index_arg L in
  if negb (in_array index l) then nothing s
  else
    nest_msg ← of_option (l !! Z.to_nat index);
    s ← delete_Task nest_msg (put_obj s (msg x) (User (delete (Z.to_nat index) l) uid task uname));
    Ret ([lua_pushinteger index], s).

(** *** The metatables, and new *)

Definition lfunction : Type := list lval -> st -> res (list lval * st).
Definition FN_totable : Z := 1.
Definition FN_tostring : Z := 2.
Definition FN_bytesize : Z := 3.
Definition FN_get_task_array : Z := 4.
Definition FN_add_task_array : Z := 5.
Definition FN_count_task_array : Z := 6.
Definition FN_del_task_array : Z := 7.

Definition actordb_task_get_method : list (bytes * lfunction) :=
  [(lit "taskid", lactordb_task_get_taskid); (lit "uid", lactordb_task_get_uid)].
Definition actordb_task_set_method : list (bytes * lfunction) :=
  [(lit "taskid", lactordb_task_set_taskid); (lit "uid", lactordb_task_set_uid)].
Definition actordb_task_func_get_method : list (bytes * Z) :=
  [(lit "totable", FN_totable); (lit "tostring", FN_tostring); (lit "bytesize", FN_bytesize)].
Definition actordb_user_get_method : list (bytes * lfunction) :=
  [(lit "uid", lactordb_user_get_uid); (lit "task", lactordb_user_get_task); (lit "uname", lactordb_user_get_uname)].
Definition actordb_user_set_method : list (bytes * lfunction) :=
  [(lit "uid", lactordb_user_set_uid); (lit "uname", lactordb_user_set_uname)].
Definition actordb_user_func_get_method : list (bytes * Z) :=
  [(lit "totable", FN_totable); (lit "tostring", FN_tostring); (lit "bytesize", FN_bytesize);
   (lit "get_task_array", FN_get_task_array); (lit "add_task_array", FN_add_task_array);
   (lit "count_task_array", FN_count_task_array); (lit "del_task_array", FN_del_task_array)].

Fixpoint find {B} (name : bytes) (l : list (bytes * B)) : option B :=
  match l with [] => None | (k, x) :: l => if bool_decide (k = name) then Some x else find name l end.
(** A map is asked with a std::string of the argument: NULL is undefined. *)
Definition varname (L : list lval) (i : Z) : res bytes := t ← of_option (lua_tolstring L i); Ret (cstr t).

Definition get_from (methods : list (bytes * lfunction)) (funcs : list (bytes * Z)) (L : list lval) s : res (list lval * st) :=
  name ← varname L 2;
  match find name methods, find name funcs with
  | Some f, _ => f L s
  | None, Some f => Ret ([LFun f], s)
  | None, None => nothing s
  end.
Definition set_from (methods : list (bytes * lfunction)) (L : list lval) s : res (list lval * st) :=
  name ← varname L 2;
  match find name methods with Some f => f L s | None => nothing s end.

Definition lactordb_task_get := get_from actordb_task_get_method actordb_task_func_get_method.
Definition lactordb_task_set := set_from actordb_task_set_method.
Definition lactordb_task_gc (L : list lval) s := nothing s.
Definition lactordb_user_get := get_from actordb_user_get_method actordb_user_func_get_method.
Definition lactordb_user_set := set_from actordb_user_set_method.
Definition lactordb_user_gc (L : list lval) s := nothing s.

Definition lactordb_task_new (L : list lval) s : res (list lval * st) :=
  let '(p, s) := new new_Task s in
  let '(v, s) := new_struct p None s in Ret ([v], s).
Definition lactordb_user_new (L : list lval) s : res (list lval * st) :=
  let '(u, s) := User_new s in
  let '(p, s) := new u s in
  let '(v, s) := new_struct p None s in Ret ([v], s).
Definition actordb_new_method : list (bytes * lfunction) := [(lit "Task", lactordb_task_new); (lit "User", lactordb_user_new)].
(** An unknown name gives a NULL function, which is called. *)
Definition lactordb_new (L : list lval) s : res (list lval * st) :=
  name ← varname L 1;
  f ← of_option (find name actordb_new_method);
  f L s.
End Scripts.
