(* ===== verification/ActordbProps.v ===== *)
(** * ActordbProps: ownership, packing and unpacking of the records of Actordb.v *)
From S2P Require Import Prelude Fmt Mem Lua Actordb.
Local Open Scope Z_scope.

(** ** Ownership

    A user owns its task and the tasks of its vector: they are live, no two places hold the
    same one, and no task has two owners. *)
Definition owned (o : obj) : list Z := match o with User l _ t _ => t :: l | Task _ _ => [] end.
Definition is_task (o : obj) : bool := match o with Task _ _ => true | User _ _ _ _ => false end.

Record objs_ok (o : gmap Z obj) (next : Z) : Prop := {
  o_next : 0 < next;
  o_range : forall p x, o !! p = Some x -> 0 < p < next;
  o_live : forall p x q, o !! p = Some x -> q ∈ owned x -> exists y, o !! q = Some y /\ is_task y = true;
  o_nodup : forall p x, o !! p = Some x -> NoDup (owned x);
  o_owner : forall p p' x x' q, o !! p = Some x -> o !! p' = Some x' -> q ∈ owned x -> q ∈ owned x' -> p = p';
}.
Definition structs_ok (t : gmap Z LuaStruct) (next : Z) : Prop :=
  forall p x, t !! p = Some x -> p < next /\ is_Some (t !! root x).
Definition wf (s : st) : Prop :=
  objs_ok (objs s) (next_obj s) /\ structs_ok (structs s) (next_struct s) /\ buffer_ok (hp s) (s_tostring_buf s) (s_tostring_buf_len s).

Section Objects.
Implicit Types o : gmap Z obj.

(** Another value with the same possessions. *)
Lemma objs_update o n p x y : objs_ok o n -> o !! p = Some x -> owned y = owned x -> is_task y = is_task x -> objs_ok (<[p := y]> o) n.
Proof.
  intros [H0 H1 H2 H3 H4] Hp Ho Ht.
  assert (Hback : forall q z, <[p := y]> o !! q = Some z -> exists z', o !! q = Some z' /\ owned z' = owned z /\ is_task z' = is_task z).
  { intros q z [[<- <-]|[Hne Hq]]%lookup_insert_Some; [by exists x|by exists z]. }
  split; [done|..].
  - intros q z (z' & Hq & _)%Hback. by eapply H1.
  - intros q z r (z' & Hq & Hz & _)%Hback Hr. rewrite <- Hz in Hr. destruct (H2 q z' r Hq Hr) as (w & Hw & Hwt).
    destruct (decide (r = p)) as [->|Hne]; [exists y; rewrite lookup_insert_eq; split; [done|congruence]|].
    exists w. by rewrite lookup_insert_ne.
  - intros q z (z' & Hq & <- & _)%Hback. by eapply H3.
  - intros q q' z z' r (w & Hq & <- & _)%Hback (w' & Hq' & <- & _)%Hback Hr Hr'. by eapply H4.
Qed.

(** A new object that owns nothing. *)
Lemma objs_new_task o n a b : objs_ok o n -> objs_ok (<[n := Task a b]> o) (n + 1).
Proof.
  intros [H0 H1 H2 H3 H4].
  assert (Hback : forall q z, <[n := Task a b]> o !! q = Some z -> owned z <> [] -> o !! q = Some z).
  { intros q z [[<- <-]|[Hne Hq]]%lookup_insert_Some Hz; [done|done]. }
  assert (Hin : forall z r, r ∈ owned z -> owned z <> []) by (intros z r Hr Hz; rewrite Hz in Hr; set_solver).
  split; [lia|..].
  - intros q z [[<- <-]|[_ Hq]]%lookup_insert_Some; [lia|]. apply H1 in Hq. lia.
  - intros q z r Hq Hr. apply Hback in Hq; [|by eapply Hin]. destruct (H2 q z r Hq Hr) as (w & Hw & Hwt).
    destruct (decide (r = n)) as [->|Hne]; [exists (Task a b); by rewrite lookup_insert_eq|]. exists w. by rewrite lookup_insert_ne.
  - intros q z [[<- <-]|[_ Hq]]%lookup_insert_Some; [constructor|]. by eapply H3.
  - intros q q' z z' r Hq Hq' Hr Hr'. apply Hback in Hq; [|by eapply Hin]. apply Hback in Hq'; [|by eapply Hin]. by eapply H4.
Qed.

(** A task without an owner gets one. *)
Definition unowned o (q : Z) : Prop := forall p x, o !! p = Some x -> q ∉ owned x.
Lemma objs_give o n n' p q y x : objs_ok o n -> unowned o q -> (exists z, o !! q = Some z /\ is_task z = true) ->
  (o !! p = Some x /\ is_task x = false \/ p = n /\ owned x = []) -> is_task y = false -> NoDup (owned y) ->
  (forall r, r ∈ owned y <-> r = q \/ r ∈ owned x) -> n <= n' -> p < n' -> objs_ok (<[p := y]> o) n'.
Proof.
  intros [H0 H1 H2 H3 H4] Hun (z & Hz & Hzt) Hp Hyt Hnd Hown Hn' Hpn.
  assert (Hnp : forall w, o !! p = Some w -> is_task w = true -> False).
  { intros w Hw Hwt. destruct Hp as [[Hp Hxt]|[-> _]]; [congruence|]. apply H1 in Hw. lia. }
  assert (Hback : forall r w, <[p := y]> o !! r = Some w -> forall v, v ∈ owned w -> r = p /\ v = q \/ exists w', o !! r = Some w' /\ v ∈ owned w').
  { intros r w [[<- <-]|[Hne Hr]]%lookup_insert_Some v Hv; [|by eauto].
    apply Hown in Hv as [->|Hv]; [by left|right]. destruct Hp as [[Hp _]|[_ Hx]]; [by eauto|]. rewrite Hx in Hv. set_solver. }
  split; [lia|..].
  - intros r w [[<- <-]|[_ Hr]]%lookup_insert_Some; [|apply H1 in Hr; lia]. destruct Hp as [[Hp _]|[-> _]]; [apply H1 in Hp|]; lia.
  - intros r w v Hr Hv. assert (Hlive : exists u, o !! v = Some u /\ is_task u = true).
    { destruct (Hback r w Hr v Hv) as [[_ ->]|(w' & Hw' & Hv')]; [by exists z|by eapply H2]. }
    destruct Hlive as (u & Hu & Hut). exists u. split; [|done]. rewrite lookup_insert_ne; [done|]. intros ->. by eapply Hnp.
  - intros r w [[<- <-]|[_ Hr]]%lookup_insert_Some; [done|]. by eapply H3.
  - intros r r' w w' v Hr Hr' Hv Hv'.
    destruct (Hback r w Hr v Hv) as [[Er Ev]|(u & Hu & Hvu)], (Hback r' w' Hr' v Hv') as [[Er' Ev']|(u' & Hu' & Hvu')].
    + congruence.
    + subst v. by destruct (Hun _ _ Hu').
    + subst v. by destruct (Hun _ _ Hu).
    + by eapply H4.
Qed.

(** A task of a vector is taken out and freed. *)
Lemma objs_take o n p l u t nm i q : objs_ok o n -> o !! p = Some (User l u t nm) -> l !! i = Some q ->
  objs_ok (delete q (<[p := User (delete i l) u t nm]> o)) n.
Proof.
  intros [H0 H1 H2 H3 H4] Hp Hi. pose proof (H3 _ _ Hp) as Hnd. cbn [owned] in Hnd. apply NoDup_cons in Hnd as [Htl Hnd].
  assert (Hql : q ∈ l) by by eapply list_elem_of_lookup_2.
  assert (Hsub : forall r, r ∈ delete i l -> r ∈ l /\ r <> q).
  { intros r Hr. rewrite delete_take_drop in Hr. rewrite <- (take_drop_middle l i q Hi) in Hnd.
    apply NoDup_app in Hnd as (Hnd1 & Hnd2 & Hnd3). apply NoDup_cons in Hnd3 as [Hnd3 _].
    rewrite <- (take_drop_middle l i q Hi). apply elem_of_app in Hr as [Hr|Hr].
    - split; [set_solver|]. intros ->. apply (Hnd2 _ Hr). set_solver.
    - split; [set_solver|]. intros ->. done. }
  assert (Hback : forall r w, delete q (<[p := User (delete i l) u t nm]> o) !! r = Some w ->
    r <> q /\ exists w', o !! r = Some w' /\ is_task w' = is_task w /\ (forall v, v ∈ owned w -> v ∈ owned w' /\ v <> q) /\ (NoDup (owned w') -> NoDup (owned w))).
  { intros r w [Hne [[<- <-]|[Hrp Hr]]%lookup_insert_Some]%lookup_delete_Some; (split; [done|]).
    - exists (User l u t nm). split; [done|]. split; [done|]. split.
      + intros v [->|Hv]%elem_of_cons; [split; [set_solver|congruence]|]. apply Hsub in Hv. cbn. set_solver.
      + cbn [owned]. intros [Ha Hb]%NoDup_cons. apply NoDup_cons. split; [intros [Hc _]%Hsub; done|].
        eapply sublist_NoDup; [exact Hb|]. apply sublist_delete.
    - exists w. split; [done|]. split; [done|]. split; [|done]. intros v Hv. split; [done|]. intros ->.
      destruct Hrp. symmetry. eapply (H4 r p); [exact Hr|exact Hp|exact Hv|cbn; set_solver]. }
  split; [done|..].
  - intros r w (_ & w' & Hw & _)%Hback. by eapply H1.
  - intros r w v (Hr & w' & Hw & _ & Hsubw & _)%Hback Hv. destruct (Hsubw v Hv) as [Hv' Hvq]. destruct (H2 _ _ _ Hw Hv') as (y & Hy & Hyt).
    exists y. split; [|done]. rewrite lookup_delete_ne by congruence. rewrite lookup_insert_ne; [done|]. intros E. rewrite <- E, Hp in Hy. by injection Hy as <-.
  - intros r w (_ & w' & Hw & _ & _ & Hn)%Hback. apply Hn. by eapply H3.
  - intros r r' w w' v (_ & x & Hx & _ & Hs & _)%Hback (_ & x' & Hx' & _ & Hs' & _)%Hback Hv Hv'.
    eapply H4; [exact Hx|exact Hx'|by apply Hs|by apply Hs'].
Qed.
End Objects.

(** ** Packing *)

Definition enc_task (t : Z * Z) : bytes := le_enc 8 2 ++ le_enc 8 t.1 ++ le_enc 8 1 ++ le_enc 8 t.2.
Definition enc_at (s : st) (p : Z) : bytes := match objs s !! p with Some (Task t u) => enc_task (t, u) | _ => [] end.
Definition enc_user (s : st) (l : list Z) (uid task : Z) (uname : bytes) : bytes :=
  le_enc 8 3 ++ concat (map (enc_at s) l) ++ le_enc 8 1 ++ le_enc 8 uid ++ le_enc 8 5 ++ enc_at s task
    ++ le_enc 8 2 ++ le_enc 8 (Z.of_nat (length uname)) ++ uname.

(** A writer that puts the bytes [v] where it is told to. *)
Definition writes (w : Z -> gmap Z Z -> res (Z * gmap Z Z)) (v : bytes) : Prop := forall b m m',
  Z.of_nat (length v) <= INT_MAX -> mstore m b v = Some m' -> w b m = Ret (Z.of_nat (length v), m').
(** The place after the bytes [d] written from [buf] on. *)
Definition packed (m0 : gmap Z Z) (buf : Z) (d : bytes) (pl : place) : Prop :=
  let '(b, totallen, m) := pl in b = buf + Z.of_nat (length d) /\ totallen = Z.of_nat (length d) /\ mstore m0 buf d = Some m.

Section Pack.
Variables (m0 : gmap Z Z) (buf n : Z).
Hypothesis (Hmap : mapped m0 buf n) (Hn : n <= INT_MAX).

Lemma emit_ok w v d pl : writes w v -> packed m0 buf d pl -> Z.of_nat (length d) + Z.of_nat (length v) <= n ->
  exists pl', emit w pl = Ret pl' /\ packed m0 buf (d ++ v) pl'.
Proof.
  destruct pl as [[b t] m]. intros Hw (-> & -> & Hm) Hlen. unfold INT_MAX in *.
  destruct (mstore_mapped m0 buf (d ++ v)) as [m' Hm']; [intros x Hx; apply Hmap; rewrite length_app in Hx; lia|].
  pose proof Hm' as Hm2. rewrite mstore_app, Hm in Hm2. unfold emit. rewrite (Hw _ _ _ ltac:(unfold INT_MAX; lia) Hm2), bind_Ret_l.
  sint_step. eexists. split; [done|]. unfold packed. rewrite length_app. split_and!; [lia|lia|exact Hm'].
Qed.
End Pack.

(** Writers in sequence, from a place that is the start. *)
Lemma packed_start m b : packed m b [] (b, 0, m).
Proof. unfold packed. cbn. split_and!; [lia|done|done]. Qed.
Lemma mstore_mapped_back m b v m' : mstore m b v = Some m' -> mapped m b (Z.of_nat (length v)).
Proof.
  revert m b. induction v as [|c v IH]; intros m b H x Hx; cbn [length mstore] in *; [lia|].
  destruct (m !! b) as [y|] eqn:Eb; [|done]. destruct (decide (x = b)) as [->|Hne]; [by eexists|].
  destruct (IH _ _ H x ltac:(lia)) as [z Hz]. rewrite lookup_insert_ne in Hz by done. by eexists.
Qed.

Lemma varint_writes v : writes (write_varint v) (le_enc 8 v).
Proof. intros b m m' _ H. unfold write_varint. rewrite H, le_enc_length. done. Qed.
Lemma buf_writes v : writes (write_buf v) v.
Proof. intros b m m' Hl H. unfold write_buf. destruct (Z.leb_spec (Z.of_nat (length v)) INT_MAX); [|lia]. by rewrite H. Qed.

(** [pack_step v]: the next emit of the goal writes [v]. *)
Ltac pack_step lem Hp :=
  match type of Hp with packed ?m ?b ?d ?pl =>
    let pl' := fresh "pl" in let H := fresh "H" in
    edestruct (emit_ok m b _ ltac:(eassumption) ltac:(eassumption) _ _ d pl lem Hp) as (pl' & H & Hp');
      [repeat rewrite ?length_app, ?le_enc_length in *; cbn [length] in *; lia|];
    rewrite H, bind_Ret_l; clear Hp; rename Hp' into Hp
  end.

Ltac pack_end Hp H :=
  repeat rewrite <- app_assoc in Hp; rewrite app_nil_l in Hp;
  match type of Hp with packed _ _ _ ?p => destruct p as [[b' t'] m''] end;
  let Hm := fresh in destruct Hp as (_ & -> & Hm); cbn [written]; rewrite H in Hm; by injection Hm as ->.

Lemma string_writes v : writes (write_string v) (le_enc 8 (Z.of_nat (length v)) ++ v).
Proof.
  intros b m m' Hl H. unfold write_string. pose proof (mstore_mapped_back _ _ _ _ H) as Hmap. pose proof (packed_start m b) as Hp.
  pack_step (varint_writes (Z.of_nat (length v))) Hp. pack_step (buf_writes v) Hp. pack_end Hp H.
Qed.
Lemma task_writes t : writes (Task_pack t) (enc_task t).
Proof.
  destruct t as [a u]. intros b m m' Hl H. unfold Task_pack. pose proof (mstore_mapped_back _ _ _ _ H) as Hmap. pose proof (packed_start m b) as Hp.
  unfold enc_task in *. cbn [fst snd] in *.
  pack_step (varint_writes 2) Hp. pack_step (varint_writes a) Hp. pack_step (varint_writes 1) Hp. pack_step (varint_writes u) Hp. pack_end Hp H.
Qed.

Lemma enc_task_length t : length (enc_task t) = 32%nat.
Proof. unfold enc_task. by rewrite !length_app, !le_enc_length. Qed.
Lemma enc_at_length s p t : as_task s p = Ret t -> length (enc_at s p) = 32%nat /\ enc_at s p = enc_task t.
Proof. unfold as_task, enc_at. destruct (objs s !! p) as [[a u|]|]; try done. intros [= <-]. by rewrite enc_task_length. Qed.

Definition tasks_live (s : st) (l : list Z) : Prop := Forall (fun p => exists t, as_task s p = Ret t) l.

Lemma tasks_pack_ok s m0 buf n l : mapped m0 buf n -> n <= INT_MAX -> tasks_live s l -> forall d pl, packed m0 buf d pl ->
  Z.of_nat (length d) + Z.of_nat (length (concat (map (enc_at s) l))) <= n ->
  exists pl', tasks_pack s l pl = Ret pl' /\ packed m0 buf (d ++ concat (map (enc_at s) l)) pl'.
Proof.
  intros Hmap Hn. induction 1 as [|p l [t Ht] Hl IH]; intros d pl Hp Hlen; [exists pl; by rewrite app_nil_r|].
  destruct (enc_at_length s p t Ht) as [Hlt He]. cbn [tasks_pack map concat] in *. rewrite length_app in Hlen. rewrite Ht, bind_Ret_l.
  destruct (emit_ok m0 buf n Hmap Hn (Task_pack t) (enc_task t) d pl (task_writes t) Hp) as (pl1 & H1 & Hp1); [rewrite <- He; lia|].
  rewrite H1, bind_Ret_l. destruct (IH (d ++ enc_task t) pl1 Hp1) as (pl2 & H2 & Hp2); [rewrite <- He, length_app; lia|].
  exists pl2. split; [done|]. by rewrite <- app_assoc, <- He in Hp2.
Qed.

Lemma user_writes s p l uid task uname : as_user s p = Ret (l, uid, task, uname) -> tasks_live s (task :: l) ->
  writes (User_pack s p) (enc_user s l uid task uname).
Proof.
  intros Hu Hl b m m' Hlen H. unfold User_pack. rewrite Hu, bind_Ret_l. apply Forall_cons in Hl as [[t Ht] Hl].
  pose proof (mstore_mapped_back _ _ _ _ H) as Hmap. pose proof (packed_start m b) as Hp.
  destruct (enc_at_length s task t Ht) as [Hlt He]. unfold enc_user in *. rewrite He in *.
  set (tasks := concat (map (enc_at s) l)) in *. pose proof (enc_task_length t) as Htl.
  pack_step (varint_writes 3) Hp.
  edestruct (tasks_pack_ok s m b _ l Hmap Hlen Hl _ _ Hp) as (pl1 & H1 & Hp1);
    [repeat rewrite ?length_app, ?le_enc_length in *; cbn [length] in *; fold tasks; lia|].
  rewrite H1, bind_Ret_l. clear Hp. rename Hp1 into Hp. fold tasks in Hp.
  pack_step (varint_writes 1) Hp. pack_step (varint_writes uid) Hp. pack_step (varint_writes 5) Hp. rewrite Ht, bind_Ret_l.
  pack_step (task_writes t) Hp. pack_step (varint_writes 2) Hp. pack_step (string_writes uname) Hp. pack_end Hp H.
Qed.

Lemma tasks_packlen_ok s l : tasks_live s l -> forall n, 0 <= n -> n + Z.of_nat (length (concat (map (enc_at s) l))) <= INT_MAX ->
  tasks_packlen s l n = Ret (n + Z.of_nat (length (concat (map (enc_at s) l)))).
Proof.
  induction 1 as [|p l [t Ht] Hl IH]; intros n Hn Hb; cbn [tasks_packlen map concat] in *; [by rewrite Z.add_0_r|].
  destruct (enc_at_length s p t Ht) as [Hlt He]. rewrite length_app in *. unfold INT_MAX in *. rewrite Ht, bind_Ret_l.
  change Task_packlen with (Ret 32). rewrite bind_Ret_l. sint_step. rewrite IH by lia. f_equal. lia.
Qed.

Lemma user_packlen_ok s p l uid task uname : as_user s p = Ret (l, uid, task, uname) -> tasks_live s (task :: l) ->
  Z.of_nat (length (enc_user s l uid task uname)) <= INT_MAX ->
  User_packlen s p = Ret (Z.of_nat (length (enc_user s l uid task uname))).
Proof.
  intros Hu Hl Hb. unfold User_packlen. rewrite Hu, bind_Ret_l. apply Forall_cons in Hl as [[t Ht] Hl].
  destruct (enc_at_length s task t Ht) as [Hlt He].
  assert (Hlen : Z.of_nat (length (enc_user s l uid task uname)) = 80 + Z.of_nat (length (concat (map (enc_at s) l))) + Z.of_nat (length uname)).
  { unfold enc_user. rewrite !length_app, !le_enc_length, Hlt. lia. }
  rewrite Hlen in *. unfold INT_MAX, len_varint, SIZEOF_INT64 in *. sint_step.
  rewrite (tasks_packlen_ok s l Hl) by (unfold INT_MAX; lia). rewrite bind_Ret_l. do 3 sint_step. rewrite Ht, bind_Ret_l.
  change Task_packlen with (Ret 32). rewrite bind_Ret_l. do 2 sint_step. unfold len_string, len_varint, SIZEOF_INT64. sint_step.
  rewrite (wrapU_id 64 (0 + 8)) by (unfold in_u; lia). rewrite wrapU_id by (unfold in_u; lia). rewrite wrapS_id by (unfold in_s; lia).
  rewrite bind_Ret_l. rewrite sint_ok by (unfold INT_MIN, INT_MAX; lia). f_equal. lia.
Qed.

(** ** The string of a record *)

Section Tostring.
Context {F : LuaFmt} {A : Allocator} {AOk : AllocatorOk A}.
Implicit Types s : st.

(** A record packed into the static buffer: its bytes, and the buffer has the size of the
    largest record so far; or nothing, and no buffer, when the buffer was too small and malloc
    had no larger one.  The writes stay in the buffer's block. *)
Definition packed_result (s : st) (v : bytes) (x : res (list lval * st)) : Prop :=
  let n := Z.of_nat (length v) in
  let fits := room_for (hp s) (s_tostring_buf s) (s_tostring_buf_len s) n in
  exists s', x = Ret (if fits then [LStr v] else [], s') /\
    s_tostring_buf_len s' = (if fits then Z.max (s_tostring_buf_len s) n else 0) /\
    buffer_ok (hp s') (s_tostring_buf s') (s_tostring_buf_len s') /\ others_kept (s_tostring_buf s) (hp s) (hp s') /\
    objs s' = objs s /\ next_obj s' = next_obj s /\ structs s' = structs s /\ next_struct s' = next_struct s.

Lemma tostring_ok packlen pack v s : buffer_ok (hp s) (s_tostring_buf s) (s_tostring_buf_len s) ->
  0 < Z.of_nat (length v) <= INT_MAX -> packlen = Ret (Z.of_nat (length v)) -> writes pack v ->
  packed_result s v (tostring packlen pack s).
Proof.
  intros Hb Hv -> Hw. unfold tostring, grow_tostring. rewrite bind_Ret_l. unfold INT_MAX in *.
  destruct (regrow_ok (hp s) (s_tostring_buf s) (s_tostring_buf_len s) (Z.of_nat (length v)) Hb) as (h & p & len & H & Hb' & Hk & Hlen & Hg); [lia|].
  rewrite H, !bind_Ret_l. unfold packed_result. cbv zeta. destruct (room_for _ _ _ _) eqn:Eg; cbn [negb].
  2:{ eexists. split; [done|]. by split_and!. }
  destruct (Hg eq_refl) as (Hblk & Hfresh). destruct Hb' as (Hh & Hl & _). cbn [set_buf s_tostring_buf hp s_tostring_buf_len].
  destruct (heap_mapped _ Hh _ _ Hblk) as [_ Hm]. destruct (mstore_mapped (h_mem h) p v) as [m Hs]; [intros x Hx; apply Hm; lia|].
  rewrite (Hw _ _ _ ltac:(unfold INT_MAX; lia) Hs), bind_Ret_l, (loadz_mload _ _ _ (mload_mstore_same _ _ _ _ Hs)). cbn [of_option]. rewrite bind_Ret_l.
  eexists. split; [done|]. unfold buffer_ok. cbn. split; [done|].
  split; [split_and!; [by eapply mstore_heap_ok|done|by right]|]. split; [|done].
  intros q n k d Hq Hne Hkn Hd. destruct (Hk q n k d Hq Hne Hkn Hd) as [Hq' Hd'].
  destruct (decide (q = p)) as [->|Hqp]; [by destruct (Hfresh _ _ Hq Hne)|].
  eapply (mstore_others h p len v m); [done|done|lia|exact Hs|exact Hq'|done|done|exact Hd'].
Qed.

Lemma wf_tasks_live s p l uid task uname : wf s -> objs s !! p = Some (User l uid task uname) -> tasks_live s (task :: l).
Proof.
  intros [[_ _ Hlive _ _] _] Hp. apply Forall_forall. intros q Hq. destruct (Hlive p _ q Hp Hq) as (y & Hy & Hyt).
  unfold as_task. rewrite Hy. destruct y as [a b|]; [by exists (a, b)|done].
Qed.

(** C21. tostring gives a script the packed form of a user: every number in eight bytes, each
    field behind its tag, the tasks of the vector one after the other behind one tag, the
    name behind its length.  bytesize is its length.  The bytes are written into the static
    buffer, which then has the size of the largest record so far, and no other block of the
    heap changes.  Only when the buffer is too small and malloc has no larger block is there
    no result, and no buffer.  The packed form has at most INT_MAX bytes. *)
Theorem user_tostring_spec p x l uid task uname s :
  wf s -> structs s !! p = Some x -> objs s !! msg x = Some (User l uid task uname) ->
  Z.of_nat (length (enc_user s l uid task uname)) <= INT_MAX ->
  lactordb_user_bytesize [LUser p] s = Ret ([lua_pushinteger (Z.of_nat (length (enc_user s l uid task uname)))], s) /\
  packed_result s (enc_user s l uid task uname) (lactordb_user_tostring [LUser p] s).
Proof.
  intros Hwf Hx Hu Hb. pose proof (wf_tasks_live _ _ _ _ _ _ Hwf Hu) as Hl.
  assert (Hau : as_user s (msg x) = Ret (l, uid, task, uname)) by (unfold as_user; by rewrite Hu).
  pose proof (user_packlen_ok s (msg x) l uid task uname Hau Hl Hb) as Hpl.
  assert (Hself : self [LUser p] s = Ret x) by (unfold self; change (lua_touserdata [LUser p] 1) with p; by rewrite Hx).
  unfold lactordb_user_bytesize, lactordb_user_tostring. rewrite Hself, !bind_Ret_l. split; [by rewrite Hpl|].
  apply tostring_ok; [apply Hwf| |done|by apply user_writes].
  split; [|done]. unfold enc_user. rewrite length_app, le_enc_length. lia.
Qed.
End Tostring.

(** ** Every function of the module keeps the ownership *)

Section Invariant.
Context {F : LuaFmt} {A : Allocator} {AOk : AllocatorOk A}.
Implicit Types s : st.

Definition keeps (f : lfunction) : Prop := forall L s r s', wf s -> f L s = Ret (r, s') -> wf s'.

Lemma wf_update s p x y : wf s -> objs s !! p = Some x -> owned y = owned x -> is_task y = is_task x -> wf (put_obj s p y).
Proof. intros (H1 & H2 & H3) Hp Ho Ht. split_and!; [by eapply objs_update|done|done]. Qed.

Lemma wf_struct s m r : wf s -> (forall q, r = Some q -> is_Some (structs s !! q)) -> wf (snd (new_struct m r s)).
Proof.
  intros (H1 & H2 & H3) Hr. split_and!; [done| |done]. cbn. intros p x [[<- <-]|[Hne Hp]]%lookup_insert_Some.
  - split; [lia|]. cbn. destruct r as [q|]; cbn; [|rewrite lookup_insert_eq; eauto].
    destruct (Hr q eq_refl) as [y Hy]. destruct (decide (q = next_struct s)) as [->|Hq]; [rewrite lookup_insert_eq; eauto|].
    rewrite lookup_insert_ne by done. eauto.
  - destruct (H2 p x Hp) as [Hlt [y Hy]]. split; [lia|].
    destruct (decide (root x = next_struct s)) as [->|Hq]; [rewrite lookup_insert_eq; eauto|]. rewrite lookup_insert_ne by done. eauto.
Qed.

Lemma self_Ret L s x : self L s = Ret x -> wf s -> structs s !! lua_touserdata L 1 = Some x /\ is_Some (structs s !! root x).
Proof. intros H (_ & Hs & _). apply of_option_Ret in H. split; [done|]. by eapply Hs. Qed.
Lemma as_task_Ret s p t : as_task s p = Ret t -> objs s !! p = Some (Task t.1 t.2).
Proof. unfold as_task. destruct (objs s !! p) as [[a u|]|]; try done. by intros [= <-]. Qed.
Lemma as_user_Ret s p l uid task uname : as_user s p = Ret (l, uid, task, uname) -> objs s !! p = Some (User l uid task uname).
Proof. unfold as_user. destruct (objs s !! p) as [[|l' u' t' n']|]; try done. by intros [= -> -> -> ->]. Qed.

Lemma self_task_Ret L s x t : self_task L s = Ret (x, t) -> wf s ->
  objs s !! msg x = Some (Task t.1 t.2) /\ is_Some (structs s !! root x).
Proof. unfold self_task. intros H Hwf. res_inv. split; [by apply as_task_Ret|by eapply self_Ret]. Qed.
Lemma self_user_Ret L s x l uid task uname : self_user L s = Ret (x, (l, uid, task, uname)) -> wf s ->
  objs s !! msg x = Some (User l uid task uname) /\ is_Some (structs s !! root x).
Proof. unfold self_user. intros H Hwf. res_inv. split; [by apply as_user_Ret|by eapply self_Ret]. Qed.

(** [open_task], [open_user]: the object the call is about. *)
Ltac open_task :=
  let L := fresh "L" in let s := fresh "s" in let r := fresh "r" in let s' := fresh "s'" in let Hwf := fresh "Hwf" in let H := fresh "H" in
  intros L s r s' Hwf H; hnf in H; apply bind_Ret_inv in H as ([x [taskid uid]] & Hself & H);
  destruct (self_task_Ret _ _ _ _ Hself Hwf) as [Hobj Hroot]; cbn [fst snd] in Hobj.
Ltac open_user :=
  let L := fresh "L" in let s := fresh "s" in let r := fresh "r" in let s' := fresh "s'" in let Hwf := fresh "Hwf" in let H := fresh "H" in
  intros L s r s' Hwf H; hnf in H; apply bind_Ret_inv in H as ([x [[[l uid] task] uname]] & Hself & H);
  destruct (self_user_Ret _ _ _ _ _ _ _ Hself Hwf) as [Hobj Hroot].

Lemma nothing_keeps : keeps (fun _ s => nothing s).
Proof. intros L s r s' Hwf [= _ <-]. done. Qed.

Lemma task_get_keeps f : f = lactordb_task_get_taskid \/ f = lactordb_task_get_uid -> keeps f.
Proof. intros [-> | ->]; open_task; by injection H as _ <-. Qed.
Lemma task_set_keeps f : f = lactordb_task_set_taskid \/ f = lactordb_task_set_uid -> keeps f.
Proof. intros [-> | ->]; open_task; injection H as _ <-; by eapply wf_update. Qed.
Lemma user_get_keeps f : f = lactordb_user_get_uid \/ f = lactordb_user_get_uname \/ f = lactordb_user_count_task_array -> keeps f.
Proof. intros [-> |[-> | ->]]; open_user; by injection H as _ <-. Qed.
Lemma user_set_uid_keeps : keeps lactordb_user_set_uid.
Proof. open_user. injection H as _ <-. by eapply wf_update. Qed.
Lemma user_set_uname_keeps : keeps lactordb_user_set_uname.
Proof. open_user. apply bind_Ret_inv in H as (v & _ & H). injection H as _ <-. by eapply wf_update. Qed.
Lemma user_get_task_keeps : keeps lactordb_user_get_task.
Proof. open_user. cbn in H. injection H as _ <-. apply (wf_struct s task (Some (root x)) Hwf). by intros q [= <-]. Qed.
Lemma user_get_task_array_keeps : keeps lactordb_user_get_task_array.
Proof.
  open_user. destruct (negb _); [by injection H as _ <-|]. apply bind_Ret_inv in H as (v & _ & H). cbn in H. injection H as _ <-.
  apply (wf_struct s v (Some (root x)) Hwf). by intros q [= <-].
Qed.

Lemma fresh_unowned o n : objs_ok o n -> unowned (<[n := Task 0 0]> o) n.
Proof.
  intros [H0 H1 H2 _ _] p x [[<- <-]|[_ Hp]]%lookup_insert_Some; [cbn; set_solver|]. intros Hin.
  destruct (H2 _ _ _ Hp Hin) as (y & Hy & _). apply H1 in Hy. lia.
Qed.

Lemma user_add_keeps : keeps lactordb_user_add_task_array.
Proof.
  open_user. injection H as _ <-. destruct Hwf as (H1 & H2 & H3). set (n := next_obj s) in *.
  apply (wf_struct (put_obj (snd (new new_Task s)) (msg x) (User (l ++ [n]) uid task uname)) n (Some (root x))); [|by intros q [= <-]].
  split_and!; [|done|done]. cbn. pose proof (o_range _ _ H1 _ _ Hobj) as Hr. pose proof (o_nodup _ _ H1 _ _ Hobj) as Hnd. cbn [owned] in Hnd.
  assert (Hnew : n ∉ task :: l).
  { intros Hin. destruct (o_live _ _ H1 _ _ n Hobj Hin) as (y & Hy & _). apply (o_range _ _ H1) in Hy. lia. }
  eapply (objs_give _ (n + 1) _ (msg x) n _ (User l uid task uname)).
  - by apply objs_new_task.
  - by apply fresh_unowned.
  - exists new_Task. by rewrite lookup_insert_eq.
  - left. rewrite lookup_insert_ne by (unfold n; lia). done.
  - done.
  - cbn [owned]. change (task :: l ++ [n]) with ((task :: l) ++ [n]). apply NoDup_app. split; [done|]. split; [set_solver|apply NoDup_singleton].
  - intros r'. cbn [owned]. set_solver.
  - done.
  - fold n in Hr. lia.
Qed.

Lemma user_new_keeps : keeps lactordb_user_new.
Proof.
  intros L s r s' Hwf H. cbn in H. injection H as _ <-. destruct Hwf as (H1 & H2 & H3). set (n := next_obj s) in *.
  apply (wf_struct (snd (new (User [] 0 n []) (snd (new new_Task s)))) (n + 1) None); [|done].
  split_and!; [|done|done]. cbn. pose proof (o_next _ _ H1). fold n.
  apply (objs_give _ (n + 1) _ (n + 1) n _ new_Task); [by apply objs_new_task|by apply fresh_unowned| |by right|done|apply NoDup_singleton| |lia|lia].
  - exists new_Task. by rewrite lookup_insert_eq.
  - intros r'. cbn [owned]. set_solver.
Qed.
Lemma task_new_keeps : keeps lactordb_task_new.
Proof.
  intros L s r s' (H1 & H2 & H3) H. cbn in H. injection H as _ <-.
  apply (wf_struct (snd (new new_Task s)) (next_obj s) None); [|done]. split_and!; [by apply objs_new_task|done|done].
Qed.

(** The task that is freed is live: del_task_array never frees twice. *)
Lemma user_del_keeps : keeps lactordb_user_del_task_array.
Proof.
  open_user. cbv zeta in H. destruct (negb _); [by injection H as _ <-|].
  apply bind_Ret_inv in H as (q & Hq & H). apply of_option_Ret in Hq. apply bind_Ret_inv in H as (s1 & Hd & H). cbn in H. injection H as _ <-.
  destruct Hwf as (H1 & H2 & H3). destruct (o_live _ _ H1 _ _ q Hobj) as (y & Hy & _); [right; by eapply list_elem_of_lookup_2|].
  pose proof (o_range _ _ H1 _ _ Hy). unfold delete_Task in Hd. destruct (Z.eqb_spec q 0); [lia|]. cbn in Hd.
  destruct (_ !! q) as [[a b|]|]; try done. injection Hd as <-. split_and!; [|done|done]. by apply objs_take.
Qed.

(** *** tostring *)

(** A writer changes no block, and keeps what is mapped. *)
Definition stores (w : Z -> gmap Z Z -> res (Z * gmap Z Z)) : Prop :=
  forall b m n m' blk, w b m = Ret (n, m') -> heap_ok (Heap m blk) -> heap_ok (Heap m' blk).

Lemma mstore_stores v f : stores (fun b m => m' ← of_option (mstore m b v); Ret (f, m')).
Proof. intros b m n m' blk H Hh. res_inv. by apply (mstore_heap_ok (Heap m blk) b v). Qed.
Lemma emit_stores w pl pl' blk : stores w -> emit w pl = Ret pl' -> heap_ok (Heap pl.2 blk) -> heap_ok (Heap pl'.2 blk).
Proof. destruct pl as [[b t] m]. intros Hw H Hh. unfold emit in H. apply bind_Ret_inv in H as ([n m'] & Hr & H). res_inv. by eapply Hw. Qed.
(** The next write of [H] keeps the heap. *)
Ltac stored lem H :=
  let pl := fresh "pl" in let He := fresh "He" in
  apply bind_Ret_inv in H as (pl & He & H); eapply emit_stores in He; [|apply lem|eassumption].
Ltac stored_all H := injection H as H; match type of H with written ?pl = _ => destruct pl as [[] ?]; cbn in H; simplify_eq; done end.

Lemma task_stores t : stores (Task_pack t).
Proof.
  destruct t as [a u]. intros b m n m' blk H Hh. change (heap_ok (Heap ((b, 0, m) : place).2 blk)) in Hh. unfold Task_pack in H.
  do 4 stored mstore_stores H. stored_all H.
Qed.
Lemma buf_stores v : stores (write_buf v).
Proof. intros b m n m' blk H. unfold write_buf in H. destruct (_ <=? _); [|done]. by eapply mstore_stores. Qed.
Lemma string_stores v : stores (write_string v).
Proof.
  intros b m n m' blk H Hh. change (heap_ok (Heap ((b, 0, m) : place).2 blk)) in Hh. unfold write_string in H.
  stored mstore_stores H. stored buf_stores H. stored_all H.
Qed.
Lemma tasks_stores s l blk : forall pl pl', tasks_pack s l pl = Ret pl' -> heap_ok (Heap pl.2 blk) -> heap_ok (Heap pl'.2 blk).
Proof.
  induction l as [|p l IH]; intros pl pl' H Hh; cbn [tasks_pack] in H; [by simplify_eq|].
  apply bind_Ret_inv in H as (t & _ & H). stored task_stores H. by eapply IH.
Qed.
Lemma user_stores s p : stores (User_pack s p).
Proof.
  intros b m n m' blk H Hh. change (heap_ok (Heap ((b, 0, m) : place).2 blk)) in Hh. unfold User_pack in H.
  apply bind_Ret_inv in H as ([[[l uid] task] uname] & _ & H). stored mstore_stores H.
  apply bind_Ret_inv in H as (pl1 & Ht & H). eapply tasks_stores in Ht; [|eassumption].
  do 3 stored mstore_stores H. apply bind_Ret_inv in H as (t & _ & H). stored task_stores H. stored mstore_stores H. stored string_stores H. stored_all H.
Qed.

Lemma grow_keeps n s g s1 : wf s -> n <= INT_MAX -> grow_tostring n s = Ret (g, s1) -> wf s1.
Proof.
  intros (H1 & H2 & H3) Hn H. unfold INT_MAX in Hn. unfold grow_tostring in H.
  assert (Hb : forall x, regrow (hp s) (s_tostring_buf s) (s_tostring_buf_len s) n = Ret x -> buffer_ok x.2.1.1 x.2.1.2 x.2.2).
  { intros x Hx. destruct (decide (0 < n)) as [Hp|Hp].
    - destruct (regrow_ok (hp s) (s_tostring_buf s) (s_tostring_buf_len s) n H3 ltac:(lia)) as (? & ? & ? & E & Hb & _).
      rewrite E in Hx. by injection Hx as <-.
    - unfold regrow in Hx. pose proof H3 as (_ & Hl & _). destruct (Z.ltb_spec (s_tostring_buf_len s) n); [lia|]. by injection Hx as <-. }
  apply bind_Ret_inv in H as ([g' [[h p] len]] & Hr & H). apply Hb in Hr. injection H as _ <-. by split_and!.
Qed.

Lemma tostring_keeps packlen pack s : stores pack -> (forall n, packlen = Ret n -> n <= INT_MAX) ->
  forall r s', wf s -> tostring packlen pack s = Ret (r, s') -> wf s'.
Proof.
  intros Hp Hn r s' Hwf H. unfold tostring in H. apply bind_Ret_inv in H as (n & Hl & H). apply Hn in Hl.
  apply bind_Ret_inv in H as ([g s1] & Hg & H). apply (grow_keeps _ _ _ _ Hwf Hl) in Hg.
  destruct (negb g); [by injection H as _ <-|].
  apply bind_Ret_inv in H as ([t m] & Hpack & H). apply bind_Ret_inv in H as (text & _ & H). injection H as _ <-.
  destruct Hg as (H1 & H2 & Hh & H3). split_and!; [done|done|]. split; [|done]. apply (Hp _ _ _ _ (h_blk (hp s1)) Hpack). by destruct (hp s1).
Qed.

Lemma task_tostring_keeps : keeps lactordb_task_tostring.
Proof.
  open_task. eapply tostring_keeps; [apply task_stores| |exact Hwf|exact H]. intros n [= <-]. by unfold INT_MAX.
Qed.
Lemma user_packlen_max s p n : User_packlen s p = Ret n -> n <= INT_MAX.
Proof.
  intros H. unfold User_packlen in H. apply bind_Ret_inv in H as ([[[l uid] task] uname] & _ & H).
  do 10 apply bind_Ret_inv in H as (? & _ & H). apply sint_Ret in H. lia.
Qed.
Lemma user_tostring_keeps : keeps lactordb_user_tostring.
Proof.
  intros L s r s' Hwf H. unfold lactordb_user_tostring in H. apply bind_Ret_inv in H as (x & _ & H).
  eapply tostring_keeps; [apply user_stores|apply user_packlen_max|exact Hwf|exact H].
Qed.
Lemma bytesize_keeps f : f = lactordb_task_bytesize \/ f = lactordb_user_bytesize -> keeps f.
Proof.
  intros [-> | ->] L s r s' Hwf H; hnf in H.
  - apply bind_Ret_inv in H as ([x t] & _ & H). by injection H as _ <-.
  - apply bind_Ret_inv in H as (x & _ & H). apply bind_Ret_inv in H as (n & _ & H). by injection H as _ <-.
Qed.

(** *** The functions of a metatable *)

Lemma find_keeps (name : bytes) (l : list (bytes * lfunction)) f : Forall (fun kf => keeps kf.2) l -> find name l = Some f -> keeps f.
Proof. induction 1 as [|[k g] l Hg _ IH]; cbn [find]; [done|]. case_bool_decide; [by intros [= <-]|done]. Qed.
Lemma get_from_keeps methods funcs : Forall (fun kf => keeps kf.2) methods -> keeps (get_from methods funcs).
Proof.
  intros Hm L s r s' Hwf H. unfold get_from in H. apply bind_Ret_inv in H as (name & _ & H).
  destruct (find name methods) as [f|] eqn:Ef; [exact (find_keeps _ _ _ Hm Ef _ _ _ _ Hwf H)|].
  destruct (find name funcs); by injection H as _ <-.
Qed.
Lemma set_from_keeps methods : Forall (fun kf => keeps kf.2) methods -> keeps (set_from methods).
Proof.
  intros Hm L s r s' Hwf H. unfold set_from in H. apply bind_Ret_inv in H as (name & _ & H).
  destruct (find name methods) as [f|] eqn:Ef; [exact (find_keeps _ _ _ Hm Ef _ _ _ _ Hwf H)|]. by injection H as _ <-.
Qed.

Lemma get_methods_keep : Forall (fun kf => keeps kf.2) actordb_task_get_method /\ Forall (fun kf => keeps kf.2) actordb_user_get_method.
Proof.
  split; repeat (apply Forall_cons; split; cbn [snd]); try apply Forall_nil; try done.
  1,2: apply task_get_keeps; auto.
  1,3: apply user_get_keeps; auto.
  apply user_get_task_keeps.
Qed.
Lemma set_methods_keep : Forall (fun kf => keeps kf.2) actordb_task_set_method /\ Forall (fun kf => keeps kf.2) actordb_user_set_method.
Proof.
  split; repeat (apply Forall_cons; split; cbn [snd]); try apply Forall_nil; try done.
  1,2: apply task_set_keeps; auto.
  - apply user_set_uid_keeps.
  - apply user_set_uname_keeps.
Qed.
Lemma new_keeps : keeps lactordb_new.
Proof.
  intros L s r s' Hwf H. unfold lactordb_new in H. apply bind_Ret_inv in H as (name & _ & H). apply bind_Ret_inv in H as (f & Hf & H).
  apply of_option_Ret in Hf. assert (Hk : keeps f); [|exact (Hk _ _ _ _ Hwf H)].
  eapply find_keeps; [|exact Hf]. repeat (apply Forall_cons; split; cbn [snd]); [apply task_new_keeps|apply user_new_keeps|by apply Forall_nil].
Qed.

(** What a script can call: the module's function, the metamethods, and the functions the
    __index of a handle gives. *)
Definition api : list lfunction :=
  [lactordb_new; lactordb_task_get; lactordb_task_set; lactordb_task_gc; lactordb_user_get; lactordb_user_set; lactordb_user_gc;
   lactordb_task_totable; lactordb_task_tostring; lactordb_task_bytesize; lactordb_user_totable; lactordb_user_tostring; lactordb_user_bytesize;
   lactordb_user_get_task_array; lactordb_user_add_task_array; lactordb_user_count_task_array; lactordb_user_del_task_array].

Lemma store_api_keeps f : f ∈ api -> keeps f.
Proof.
  intros Hf. unfold api in Hf. repeat (apply elem_of_cons in Hf as [-> |Hf]); [..|by apply elem_of_nil in Hf];
    try apply nothing_keeps; try apply get_from_keeps; try apply set_from_keeps; try apply get_methods_keep; try apply set_methods_keep.
  - apply new_keeps.
  - apply task_tostring_keeps.
  - by apply bytesize_keeps; left.
  - apply user_tostring_keeps.
  - by apply bytesize_keeps; right.
  - apply user_get_task_array_keeps.
  - apply user_add_keeps.
  - apply user_get_keeps; auto.
  - apply user_del_keeps.
Qed.
(** The states a script can bring about, from the module's start. *)
Definition init_st : st := St ∅ 1 ∅ 1 (Heap ∅ ∅) NULL 0.
Inductive reach : st -> Prop :=
| reach_init : reach init_st
| reach_call f L s r s' : reach s -> f ∈ api -> f L s = Ret (r, s') -> reach s'.

Lemma init_wf : wf init_st.
Proof.
  split_and!; [split; [done|..]; intros; set_solver|done|]. split; [|split; [done|by left]]. split; done.
Qed.
Lemma reach_wf s : reach s -> wf s.
Proof. induction 1 as [|f L s r s' _ IH Hf H]; [apply init_wf|by eapply store_api_keeps]. Qed.

Lemma self_user_ok s p x l uid task uname L : structs s !! p = Some x -> objs s !! msg x = Some (User l uid task uname) ->
  self_user (LUser p :: L) s = Ret (x, (l, uid, task, uname)).
Proof. intros Hx Hu. unfold self_user, self, as_user. change (lua_touserdata (LUser p :: L) 1) with p. by rewrite Hx; cbn; rewrite Hu. Qed.
Lemma index_arg_range L : INT_MIN <= index_arg L <= INT_MAX.
Proof. unfold index_arg. pose proof (wrapS_range 32 (lua_tointeger L 2) ltac:(lia)) as H. unfold in_s, INT_MIN, INT_MAX in *. lia. Qed.
Lemma in_array_lookup (i : Z) (l : list Z) : INT_MIN <= i <= INT_MAX -> in_array i l = true -> exists q, l !! Z.to_nat i = Some q.
Proof.
  intros Hi H. unfold in_array in H. apply negb_true_iff, orb_false_iff in H as [H1 H2]. unfold INT_MIN, INT_MAX in Hi.
  apply Z.ltb_ge in H1. rewrite wrapU_id in H2 by (unfold in_u; lia). apply Z.leb_gt in H2. apply lookup_lt_is_Some. lia.
Qed.

(** C20. Whatever a script calls: a user owns its task and the tasks of its vector, all live and
    all different, and no other user has any of them.  So del_task_array, whatever its
    argument, never frees a task twice or one that is gone. *)
Theorem api_owned s p x l uid task uname : reach s -> structs s !! p = Some x -> objs s !! msg x = Some (User l uid task uname) ->
  NoDup (task :: l) /\
  (forall q, q ∈ task :: l -> (exists taskid u, objs s !! q = Some (Task taskid u)) /\
     forall p' y, objs s !! p' = Some y -> q ∈ owned y -> p' = msg x) /\
  forall L, exists r s', lactordb_user_del_task_array (LUser p :: L) s = Ret (r, s').
Proof.
  intros Hr Hx Hu. apply reach_wf in Hr as (H1 & _ & _). split; [exact (o_nodup _ _ H1 _ _ Hu)|]. split.
  - intros q Hq. split; [|intros p' y Hy Hqy; by eapply (o_owner _ _ H1)].
    destruct (o_live _ _ H1 _ _ q Hu Hq) as ([a b|] & Hy & Ht); [by exists a, b|done].
  - intros L. unfold lactordb_user_del_task_array. rewrite (self_user_ok _ _ _ _ _ _ _ L Hx Hu), bind_Ret_l. cbv zeta. set (i := index_arg _). destruct (in_array i l) eqn:Ei; cbn [negb]; [|by eexists _, _].
    destruct (in_array_lookup i l) as [q Hq]; [by apply index_arg_range|done|]. rewrite Hq. cbn [of_option]. rewrite bind_Ret_l.
    assert (Hin : q ∈ l) by by eapply list_elem_of_lookup_2.
    destruct (o_live _ _ H1 _ _ q Hu) as ([a b|] & Hy & Ht); [by right|..|done]. pose proof (o_range _ _ H1 _ _ Hy).
    unfold delete_Task. destruct (Z.eqb_spec q 0); [lia|]. cbn. rewrite lookup_insert_ne by congruence. rewrite Hy. by eexists _, _.
Qed.
End Invariant.

(** ** Unpacking

    The handlers of both classes store nothing, so an object unpacked from bytes stays as it
    was; and the loop believes every length it reads. *)
Lemma unpack_keeps fuel methods self buf : Forall (fun m => match m with Some f => f = unpack_nothing | None => True end) methods ->
  forall buflen totallen s n s', unpack fuel methods self buf buflen totallen s = Ret (n, s') -> s' = s.
Proof.
  intros Hm. revert buf. induction fuel as [|fuel IH]; intros buf buflen totallen s n s' H; cbn [unpack] in H.
  - destruct (0 <? buflen); [done|]. by injection H.
  - destruct (0 <? buflen); [|by injection H].
    apply bind_Ret_inv in H as ([ir tag] & _ & H). do 2 apply bind_Ret_inv in H as (? & _ & H).
    apply bind_Ret_inv in H as ([ir' varlen] & _ & H). do 2 apply bind_Ret_inv in H as (? & _ & H).
    apply bind_Ret_inv in H as (f & Hf & H). apply of_option_Ret in Hf.
    apply bind_Ret_inv in H as ([k s1] & Hc & H). do 2 apply bind_Ret_inv in H as (? & _ & H). apply IH in H as ->.
    destruct (0 <=? tag); [|done]. eapply Forall_lookup_1 in Hm; [|exact Hf]. destruct f as [f|]; [subst f|]; by injection Hc.
Qed.

(** ** Examples *)

(** A script's calls in sequence. *)
Fixpoint run (l : list (lfunction * list lval)) (s : st) : res st :=
  match l with [] => Ret s | (f, L) :: l => '(_, s) ← f L s; run l s end.

Lemma reach_run {F : LuaFmt} {A : Allocator} l : Forall (fun c => c.1 ∈ api) l -> forall s s', reach s -> run l s = Ret s' -> reach s'.
Proof.
  induction 1 as [|[f L] l Hf _ IH]; intros s s' Hs H; cbn [run] in H; [by injection H as <-|].
  apply bind_Ret_inv in H as ([r s1] & Hr & H). eapply IH; [by eapply reach_call|exact H].
Qed.

(** A user with a name and one task in its vector, whose number is set: the handles are at 0
    and 1 of the userdata, the objects 1 (its own task), 2 (the user) and 3. *)
Definition ex_calls : list (lfunction * list lval) :=
  [(@lactordb_new NoFmt, [LStr (lit "User")]);
   (@lactordb_user_set NoFmt, [LUser 1; LStr (lit "uname"); LStr (lit "bob")]);
   (@lactordb_user_set NoFmt, [LUser 1; LStr (lit "uid"); LNum (d_of_Z 7)]);
   (lactordb_user_add_task_array, [LUser 1]);
   (@lactordb_task_set NoFmt, [LUser 2; LStr (lit "taskid"); LNum (d_of_Z (-1))])].
Definition ex_user : st := match run ex_calls init_st with Ret s => s | _ => init_st end.

Lemma ex_user_reach : @reach NoFmt Bump ex_user.
Proof.
  apply (@reach_run NoFmt Bump ex_calls) with (s := init_st); [|apply reach_init|by vm_compute].
  assert (H : forall n f, @api NoFmt Bump !! n = Some f -> f ∈ @api NoFmt Bump) by (intros n f; apply list_elem_of_lookup_2).
  repeat (apply Forall_cons; split; cbn [fst]); [by apply (H 0%nat)|by apply (H 5%nat)|by apply (H 5%nat)|by apply (H 14%nat)|by apply (H 2%nat)|by apply Forall_nil].
Qed.

Lemma api_owned_witness : objs ex_user !! 2 = Some (User [3] 7 1 (lit "bob")) /\
  (NoDup [1; 3] /\
   (forall q, q ∈ [1; 3] -> (exists taskid u, objs ex_user !! q = Some (Task taskid u)) /\
      forall p' y, objs ex_user !! p' = Some y -> q ∈ owned y -> p' = 2) /\
   forall L, exists r s', @lactordb_user_del_task_array NoFmt (LUser 1 :: L) ex_user = Ret (r, s')).
Proof.
  split; [by vm_compute|].
  exact (@api_owned NoFmt Bump Bump_ok ex_user 1 (LStruct 2 1) [3] 7 1 (lit "bob") ex_user_reach eq_refl eq_refl).
Defined.

Lemma user_tostring_spec_witness :
  let v := enc_user ex_user [3] 7 1 (lit "bob") in length v = 115%nat /\
  @lactordb_user_bytesize [LUser 1] ex_user = Ret ([lua_pushinteger (Z.of_nat (length v))], ex_user) /\
  @packed_result Bump ex_user v (@lactordb_user_tostring Bump [LUser 1] ex_user).
Proof.
  split; [by vm_compute|].
  apply (@user_tostring_spec Bump Bump_ok 1 (LStruct 2 1) [3] 7 1 (lit "bob") ex_user); [apply (@reach_wf NoFmt Bump Bump_ok), ex_user_reach|done|done|].
  apply Z.leb_le. by vm_compute.
Defined.

(** The handle of a task that was deleted dangles: its use is undefined. *)
Example handle_dangles :
  (s ← run [(@lactordb_user_del_task_array NoFmt, [LUser 1; LNum (d_of_Z 0)])] ex_user;
   @lactordb_task_get NoFmt [LUser 2; LStr (lit "uid")] s) = Undef.
Proof. by vm_compute. Qed.

(** A name that is not a class calls a NULL pointer. *)
Example new_unknown : @lactordb_new NoFmt [LStr (lit "Item")] init_st = Undef.
Proof. by vm_compute. Qed.

(** A task unpacked from the bytes of another stays as it was; and a negative length sends
    the loop back to where it was. *)
Definition at_start (v : bytes) : heap := Heap (list_to_map (imap (fun i c => (1 + Z.of_nat i, c)) v)) {[1 := Z.of_nat (length v)]}.
Example unpack_reads_nothing :
  (let s := set_buf (put_obj init_st 5 (Task 8 9)) (at_start (enc_task (0, 0))) NULL 0 in
   '(n, s') ← Task_unpack 3 5 1 32 0 s; Ret (n, objs s' !! 5)) = Ret (32, Some (Task 8 9)).
Proof. by vm_compute. Qed.

Lemma unpack_never_ends fuel :
  Task_unpack fuel 5 1 16 0 (set_buf init_st (at_start (le_enc 8 1 ++ le_enc 8 (-16))) NULL 0) = NoFuel.
Proof. induction fuel as [|fuel IH]; [done|]. exact IH. Qed.
