(* ===== verification/Log.v ===== *)
(** * Log: the logger

    Source: src/3rd/common/log.c, log.h and src/src/log/llog.cc.  Log lines go to
    standard output, which log_logfile points to a file; after a number of lines the
    file is renamed with the time in its name and a new one is opened.  Statistics
    go to a file of their own in the same way.  A failed rotation is itself logged,
    so printing and rotating call each other.  The text a format and its arguments
    make is an argument; the system calls are the class [LogOs]. *)
From S2P Require Import Prelude Fmt Lua.
Local Open Scope Z_scope.

Definition ERROR : Z := 0.
Definition WARN : Z := 1.
Definition LOG : Z := 2.
Definition MSG : Z := 3.
Definition DEBUG : Z := 4.
Definition STAT : Z := 5.

Definition s_level_msg (level : Z) : option bytes :=
  map lit ["ERROR"; "WARN"; "LOG"; "MSG"; "DEBUG"; "STAT"]%string !! Z.to_nat level.

Definition FILENAME_MAX : Z := 4096.

Record tm := Tm { tm_year : Z; tm_mon : Z; tm_mday : Z; tm_hour : Z; tm_min : Z; tm_sec : Z }.

Class LogOs (E : Type) := {
  lg_time : E -> Z;
  lg_gettimeofday : E -> Z * Z;
  lg_localtime : Z -> option tm;
  lg_rename : bytes -> bytes -> E -> E;
  lg_open : bytes -> bool -> E -> Z * E;          (* true: O_TRUNC, false: O_APPEND *)
  lg_dup2 : Z -> Z -> E -> Z * E;
  lg_close : Z -> E -> E;
  lg_strerror : E -> bytes;
  lg_stdout : bytes -> E -> E;                    (* printed and flushed *)
  lg_fopen : bytes -> E -> Z * E;                 (* mode w+; 0: NULL *)
  lg_fclose : Z -> E -> E;
  lg_fprint : Z -> bytes -> E -> E;               (* printed and flushed *)
}.

(** The static variables of one kind of file: s_log_file (a flag) or s_stat_file (a FILE
    pointer), its counter, maximum, name and directory. *)
Record rotating := Rotating { r_file : Z; r_counter : Z; r_max : Z; r_name : bytes; r_dir : bytes }.
Definition set_counter (r : rotating) (n : Z) : rotating := Rotating (r_file r) n (r_max r) (r_name r) (r_dir r).
Definition set_file (r : rotating) (f : Z) : rotating := Rotating f (r_counter r) (r_max r) (r_name r) (r_dir r).

Record st (E : Type) := St {
  s_log_flag : Z;
  s_error_counter : Z;
  s_warn_counter : Z;
  s_log : rotating;
  s_stat : rotating;
  os : E;
}.
Arguments St {E}.
Arguments s_log_flag {E}.
Arguments s_error_counter {E}.
Arguments s_warn_counter {E}.
Arguments s_log {E}.
Arguments s_stat {E}.
Arguments os {E}.

Definition init_rotating : rotating := Rotating 0 0 10000 [] [].
Definition init_st {E} (e : E) : st E := St (-1) 0 0 init_rotating init_rotating e.

Section Log.
Context {E : Type} {OS : LogOs E}.
Implicit Types s : st E.

Definition set_flag s (f : Z) : st E := St f (s_error_counter s) (s_warn_counter s) (s_log s) (s_stat s) (os s).
Definition set_error s (n : Z) : st E := St (s_log_flag s) n (s_warn_counter s) (s_log s) (s_stat s) (os s).
Definition set_warn s (n : Z) : st E := St (s_log_flag s) (s_error_counter s) n (s_log s) (s_stat s) (os s).
Definition set_log s (r : rotating) : st E := St (s_log_flag s) (s_error_counter s) (s_warn_counter s) r (s_stat s) (os s).
Definition set_stat s (r : rotating) : st E := St (s_log_flag s) (s_error_counter s) (s_warn_counter s) (s_log s) r (os s).
Definition set_os s (e : E) : st E := St (s_log_flag s) (s_error_counter s) (s_warn_counter s) (s_log s) (s_stat s) e.

(** __FILE__:__LINE__ *)
Context (file_line : Z -> bytes).

(** ** Lines and names *)

(** year, month, day, hour, minute and second with separators between them *)
Definition stamp (seps : bytes) (t : tm) : res bytes :=
  year ← sint (tm_year t + 1900);
  let parts := [fmt_0d 4 year; fmt_0d 2 (tm_mon t + 1); fmt_0d 2 (tm_mday t); fmt_0d 2 (tm_hour t);
                fmt_0d 2 (tm_min t); fmt_0d 2 (tm_sec t)] in
  Ret (concat (zip_with (fun p c => p ++ [c]) (take 5 parts) seps) ++ fmt_0d 2 (tm_sec t)).

(** "[%04d-%02d-%02d %02d:%02d:%02d.%06ld][%s]", the text and the end of the line *)
Definition log_line (t : tm) (usec level : Z) (text : bytes) : res bytes :=
  date ← stamp (lit "-- ::") t;
  level_msg ← of_option (s_level_msg level);
  Ret (lit "[" ++ date ++ lit "." ++ fmt_0d 6 usec ++ lit "][" ++ level_msg ++ lit "]" ++ text ++ [10]).
Definition stat_line (t : tm) (text : bytes) : res bytes :=
  date ← stamp (lit "-- ::") t;
  Ret (lit "[" ++ date ++ lit "][STAT] " ++ text ++ [10]).

(** "%s/%s_%04d_%02d_%02d_%02d_%02d_%02d", into an array of FILENAME_MAX bytes *)
Definition rotated_path (r : rotating) (t : tm) : res bytes :=
  date ← stamp (lit "_____") t;
  let file_path := r_dir r ++ lit "/" ++ r_name r ++ lit "_" ++ date in
  if Z.of_nat (length file_path) <? FILENAME_MAX then Ret file_path else Undef.

(** ** Printing and rotating *)

Definition enabled s (level : Z) : bool := negb (Z.land (s_log_flag s) (Z.shiftl 1 level) =? 0).

(** The arguments of the second call are evaluated after the first.  Called with the function that prints, which rotates in turn. *)
Definition log_error_with (vprint : Z -> bytes -> st E -> res (st E)) (text : bytes) s : res (st E) :=
  n ← sint (s_error_counter s + 1);
  vprint ERROR text (set_error s n).
Definition LOG_ERROR (log_error : bytes -> st E -> res (st E)) (line : Z) (text : E -> bytes) s : res (st E) :=
  s ← log_error (file_line line) s;
  log_error (text (os s)) s.

Definition open_fail (name : bytes) (e : E) : bytes := lit "open file fail " ++ name ++ lit " " ++ lg_strerror e.

Definition rotate_log_file (log_error : bytes -> st E -> res (st E)) (force : bool) s : res (st E) :=
  if r_file (s_log s) =? 0 then Ret s
  else
    '(due, s) ← (if force then Ret (true, s)
                 else n ← sint (r_counter (s_log s) + 1);
                      Ret (r_max (s_log s) <? r_counter (s_log s), set_log s (set_counter (s_log s) n)));
    if (due : bool) then
      match lg_localtime (lg_time (os s)) with
      | None => s ← LOG_ERROR log_error 135 (fun _ => lit "localtime fail") s; Undef
      | Some tm =>
          file_path ← rotated_path (s_log s) tm;
          let s := set_os s (lg_rename (r_name (s_log s)) file_path (os s)) in
          let '(fd, e) := lg_open (r_name (s_log s)) true (os s) in
          let s := set_os s e in
          if fd =? -1 then
            let s := set_log s (set_counter (s_log s) 0) in
            LOG_ERROR log_error 151 (open_fail (r_name (s_log s))) s
          else
            let s := set_os s (lg_close fd (snd (lg_dup2 fd 1 (os s)))) in
            Ret (set_log s (set_counter (s_log s) 0))
      end
    else Ret s.

(** The line itself, after the rotation. *)
Definition print_line (level : Z) (text : bytes) s : res (st E) :=
  let '(sec, usec) := lg_gettimeofday (os s) in
  tm ← of_option (lg_localtime sec);
  line ← log_line tm usec level text;
  Ret (set_os s (lg_stdout line (os s))).

Fixpoint log_vprint (fuel : nat) (level : Z) (text : bytes) s : res (st E) :=
  match fuel with
  | O => NoFuel
  | S fuel =>
      if negb (enabled s level) then Ret s
      else
        s ← rotate_log_file (log_error_with (log_vprint fuel)) false s;
        print_line level text s
  end.

Definition log_error (fuel : nat) := log_error_with (log_vprint fuel).

Definition log_print (fuel : nat) (level : Z) (str : bytes) (str_len : Z) s : res (st E) :=
  if negb (enabled s level) then Ret s
  else
    s ← rotate_log_file (log_error fuel) false s;
    if (0 <=? str_len) && (str_len <=? Z.of_nat (length str)) then print_line level (take (Z.to_nat str_len) str) s
    else Undef.

(** When the new file cannot be opened the pointer is NULL and the counter stays. *)
Definition rotate_stat_file (fuel : nat) s : res (st E) :=
  n ← sint (r_counter (s_stat s) + 1);
  let due := r_max (s_stat s) <? r_counter (s_stat s) in
  let s := set_stat s (set_counter (s_stat s) n) in
  if due then
    let s := if negb (r_file (s_stat s) =? 0) then set_os s (lg_fclose (r_file (s_stat s)) (os s)) else s in
    match lg_localtime (lg_time (os s)) with
    | None => s ← LOG_ERROR (log_error fuel) 170 (fun _ => lit "localtime fail") s; Undef
    | Some tm =>
        file_path ← rotated_path (s_stat s) tm;
        let s := set_os s (lg_rename (r_name (s_stat s)) file_path (os s)) in
        let '(f, e) := lg_fopen (r_name (s_stat s)) (os s) in
        let s := set_stat (set_os s e) (set_file (s_stat s) f) in
        if f =? 0 then LOG_ERROR (log_error fuel) 184 (open_fail (r_name (s_stat s))) s
        else Ret (set_stat s (set_counter (s_stat s) 0))
    end
  else Ret s.

Definition stat_vprint (fuel : nat) (text : bytes) s : res (st E) :=
  if negb (r_file (s_stat s) =? 0) then
    s ← rotate_stat_file fuel s;
    tm ← of_option (lg_localtime (lg_time (os s)));
    line ← stat_line tm text;
    if r_file (s_stat s) =? 0 then Undef
    else Ret (set_os s (lg_fprint (r_file (s_stat s)) line (os s)))
  else Ret s.

(** ** The interface *)

Definition log_stat (fuel : nat) (text : bytes) s := stat_vprint fuel text s.
Definition log_msg (fuel : nat) (text : bytes) s := log_vprint fuel MSG text s.
Definition log_debug (fuel : nat) (text : bytes) s := log_vprint fuel DEBUG text s.
Definition log_log (fuel : nat) (text : bytes) s := log_vprint fuel LOG text s.
Definition log_warn (fuel : nat) (text : bytes) s : res (st E) :=
  n ← sint (s_warn_counter s + 1);
  log_vprint fuel WARN text (set_warn s n).

(** A shift of an int; its sign bit cannot be reached. *)
Definition bit (level : Z) : res Z := if (0 <=? level) && (level <? 31) then Ret (Z.shiftl 1 level) else Undef.
Definition log_openlevel (level : Z) s : res (st E) :=
  b ← bit level; Ret (set_flag s (Z.lor (s_log_flag s) b)).
Definition log_closelevel (level : Z) s : res (st E) :=
  b ← bit level; Ret (set_flag s (Z.land (s_log_flag s) (Z.lnot b))).
Definition log_closeall s : st E := set_flag s 0.

(** strcpy into an array of FILENAME_MAX bytes *)
Definition copy_name (t : bytes) : res bytes := if Z.of_nat (length t) <? FILENAME_MAX then Ret t else Undef.

Definition log_logstat (fuel : nat) (file_name : bytes) (file_max_linenum : Z) (file_dir : bytes) s : res (Z * st E) :=
  name ← copy_name file_name;
  dir ← copy_name file_dir;
  let '(f, e) := lg_fopen name (os s) in
  let s := set_stat (set_os s e) (Rotating f (r_counter (s_stat s)) file_max_linenum name dir) in
  if f =? 0 then s ← LOG_ERROR (log_error fuel) 212 (open_fail name) s; Ret (1, s)
  else Ret (0, s).

Definition log_logfile (fuel : nat) (file_name : bytes) (file_max_linenum : Z) (file_dir : bytes) s : res (Z * st E) :=
  name ← copy_name file_name;
  dir ← copy_name file_dir;
  let s := set_log s (Rotating (r_file (s_log s)) (r_counter (s_log s)) file_max_linenum name dir) in
  let '(fd, e) := lg_open name false (os s) in
  let s := set_os s e in
  if fd =? -1 then s ← LOG_ERROR (log_error fuel) 225 (open_fail name) s; Ret (1, s)
  else
    let '(r, e) := lg_dup2 fd 1 (os s) in
    let s := set_os s e in
    if r =? -1 then s ← LOG_ERROR (log_error fuel) 229 (fun e => lit "dup2 FAIL " ++ lg_strerror e) s; Ret (1, s)
    else
      let s := set_os s (lg_close fd (os s)) in
      Ret (0, set_log s (set_file (s_log s) 1)).

(** ** The functions of scripts *)

Context {F : LuaFmt}.

Definition lopenlevel (L : list lval) s : res (list lval * st E) :=
  if (lua_gettop L =? 1) && lua_isnumber L 1 then
    s ← log_openlevel (d2i32 (lua_tonumber L 1)) s; Ret ([], s)
  else Ret ([], s).
Definition lcloseall (L : list lval) s : res (list lval * st E) :=
  if lua_gettop L =? 0 then Ret ([], log_closeall s) else Ret ([], s).
Definition lcloselevel (L : list lval) s : res (list lval * st E) :=
  if (lua_gettop L =? 1) && lua_isnumber L 1 then
    s ← log_closelevel (d2i32 (lua_tonumber L 1)) s; Ret ([], s)
  else Ret ([], s).

Definition three_args (L : list lval) : bool :=
  (lua_gettop L =? 3) && lua_isstring L 1 && lua_isnumber L 2 && lua_isstring L 3.
Definition llogstat (fuel : nat) (L : list lval) s : res (list lval * st E) :=
  if three_args L then
    file_name ← of_option (lua_tolstring L 1);
    file_dir ← of_option (lua_tolstring L 3);
    '(_, s) ← log_logstat fuel (cstr file_name) (d2i32 (lua_tonumber L 2)) (cstr file_dir) s;
    Ret ([], s)
  else Ret ([], s).
Definition llogfile (fuel : nat) (L : list lval) s : res (list lval * st E) :=
  if three_args L then
    file_name ← of_option (lua_tolstring L 1);
    file_dir ← of_option (lua_tolstring L 3);
    '(_, s) ← log_logfile fuel (cstr file_name) (d2i32 (lua_tonumber L 2)) (cstr file_dir) s;
    Ret ([], s)
  else Ret ([], s).

(** The length becomes an int on its way to log_print. *)
Definition print_string (level : Z) (fuel : nat) (L : list lval) s : res (list lval * st E) :=
  if (lua_gettop L =? 1) && lua_isstring L 1 then
    str ← of_option (lua_tolstring L 1);
    s ← log_print fuel level str (i32 (Z.of_nat (length str))) s;
    Ret ([], s)
  else Ret ([], s).
Definition ldebug := print_string DEBUG.
Definition llog := print_string LOG.
Definition lerror := print_string ERROR.
Definition lwarn := print_string WARN.

End Log.

(** Read a field of a state that was set. *)
Ltac proj :=
  cbn [os s_log s_stat s_log_flag set_log set_os set_stat set_counter set_file r_file r_counter r_max r_name r_dir].

(** ** No line is lost

    The documented behaviour of the calls a rotation makes, on files as a map from
    paths to contents.  [lg_may]: a file of that path can be made. *)
Class LogOsOk (E : Type) {OS : LogOs E} := {
  lg_files : E -> gmap bytes bytes;
  lg_out : E -> option bytes;                     (* the file that is standard output *)
  lg_may : bytes -> E -> Prop;
  lg_rename_ok a b x e : lg_files e !! a = Some x -> lg_files e !! b = None -> lg_may b e ->
    lg_files (lg_rename a b e) = <[b := x]> (delete a (lg_files e)) /\ (forall p, lg_may p e -> lg_may p (lg_rename a b e));
  (** The new file on a descriptor, then on descriptor 1, then that descriptor closed. *)
  lg_reopen_ok p e : lg_may p e -> exists fd e', lg_open p true e = (fd, e') /\ fd <> -1 /\
    lg_files (lg_close fd (snd (lg_dup2 fd 1 e'))) = <[p := []]> (lg_files e) /\
    lg_out (lg_close fd (snd (lg_dup2 fd 1 e'))) = Some p;
  lg_stdout_ok t p x e : lg_out e = Some p -> lg_files e !! p = Some x ->
    lg_files (lg_stdout t e) = <[p := x ++ t]> (lg_files e) /\ lg_out (lg_stdout t e) = Some p;
}.

Section Rotation.
Context {E : Type} {OS : LogOs E} {OK : LogOsOk E} (file_line : Z -> bytes).
Implicit Types s : st E.

(** The time of day is a date. *)
Definition date_ok (t : tm) : Prop := INT_MIN <= tm_year t + 1900 <= INT_MAX.

(** Standard output is the log file, which holds the lines [cur]; the files of [old]
    hold the earlier ones; no file got more lines than its maximum and two. *)
Record log_inv s (old : list (bytes * list bytes)) (cur : list bytes) : Prop := {
  li_on : r_file (s_log s) <> 0;
  li_out : lg_out (os s) = Some (r_name (s_log s));
  li_cur : lg_files (os s) !! r_name (s_log s) = Some (concat cur);
  li_old : Forall (fun o => fst o <> r_name (s_log s) /\ lg_files (os s) !! fst o = Some (concat (snd o)) /\
                            Z.of_nat (length (snd o)) <= r_max (s_log s) + 2) old;
  li_max : 0 <= r_max (s_log s) <= INT_MAX - 2;
  li_count : 0 <= r_counter (s_log s) <= r_max (s_log s) + 1;
  li_len : Z.of_nat (length cur) <= r_counter (s_log s) + 1;
}.

(** What a call needs of the system: the clock gives dates, and when a rotation is
    due the path it renames to is free and can be made. *)
Definition smooth s : Prop :=
  (forall t, exists d, lg_localtime t = Some d /\ date_ok d) /\
  (r_max (s_log s) < r_counter (s_log s) ->
   exists d p, lg_localtime (lg_time (os s)) = Some d /\ rotated_path (s_log s) d = Ret p /\
     lg_files (os s) !! p = None /\ lg_may p (os s) /\ lg_may (r_name (s_log s)) (os s)).

Definition is_line (level : Z) (text line : bytes) : Prop :=
  exists d usec, log_line d usec level text = Ret line.

Lemma print_line_ok level text s p x :
  0 <= level <= 5 -> (forall t, exists d, lg_localtime t = Some d /\ date_ok d) ->
  lg_out (os s) = Some p -> lg_files (os s) !! p = Some x ->
  exists line e, print_line level text s = Ret (set_os s e) /\ is_line level text line /\
    lg_files e = <[p := x ++ line]> (lg_files (os s)) /\ lg_out e = Some p.
Proof.
  intros Hl Hclock Ho Hf. unfold print_line. destruct (lg_gettimeofday (os s)) as [sec usec].
  destruct (Hclock sec) as (d & Hd & Hy). rewrite Hd. cbn [of_option]. rewrite bind_Ret_l.
  assert (Hline : exists line, log_line d usec level text = Ret line).
  { unfold log_line, stamp. rewrite bind_sint by exact Hy. rewrite bind_Ret_l.
    assert (Hm : is_Some (s_level_msg level)).
    { unfold s_level_msg. apply lookup_lt_is_Some. cbn [length map]. lia. }
    destruct Hm as [m Hm]. rewrite Hm. cbn [of_option]. rewrite bind_Ret_l. by eexists. }
  destruct Hline as [line Hline]. rewrite Hline, bind_Ret_l.
  destruct (lg_stdout_ok line p x (os s) Ho Hf) as [H1 H2].
  exists line, (lg_stdout line (os s)). split_and!; try done. by exists d, usec.
Qed.

(** One line, without and with a rotation before it. *)
Lemma log_print_step fuel level text s old cur :
  log_inv s old cur -> smooth s -> 0 <= level <= 5 -> enabled s level = true ->
  exists line s' old' cur', log_print file_line fuel level text (Z.of_nat (length text)) s = Ret s' /\
    is_line level text line /\ log_inv s' old' cur' /\ s_log_flag s' = s_log_flag s /\
    concat (map snd old') ++ cur' = concat (map snd old) ++ cur ++ [line].
Proof.
  intros [H1 H2 H3 H4 H5 H6 H7] [Hclock Hdue] Hl Hen. unfold log_print. rewrite Hen. cbn [negb].
  unfold rotate_log_file. destruct (Z.eqb_spec (r_file (s_log s)) 0); [done|]. sint_step.
  rewrite bind_Ret_l. destruct (Z.ltb_spec (r_max (s_log s)) (r_counter (s_log s))) as [Hlt|Hge].
  - destruct (Hdue Hlt) as (d & p & Hd & Hp & Hfree & Hmay & Hmayn). proj.
    rewrite Hd. unfold rotated_path in *. proj. rewrite Hp, bind_Ret_l. proj.
    destruct (lg_rename_ok _ _ _ _ H3 Hfree Hmay) as [Hren Hmay'].
    destruct (lg_reopen_ok (r_name (s_log s)) (lg_rename (r_name (s_log s)) p (os s)) (Hmay' _ Hmayn)) as (fd & e & Ho & Hfd & Hfs & Hout).
    rewrite Ho. destruct (Z.eqb_spec fd (-1)); [done|]. rewrite bind_Ret_l. proj.
    rewrite Z.leb_refl, (proj2 (Z.leb_le 0 _)) by lia. cbn [andb]. rewrite Nat2Z.id, firstn_all.
    set (s1 := set_log _ _).
    assert (Hs1 : lg_files (os s1) !! r_name (s_log s1) = Some []) by (cbn; rewrite Hfs; apply lookup_insert_eq).
    destruct (print_line_ok level text s1 _ _ Hl Hclock Hout Hs1) as (line & e' & Hpr & Hline & Hfs' & Hout').
    exists line, (set_os s1 e'), (old ++ [(p, cur)]), [line]. split; [exact Hpr|]. split; [done|].
    assert (Hpn : p <> r_name (s_log s)) by (intros ->; congruence).
    cbn in Hfs, Hfs'. split; [|split; [done|]].
    + constructor; unfold s1; proj; try done; try lia.
      * rewrite Hfs'. cbn. rewrite app_nil_r. apply lookup_insert_eq.
      * assert (Hkeep : forall q, q <> r_name (s_log s) -> lg_files e' !! q = if decide (q = p) then Some (concat cur) else lg_files (os s) !! q).
        { intros q Hq. rewrite Hfs', lookup_insert_ne, Hfs, lookup_insert_ne, Hren by done. case_decide as Hqp.
          - subst q. apply lookup_insert_eq.
          - by rewrite lookup_insert_ne, lookup_delete_ne. }
        apply Forall_app. split; [|apply Forall_singleton; cbn; rewrite Hkeep, decide_True by done; split_and!; (done || lia)].
        eapply Forall_impl; [exact H4|]. intros [q ls] (Hq & Hqf & Hql). cbn in *.
        rewrite Hkeep, decide_False by (congruence || done). done.
    + rewrite map_app, concat_app. cbn. by rewrite app_nil_r, <- app_assoc.
  - rewrite bind_Ret_l. rewrite Z.leb_refl, (proj2 (Z.leb_le 0 _)) by lia. cbn [andb]. rewrite Nat2Z.id, firstn_all.
    set (s1 := set_log s _).
    destruct (print_line_ok level text s1 _ _ Hl Hclock H2 H3) as (line & e' & Hpr & Hline & Hfs' & Hout').
    exists line, (set_os s1 e'), old, (cur ++ [line]). split; [exact Hpr|]. split; [done|]. cbn in Hfs'. split; [|done].
    constructor; unfold s1; proj; try done; try lia.
    + rewrite Hfs', lookup_insert_eq, concat_app. cbn. by rewrite app_nil_r.
    + eapply Forall_impl; [exact H4|]. intros [q ls] (Hq & Hqf & Hql). cbn in *. split; [done|]. split; [|done].
      by rewrite Hfs', lookup_insert_ne.
    + rewrite length_app. cbn. lia.
Qed.

(** A sequence of calls of log_print, and that each of them is smooth. *)
Fixpoint log_all (fuel : nat) (calls : list (Z * bytes)) s : res (st E) :=
  match calls with
  | [] => Ret s
  | (level, text) :: calls =>
      s ← log_print file_line fuel level text (Z.of_nat (length text)) s; log_all fuel calls s
  end.
Fixpoint all_smooth (fuel : nat) (calls : list (Z * bytes)) s : Prop :=
  match calls with
  | [] => True
  | (level, text) :: calls =>
      smooth s /\ 0 <= level <= 5 /\ enabled s level = true /\
      forall s', log_print file_line fuel level text (Z.of_nat (length text)) s = Ret s' -> all_smooth fuel calls s'
  end.

Lemma log_all_inv fuel calls : forall s old cur,
  log_inv s old cur -> all_smooth fuel calls s ->
  exists s' lines old' cur', log_all fuel calls s = Ret s' /\
    Forall2 (fun c line => is_line (fst c) (snd c) line) calls lines /\ log_inv s' old' cur' /\
    concat (map snd old') ++ cur' = concat (map snd old) ++ cur ++ lines.
Proof.
  induction calls as [|[level text] calls IH]; intros s old cur Hs Hsm.
  { exists s, [], old, cur. split_and!; [done|constructor|done|by rewrite app_nil_r]. }
  destruct Hsm as (Hsm & Hl & Hen & Hrest).
  destruct (log_print_step fuel level text s old cur Hs Hsm Hl Hen) as (line & s1 & old1 & cur1 & Hp & Hline & Hs1 & _ & Heq).
  destruct (IH s1 old1 cur1 Hs1 (Hrest _ Hp)) as (s' & lines & old' & cur' & Ha & Hls & Hs' & Heq').
  exists s', (line :: lines), old', cur'. cbn [log_all]. rewrite Hp, bind_Ret_l. split; [done|]. split; [by constructor|].
  split; [done|]. rewrite Heq', app_assoc, Heq, <- !app_assoc. done.
Qed.
End Rotation.

(** C25.  A log over rotated files loses no line and keeps them in order, as long as every
    rotation finds its new name free and able to be made and the clock gives dates: after any
    sequence of calls at levels that are switched on, whose rotations do (smooth), the
    renamed files one after the other and the current file hold the lines of the calls after
    what was there, and no renamed file has more than two lines over the maximum.  The
    condition is needed: the new name has the second of the rotation in it, so a second
    rotation within that second replaces the first file and its lines are lost
    (same_second_overwrites); and without the directory the rename fails and the open that
    follows empties the log.  The code checks neither. *)
Theorem log_no_loss {E : Type} {OS : LogOs E} {OK : LogOsOk E} (file_line : Z -> bytes) fuel calls (s : st E) old cur :
  log_inv s old cur -> all_smooth file_line fuel calls s ->
  exists s' lines old' cur', log_all file_line fuel calls s = Ret s' /\
    Forall2 (fun c line => is_line (fst c) (snd c) line) calls lines /\ log_inv s' old' cur' /\
    concat (map snd old') ++ cur' = concat (map snd old) ++ cur ++ lines.
Proof. apply log_all_inv. Qed.

(** A file system: the files, the file of descriptor 3 and standard output, the time. *)
Record ex_os := ExOs { ex_files : gmap bytes bytes; ex_fd : bytes; ex_out : bytes; ex_now : Z }.
Definition ExLogOs : LogOs ex_os :=
  {| lg_time := ex_now;
     lg_gettimeofday := fun e => (ex_now e, 0);
     lg_localtime := fun t => Some (Tm 100 0 1 0 (t / 60 mod 60) (t mod 60));
     lg_rename := fun a b e => ExOs (<[b := default [] (ex_files e !! a)]> (delete a (ex_files e))) (ex_fd e) (ex_out e) (ex_now e + 1);
     lg_open := fun p trunc e => (3, ExOs (if trunc : bool then <[p := []]> (ex_files e) else ex_files e) p (ex_out e) (ex_now e));
     lg_dup2 := fun fd _ e => (1, ExOs (ex_files e) (ex_fd e) (ex_fd e) (ex_now e));
     lg_close := fun _ e => e;
     lg_strerror := fun _ => [];
     lg_stdout := fun t e => ExOs (<[ex_out e := default [] (ex_files e !! ex_out e) ++ t]> (ex_files e)) (ex_fd e) (ex_out e) (ex_now e);
     lg_fopen := fun _ e => (0, e);
     lg_fclose := fun _ e => e;
     lg_fprint := fun _ _ e => e |}.
Definition ExLogOk : @LogOsOk _ ExLogOs.
Proof.
  refine {| lg_files := ex_files; lg_out := fun e => Some (ex_out e); lg_may := fun _ _ => True |}.
  - intros a b x e Ha _ _. cbn. rewrite Ha. done.
  - intros p e _. eexists 3, _. cbn. done.
  - intros t p x e [= <-] Hp. cbn. rewrite Hp. done.
Defined.

(** A file of the name l in the directory d, with a maximum of one line, and four calls: a
    file of three lines is renamed. *)
Definition ex_log : st ex_os :=
  St (-1) 0 0 (Rotating 1 0 1 (lit "l") (lit "d")) init_rotating (ExOs {[lit "l" := []]} [] (lit "l") 0).
Definition ex_calls : list (Z * bytes) := [(2, lit "a"); (0, lit "b"); (2, lit "c"); (3, lit "d")].
Definition no_line (n : Z) : bytes := [].

Lemma log_no_loss_witness :
  exists s' lines old' cur', @log_all _ ExLogOs no_line 1 ex_calls ex_log = Ret s' /\
    Forall2 (fun c line => is_line (fst c) (snd c) line) ex_calls lines /\ @log_inv _ ExLogOs ExLogOk s' old' cur' /\
    concat (map snd old') ++ cur' = concat (map snd ([] : list (bytes * list bytes))) ++ [] ++ lines.
Proof.
  apply (@log_no_loss _ ExLogOs ExLogOk no_line 1 ex_calls ex_log [] []).
  - constructor; cbn; unfold INT_MAX; (lia || done).
  - assert (Hc : forall t, exists d, @lg_localtime _ ExLogOs t = Some d /\ date_ok d).
    { intros t. eexists. split; [reflexivity|]. unfold date_ok, INT_MIN, INT_MAX. cbn. lia. }
    assert (Hstep : forall (c : Z * bytes) s rest s1, @log_print _ ExLogOs no_line 1 (fst c) (snd c) (Z.of_nat (length (snd c))) s = Ret s1 ->
      @smooth _ ExLogOs ExLogOk s -> 0 <= fst c <= 5 -> enabled s (fst c) = true ->
      @all_smooth _ ExLogOs ExLogOk no_line 1 rest s1 -> @all_smooth _ ExLogOs ExLogOk no_line 1 (c :: rest) s).
    { intros [level text] s rest s1 H1 H2 H3 H4 H5. cbn [fst snd] in *.
      refine (conj H2 (conj H3 (conj H4 _))). intros s' Hs'. rewrite H1 in Hs'. by injection Hs' as <-. }
    unfold ex_calls. eapply Hstep; [vm_compute; reflexivity|split; [exact Hc|cbn; lia]|cbn; lia|reflexivity|].
    eapply Hstep; [vm_compute; reflexivity|split; [exact Hc|cbn; lia]|cbn; lia|reflexivity|].
    eapply Hstep; [vm_compute; reflexivity|split; [exact Hc|]|cbn; lia|reflexivity|].
    { intros _. do 2 eexists. split; [reflexivity|]. split; [vm_compute; reflexivity|]. split; [vm_compute; reflexivity|].
      split; exact I. }
    eapply Hstep; [vm_compute; reflexivity|split; [exact Hc|cbn; lia]|cbn; lia|reflexivity|]. exact I.
Defined.

(** Two rotations within a second: the second one replaces the file of the first, whose
    lines are nowhere any more. *)
Definition StillOs : LogOs ex_os :=
  {| lg_time := ex_now; lg_gettimeofday := @lg_gettimeofday _ ExLogOs; lg_localtime := @lg_localtime _ ExLogOs;
     lg_rename := fun a b e => ExOs (<[b := default [] (ex_files e !! a)]> (delete a (ex_files e))) (ex_fd e) (ex_out e) (ex_now e);
     lg_open := @lg_open _ ExLogOs; lg_dup2 := @lg_dup2 _ ExLogOs; lg_close := @lg_close _ ExLogOs; lg_strerror := @lg_strerror _ ExLogOs;
     lg_stdout := @lg_stdout _ ExLogOs; lg_fopen := @lg_fopen _ ExLogOs; lg_fclose := @lg_fclose _ ExLogOs; lg_fprint := @lg_fprint _ ExLogOs |}.
Example same_second_overwrites :
  let line c := lit "[2000-01-01 00:00:00.000000][LOG]" ++ c ++ [10] in
  match @log_all _ StillOs no_line 1 (map (fun c => (LOG, [c])) (lit "abcdef")) ex_log with
  | Ret s => ex_files (os s) = {[lit "l" := line (lit "f"); lit "d/l_2000_01_01_00_00_00" := line (lit "c") ++ line (lit "d") ++ line (lit "e")]}
  | _ => False
  end.
Proof. by vm_compute. Qed.

(** ** A rotation that fails *)

Section Failure.
Context {E : Type} {OS : LogOs E} (file_line : Z -> bytes).
Implicit Types s : st E.

Definition clock_ok : Prop := forall t, exists d, lg_localtime t = Some d /\ date_ok d.
Definition paths_fit (r : rotating) : Prop := forall t d, lg_localtime t = Some d -> exists p, rotated_path r d = Ret p.

(** The line a call prints at an environment, and that it is what was printed. *)
Definition line_at (e : E) (level : Z) (text : bytes) : res bytes :=
  let '(sec, usec) := lg_gettimeofday e in tm ← of_option (lg_localtime sec); log_line tm usec level text.
Definition said (level : Z) (text : bytes) (e e' : E) : Prop :=
  exists line, line_at e level text = Ret line /\ e' = lg_stdout line e.

(** The state in which the line of a call is printed: nothing is due, or the file was renamed
    and opened again, or the open failed and the failure was logged by its two messages. *)
Inductive rotation s : st E -> Prop :=
| rot_no_file : r_file (s_log s) = 0 -> rotation s s
| rot_not_due : r_file (s_log s) <> 0 -> r_counter (s_log s) <= r_max (s_log s) ->
    rotation s (set_log s (set_counter (s_log s) (r_counter (s_log s) + 1)))
| rot_renamed d p fd e : r_file (s_log s) <> 0 -> r_max (s_log s) < r_counter (s_log s) ->
    lg_localtime (lg_time (os s)) = Some d -> rotated_path (s_log s) d = Ret p ->
    lg_open (r_name (s_log s)) true (lg_rename (r_name (s_log s)) p (os s)) = (fd, e) -> fd <> -1 ->
    rotation s (set_os (set_log s (set_counter (s_log s) 0)) (lg_close fd (snd (lg_dup2 fd 1 e))))
| rot_failed d p e e1 e2 n : r_file (s_log s) <> 0 -> r_max (s_log s) < r_counter (s_log s) ->
    lg_localtime (lg_time (os s)) = Some d -> rotated_path (s_log s) d = Ret p ->
    lg_open (r_name (s_log s)) true (lg_rename (r_name (s_log s)) p (os s)) = (-1, e) ->
    (if enabled s ERROR
     then said ERROR (file_line 151) e e1 /\ said ERROR (open_fail (r_name (s_log s)) e1) e1 e2 /\ n = 2
     else e2 = e /\ n = 0) ->
    rotation s (set_os (set_error (set_log s (set_counter (s_log s) n)) (s_error_counter s + 2)) e2).

Lemma print_line_said level text s : clock_ok -> 0 <= level <= 5 ->
  exists e, print_line level text s = Ret (set_os s e) /\ said level text (os s) e.
Proof.
  intros Hclock Hl. unfold print_line, said, line_at. destruct (lg_gettimeofday (os s)) as [sec usec].
  destruct (Hclock sec) as (d & Hd & Hy). rewrite Hd. cbn [of_option]. rewrite !bind_Ret_l.
  unfold log_line, stamp. rewrite bind_sint by exact Hy. rewrite bind_Ret_l.
  assert (Hm : is_Some (s_level_msg level)) by (apply lookup_lt_is_Some; cbn [length map]; lia).
  destruct Hm as [m Hm]. rewrite Hm. cbn [of_option]. rewrite !bind_Ret_l. eauto.
Qed.

(** No rotation is due: the line is printed, and counted when there is a log file. *)
Lemma log_vprint_quiet fuel level text s : clock_ok -> 0 <= level <= 5 ->
  r_counter (s_log s) <= r_max (s_log s) -> 0 <= r_counter (s_log s) < INT_MAX ->
  exists e n, log_vprint file_line (S fuel) level text s = Ret (set_os (set_log s (set_counter (s_log s) n)) e) /\
    if enabled s level
    then said level text (os s) e /\ n = (if r_file (s_log s) =? 0 then r_counter (s_log s) else r_counter (s_log s) + 1)
    else e = os s /\ n = r_counter (s_log s).
Proof.
  intros Hclock Hl Hq Hn. cbn [log_vprint].
  assert (Hself : s = set_os (set_log s (set_counter (s_log s) (r_counter (s_log s)))) (os s)) by (by destruct s as [? ? ? [] ? ?]).
  destruct (enabled s level) eqn:Hen; cbn [negb]; [|by exists (os s), (r_counter (s_log s)); rewrite <- Hself].
  unfold rotate_log_file. destruct (Z.eqb_spec (r_file (s_log s)) 0) as [Hf|Hf].
  - rewrite bind_Ret_l. destruct (print_line_said level text s Hclock Hl) as (e & He & Hs). rewrite He.
    exists e, (r_counter (s_log s)). split; [by rewrite Hself at 1|done].
  - unfold INT_MAX in *. sint_step. rewrite bind_Ret_l.
    destruct (Z.ltb_spec (r_max (s_log s)) (r_counter (s_log s))); [lia|]. rewrite bind_Ret_l.
    destruct (print_line_said level text (set_log s (set_counter (s_log s) (r_counter (s_log s) + 1))) Hclock Hl) as (e & He & Hs).
    rewrite He. by exists e, (r_counter (s_log s) + 1).
Qed.

(** The two messages of a failed open, in a log whose counter is 0. *)
Lemma log_error_twice fuel (t1 : bytes) (t2 : E -> bytes) s : clock_ok -> (1 <= fuel)%nat -> r_file (s_log s) <> 0 ->
  r_counter (s_log s) = 0 -> 1 <= r_max (s_log s) -> 0 <= s_error_counter s <= INT_MAX - 2 ->
  exists e1 e2 n, (s1 ← log_error file_line fuel t1 s; log_error file_line fuel (t2 (os s1)) s1)
      = Ret (set_os (set_error (set_log s (set_counter (s_log s) n)) (s_error_counter s + 2)) e2) /\
    if enabled s ERROR then said ERROR t1 (os s) e1 /\ said ERROR (t2 e1) e1 e2 /\ n = 2 else e2 = os s /\ n = 0.
Proof.
  intros Hclock Hfuel Hf Hc Hm He. destruct fuel as [|fuel]; [lia|]. unfold log_error, log_error_with.
  unfold INT_MAX in *. sint_step. set (s1 := set_error s _).
  destruct (log_vprint_quiet fuel ERROR t1 s1 Hclock) as (e1 & n1 & H1 & Hn1); [unfold ERROR; lia|cbn; lia|unfold INT_MAX; cbn; lia|].
  rewrite H1, bind_Ret_l. cbn [s_error_counter set_os set_log s1 set_error os s_log r_counter r_file set_counter] in *.
  sint_step. match goal with |- context [log_vprint file_line (S fuel) ERROR ?t ?x] => set (s2 := x); set (t' := t) end.
  change (enabled s1 ERROR) with (enabled s ERROR) in Hn1. destruct (Z.eqb_spec (r_file (s_log s)) 0) as [|_]; [done|].
  assert (Hn : n1 = (if enabled s ERROR then 1 else 0)) by (destruct (enabled s ERROR); lia).
  destruct (log_vprint_quiet fuel ERROR t' s2 Hclock) as (e2 & n2 & H2 & Hn2);
    [unfold ERROR; lia|cbn; destruct (enabled s ERROR); lia|unfold INT_MAX; cbn; destruct (enabled s ERROR); lia|].
  rewrite H2. exists e1, e2, n2. split.
  { replace (s_error_counter s + 2) with (s_error_counter s + 1 + 1) by lia. done. }
  change (enabled s2 ERROR) with (enabled s ERROR) in Hn2. unfold t', s2 in Hn2. cbn in Hn2.
  destruct (Z.eqb_spec (r_file (s_log s)) 0) as [|_]; [done|].
  destruct (enabled s ERROR); destruct Hn1 as [Hn1 ?], Hn2 as [Hn2 ?]; split_and!; first [done|lia|congruence].
Qed.
End Failure.

(** C40.  A rotation that cannot open the new file is logged, and the call still returns: with
    a maximum of at least one line and a clock that gives dates, log_print prints the line of
    the call as the last thing it does, once, behind a rotation in which nothing was due, or
    the file was renamed and opened again, or - when the open failed - the two messages about
    the failure (file and line, then the name and the error) were printed in this order at the
    level ERROR, if it is on, and counted as errors and as lines; these do not rotate again.
    Nothing else of the logger's state changes, and a call at a level that is off changes
    nothing. *)
Theorem log_print_returns {E : Type} {OS : LogOs E} (file_line : Z -> bytes) fuel level text (s : st E) :
  clock_ok -> paths_fit (s_log s) -> 0 <= level <= 5 -> 1 <= r_max (s_log s) -> 0 <= r_counter (s_log s) < INT_MAX ->
  0 <= s_error_counter s <= INT_MAX - 2 -> (1 <= fuel)%nat ->
  exists s', log_print file_line fuel level text (Z.of_nat (length text)) s = Ret s' /\
    if enabled s level
    then exists s1 e, rotation file_line s s1 /\ said level text (os s1) e /\ s' = set_os s1 e
    else s' = s.
Proof.
  intros Hclock Hpath Hl Hm Hn He Hf. unfold log_print. destruct (enabled s level); cbn [negb]; [|by eexists].
  rewrite Z.leb_refl, (proj2 (Z.leb_le 0 _)) by lia. cbn [andb]. rewrite Nat2Z.id, firstn_all.
  enough (Hrot : exists s1, rotate_log_file file_line (log_error file_line fuel) false s = Ret s1 /\ rotation file_line s s1).
  { destruct Hrot as (s1 & -> & Hr). rewrite bind_Ret_l.
    destruct (print_line_said level text s1 Hclock Hl) as (e & Hp & Hs). rewrite Hp. eauto 10. }
  unfold rotate_log_file. destruct (Z.eqb_spec (r_file (s_log s)) 0); [by eexists; split; [|by constructor]|].
  unfold INT_MAX in Hn. sint_step. rewrite bind_Ret_l.
  destruct (Z.ltb_spec (r_max (s_log s)) (r_counter (s_log s))); [|by eexists; split; [|by apply rot_not_due]]. proj.
  destruct (Hclock (lg_time (os s))) as (d & Hd & Hy). rewrite Hd. destruct (Hpath _ d Hd) as [p Hp].
  pose proof Hp as Hp'. unfold rotated_path in Hp' |- *. proj. rewrite Hp', bind_Ret_l.
  destruct (lg_open (r_name (s_log s)) true _) as [fd e] eqn:Ho.
  destruct (Z.eqb_spec fd (-1)) as [->|Hfd]; [|eexists; split; [reflexivity|by eapply rot_renamed]].
  unfold LOG_ERROR. match goal with |- context [log_error file_line fuel (file_line 151) ?x] => set (s1 := x) end.
  destruct (log_error_twice file_line fuel (file_line 151) (open_fail (r_name (s_log s))) s1) as (e1 & e2 & k & H1 & H2); try done.
  eexists. split; [exact H1|]. exact (rot_failed file_line s d p e e1 e2 k n H Hd Hp Ho H2).
Qed.

(** A system in which no file can be opened; its clock stands still. *)
Definition FullOs : LogOs unit :=
  {| lg_time := fun _ => 0; lg_gettimeofday := fun e => (0, 0); lg_localtime := fun t => Some (Tm 100 0 1 0 0 0);
     lg_rename := fun _ _ e => e; lg_open := fun _ _ e => (-1, e); lg_dup2 := fun _ _ e => (-1, e);
     lg_close := fun _ e => e; lg_strerror := fun _ => lit "No space left on device"; lg_stdout := fun _ e => e;
     lg_fopen := fun _ e => (0, e); lg_fclose := fun _ e => e; lg_fprint := fun _ _ e => e |}.
Definition full_log (max counter : Z) : st unit :=
  St (-1) 0 0 (Rotating 1 counter max (lit "l") (lit "d")) init_rotating tt.
Lemma FullClock : @clock_ok _ FullOs.
Proof. intros t. eexists. split; [reflexivity|]. unfold date_ok, INT_MIN, INT_MAX. cbn. lia. Qed.
Lemma full_paths max counter : @paths_fit _ FullOs (s_log (full_log max counter)).
Proof. intros t d [= <-]. eexists. vm_compute. reflexivity. Qed.

Lemma log_print_returns_witness :
  exists s', @log_print _ FullOs no_line 1 LOG (lit "a") (Z.of_nat (length (lit "a"))) (full_log 1 2) = Ret s' /\
    exists s1 e, @rotation _ FullOs no_line (full_log 1 2) s1 /\ @said _ FullOs LOG (lit "a") (os s1) e /\ s' = set_os s1 e.
Proof.
  apply (@log_print_returns _ FullOs no_line 1 LOG (lit "a") (full_log 1 2)).
  - exact FullClock.
  - exact (full_paths 1 2).
  - unfold LOG. lia.
  - cbn. lia.
  - unfold INT_MAX. cbn. lia.
  - unfold INT_MAX. cbn. lia.
  - lia.
Defined.

(** The texts printed when the open fails: the two messages, then the line of the call. *)
Definition FullOut : LogOs (list bytes) :=
  {| lg_time := fun _ => 0; lg_gettimeofday := fun e => (0, 0); lg_localtime := fun t => Some (Tm 100 0 1 0 0 0);
     lg_rename := fun _ _ e => e; lg_open := fun _ _ e => (-1, e); lg_dup2 := fun _ _ e => (-1, e);
     lg_close := fun _ e => e; lg_strerror := fun _ => lit "No space left on device"; lg_stdout := fun t e => e ++ [t];
     lg_fopen := fun _ e => (0, e); lg_fclose := fun _ e => e; lg_fprint := fun _ _ e => e |}.
Example failed_rotation_lines :
  match @log_print _ FullOut (fun _ => lit "log.c:151") 1 LOG (lit "a") 1 (St (-1) 0 0 (Rotating 1 2 1 (lit "l") (lit "d")) init_rotating []) with
  | Ret s => s_error_counter s = 2 /\ r_counter (s_log s) = 2 /\
      os s = [lit "[2000-01-01 00:00:00.000000][ERROR]log.c:151" ++ [10];
              lit "[2000-01-01 00:00:00.000000][ERROR]open file fail l No space left on device" ++ [10];
              lit "[2000-01-01 00:00:00.000000][LOG]a" ++ [10]]
  | _ => False
  end.
Proof. by vm_compute. Qed.

(** With a maximum of no line and a file that cannot be opened, the logger calls
    itself without end: the message about the failed rotation is due for a
    rotation itself. *)
Theorem log_recursion {E : Type} {OS : LogOs E} (file_line : Z -> bytes) fuel : forall text (s : st E),
  clock_ok -> paths_fit (s_log s) -> (forall p b e, fst (lg_open p b e) = -1) ->
  r_file (s_log s) <> 0 -> r_max (s_log s) <= 0 -> r_max (s_log s) < r_counter (s_log s) < INT_MAX -> 0 <= r_counter (s_log s) ->
  0 <= s_error_counter s -> s_error_counter s + 2 * Z.of_nat fuel <= INT_MAX -> enabled s ERROR = true ->
  log_vprint file_line fuel ERROR text s = NoFuel.
Proof.
  induction fuel as [|fuel IH]; intros text s Hclock Hpath Hopen Hf Hm Hn Hn0 He Hb Hen; [done|].
  cbn [log_vprint]. rewrite Hen. cbn [negb].
  enough (Hrot : rotate_log_file file_line (log_error_with (log_vprint file_line fuel)) false s = NoFuel) by (by rewrite Hrot).
  unfold rotate_log_file. destruct (Z.eqb_spec (r_file (s_log s)) 0); [done|]. unfold INT_MAX in Hn. sint_step. rewrite bind_Ret_l.
  destruct (Z.ltb_spec (r_max (s_log s)) (r_counter (s_log s))); [|lia]. proj.
  destruct (Hclock (lg_time (os s))) as (d & Hd & Hy). rewrite Hd. destruct (Hpath _ d Hd) as [p Hp].
  unfold rotated_path in Hp |- *. proj. rewrite Hp, bind_Ret_l. specialize (Hopen (r_name (s_log s)) true) as Ho.
  specialize (Ho (lg_rename (r_name (s_log s)) p (os s))). destruct (lg_open _ _ _) as [fd e]. cbn [fst] in Ho. subst fd.
  change (-1 =? -1) with true. cbv iota. unfold LOG_ERROR, log_error_with. cbn [s_error_counter set_os set_log]. unfold INT_MAX in *. sint_step.
  set (s1 := set_error _ _). assert (H1 : s_log s1 = Rotating (r_file (s_log s)) 0 (r_max (s_log s)) (r_name (s_log s)) (r_dir (s_log s))) by done.
  assert (He1 : s_error_counter s1 = s_error_counter s + 1) by done. assert (Hen1 : enabled s1 ERROR = true) by done. clearbody s1.
  destruct (Z.eq_dec (r_max (s_log s)) 0) as [H0|H0].
  - destruct fuel as [|fuel]; [done|].
    destruct (log_vprint_quiet file_line fuel ERROR (file_line 151) s1 Hclock) as (e1 & n1 & Hv & Hn1);
      [unfold ERROR; lia|rewrite H1; cbn; lia|rewrite H1; unfold INT_MAX; cbn; lia|].
    rewrite Hv, bind_Ret_l. rewrite Hen1, H1 in Hn1. cbn [r_file r_counter] in Hn1. destruct Hn1 as [_ Hn1].
    destruct (Z.eqb_spec (r_file (s_log s)) 0) as [|_]; [done|]. cbn [s_error_counter set_os set_log].
    sint_step. apply IH; cbn; rewrite ?H1; cbn; (done || lia).
  - rewrite IH; [done|done|by rewrite H1|done|by rewrite H1|rewrite H1; cbn; lia|rewrite H1; cbn; lia|rewrite H1; cbn; lia|lia|lia|done].
Qed.

Lemma log_recursion_witness : @log_vprint _ FullOs no_line 1000 ERROR (lit "a") (full_log 0 1) = NoFuel.
Proof.
  apply (@log_recursion _ FullOs no_line 1000 (lit "a") (full_log 0 1)).
  - exact FullClock.
  - exact (full_paths 0 1).
  - intros. reflexivity.
  - cbn. lia.
  - cbn. lia.
  - unfold INT_MAX. cbn. lia.
  - cbn. lia.
  - cbn. lia.
  - unfold INT_MAX. cbn [s_error_counter full_log]. lia.
  - reflexivity.
Defined.

(** A statistics file that cannot be opened again leaves a NULL pointer, to which the line
    of the same call is written. *)
Definition full_stat : st unit :=
  St (-1) 0 0 init_rotating (Rotating 5 2 1 (lit "s") (lit "d")) tt.
Example stat_reopen_undefined : @stat_vprint _ FullOs no_line 5 (lit "a") full_stat = Undef.
Proof. vm_compute. reflexivity. Qed.
