(* ===== verification/Json.v ===== *)
(** * Json: the JSON parser and printer

    Source: src/src/json/cJSON.cc, cJSON.h.  An item is a tree: the chain of its
    children through next is a list.  The parser reads a C string, here the
    characters before its terminator; reading past the terminator is undefined.  The
    printer builds texts in buffers whose sizes it computes beforehand: writing past
    one is undefined.  Allocations succeed.  The functions on
    items are those of values; JsonHeap.v has them over structures and pointers, with
    deletion and references.  pow and the conversions %.0f, %e and %f
    are those of the C library ([JsonLib]). *)
From Stdlib Require Import SpecFloat.
From S2P Require Import Prelude Fmt Lua Dbl.
Local Open Scope Z_scope.

(** ** Items *)

Definition cJSON_False : Z := 0.
Definition cJSON_True : Z := 1.
Definition cJSON_NULL : Z := 2.
Definition cJSON_Number : Z := 3.
Definition cJSON_String : Z := 4.
Definition cJSON_Array : Z := 5.
Definition cJSON_Object : Z := 6.

(** type, valuestring, valueint, valuedouble, string, child *)
Inductive cJSON := Item (type : Z) (valuestring : option bytes) (valueint : Z) (valuedouble : lnumber)
                        (string : option bytes) (child : list cJSON).

Definition it_type (c : cJSON) : Z := let 'Item t _ _ _ _ _ := c in t.
Definition it_valuestring (c : cJSON) : option bytes := let 'Item _ v _ _ _ _ := c in v.
Definition it_valueint (c : cJSON) : Z := let 'Item _ _ n _ _ _ := c in n.
Definition it_valuedouble (c : cJSON) : lnumber := let 'Item _ _ _ d _ _ := c in d.
Definition it_string (c : cJSON) : option bytes := let 'Item _ _ _ _ s _ := c in s.
Definition it_child (c : cJSON) : list cJSON := let 'Item _ _ _ _ _ l := c in l.

Definition cJSON_New_Item : cJSON := Item 0 None 0 (S754_zero false) None [].

Definition cJSON_CreateNull : cJSON := Item cJSON_NULL None 0 (S754_zero false) None [].
Definition cJSON_CreateBool (b : bool) : cJSON :=
  Item (if b then cJSON_True else cJSON_False) None 0 (S754_zero false) None [].
Definition cJSON_CreateNumber (num : lnumber) : cJSON := Item cJSON_Number None (d2i32 num) num None [].
Definition cJSON_CreateString (string : bytes) : cJSON := Item cJSON_String (Some string) 0 (S754_zero false) None [].
Definition cJSON_CreateObject : cJSON := Item cJSON_Object None 0 (S754_zero false) None [].

Definition cJSON_AddItemToArray (array item : cJSON) : cJSON :=
  let 'Item t v n d s l := array in Item t v n d s (l ++ [item]).
Definition cJSON_AddItemToObject (object : cJSON) (string : bytes) (item : cJSON) : cJSON :=
  let 'Item t v n d _ l := item in cJSON_AddItemToArray object (Item t v n d (Some string) l).
Definition cJSON_GetArraySize (array : cJSON) : Z := Z.of_nat (length (it_child array)).
Definition cJSON_GetArrayItem (array : cJSON) (item : Z) : option cJSON := it_child array !! Z.to_nat item.

Definition cJSON_CreateTrue : cJSON := cJSON_CreateBool true.
Definition cJSON_CreateFalse : cJSON := cJSON_CreateBool false.
Definition cJSON_CreateArray : cJSON := Item cJSON_Array None 0 (S754_zero false) None [].

(** The first count elements of a C array become the children; floats are doubles here. *)
Definition create_items {A} (create : A -> cJSON) (l : list A) (count : Z) : res cJSON :=
  if count <=? Z.of_nat (length l) then
    Ret (Item cJSON_Array None 0 (S754_zero false) None (map create (take (Z.to_nat count) l)))
  else Undef.
Definition cJSON_CreateIntArray (numbers : list Z) := create_items (fun n => cJSON_CreateNumber (d_of_Z n)) numbers.
Definition cJSON_CreateFloatArray (numbers : list lnumber) := create_items cJSON_CreateNumber numbers.
Definition cJSON_CreateDoubleArray (numbers : list lnumber) := create_items cJSON_CreateNumber numbers.
Definition cJSON_CreateStringArray (strings : list bytes) := create_items cJSON_CreateString strings.

(** Comparing names without case; NULL is equal to NULL only. *)
Definition tolower (c : Z) : Z := if (65 <=? c) && (c <=? 90) then c + 32 else c.
Fixpoint casecmp_loop (s1 s2 : bytes) : Z :=
  match s1, s2 with
  | c1 :: r1, c2 :: r2 => if tolower c1 =? tolower c2 then casecmp_loop r1 r2 else tolower c1 - tolower c2
  | c1 :: _, [] => tolower c1
  | [], c2 :: _ => - tolower c2
  | [], [] => 0
  end.
Definition cJSON_strcasecmp (s1 s2 : option bytes) : Z :=
  match s1, s2 with
  | None, None => 0 | None, _ | _, None => 1
  | Some s1, Some s2 => casecmp_loop s1 s2
  end.
Definition named (string : bytes) (c : cJSON) : bool := cJSON_strcasecmp (it_string c) (Some string) =? 0.
Definition cJSON_GetObjectItem (object : cJSON) (string : bytes) : option cJSON := List.find (named string) (it_child object).

(** Taking a child out, and putting another one in its place; the item left over of a
    replacement is deleted. *)
Definition with_child (c : cJSON) (l : list cJSON) : cJSON := let 'Item t v n d s _ := c in Item t v n d s l.
Definition cJSON_DetachItemFromArray (array : cJSON) (which : Z) : option cJSON * cJSON :=
  (it_child array !! Z.to_nat which, with_child array (delete (Z.to_nat which) (it_child array))).
Definition cJSON_DeleteItemFromArray (array : cJSON) (which : Z) : cJSON := snd (cJSON_DetachItemFromArray array which).
Fixpoint index_named (string : bytes) (i : Z) (l : list cJSON) : option Z :=
  match l with [] => None | c :: l => if named string c then Some i else index_named string (i + 1) l end.
Definition cJSON_DetachItemFromObject (object : cJSON) (string : bytes) : option cJSON * cJSON :=
  match index_named string 0 (it_child object) with
  | Some i => cJSON_DetachItemFromArray object i
  | None => (None, object)
  end.
Definition cJSON_DeleteItemFromObject (object : cJSON) (string : bytes) : cJSON := snd (cJSON_DetachItemFromObject object string).
Definition cJSON_ReplaceItemInArray (array : cJSON) (which : Z) (newitem : cJSON) : cJSON :=
  with_child array (<[Z.to_nat which := newitem]> (it_child array)).
Definition cJSON_ReplaceItemInObject (object : cJSON) (string : bytes) (newitem : cJSON) : cJSON :=
  match index_named string 0 (it_child object) with
  | Some i => let 'Item t v n d _ l := newitem in cJSON_ReplaceItemInArray object i (Item t v n d (Some string) l)
  | None => object
  end.

(** ** Parsing *)

(** A text that is not parsed leaves its place in ep. *)
Inductive parsed (A : Type) := PFail (ep : bytes) | POk (a : A) (rest : bytes).
Arguments PFail {A}.
Arguments POk {A}.

(** ptr += n *)
Definition adv (n : nat) (p : bytes) : res bytes := if (n <=? length p)%nat then Ret (drop n p) else Undef.

Fixpoint skip (p : bytes) : bytes := match p with c :: r => if c <=? 32 then skip r else p | [] => [] end.
Definition starts (w p : bytes) : bool := bool_decide (take (length w) p = w).

Class JsonLib := {
  pow : lnumber -> lnumber -> lnumber;
  fmt_f0 : lnumber -> bytes;     (* %.0f *)
  fmt_e : lnumber -> bytes;      (* %e *)
  fmt_f : lnumber -> bytes;      (* %f *)
}.

Definition d10 : lnumber := d_of_Z 10.
Definition d1 : lnumber := d_of_Z 1.
Definition dm1 : lnumber := d_of_Z (-1).
Definition d0 : lnumber := S754_zero false.

(** while (digit) n = n*10.0 + digit; with the number of digits *)
Fixpoint digits_loop (n : lnumber) (count : Z) (p : bytes) : lnumber * Z * bytes :=
  match p with
  | c :: r => if is_digit c then digits_loop (dadd (dmul n d10) (d_of_Z (c - 48))) (count + 1) r else (n, count, p)
  | [] => (n, count, [])
  end.
Fixpoint exponent_loop (subscale : Z) (p : bytes) : res (Z * bytes) :=
  match p with
  | c :: r => if is_digit c then s ← sint (subscale * 10); s ← sint (s + (c - 48)); exponent_loop s r else Ret (subscale, p)
  | [] => Ret (subscale, [])
  end.

Section Cjson.
Context {JL : JsonLib}.

(** The number of digits of the fraction is counted down in the double scale. *)
Definition parse_number (item : cJSON) (num : bytes) : res (parsed cJSON) :=
  let 'Item _ v _ _ s l := item in
  let '(sign, num) := if hd0 num =? 45 then (dm1, tail num) else (d1, num) in
  let num := if hd0 num =? 48 then tail num else num in
  let '(n, _, num) := if (49 <=? hd0 num) && (hd0 num <=? 57) then digits_loop d0 0 num else (d0, 0, num) in
  let '(n, k, num) := if (hd0 num =? 46) && is_digit (nth 1 num 0) then digits_loop n 0 (tail num) else (n, 0, num) in
  '(signsubscale, subscale, num) ←
    (if (hd0 num =? 101) || (hd0 num =? 69) then
       let num := tail num in
       let '(sg, num) := if hd0 num =? 43 then (1, tail num) else if hd0 num =? 45 then (-1, tail num) else (1, num) in
       '(sub, num) ← exponent_loop 0 num;
       Ret (sg, sub, num)
     else Ret (1, 0, num));
  e ← sint (subscale * signsubscale);
  let n := dmul (dmul sign n) (pow d10 (dadd (d_of_Z (- k)) (d_of_Z e))) in
  Ret (POk (Item cJSON_Number v (d2i32 n) n s l) num).

(** sscanf(p, "%4x"): white space, then at most four characters of a number with an
    optional sign and 0x.  None: no number, the variable is not set. *)
Definition hex_val (c : Z) : option Z :=
  if (48 <=? c) && (c <=? 57) then Some (c - 48)
  else if (97 <=? c) && (c <=? 102) then Some (c - 87)
  else if (65 <=? c) && (c <=? 70) then Some (c - 55) else None.
Fixpoint scan_digits (width : nat) (acc : option Z) (p : bytes) : option Z :=
  match width, p with
  | S width, c :: r =>
      match hex_val c with Some x => scan_digits width (Some (default 0 acc * 16 + x)) r | None => acc end
  | _, _ => acc
  end.
Definition scan_4x (p : bytes) : option Z :=
  let p := skip_space p in
  let '(neg, width, p) := if hd0 p =? 45 then (true, 3%nat, tail p) else if hd0 p =? 43 then (false, 3%nat, tail p) else (false, 4%nat, p) in
  let v := if (hd0 p =? 48) && ((nth 1 p 0 =? 120) || (nth 1 p 0 =? 88)) && (2 <=? width)%nat
           then scan_digits (width - 2) None (drop 2 p) else scan_digits width None p in
  option_map (fun x => u32 (if neg : bool then - x else x)) v.

(** The length of the text of a string: an escape counts as one character, and the
    character after a backslash is passed even when it is the terminator. *)
Fixpoint string_len (len : Z) (p : bytes) : res Z :=
  match p with
  | [] => Ret len
  | c :: r =>
      if c =? 34 then Ret len
      else
        len ← sint (len + 1);
        if c =? 92 then match r with [] => Undef | _ :: r => string_len len r end
        else string_len len r
  end.

Definition firstByteMark (len : nat) : Z := nth len [0; 0; 192; 224; 240; 248; 252] 0.
(** The bytes of a character in UTF-8. *)
Definition utf8 (uc : Z) : bytes :=
  let len := if uc <? 128 then 1%nat else if uc <? 2048 then 2%nat else if uc <? 65536 then 3%nat else 4%nat in
  let cont k := u8 (Z.land (Z.lor (Z.shiftr uc (6 * k)) 128) 191) in
  let first := u8 (Z.lor (Z.shiftr uc (6 * (Z.of_nat len - 1))) (firstByteMark len)) in
  first :: match len with 2%nat => [cont 0] | 3%nat => [cont 1; cont 0] | 4%nat => [cont 2; cont 1; cont 0] | _ => [] end.

(** case 'u', at the u; [uc], [uc2]: what the variables hold, None before the first
    call of sscanf that set them.  The characters written, and ptr after the case. *)
Definition parse_u (uc uc2 : option Z) (p : bytes) : res (bytes * bytes * option Z * option Z) :=
  let uc := match scan_4x (tail p) with Some x => Some x | None => uc end in
  p ← adv 4 p;
  c ← of_option uc;
  if ((56320 <=? c) && (c <=? 57343)) || (c =? 0) then Ret ([], p, uc, uc2)
  else if (55296 <=? c) && (c <=? 56319) then
    if negb (nth 1 p 0 =? 92) || negb (nth 2 p 0 =? 117) then Ret ([], p, uc, uc2)
    else
      let uc2 := match scan_4x (drop 3 p) with Some x => Some x | None => uc2 end in
      p ← adv 6 p;
      c2 ← of_option uc2;
      if (c2 <? 56320) || (57343 <? c2) then Ret ([], p, uc, uc2)
      else
        let w := Z.lor (Z.lor 65536 (Z.shiftl (Z.land c 1023) 10)) (Z.land c2 1023) in
        Ret (utf8 w, p, Some (Z.shiftr w 18), uc2)
  else
    let n := if c <? 128 then 0 else if c <? 2048 then 1 else if c <? 65536 then 2 else 3 in
    Ret (utf8 c, p, Some (Z.shiftr c (6 * n)), uc2).

Definition unescape_char (c : Z) : Z :=
  if c =? 98 then 8 else if c =? 102 then 12 else if c =? 110 then 10 else if c =? 114 then 13 else if c =? 116 then 9 else c.

(** The second loop: the characters of the string and ptr at the end. *)
Fixpoint unescape (fuel : nat) (uc uc2 : option Z) (p : bytes) : res (bytes * bytes) :=
  match fuel with
  | O => NoFuel
  | S fuel =>
      match p with
      | [] => Ret ([], [])
      | c :: r =>
          if c =? 34 then Ret ([], p)
          else if negb (c =? 92) then '(out, e) ← unescape fuel uc uc2 r; Ret (c :: out, e)
          else
            match r with
            | [] => Undef
            | c :: r' =>
                if c =? 117 then
                  '(w, p, uc, uc2) ← parse_u uc uc2 r;
                  p ← adv 1 p;
                  '(out, e) ← unescape fuel uc uc2 p;
                  Ret (w ++ out, e)
                else '(out, e) ← unescape fuel uc uc2 r'; Ret (unescape_char c :: out, e)
            end
      end
  end.

Definition parse_string (item : cJSON) (str : bytes) : res (parsed cJSON) :=
  let 'Item _ _ n d s l := item in
  if negb (hd0 str =? 34) then Ret (PFail str)
  else
    len ← string_len 0 (tail str);
    '(out, p) ← unescape (S (length str)) None None (tail str);
    if Z.of_nat (length out) <=? len then
      Ret (POk (Item cJSON_String (Some (cstr out)) n d s l) (if hd0 p =? 34 then tail p else p))
    else Undef.

(** child->string = child->valuestring; child->valuestring = 0 *)
Definition take_name (child : cJSON) : cJSON :=
  let 'Item t v n d _ l := child in Item t None n d v l.

(** [elements]: the loop of parse_array, from a value on; [members]: that of parse_object,
    from a name on. *)
Fixpoint parse_value (fuel : nat) (item : cJSON) (value : bytes) : res (parsed cJSON) :=
  match fuel with
  | O => NoFuel
  | S fuel =>
      let 'Item _ v n d s l := item in
      if starts (lit "null") value then Ret (POk (Item cJSON_NULL v n d s l) (drop 4 value))
      else if starts (lit "false") value then Ret (POk (Item cJSON_False v n d s l) (drop 5 value))
      else if starts (lit "true") value then Ret (POk (Item cJSON_True v 1 d s l) (drop 4 value))
      else if hd0 value =? 34 then parse_string item value
      else if (hd0 value =? 45) || is_digit (hd0 value) then parse_number item value
      else if hd0 value =? 91 then
        let value := skip (tail value) in
        if hd0 value =? 93 then Ret (POk (Item cJSON_Array v n d s l) (tail value))
        else
          r ← parse_elements fuel value;
          match r with
          | PFail ep => Ret (PFail ep)
          | POk l rest =>
              if hd0 rest =? 93 then Ret (POk (Item cJSON_Array v n d s l) (tail rest)) else Ret (PFail rest)
          end
      else if hd0 value =? 123 then
        let value := skip (tail value) in
        if hd0 value =? 125 then Ret (POk (Item cJSON_Object v n d s l) (tail value))
        else
          r ← parse_members fuel value;
          match r with
          | PFail ep => Ret (PFail ep)
          | POk l rest =>
              if hd0 rest =? 125 then Ret (POk (Item cJSON_Object v n d s l) (tail rest)) else Ret (PFail rest)
          end
      else Ret (PFail value)
  end
with parse_elements (fuel : nat) (value : bytes) : res (parsed (list cJSON)) :=
  match fuel with
  | O => NoFuel
  | S fuel =>
      r ← parse_value fuel cJSON_New_Item (skip value);
      match r with
      | PFail ep => Ret (PFail ep)
      | POk child rest =>
          let value := skip rest in
          if hd0 value =? 44 then
            r ← parse_elements fuel (tail value);
            match r with PFail ep => Ret (PFail ep) | POk l rest => Ret (POk (child :: l) rest) end
          else Ret (POk [child] value)
      end
  end
with parse_members (fuel : nat) (value : bytes) : res (parsed (list cJSON)) :=
  match fuel with
  | O => NoFuel
  | S fuel =>
      r ← parse_string cJSON_New_Item (skip value);
      match r with
      | PFail ep => Ret (PFail ep)
      | POk child rest =>
          let value := skip rest in
          if negb (hd0 value =? 58) then Ret (PFail value)
          else
            r ← parse_value fuel (take_name child) (skip (tail value));
            match r with
            | PFail ep => Ret (PFail ep)
            | POk child rest =>
                let value := skip rest in
                if hd0 value =? 44 then
                  r ← parse_members fuel (tail value);
                  match r with PFail ep => Ret (PFail ep) | POk l rest => Ret (POk (child :: l) rest) end
                else Ret (POk [child] value)
            end
      end
  end.

(** The item, or NULL; every level of the text takes characters of it. *)
Definition cJSON_Parse (value : bytes) : res (option cJSON) :=
  r ← parse_value (2 * length value + 2) cJSON_New_Item (skip value);
  Ret (match r with POk c _ => Some c | PFail _ => None end).

(** ** Printing *)

Definition DBL_EPSILON : lnumber := S754_finite false 4503599627370496 (-104).
Definition dfloor (d : lnumber) : lnumber :=
  match d with
  | S754_finite s m e =>
      if 0 <=? e then d else d_of_Z (if s then - ((Z.pos m + 2 ^ (- e) - 1) / 2 ^ (- e)) else Z.pos m / 2 ^ (- e))
  | _ => d
  end.
Definition dlt (a b : lnumber) : bool := match SFcompare a b with Some Lt => true | _ => false end.

(** Into a buffer of 21 bytes, or of 64 bytes. *)
Definition print_number (item : cJSON) : res bytes :=
  let d := it_valuedouble item in
  let text :=
    if SFleb (SFabs (dsub (d_of_Z (it_valueint item)) d)) DBL_EPSILON && SFleb d (d_of_Z INT_MAX) && SFleb (d_of_Z INT_MIN) d
    then (21, fmt_d (it_valueint item))
    else (64, if SFleb (SFabs (dsub (dfloor d) d)) DBL_EPSILON then fmt_f0 d
              else if dlt (SFabs d) (S754_finite false 4722366482869645 (-72)) || dlt (d_of_Z 1000000000) (SFabs d) then fmt_e d
              else fmt_f d) in
  if Z.of_nat (length (snd text)) + 1 <=? fst text then Ret (snd text) else Undef.

(** The character in the text of a string, and what the first loop counts for it. *)
Definition escape_char (c : Z) : bytes :=
  if (31 <? c) && negb (c =? 34) && negb (c =? 92) then [c]
  else
    92 :: (if c =? 92 then [92] else if c =? 34 then [34] else if c =? 8 then [98] else if c =? 12 then [102]
           else if c =? 10 then [110] else if c =? 13 then [114] else if c =? 9 then [116] else 117 :: fmt_04x c).
Definition escape_len (c : Z) : Z :=
  1 + (if bool_decide (c ∈ [34; 92; 8; 12; 10; 13; 9]) then 1 else if c <? 32 then 5 else 0).
Fixpoint text_len (len : Z) (str : bytes) : res Z :=
  match str with [] => Ret len | c :: str => len ← sint (len + escape_len c); text_len len str end.

Definition print_string_ptr (str : option bytes) : res bytes :=
  match str with
  | None => Ret []
  | Some str =>
      len ← text_len 0 str;
      let out := 34 :: concat (map escape_char str) ++ [34] in
      if Z.of_nat (length out) + 1 <=? len + 3 then Ret out else Undef
  end.

(** The texts of the entries in order, with the buffer's size. *)
Definition array_len (fmt : bool) (entries : list bytes) : Z :=
  fold_left (fun len ret => i32 (len + Z.of_nat (length ret) + 2 + (if fmt then 1 else 0))) entries 5.
Fixpoint array_text (fmt : bool) (entries : list bytes) : bytes :=
  match entries with
  | [] => [] | [e] => e
  | e :: entries => e ++ [44] ++ (if fmt then [32] else []) ++ array_text fmt entries
  end.
Definition object_len (fmt : bool) (depth : Z) (entries : list (bytes * bytes)) : Z :=
  fold_left (fun len '(str, ret) => i32 (len + Z.of_nat (length ret) + Z.of_nat (length str) + 2 + (if fmt then 2 + depth else 0)))
    entries (7 + (if fmt then depth else 0)).
Fixpoint object_text (fmt : bool) (depth : Z) (entries : list (bytes * bytes)) : bytes :=
  match entries with
  | [] => []
  | (name, e) :: entries =>
      (if fmt then replicate (Z.to_nat depth) 9 else []) ++ name ++ [58] ++ (if fmt then [9] else []) ++ e ++
      (match entries with [] => [] | _ => [44] end) ++ (if fmt then [10] else []) ++ object_text fmt depth entries
  end.
(** malloc(len) of an int, and the text with its terminator written there *)
Definition in_buffer (len : Z) (text : bytes) : res (option bytes) :=
  if Z.of_nat (length text) + 1 <=? u64 len then Ret (Some text) else Undef.

(** [print_all], [print_members]: the loops over the children; an entry that cannot be
    printed makes the whole fail. *)
Section Children.
Variable print_value : cJSON -> res (option bytes).
Fixpoint print_all (l : list cJSON) : res (option (list bytes)) :=
  match l with
  | [] => Ret (Some [])
  | c :: l =>
      r ← print_value c;
      match r with
      | None => Ret None
      | Some e => r ← print_all l; Ret (option_map (cons e) r)
      end
  end.
Fixpoint print_members (l : list cJSON) : res (option (list (bytes * bytes))) :=
  match l with
  | [] => Ret (Some [])
  | c :: l =>
      str ← print_string_ptr (it_string c);
      r ← print_value c;
      rs ← print_members l;
      Ret (match r, rs with Some e, Some l => Some ((str, e) :: l) | _, _ => None end)
  end.
End Children.

Fixpoint print_value (fmt : bool) (depth : Z) (item : cJSON) : res (option bytes) :=
  let 'Item type valuestring _ _ _ l := item in
  let t := Z.land type 255 in
  if t =? cJSON_NULL then Ret (Some (lit "null"))
  else if t =? cJSON_False then Ret (Some (lit "false"))
  else if t =? cJSON_True then Ret (Some (lit "true"))
  else if t =? cJSON_Number then text ← print_number item; Ret (Some text)
  else if t =? cJSON_String then text ← print_string_ptr valuestring; Ret (Some text)
  else if t =? cJSON_Array then
    r ← print_all (print_value fmt (depth + 1)) l;
    match r with
    | None => Ret None
    | Some entries => in_buffer (array_len fmt entries) ([91] ++ array_text fmt entries ++ [93])
    end
  else if t =? cJSON_Object then
    let depth := depth + 1 in
    r ← print_members (print_value fmt depth) l;
    match r with
    | None => Ret None
    | Some entries =>
        in_buffer (object_len fmt depth entries)
          ([123] ++ (if fmt then [10] else []) ++ object_text fmt depth entries ++
           (if fmt then replicate (Z.to_nat (depth - 1)) 9 else []) ++ [125])
    end
  else Ret None.

Definition cJSON_Print (item : cJSON) : res (option bytes) := print_value true 0 item.
Definition cJSON_PrintUnformatted (item : cJSON) : res (option bytes) := print_value false 0 item.
End Cjson.
