(* ===== verification/JsonText.v ===== *)
(** * JsonText: the texts of JSON items, and the round trip

    [json_text] is the text of an item; the printer of Json.v produces it in
    buffers that are large enough, and the parser reads it back. *)
From Stdlib Require Import SpecFloat.
From S2P Require Import Prelude Fmt Lua Dbl Json.
Local Open Scope Z_scope.

Section Induction.
Variable P : cJSON -> Prop.
Hypothesis H : forall t v n d s l, Forall P l -> P (Item t v n d s l).
Fixpoint cJSON_tree_ind (c : cJSON) : P c :=
  let 'Item t v n d s l := c in
  H t v n d s l ((fix go (l : list cJSON) : Forall P l :=
    match l with [] => @List.Forall_nil _ P | c :: l => @List.Forall_cons _ P c l (cJSON_tree_ind c) (go l) end) l).
End Induction.

Definition text_ok (t : bytes) : Prop := Forall (fun c => 0 < c < 256) t.

(** The items the creating functions make of integers, strings and containers; a child
    of an object has a name. *)
Fixpoint json_ok (c : cJSON) : Prop :=
  let 'Item t v n d s l := c in
  let children (Q : cJSON -> Prop) := fold_right (fun c P => (json_ok c /\ Q c) /\ P) True l in
  (t = cJSON_NULL /\ v = None /\ n = 0 /\ d = d0 /\ l = []) \/
  (t = cJSON_False /\ v = None /\ n = 0 /\ d = d0 /\ l = []) \/
  (t = cJSON_True /\ v = None /\ d = d0 /\ l = []) \/
  (t = cJSON_Number /\ v = None /\ INT_MIN <= n <= INT_MAX /\ d = d_of_Z n /\ l = []) \/
  (t = cJSON_String /\ (exists x, v = Some x /\ text_ok x) /\ n = 0 /\ d = d0 /\ l = []) \/
  (t = cJSON_Array /\ v = None /\ n = 0 /\ d = d0 /\ children (fun c => it_string c = None)) \/
  (t = cJSON_Object /\ v = None /\ n = 0 /\ d = d0 /\ children (fun c => exists x, it_string c = Some x /\ text_ok x)).

Lemma children_Forall (P Q : cJSON -> Prop) l :
  fold_right (fun c R => (P c /\ Q c) /\ R) True l <-> Forall (fun c => P c /\ Q c) l.
Proof. induction l as [|c l IH]; cbn; [split; constructor|]. by rewrite Forall_cons, IH. Qed.

(** The text of a string, and of an item at a depth. *)
Definition string_text (t : bytes) : bytes := 34 :: concat (map escape_char t) ++ [34].
Definition name_of (c : cJSON) : bytes := default [] (it_string c).
Fixpoint json_text (fmt : bool) (depth : Z) (c : cJSON) : bytes :=
  let 'Item t v n _ _ l := c in
  if t =? cJSON_NULL then lit "null"
  else if t =? cJSON_False then lit "false"
  else if t =? cJSON_True then lit "true"
  else if t =? cJSON_Number then fmt_d n
  else if t =? cJSON_String then string_text (default [] v)
  else if t =? cJSON_Array then [91] ++ array_text fmt (map (json_text fmt (depth + 1)) l) ++ [93]
  else
    [123] ++ (if fmt then [10] else []) ++
    object_text fmt (depth + 1) (map (fun c => (string_text (name_of c), json_text fmt (depth + 1) c)) l) ++
    (if fmt then replicate (Z.to_nat depth) 9 else []) ++ [125].

(** The seven kinds of items. *)
Ltac item_cases Hok :=
  destruct Hok as [(-> & -> & -> & -> & ->)|[(-> & -> & -> & -> & ->)|[(-> & -> & -> & ->)|[(-> & -> & Hn & -> & ->)|
    [(-> & (x & -> & Hx) & -> & -> & ->)|[(-> & -> & -> & -> & Hl)|(-> & -> & -> & -> & Hl)]]]]]];
  try (apply children_Forall in Hl).

Section Print.
Context {JL : JsonLib}.

Lemma escape_char_len c : 0 < c < 256 -> Z.of_nat (length (escape_char c)) = escape_len c.
Proof.
  assert (H : forallb (fun c => (c =? 0) || (Z.of_nat (length (escape_char c)) =? escape_len c)) (seqZ 0 256) = true)
    by (vm_compute; reflexivity).
  intros Hc. pose proof (range_cases _ _ H c ltac:(lia)) as Hx. cbn beta in Hx.
  apply orb_true_iff in Hx as [Hx|Hx]; apply Z.eqb_eq in Hx; lia.
Qed.

Lemma text_len_ok t : forall len, text_ok t -> 0 <= len ->
  len + Z.of_nat (length (concat (map escape_char t))) <= INT_MAX ->
  text_len len t = Ret (len + Z.of_nat (length (concat (map escape_char t)))).
Proof.
  induction t as [|c t IH]; intros len Ht Hl Hb; [cbn; by rewrite Z.add_0_r|].
  apply Forall_cons in Ht as [Hc Ht]. cbn [map concat text_len] in *. rewrite length_app in *.
  rewrite <- (escape_char_len c Hc). unfold INT_MAX in *. sint_step. rewrite IH by (done || lia). f_equal. lia.
Qed.

Lemma print_string_ptr_ok t : text_ok t -> Z.of_nat (length (string_text t)) <= INT_MAX ->
  print_string_ptr (Some t) = Ret (string_text t).
Proof.
  intros Ht Hb. unfold string_text in *. cbn [length] in Hb. rewrite length_app in Hb. cbn in Hb.
  unfold print_string_ptr. rewrite text_len_ok by (done || lia). rewrite bind_Ret_l. cbv zeta. cbn [length].
  rewrite length_app. cbn [length]. match goal with |- context [?a <=? ?b] => destruct (Z.leb_spec a b); [done|lia] end.
Qed.

Lemma print_number_int n s : INT_MIN <= n <= INT_MAX ->
  Z.of_nat (length (fmt_d n)) <= 20 -> print_number (Item cJSON_Number None n (d_of_Z n) s []) = Ret (fmt_d n).
Proof.
  unfold INT_MIN, INT_MAX. intros Hn Hlen. unfold print_number. cbn [it_valuedouble it_valueint].
  rewrite dsub_same by lia. unfold SFleb.
  change (SFcompare (SFabs (S754_zero false)) DBL_EPSILON) with (Some Lt).
  rewrite !dcompare_exact by (unfold INT_MIN, INT_MAX; lia).
  destruct (Z.compare_spec n INT_MAX), (Z.compare_spec INT_MIN n); unfold INT_MIN, INT_MAX in *; try lia;
    cbn [andb fst snd]; (destruct (Z.leb_spec (Z.of_nat (length (fmt_d n)) + 1) 21); [done|lia]).
Qed.

(** What the entries count for the size of the buffer. *)
Definition array_cost (fmt : bool) (es : list bytes) : Z :=
  fold_right (fun (e : bytes) n => Z.of_nat (length e) + 2 + (if fmt then 1 else 0) + n) 0 es.
Definition object_cost (fmt : bool) (depth : Z) (es : list (bytes * bytes)) : Z :=
  fold_right (fun '((a, e) : bytes * bytes) n =>
    Z.of_nat (length e) + Z.of_nat (length a) + 2 + (if fmt then 2 + depth else 0) + n) 0 es.

Lemma array_cost_cons fmt e es : array_cost fmt (e :: es) = Z.of_nat (length e) + 2 + (if fmt then 1 else 0) + array_cost fmt es.
Proof. done. Qed.
Lemma object_cost_cons fmt depth a e es : object_cost fmt depth ((a, e) :: es) =
  Z.of_nat (length e) + Z.of_nat (length a) + 2 + (if fmt then 2 + depth else 0) + object_cost fmt depth es.
Proof. done. Qed.

Lemma array_cost_text fmt es :
  Z.of_nat (length (array_text fmt es)) <= array_cost fmt es <= 2 * Z.of_nat (length (array_text fmt es)) + 3.
Proof.
  induction es as [|e es IH]; [cbn; lia|]. rewrite array_cost_cons.
  destruct es as [|e' es]; [cbn; destruct fmt; lia|].
  change (array_text fmt (e :: e' :: es)) with (e ++ [44] ++ (if fmt then [32] else []) ++ array_text fmt (e' :: es)).
  rewrite !length_app. destruct fmt; cbn [length]; lia.
Qed.
Lemma object_cost_text fmt depth es : 0 <= depth ->
  Z.of_nat (length (object_text fmt depth es)) <= object_cost fmt depth es <= Z.of_nat (length (object_text fmt depth es)) + 1.
Proof.
  intros Hd. induction es as [|[a e] es IH]; [cbn; lia|]. rewrite object_cost_cons. cbn [object_text].
  rewrite !length_app. cbn [length]. destruct es as [|e' es]; destruct fmt;
    cbn [length object_cost fold_right object_text] in IH |- *; rewrite ?length_replicate; lia.
Qed.

Lemma array_cost_nonneg fmt es : 0 <= array_cost fmt es.
Proof. pose proof (array_cost_text fmt es). lia. Qed.
Lemma object_cost_nonneg fmt depth es : 0 <= depth -> 0 <= object_cost fmt depth es.
Proof. intros H. pose proof (object_cost_text fmt depth es H). lia. Qed.

Lemma array_len_ok fmt es : 5 + array_cost fmt es <= INT_MAX -> array_len fmt es = 5 + array_cost fmt es.
Proof.
  unfold array_len, INT_MAX. assert (H : forall acc, 0 <= acc -> acc + array_cost fmt es <= 2147483647 ->
    fold_left (fun len (ret : bytes) => i32 (len + Z.of_nat (length ret) + 2 + (if fmt then 1 else 0))) es acc = acc + array_cost fmt es).
  { induction es as [|e es IH]; intros acc Ha Hb; [cbn; lia|]. cbn [fold_left]. pose proof (array_cost_nonneg fmt es).
    rewrite array_cost_cons in *.
    rewrite (wrapS_id 32) by (unfold in_s; destruct fmt; lia). rewrite IH by (destruct fmt; lia). lia. }
  intros Hb. apply H; lia.
Qed.
Lemma object_len_ok (fmt : bool) (depth : Z) es : 0 <= depth -> 7 + (if fmt then depth else 0) + object_cost fmt depth es <= INT_MAX ->
  object_len fmt depth es = 7 + (if fmt then depth else 0) + object_cost fmt depth es.
Proof.
  unfold object_len, INT_MAX. intros Hd. assert (H : forall acc, 0 <= acc -> acc + object_cost fmt depth es <= 2147483647 ->
    fold_left (fun len '((str, ret) : bytes * bytes) => i32 (len + Z.of_nat (length ret) + Z.of_nat (length str) + 2 + (if fmt then 2 + depth else 0))) es acc
      = acc + object_cost fmt depth es).
  { induction es as [|[a e] es IH]; intros acc Ha Hb; [cbn; lia|]. cbn [fold_left]. pose proof (object_cost_nonneg fmt depth es Hd).
    rewrite object_cost_cons in *.
    rewrite (wrapS_id 32) by (unfold in_s; destruct fmt; lia). rewrite IH by (destruct fmt; lia). lia. }
  intros Hb. apply H; [destruct fmt; lia|done].
Qed.

Lemma in_buffer_ok len text : 0 <= len < 2 ^ 64 -> Z.of_nat (length text) + 1 <= len -> in_buffer len text = Ret (Some text).
Proof.
  intros H1 H2. unfold in_buffer. rewrite wrapU_id by (unfold in_u; lia). destruct (Z.leb_spec (Z.of_nat (length text) + 1) len); [done|lia].
Qed.

(** An int has at most ten digits. *)
Lemma dec_loop_length fuel : forall z, 0 <= z -> forall k, z < 10 ^ Z.of_nat k -> (1 <= k)%nat -> (length (dec_loop fuel z) <= k)%nat.
Proof.
  induction fuel as [|fuel IH]; intros z Hz k Hk H1; [cbn; lia|]. cbn [dec_loop]. destruct (Z.ltb_spec z 10); [cbn; lia|].
  destruct k as [|[|k]]; [lia|cbn in Hk; lia|]. rewrite length_app. cbn [length].
  assert (length (dec_loop fuel (z / 10)) <= S k)%nat; [|lia].
  apply IH; [apply Z.div_pos; lia| |lia]. apply Z.div_lt_upper_bound; [lia|].
  rewrite Nat2Z.inj_succ, Z.pow_succ_r in Hk by lia. done.
Qed.
Lemma fmt_d_length n : INT_MIN <= n <= INT_MAX -> Z.of_nat (length (fmt_d n)) <= 20.
Proof.
  unfold INT_MIN, INT_MAX. intros Hn. unfold fmt_d, dec. destruct (Z.ltb_spec n 0).
  - pose proof (dec_loop_length (S (Z.to_nat (Z.log2 (- n)))) (- n) ltac:(lia) 10 ltac:(cbn; lia) ltac:(lia)). cbn [length]. lia.
  - pose proof (dec_loop_length (S (Z.to_nat (Z.log2 n))) n ltac:(lia) 10 ltac:(cbn; lia) ltac:(lia)). lia.
Qed.

(** The text of an entry is part of the text of its container. *)
Lemma array_text_part fmt e es : e ∈ es -> (length e <= length (array_text fmt es))%nat.
Proof.
  induction es as [|x es IH]; [by intros ?%not_elem_of_nil|]. intros [->|He]%elem_of_cons.
  - destruct es; cbn [array_text]; [lia|]. rewrite length_app. lia.
  - specialize (IH He). destruct es as [|y es]; [by apply not_elem_of_nil in He|].
    change (array_text fmt (x :: y :: es)) with (x ++ [44] ++ (if fmt then [32] else []) ++ array_text fmt (y :: es)).
    rewrite !length_app. lia.
Qed.
Lemma object_text_part fmt depth a e es : (a, e) ∈ es ->
  (length a + length e <= length (object_text fmt depth es))%nat.
Proof.
  induction es as [|[x y] es IH]; [by intros ?%not_elem_of_nil|]. cbn [object_text]. intros [[= <- <-]|He]%elem_of_cons.
  - rewrite !length_app. lia.
  - specialize (IH He). rewrite !length_app. lia.
Qed.

Lemma print_all_ok (pv : cJSON -> res (option bytes)) (tx : cJSON -> bytes) l :
  Forall (fun c => pv c = Ret (Some (tx c))) l -> print_all pv l = Ret (Some (map tx l)).
Proof. induction 1 as [|c l Hc Hl IH]; [done|]. cbn. by rewrite Hc, bind_Ret_l, IH. Qed.
Lemma print_members_ok (pv : cJSON -> res (option bytes)) (tx : cJSON -> bytes) l :
  Forall (fun c => pv c = Ret (Some (tx c)) /\ print_string_ptr (it_string c) = Ret (string_text (name_of c))) l ->
  print_members pv l = Ret (Some (map (fun c => (string_text (name_of c), tx c)) l)).
Proof. induction 1 as [|c l [Hc Hn] Hl IH]; [done|]. cbn. by rewrite Hn, bind_Ret_l, Hc, bind_Ret_l, IH. Qed.

(** The printer writes the text, in buffers that hold it. *)
Lemma print_value_ok fmt c : forall depth, json_ok c -> 0 <= depth ->
  2 * Z.of_nat (length (json_text fmt depth c)) + depth + 16 <= INT_MAX ->
  print_value fmt depth c = Ret (Some (json_text fmt depth c)).
Proof.
  induction c as [t v n d s l IH] using cJSON_tree_ind. intros depth Hok Hd Hb. cbn [json_ok] in Hok. item_cases Hok.
  - done.
  - done.
  - done.
  - cbn [print_value]. change (Z.land cJSON_Number 255) with cJSON_Number. cbn [Z.eqb].
    change (print_number _) with (print_number (Item cJSON_Number None n (d_of_Z n) s [])).
    cbv [Z.eqb cJSON_Number cJSON_NULL cJSON_False cJSON_True Pos.eqb].
    rewrite print_number_int by (done || by apply fmt_d_length). done.
  - cbn [print_value json_text] in *. change (Z.land cJSON_String 255) with cJSON_String.
    cbv [Z.eqb cJSON_Number cJSON_NULL cJSON_False cJSON_True cJSON_String Pos.eqb] in Hb |- *.
    cbn [default from_option id] in *. rewrite print_string_ptr_ok; [done|done|]. unfold INT_MAX in *. lia.
  - cbn [print_value json_text] in *. change (Z.land cJSON_Array 255) with cJSON_Array.
    cbv [Z.eqb cJSON_Array cJSON_Number cJSON_NULL cJSON_False cJSON_True cJSON_String Pos.eqb] in Hb |- *.
    rewrite !length_app in Hb. cbn [length] in Hb. set (texts := map (json_text fmt (depth + 1)) l) in *.
    rewrite (print_all_ok _ (json_text fmt (depth + 1))).
    2:{ rewrite Forall_forall in IH, Hl |- *. intros c Hc. apply IH; [done|by apply Hl|lia|].
        pose proof (array_text_part fmt (json_text fmt (depth + 1) c) texts ltac:(by apply list_elem_of_fmap_2)). lia. }
    fold texts. rewrite bind_Ret_l. pose proof (array_cost_text fmt texts).
    rewrite array_len_ok by (unfold INT_MAX in *; lia). apply in_buffer_ok; [unfold INT_MAX in *; lia|].
    rewrite !length_app. cbn [length]. lia.
  - cbn [print_value json_text] in *. change (Z.land cJSON_Object 255) with cJSON_Object.
    cbv [Z.eqb cJSON_Object cJSON_Array cJSON_Number cJSON_NULL cJSON_False cJSON_True cJSON_String Pos.eqb] in Hb |- *.
    rewrite !length_app in Hb. cbn [length] in Hb.
    set (texts := map (fun c => (string_text (name_of c), json_text fmt (depth + 1) c)) l) in *.
    assert (Hpart : forall c, c ∈ l -> (length (string_text (name_of c)) + length (json_text fmt (depth + 1) c) <=
      length (object_text fmt (depth + 1) texts))%nat).
    { intros c Hc. apply (object_text_part fmt (depth + 1)). unfold texts.
      by apply (list_elem_of_fmap_2 (fun c => (string_text (name_of c), json_text fmt (depth + 1) c))). }
    rewrite (print_members_ok _ (json_text fmt (depth + 1))).
    2:{ rewrite Forall_forall in IH, Hl |- *. intros c Hc. specialize (Hpart c Hc). destruct (Hl c Hc) as [Hc1 (x & Hx & Hxt)]. split.
        - apply IH; [done|done|lia|lia].
        - unfold name_of in *. rewrite Hx in *. cbn [default from_option id] in *. apply print_string_ptr_ok; [done|].
          unfold INT_MAX in *. lia. }
    fold texts. rewrite bind_Ret_l. pose proof (object_cost_text fmt (depth + 1) texts ltac:(lia)).
    rewrite object_len_ok by (unfold INT_MAX in *; destruct fmt; lia).
    replace (depth + 1 - 1) with depth by lia. apply in_buffer_ok; [unfold INT_MAX in *; destruct fmt; lia|].
    rewrite !length_app. destruct fmt; cbn [length]; rewrite ?length_replicate; lia.
Qed.
End Print.

(** ** Reading the text back *)

(** A character after which a number has ended. *)
Definition stop (rest : bytes) : Prop :=
  is_digit (hd0 rest) = false /\ hd0 rest <> 46 /\ hd0 rest <> 101 /\ hd0 rest <> 69.

(** What the parser makes of an item: True has 1 in valueint. *)
Fixpoint canon (c : cJSON) : cJSON :=
  let 'Item t v n d s l := c in Item t v (if t =? cJSON_True then 1 else n) d s (map canon l).
(** A fresh item of some type and name. *)
Definition fresh_item (t : Z) (s : option bytes) : cJSON := Item t None 0 d0 s [].

Class JsonLibOk (JL : JsonLib) : Prop := { pow_zero : forall x, pow x d0 = d1 }.

Section Parse.
Context {JL : JsonLib} {JLOk : JsonLibOk JL}.

Lemma dec_val_mono ds : forall acc, 0 <= acc -> Forall (fun c => is_digit c = true) ds -> acc <= dec_val acc ds.
Proof.
  induction ds as [|c ds IH]; intros acc Ha H; [cbn; lia|]. apply Forall_cons in H as [Hc H].
  apply is_digit_range in Hc. specialize (IH (acc * 10 + (c - 48)) ltac:(lia) H). cbn in *. unfold dec_val in *. lia.
Qed.

Lemma digits_loop_ok ds rest : forall acc k, 0 <= acc -> Forall (fun c => is_digit c = true) ds ->
  dec_val acc ds < 2 ^ 53 -> is_digit (hd0 rest) = false ->
  digits_loop (d_of_Z acc) k (ds ++ rest) = (d_of_Z (dec_val acc ds), k + Z.of_nat (length ds), rest).
Proof.
  induction ds as [|c ds IH]; intros acc k Ha H Hb Hs.
  - cbn. destruct rest as [|x rest]; cbn in *; [by rewrite Z.add_0_r|]. rewrite Hs. by rewrite Z.add_0_r.
  - apply Forall_cons in H as [Hc H]. cbn [app digits_loop]. rewrite Hc. apply is_digit_range in Hc.
    change (dec_val acc (c :: ds)) with (dec_val (acc * 10 + (c - 48)) ds) in *.
    pose proof (dec_val_mono ds (acc * 10 + (c - 48)) ltac:(lia) H).
    unfold d10. rewrite dmul_exact, dadd_exact by lia. rewrite IH by (done || lia). do 2 f_equal. cbn [length]. lia.
Qed.

Lemma parse_number_int n rest t s : INT_MIN <= n <= INT_MAX -> stop rest ->
  parse_number (fresh_item t s) (fmt_d n ++ rest) = Ret (POk (Item cJSON_Number None n (d_of_Z n) s []) rest).
Proof.
  unfold INT_MIN, INT_MAX. intros Hn (H1 & H2 & H3 & H4).
  destruct (dec_spec (Z.abs n) ltac:(lia)) as (Hv & Hds & c & ds & Hdec & Hc).
  unfold parse_number, fresh_item.
  assert (Hsign : (if hd0 (fmt_d n ++ rest) =? 45 then (dm1, tail (fmt_d n ++ rest)) else (d1, fmt_d n ++ rest))
    = (if n <? 0 then dm1 else d1, dec (Z.abs n) ++ rest)).
  { unfold fmt_d. destruct (Z.ltb_spec n 0); [by rewrite Z.abs_neq by lia|].
    rewrite Z.abs_eq in * by lia. rewrite Hdec in *. cbn [app hd0].
    apply Forall_cons in Hds as [Hd _]. apply is_digit_range in Hd. destruct (Z.eqb_spec c 45); [lia|done]. }
  rewrite Hsign. clear Hsign. set (sign := if n <? 0 then dm1 else d1).
  assert (Hdig : exists k, (let num := if hd0 (dec (Z.abs n) ++ rest) =? 48 then tail (dec (Z.abs n) ++ rest) else dec (Z.abs n) ++ rest in
    if (49 <=? hd0 num) && (hd0 num <=? 57) then digits_loop d0 0 num else (d0, 0, num)) = (d_of_Z (Z.abs n), k, rest)).
  { destruct (Z.eq_dec (Z.abs n) 0) as [H0|H0].
    - rewrite H0. change (dec 0) with [48]. cbn [app hd0 tail]. rewrite Z.eqb_refl.
      destruct (Z.leb_spec 49 (hd0 rest)), (Z.leb_spec (hd0 rest) 57); cbn [andb]; try by eexists.
      assert (is_digit (hd0 rest) = true) by (apply is_digit_range; lia). congruence.
    - rewrite Hdec. cbn [app hd0]. pose proof Hds as Hds'. rewrite Hdec in Hds. apply Forall_cons in Hds as [Hd _]. apply is_digit_range in Hd.
      destruct (Z.eqb_spec c 48) as [->|Hc0]; [destruct (Hc eq_refl); lia|]. cbn [hd0].
      destruct (Z.leb_spec 49 c), (Z.leb_spec c 57); try lia. cbn [andb].
      change (c :: ds ++ rest) with ((c :: ds) ++ rest). rewrite <- Hdec. change d0 with (d_of_Z 0).
      rewrite digits_loop_ok by (done || lia). rewrite Hv. by eexists. }
  destruct Hdig as [k Hdig]. cbv zeta in Hdig |- *. rewrite Hdig. destruct (Z.eqb_spec (hd0 rest) 46); [done|]. cbn [andb].
  destruct (Z.eqb_spec (hd0 rest) 101), (Z.eqb_spec (hd0 rest) 69); try done. cbn [orb].
  rewrite bind_Ret_l. change (sint (0 * 1)) with (Ret 0). rewrite bind_Ret_l. change (dadd (d_of_Z (- 0)) (d_of_Z 0)) with d0.
  rewrite pow_zero. assert (Hres : dmul (dmul sign (d_of_Z (Z.abs n))) d1 = d_of_Z n).
  { unfold sign. destruct n as [|p|p]; [done| |]; cbn [Z.ltb Z.compare Z.abs].
    - destruct (dmul_unit false p ltac:(lia)) as [E1 E2].
      change (dmul (dmul (binary_round 53 1024 false 1 0) (binary_round 53 1024 false p 0)) (binary_round 53 1024 false 1 0)
        = binary_round 53 1024 false p 0). by rewrite E1.
    - destruct (dmul_unit true p ltac:(lia)) as [E1 E2].
      change (dmul (dmul (binary_round 53 1024 true 1 0) (binary_round 53 1024 false p 0)) (binary_round 53 1024 false 1 0)
        = binary_round 53 1024 true p 0). by rewrite E1. }
  rewrite Hres, d2i32_of_Z by (unfold in_s; lia). done.
Qed.

(** One character of the text of a string. *)
Lemma escape_cases c : 0 < c < 256 ->
  (escape_char c = [c] /\ c <> 34 /\ c <> 92) \/
  (exists x, escape_char c = [92; x] /\ unescape_char x = c /\ x <> 117) \/
  (escape_char c = 92 :: 117 :: fmt_04x c /\ c < 32).
Proof.
  assert (H : forallb (fun c => (c =? 0) ||
     (bool_decide (escape_char c = [c]) && negb (c =? 34) && negb (c =? 92)) ||
     (match escape_char c with [y; x] => (y =? 92) && (unescape_char x =? c) && negb (x =? 117) | _ => false end) ||
     (bool_decide (escape_char c = 92 :: 117 :: fmt_04x c) && (c <? 32))) (seqZ 0 256) = true) by (vm_compute; reflexivity).
  intros Hc. pose proof (range_cases _ _ H c ltac:(lia)) as Hx. cbn beta in Hx.
  repeat apply orb_true_iff in Hx as [Hx|Hx].
  - apply Z.eqb_eq in Hx. lia.
  - left. b2p. done.
  - right. left. destruct (escape_char c) as [|y [|x [|]]]; try done. b2p. subst. by exists x.
  - right. right. b2p. split; [done|lia].
Qed.

(** The digits of a control character. *)
Lemma control_digits c : 0 < c < 32 -> exists h1 h2 x1 x2, fmt_04x c = [48; 48; h1; h2] /\
  hex_val h1 = Some x1 /\ hex_val h2 = Some x2 /\ c = x1 * 16 + x2 /\ h1 <> 34 /\ h1 <> 92 /\ h2 <> 34 /\ h2 <> 92.
Proof.
  assert (H : forallb (fun c => match fmt_04x c with
    | [a; b; h1; h2] => (a =? 48) && (b =? 48) && negb (h1 =? 34) && negb (h1 =? 92) && negb (h2 =? 34) && negb (h2 =? 92) &&
        (match hex_val h1, hex_val h2 with Some x1, Some x2 => c =? x1 * 16 + x2 | _, _ => false end)
    | _ => false end) (seqZ 0 32) = true) by (vm_compute; reflexivity).
  intros Hc. pose proof (range_cases _ _ H c ltac:(lia)) as Hx. cbn beta in Hx.
  destruct (fmt_04x c) as [|a [|b [|h1 [|h2 [|]]]]]; try done.
  destruct (hex_val h1) as [x1|] eqn:E1, (hex_val h2) as [x2|] eqn:E2; b2p; try done.
  subst. by exists h1, h2, x1, x2.
Qed.

Lemma parse_u_control uc uc2 c r : 0 < c < 32 ->
  exists h2, parse_u uc uc2 (117 :: fmt_04x c ++ r) = Ret ([c], h2 :: r, Some c, uc2).
Proof.
  intros Hc. destruct (control_digits c Hc) as (h1 & h2 & x1 & x2 & Ht & E1 & E2 & Hx & _). exists h2. rewrite Ht.
  assert (Hscan : scan_4x ([48; 48; h1; h2] ++ r) = Some c).
  { unfold scan_4x. cbn [app skip_space is_space]. change (is_space 48) with false. cbv iota.
    cbn [hd0]. change (48 =? 45) with false. change (48 =? 43) with false. cbv iota. cbn [nth].
    change (48 =? 120) with false. change (48 =? 88) with false. rewrite andb_false_r. cbn [orb andb].
    cbn [scan_digits]. change (hex_val 48) with (Some 0). cbv iota. rewrite E1, E2. cbn [default from_option id option_map].
    f_equal. rewrite (wrapU_id 32) by (unfold in_u; lia). lia. }
  unfold parse_u. cbn [tail]. rewrite Hscan. unfold adv. cbn [app length Nat.leb drop]. rewrite bind_Ret_l. cbn [of_option].
  rewrite bind_Ret_l. destruct (Z.leb_spec 56320 c); [lia|]. destruct (Z.eqb_spec c 0); [lia|]. cbn [andb orb].
  destruct (Z.leb_spec 55296 c); [lia|]. cbn [andb]. unfold utf8. destruct (Z.ltb_spec c 128); [|lia].
  cbn [firstByteMark]. rewrite Z.shiftr_0_r. change (6 * (Z.of_nat 1 - 1)) with 0. rewrite Z.shiftr_0_r.
  change (firstByteMark 1) with 0. rewrite Z.lor_0_r, (wrapU_id 8) by (unfold in_u; lia). done.
Qed.

Lemma string_len_ok t : forall len rest, text_ok t -> 0 <= len ->
  len + Z.of_nat (length (concat (map escape_char t))) <= INT_MAX ->
  exists L, string_len len (concat (map escape_char t) ++ 34 :: rest) = Ret L /\ len + Z.of_nat (length t) <= L.
Proof.
  unfold INT_MAX. induction t as [|c t IH]; intros len rest Ht Hl Hb; [exists len; cbn; split; [done|lia]|].
  apply Forall_cons in Ht as [Hc Ht]. cbn [map concat] in *. rewrite length_app in Hb. rewrite <- app_assoc.
  destruct (escape_cases c Hc) as [(E & H1 & H2)|[(x & E & _ & _)|(E & Hlt)]]; rewrite E in *; cbn [app length] in *.
  - cbn [string_len]. destruct (Z.eqb_spec c 34); [done|]. sint_step. destruct (Z.eqb_spec c 92); [done|].
    destruct (IH (len + 1) rest Ht) as (L & HL & HLb); [lia|lia|]. exists L. split; [done|lia].
  - cbn [string_len]. change (92 =? 34) with false. cbv iota. sint_step. change (92 =? 92) with true. cbv iota.
    destruct (IH (len + 1) rest Ht) as (L & HL & HLb); [lia|lia|]. exists L. split; [done|lia].
  - destruct (control_digits c ltac:(lia)) as (h1 & h2 & x1 & x2 & Hx & _ & _ & _ & H1 & H2 & H3 & H4).
    rewrite Hx in *. cbn [app length string_len] in *. change (92 =? 34) with false. change (48 =? 34) with false. cbv iota.
    sint_step. change (92 =? 92) with true. cbv iota. change (48 =? 92) with false. cbv iota. do 2 sint_step.
    destruct (Z.eqb_spec h1 34); [done|]. sint_step. destruct (Z.eqb_spec h1 92); [done|].
    destruct (Z.eqb_spec h2 34); [done|]. sint_step. destruct (Z.eqb_spec h2 92); [done|].
    destruct (IH (len + 1 + 1 + 1 + 1 + 1) rest Ht) as (L & HL & HLb); [lia|lia|]. exists L. split; [done|lia].
Qed.

Lemma unescape_ok t : forall fuel uc uc2 rest, text_ok t -> (length (concat (map escape_char t)) < fuel)%nat ->
  unescape fuel uc uc2 (concat (map escape_char t) ++ 34 :: rest) = Ret (t, 34 :: rest).
Proof.
  induction t as [|c t IH]; intros fuel uc uc2 rest Ht Hf; (destruct fuel as [|fuel]; [lia|]); [done|].
  apply Forall_cons in Ht as [Hc Ht]. cbn [map concat] in *. rewrite length_app in Hf. rewrite <- app_assoc.
  destruct (escape_cases c Hc) as [(E & H1 & H2)|[(x & E & Hx & H1)|(E & Hlt)]]; rewrite E in *; cbn [app length] in *.
  - cbn [unescape]. destruct (Z.eqb_spec c 34); [done|]. destruct (Z.eqb_spec c 92); [done|]. cbn [negb].
    by rewrite IH by (done || lia).
  - cbn [unescape]. change (92 =? 34) with false. change (negb (92 =? 92)) with false. cbv iota.
    destruct (Z.eqb_spec x 117); [done|]. rewrite IH by (done || lia). by rewrite bind_Ret_l, Hx.
  - cbn [unescape]. change (92 =? 34) with false. change (negb (92 =? 92)) with false. change (117 =? 117) with true. cbv iota.
    destruct (parse_u_control uc uc2 c (concat (map escape_char t) ++ 34 :: rest) ltac:(lia)) as [h Hu].
    rewrite Hu, bind_Ret_l. unfold adv. cbn [length Nat.leb drop]. rewrite bind_Ret_l, drop_0, IH by (done || lia). done.
Qed.

Lemma parse_string_ok t ty s rest : text_ok t -> Z.of_nat (length (string_text t)) <= INT_MAX ->
  parse_string (fresh_item ty s) (string_text t ++ rest) = Ret (POk (Item cJSON_String (Some t) 0 d0 s []) rest).
Proof.
  intros Ht Hb. unfold string_text in *. cbn [length] in Hb. rewrite length_app in Hb. cbn [length] in Hb.
  unfold parse_string, fresh_item. cbn [app hd0 tail]. change (negb (34 =? 34)) with false. cbv iota.
  rewrite <- app_assoc. cbn [app]. destruct (string_len_ok t 0 rest Ht) as (L & HL & HLb); [lia|lia|].
  rewrite HL, bind_Ret_l, unescape_ok, bind_Ret_l; [|done|cbn [length]; rewrite length_app; cbn [length]; lia].
  destruct (Z.leb_spec (Z.of_nat (length t)) L); [|lia]. cbn [hd0 tail]. change (34 =? 34) with true.
  rewrite cstr_nozero; [done|]. eapply Forall_impl; [exact Ht|]. cbn. lia.
Qed.

(** ** Values *)

Definition set_name (s : option bytes) (c : cJSON) : cJSON := let 'Item t v n d _ l := c in Item t v n d s l.
Lemma set_name_same c : set_name (it_string c) (canon c) = canon c.
Proof. by destruct c. Qed.

Definition blank (ws : bytes) : Prop := Forall (fun c => c <= 32) ws.
Lemma skip_blank ws p : blank ws -> skip (ws ++ p) = skip p.
Proof. induction 1 as [|c ws Hc Hws IH]; [done|]. cbn. destruct (Z.leb_spec c 32); [done|lia]. Qed.
Lemma skip_head h t : 32 < h -> skip (h :: t) = h :: t.
Proof. intros H. cbn. destruct (Z.leb_spec h 32); [lia|done]. Qed.
Lemma blank_tabs n : blank (replicate n 9).
Proof. apply Forall_replicate. lia. Qed.

Lemma starts_head a w h p : a <> h -> starts (a :: w) (h :: p) = false.
Proof. intros H. unfold starts. apply bool_decide_eq_false. cbn. intros [= ->]. done. Qed.
Lemma starts_app w p : starts w (w ++ p) = true.
Proof. unfold starts. apply bool_decide_eq_true. by rewrite take_app_length. Qed.

Lemma json_text_head fmt depth c : json_ok c ->
  exists h t, json_text fmt depth c = h :: t /\ 32 < h /\ h <> 93.
Proof.
  destruct c as [t v n d s l]. intros Hok. cbn [json_ok] in Hok. item_cases Hok;
    [by do 2 eexists; cbn; split_and!; [reflexivity|lia|lia]..| | | |].
  - cbn. unfold fmt_d. destruct (Z.ltb_spec n 0); [by do 2 eexists|].
    destruct (dec_spec n ltac:(lia)) as (_ & Hds & c & ds & E & _). rewrite E in *. apply Forall_cons in Hds as [Hc _].
    apply is_digit_range in Hc. exists c, ds. split_and!; [done|lia|lia].
  - cbn. by do 2 eexists.
  - cbn. by do 2 eexists.
  - cbn. by do 2 eexists.
Qed.

(** The text of a child is read back, before anything that ends a number. *)
Definition reads_back (tx : cJSON -> bytes) (c : cJSON) : Prop :=
  forall rest fuel ty s, stop rest -> (2 * length (tx c) <= fuel)%nat ->
  parse_value fuel (fresh_item ty s) (tx c ++ rest) = Ret (POk (set_name s (canon c)) rest).
Definition good_head (tx : cJSON -> bytes) (c : cJSON) : Prop := exists h t, tx c = h :: t /\ 32 < h /\ h <> 93.

Lemma parse_elements_ok fmt (tx : cJSON -> bytes) l : forall fuel ws rest, l <> [] -> blank ws ->
  Forall (fun c => reads_back tx c /\ good_head tx c /\ it_string c = None) l ->
  (2 * length (array_text fmt (map tx l)) + 1 <= fuel)%nat ->
  parse_elements fuel (ws ++ array_text fmt (map tx l) ++ 93 :: rest) = Ret (POk (map canon l) (93 :: rest)).
Proof.
  induction l as [|c l IH]; intros fuel ws rest Hne Hws Hl Hf; [done|].
  apply Forall_cons in Hl as [(Hc & (h & t & Ht & Hh & _) & Hname) Hl]. destruct fuel as [|fuel]; [lia|]. cbn [parse_elements].
  rewrite skip_blank by done. change cJSON_New_Item with (fresh_item 0 None).
  assert (Hset : set_name None (canon c) = canon c) by (rewrite <- Hname; apply set_name_same).
  destruct l as [|c' l].
  - cbn [map array_text] in *. rewrite Ht. cbn [app]. rewrite skip_head by done. change (h :: t ++ 93 :: rest) with ((h :: t) ++ 93 :: rest).
    rewrite <- Ht, Hc; [|done|lia]. rewrite bind_Ret_l, skip_head by done. change (hd0 (93 :: rest) =? 44) with false. by rewrite Hset.
  - set (more := array_text fmt (map tx (c' :: l))) in *.
    assert (Htext : array_text fmt (map tx (c :: c' :: l)) = tx c ++ [44] ++ (if fmt then [32] else []) ++ more) by done.
    rewrite Htext in *. rewrite <- !app_assoc in *. rewrite !length_app in Hf. cbn [length] in Hf.
    rewrite Ht at 1. cbn [app]. rewrite skip_head by done.
    match goal with |- context [h :: t ++ ?x] => change (h :: t ++ x) with ((h :: t) ++ x) end.
    rewrite <- Ht, Hc; [|done|lia]. rewrite bind_Ret_l, skip_head by done. cbn [hd0 tail]. change (44 =? 44) with true. cbv iota.
    rewrite IH; [|done|by destruct fmt; repeat constructor|done|lia]. by rewrite bind_Ret_l, Hset.
Qed.

Lemma parse_members_ok fmt depth (tx : cJSON -> bytes) l : forall fuel ws ws' rest, l <> [] -> blank ws -> blank ws' ->
  (fmt = false -> ws' = []) ->
  Forall (fun c => reads_back tx c /\ good_head tx c /\ exists x, it_string c = Some x /\ text_ok x /\ Z.of_nat (length (string_text x)) <= INT_MAX) l ->
  (2 * length (object_text fmt depth (map (fun c => (string_text (name_of c), tx c)) l)) + 1 <= fuel)%nat ->
  parse_members fuel (ws ++ object_text fmt depth (map (fun c => (string_text (name_of c), tx c)) l) ++ ws' ++ 125 :: rest)
    = Ret (POk (map canon l) (125 :: rest)).
Proof.
  induction l as [|c l IH]; intros fuel ws ws' rest Hne Hws Hws' Hfmt Hl Hf; [done|].
  apply Forall_cons in Hl as [(Hc & (h & t & Ht & Hh & _) & x & Hname & Hx & Hlen) Hl]. destruct fuel as [|fuel]; [lia|].
  assert (Hn : name_of c = x) by (unfold name_of; by rewrite Hname).
  cbn [parse_members map object_text] in *. rewrite Hn in *.
  set (more := object_text fmt depth (map (fun c => (string_text (name_of c), tx c)) l)) in *.
  rewrite !length_app in Hf. cbn [length] in Hf.
  rewrite skip_blank, <- !app_assoc, skip_blank by (done || (destruct fmt; [apply blank_tabs|constructor])).
  unfold string_text at 1. cbn [app]. rewrite skip_head by lia.
  match goal with |- context [34 :: ?x ++ ?y] => change (34 :: x ++ y) with ((34 :: x) ++ y) end.
  fold (string_text x). change cJSON_New_Item with (fresh_item 0 None).
  rewrite parse_string_ok, bind_Ret_l, skip_head by done. cbn [hd0 tail]. change (negb (58 =? 58)) with false. cbv iota.
  change (take_name _) with (fresh_item cJSON_String (Some x)).
  rewrite (skip_blank (if fmt then [9] else [])) by (destruct fmt; repeat constructor; lia).
  rewrite Ht at 1. cbn [app]. rewrite skip_head by done.
  match goal with |- context [h :: t ++ ?x] => change (h :: t ++ x) with ((h :: t) ++ x) end. rewrite <- Ht.
  assert (Hset : set_name (Some x) (canon c) = canon c) by (rewrite <- Hname; apply set_name_same).
  destruct l as [|c' l].
  - cbn [map app] in *. subst more. cbn [object_text app].
    rewrite Hc; [|destruct fmt; [done|rewrite Hfmt by done; done]|lia]. rewrite bind_Ret_l, skip_blank, skip_blank by
      (done || (destruct fmt; repeat constructor; lia)). rewrite skip_head by lia. change (hd0 (125 :: rest) =? 44) with false. by rewrite Hset.
  - cbn [map app] in *. rewrite Hc; [|done|lia]. rewrite bind_Ret_l, skip_head by lia. cbn [hd0 tail]. change (44 =? 44) with true. cbv iota.
    rewrite IH; [|done|by destruct fmt; repeat constructor|done|done|done|cbn [length] in Hf; lia]. by rewrite bind_Ret_l, Hset.
Qed.

Lemma no_word h t : h <> 110 -> h <> 102 -> h <> 116 ->
  starts (lit "null") (h :: t) = false /\ starts (lit "false") (h :: t) = false /\ starts (lit "true") (h :: t) = false.
Proof. intros H1 H2 H3. split_and!;
  [exact (starts_head 110 [117; 108; 108] h t (not_eq_sym H1))|exact (starts_head 102 [97; 108; 115; 101] h t (not_eq_sym H2))|
   exact (starts_head 116 [114; 117; 101] h t (not_eq_sym H3))]. Qed.

Lemma fmt_d_head n : exists h t, fmt_d n = h :: t /\ (h = 45 \/ 48 <= h <= 57).
Proof.
  unfold fmt_d. destruct (Z.ltb_spec n 0); [by do 2 eexists; split; [|left]|].
  destruct (dec_spec n ltac:(lia)) as (_ & Hds & c & ds & E & _). rewrite E in *. apply Forall_cons in Hds as [Hc _].
  apply is_digit_range in Hc. exists c, ds. split; [done|lia].
Qed.

(** The text of an item, followed by something that ends a number, is read back. *)
Lemma parse_value_ok fmt c : forall depth, json_ok c -> Z.of_nat (length (json_text fmt depth c)) <= INT_MAX ->
  forall rest fuel ty s, stop rest -> (2 * length (json_text fmt depth c) <= fuel)%nat ->
  parse_value fuel (fresh_item ty s) (json_text fmt depth c ++ rest) = Ret (POk (set_name s (canon c)) rest).
Proof.
  induction c as [t v n d s0 l IH] using cJSON_tree_ind. intros depth Hok Hb rest fuel ty s Hs Hf.
  destruct fuel as [|fuel].
  { destruct (json_text_head fmt depth _ Hok) as (h & tl & E & _). rewrite E in Hf. cbn in Hf. lia. }
  pose proof Hok as Hok'. cbn [json_ok] in Hok'. item_cases Hok'; cbn [parse_value fresh_item].
  - done.
  - done.
  - done.
  - change (json_text fmt depth _) with (fmt_d n) in *. destruct (fmt_d_head n) as (h & tl & E & Hh).
    change (Item ty None 0 d0 s []) with (fresh_item ty s). pose proof (parse_number_int n rest ty s Hn Hs) as Hp.
    rewrite E in *. cbn [app] in *. destruct (no_word h (tl ++ rest)) as (-> & -> & ->); [lia..|]. cbn [hd0].
    destruct (Z.eqb_spec h 34); [lia|].
    assert (H45 : (h =? 45) || is_digit h = true).
    { destruct Hh as [->|Hh]; [done|]. apply is_digit_range in Hh. rewrite Hh. apply orb_true_r. }
    rewrite H45. exact Hp.
  - change (json_text fmt depth _) with (string_text x) in *. change (Item ty None 0 d0 s []) with (fresh_item ty s).
    pose proof (parse_string_ok x ty s rest Hx Hb) as Hp. unfold string_text in *. cbn [app] in *.
    destruct (no_word 34 ((concat (map escape_char x) ++ [34]) ++ rest)) as (-> & -> & ->); [lia..|]. exact Hp.
  - set (texts := map (json_text fmt (depth + 1)) l).
    assert (Htext : json_text fmt depth (Item cJSON_Array None 0 d0 s0 l) = 91 :: array_text fmt texts ++ [93]) by done.
    rewrite Htext in *. cbn [app length] in *. rewrite length_app in *. cbn [length] in *. rewrite <- app_assoc. cbn [app].
    destruct (no_word 91 (array_text fmt texts ++ 93 :: rest)) as (-> & -> & ->); [lia..|]. cbn [hd0 tail].
    change (91 =? 34) with false. change ((91 =? 45) || is_digit 91) with false. change (91 =? 91) with true. cbv iota.
    destruct (decide (l = [])) as [->|Hne]; [done|].
    assert (Hgood : Forall (fun c => reads_back (json_text fmt (depth + 1)) c /\ good_head (json_text fmt (depth + 1)) c /\ it_string c = None) l).
    { rewrite Forall_forall in IH, Hl |- *. intros c Hc. destruct (Hl c Hc) as [Hc1 Hc2]. split; [|split; [by apply json_text_head|done]].
      intros r f t' s' Hr Hf'. apply IH; [done|done| |done|done].
      pose proof (array_text_part fmt (json_text fmt (depth + 1) c) texts ltac:(by apply list_elem_of_fmap_2)). lia. }
    pose proof (parse_elements_ok fmt (json_text fmt (depth + 1)) l fuel [] rest Hne (List.Forall_nil _) Hgood) as Hp.
    fold texts in Hp. cbn [app] in Hp.
    assert (Hhead : exists h tl, array_text fmt texts = h :: tl /\ 32 < h /\ h <> 93).
    { unfold texts. destruct l as [|c l]; [done|]. apply Forall_cons in Hgood as [(_ & (h & tl & E & Hh) & _) _]. cbn [map].
      destruct l; [by exists h, tl|].
      cbn [map array_text]. rewrite E. by do 2 eexists. }
    destruct Hhead as (h & tl & E & Hh1 & Hh2). rewrite E in *. cbn [app] in *. rewrite skip_head by done. cbn [hd0].
    destruct (Z.eqb_spec h 93); [done|]. rewrite Hp; [|cbn [length] in *; lia]. by rewrite bind_Ret_l.
  - set (texts := map (fun c => (string_text (name_of c), json_text fmt (depth + 1) c)) l).
    set (ws := if fmt then replicate (Z.to_nat depth) 9 else []).
    assert (Htext : json_text fmt depth (Item cJSON_Object None 0 d0 s0 l) =
      123 :: (if fmt then [10] else []) ++ object_text fmt (depth + 1) texts ++ ws ++ [125]) by done.
    rewrite Htext in *. cbn [app length] in *. rewrite !length_app in *. cbn [length] in *. rewrite <- !app_assoc. cbn [app].
    match goal with |- context [123 :: ?x] => destruct (no_word 123 x) as (-> & -> & ->); [lia..|] end. cbn [hd0 tail].
    change (123 =? 34) with false. change ((123 =? 45) || is_digit 123) with false. change (123 =? 91) with false.
    change (123 =? 123) with true. cbv iota.
    assert (Hws : blank ws) by (unfold ws; destruct fmt; [apply blank_tabs|constructor]).
    rewrite skip_blank by (destruct fmt; repeat constructor; lia).
    destruct (decide (l = [])) as [->|Hne].
    { cbn [texts map object_text app]. rewrite skip_blank by done. rewrite skip_head by lia. done. }
    assert (Hpart : forall c, c ∈ l -> (length (string_text (name_of c)) + length (json_text fmt (depth + 1) c) <=
      length (object_text fmt (depth + 1) texts))%nat).
    { intros c Hc. apply (object_text_part fmt (depth + 1)). unfold texts.
      by apply (list_elem_of_fmap_2 (fun c => (string_text (name_of c), json_text fmt (depth + 1) c))). }
    assert (Hgood : Forall (fun c => reads_back (json_text fmt (depth + 1)) c /\ good_head (json_text fmt (depth + 1)) c /\
      exists x, it_string c = Some x /\ text_ok x /\ Z.of_nat (length (string_text x)) <= INT_MAX) l).
    { rewrite Forall_forall in IH, Hl |- *. intros c Hc. destruct (Hl c Hc) as [Hc1 (x & Hc2 & Hc3)].
      specialize (Hpart c Hc). split; [|split; [by apply json_text_head|]].
      - intros r f t' s' Hr Hf'. apply IH; [done|done|lia|done|done].
      - exists x. split_and!; [done|done|]. unfold name_of in Hpart. rewrite Hc2 in Hpart. cbn [default from_option id] in Hpart. lia. }
    pose proof (parse_members_ok fmt (depth + 1) (json_text fmt (depth + 1)) l fuel [] ws rest Hne (List.Forall_nil _) Hws
      ltac:(by intros ->) Hgood) as Hp. fold texts in Hp. cbn [app] in Hp.
    assert (Hhead : exists h tl, skip (object_text fmt (depth + 1) texts ++ ws ++ 125 :: rest) = h :: tl /\ h <> 125 /\
      parse_members fuel (h :: tl) = parse_members fuel (object_text fmt (depth + 1) texts ++ ws ++ 125 :: rest)).
    { unfold texts. destruct l as [|c l]; [done|]. cbn [map object_text]. rewrite <- !app_assoc.
      assert (Hb' : blank (if fmt then replicate (Z.to_nat (depth + 1)) 9 else [])) by (destruct fmt; [apply blank_tabs|constructor]).
      rewrite skip_blank by done. unfold string_text at 1. cbn [app]. rewrite skip_head by lia. do 2 eexists. split_and!; [done|lia|].
      destruct fuel as [|fuel]; [done|]. cbn [parse_members]. rewrite skip_blank by done. unfold string_text. cbn [app].
      by rewrite !skip_head by lia. }
    destruct Hhead as (h & tl & E & Hh & Hm). rewrite E. cbn [hd0]. destruct (Z.eqb_spec h 125); [done|].
    rewrite Hm, Hp by lia. by rewrite bind_Ret_l.
Qed.
End Parse.

(** A pow that serves the round trip. *)
Definition UnitPow : JsonLib := {| pow := fun _ _ => d1; fmt_f0 := fun _ => []; fmt_e := fun _ => []; fmt_f := fun _ => [] |}.
#[export] Instance UnitPow_ok : JsonLibOk UnitPow.
Proof. constructor. done. Qed.

(** {"a":[1,-20,true],"b\n":"x\u0001"} *)
Definition ex_item : cJSON :=
  Item cJSON_Object None 0 d0 None
    [Item cJSON_Array None 0 d0 (Some [97])
       [Item cJSON_Number None 1 (d_of_Z 1) None []; Item cJSON_Number None (-20) (d_of_Z (-20)) None [];
        Item cJSON_True None 0 d0 None []];
     Item cJSON_String (Some [120; 1]) 0 d0 (Some [98; 10]) []].
Ltac ex_text_ok := unfold text_ok; vm_compute lit; repeat (apply List.Forall_cons; [lia|]); apply List.Forall_nil.
Lemma ex_item_ok : json_ok ex_item.
Proof.
  unfold ex_item. cbn [json_ok fold_right it_string]. do 6 right. split_and!; try done.
  - do 5 right. left. split_and!; try done.
    + do 3 right. left. split_and!; first [done|by vm_compute].
    + do 3 right. left. split_and!; first [done|by vm_compute].
    + do 2 right. left. split_and!; done.
  - eexists; split; [done|ex_text_ok].
  - do 4 right. left. split_and!; try done. eexists; split; [done|ex_text_ok].
  - eexists; split; [done|ex_text_ok].
Defined.

(** C26. The printer is the text it stands for: with and without formatting, the sizes it
    computes beforehand for its buffers are enough and what it writes there is
    [json_text], for every item the creating functions make of integers, strings and
    containers whose text is shorter than half of INT_MAX. *)
Theorem json_print_text {JL : JsonLib} (c : cJSON) :
  json_ok c ->
  2 * Z.of_nat (length (json_text true 0 c)) + 16 <= INT_MAX ->
  2 * Z.of_nat (length (json_text false 0 c)) + 16 <= INT_MAX ->
  cJSON_Print c = Ret (Some (json_text true 0 c)) /\
  cJSON_PrintUnformatted c = Ret (Some (json_text false 0 c)).
Proof. intros Hok H1 H2. split; (apply print_value_ok; [done|lia|lia]). Qed.

Lemma json_print_text_witness :
  cJSON_Print (JL := UnitPow) ex_item = Ret (Some (json_text true 0 ex_item)) /\
  cJSON_PrintUnformatted (JL := UnitPow) ex_item = Ret (Some (json_text false 0 ex_item)).
Proof. apply (@json_print_text UnitPow ex_item ex_item_ok); by vm_compute. Defined.

Lemma json_parse_text {JL : JsonLib} {JLOk : JsonLibOk JL} fmt c : json_ok c ->
  Z.of_nat (length (json_text fmt 0 c)) <= INT_MAX ->
  cJSON_Parse (json_text fmt 0 c) = Ret (Some (set_name None (canon c))).
Proof.
  intros Hok Hb. unfold cJSON_Parse. destruct (json_text_head fmt 0 c Hok) as (h & t & E & Hh & _).
  assert (Hs : skip (json_text fmt 0 c) = json_text fmt 0 c) by (rewrite E; by apply skip_head).
  rewrite Hs. change cJSON_New_Item with (fresh_item 0 None).
  rewrite <- (app_nil_r (json_text fmt 0 c)) at 2. rewrite parse_value_ok; [done|done|done|by cbv|lia].
Qed.

(** C29. Printing and parsing are a round trip: the text printed of an item whose numbers
    are ints of 32 bits, formatted or not, is parsed to the same item, with numbers, strings
    with any characters but zero, names, order and nesting kept.  What changes is the name
    of the item itself, which the text of a value does not have, and the integer of a true,
    which the parser sets to 1.  The texts are below 2^30 characters.  Other numbers do not
    come back in general: a fraction is printed by %f or %e, with six digits behind the
    point. *)
Theorem json_roundtrip {JL : JsonLib} {JLOk : JsonLibOk JL} (c : cJSON) :
  json_ok c ->
  2 * Z.of_nat (length (json_text true 0 c)) + 16 <= INT_MAX ->
  2 * Z.of_nat (length (json_text false 0 c)) + 16 <= INT_MAX ->
  (exists t, cJSON_Print c = Ret (Some t) /\ cJSON_Parse t = Ret (Some (set_name None (canon c)))) /\
  (exists t, cJSON_PrintUnformatted c = Ret (Some t) /\ cJSON_Parse t = Ret (Some (set_name None (canon c)))).
Proof.
  intros Hok H1 H2. split; eexists;
    (split; [apply print_value_ok; [done|lia|lia]|apply json_parse_text; [done|lia]]).
Qed.

Lemma json_roundtrip_witness :
  (exists t, cJSON_Print (JL := UnitPow) ex_item = Ret (Some t) /\
     cJSON_Parse (JL := UnitPow) t = Ret (Some (set_name None (canon ex_item)))) /\
  (exists t, cJSON_PrintUnformatted (JL := UnitPow) ex_item = Ret (Some t) /\
     cJSON_Parse (JL := UnitPow) t = Ret (Some (set_name None (canon ex_item)))).
Proof. apply (@json_roundtrip UnitPow UnitPow_ok ex_item ex_item_ok); by vm_compute. Defined.

(** A number of 64 digits does not fit the buffer of 64 bytes. *)
Example print_number_overflow :
  print_number (JL := {| pow := pow (JsonLib := UnitPow); fmt_f0 := fun _ => replicate 64 57; fmt_e := fun _ => []; fmt_f := fun _ => [] |})
    (cJSON_CreateNumber (binary_round 53 1024 false 1 210)) = Undef.
Proof. by vm_compute. Qed.
(** A string that ends behind a backslash is read past its terminator. *)
Example parse_backslash : cJSON_Parse (JL := UnitPow) [91; 34; 97; 92] = Undef.
Proof. by vm_compute. Qed.
(** A string without its closing quote is taken, and so is text behind a value. *)
Example parse_lenient :
  cJSON_Parse (JL := UnitPow) [34; 97; 98] = Ret (Some (Item cJSON_String (Some (lit "ab")) 0 d0 None [])) /\
  cJSON_Parse (JL := UnitPow) (lit "null!") = Ret (Some cJSON_CreateNull).
Proof. by vm_compute. Qed.
