(* ===== verification/JsonParse.v ===== *)
(** * JsonParse: the parser on any text

    Whatever the text, the parser ends, and an item it returns is well formed: its
    type is one of the seven, strings have characters, the children of an object have
    names and nothing else has children.  On texts whose escapes and exponents are whole it
    returns. *)
From Stdlib Require Import SpecFloat.
From S2P Require Import Prelude Fmt Lua Dbl Json JsonText.
Local Open Scope Z_scope.

(** ** Well-formed items *)

Fixpoint item_typed (c : cJSON) : Prop :=
  let 'Item t v n d s l := c in
  let children (Q : cJSON -> Prop) := fold_right (fun c R => (item_typed c /\ Q c) /\ R) True l in
  in_s 32 n /\
  ((t ∈ [cJSON_NULL; cJSON_False; cJSON_True; cJSON_Number] /\ v = None /\ l = []) \/
   (t = cJSON_String /\ (exists x, v = Some x /\ text_ok x) /\ l = []) \/
   (t = cJSON_Array /\ v = None /\ children (fun c => it_string c = None)) \/
   (t = cJSON_Object /\ v = None /\ children (fun c => exists x, it_string c = Some x /\ text_ok x))).

Lemma d_cast_range w d : 0 < w -> in_s w (d_cast w d).
Proof.
  intros Hw. unfold d_cast, in_s. pose proof (Z.pow_pos_nonneg 2 (w - 1) ltac:(lia) ltac:(lia)).
  destruct (d_trunc d) as [z|]; [|lia].
  destruct (Z.leb_spec (- 2 ^ (w - 1)) z), (Z.ltb_spec z (2 ^ (w - 1))); cbn [andb]; lia.
Qed.

(** ** What is left of the text *)

Lemma tail_suffix (p : bytes) : tail p `suffix_of` p.
Proof. destruct p; [done|]. by apply suffix_cons_r. Qed.
Lemma tail_if_suffix (b : bool) (p : bytes) : (if b then tail p else p) `suffix_of` p.
Proof. destruct b; [apply tail_suffix|done]. Qed.
Lemma skip_suffix p : skip p `suffix_of` p.
Proof. induction p as [|c p IH]; [done|]. cbn. destruct (c <=? 32); [by apply suffix_cons_r|done]. Qed.
Lemma suffix_text (r p : bytes) : r `suffix_of` p -> text_ok p -> text_ok r.
Proof. intros [k ->] H. by apply Forall_app in H as [_ H]. Qed.
Lemma digits_loop_suffix p : forall n k, (digits_loop n k p).2 `suffix_of` p.
Proof.
  induction p as [|c p IH]; intros n k; [done|]. cbn. destruct (is_digit c); [|done]. by apply suffix_cons_r.
Qed.
Lemma within_adv n p : within (fun r => r `suffix_of` p /\ (length r + n = length p)%nat) (adv n p).
Proof.
  unfold adv. destruct (Nat.leb_spec n (length p)); [|done]. cbn. rewrite length_drop. split; [apply suffix_drop|lia].
Qed.
Lemma within_exponent p : forall k, within (fun r => r.2 `suffix_of` p) (exponent_loop k p).
Proof.
  induction p as [|c p IH]; intros k; [cbn; reflexivity|]. cbn [exponent_loop]. destruct (is_digit c); [|cbn; reflexivity].
  eapply within_bind; [apply within_sint|]. intros ? _. eapply within_bind; [apply within_sint|]. intros z _.
  eapply within_mono; [apply IH|]. intros r Hr. by apply suffix_cons_r.
Qed.

(** A string of characters; the terminator is not one. *)
Lemma cstr_text t : Forall byte_ok t -> text_ok (cstr t).
Proof.
  unfold byte_ok. induction 1 as [|c t Hc Ht IH]; [constructor|]. cbn [cstr]. destruct (Z.eqb_spec c 0); [constructor|].
  constructor; [lia|done].
Qed.
Lemma utf8_bytes c : Forall byte_ok (utf8 c).
Proof.
  unfold utf8. constructor; [apply wrapU_byte|].
  destruct (c <? 128); [constructor|]. destruct (c <? 2048); [repeat constructor; apply wrapU_byte|].
  destruct (c <? 65536); repeat constructor; apply wrapU_byte.
Qed.

Section Parse.
Context {JL : JsonLib}.

(** ** Strings *)

Lemma within_string_len n : forall len p, (length p <= n)%nat -> within (fun _ => True) (string_len len p).
Proof.
  induction n as [|n IH]; intros len p Hn; (destruct p as [|c p]; [done|]); cbn [length] in Hn; [lia|]. cbn [string_len].
  destruct (c =? 34); [done|]. eapply within_bind; [apply within_sint|]. intros z _.
  destruct (c =? 92); [|apply IH; lia]. destruct p as [|x p]; [done|]. cbn [length] in Hn. apply IH. lia.
Qed.

Lemma within_parse_u uc uc2 p :
  within (fun '(w, q, _, _) => Forall byte_ok w /\ q `suffix_of` p) (parse_u uc uc2 p).
Proof.
  unfold parse_u. eapply within_bind; [apply within_adv|]. intros q [Hq _].
  eapply within_bind; [apply within_of_option|]. intros c _.
  destruct (_ || _); [by split|]. destruct (_ && _); [|split; [apply utf8_bytes|done]].
  destruct (_ || _); [by split|]. eapply within_bind; [apply within_adv|]. intros q2 [Hq2 _].
  assert (q2 `suffix_of` p) by (by transitivity q).
  eapply within_bind; [apply within_of_option|]. intros c2 _. destruct (_ || _); [by split|]. split; [apply utf8_bytes|done].
Qed.

Lemma unescape_char_byte c : byte_ok c -> byte_ok (unescape_char c).
Proof. unfold byte_ok, unescape_char. intros. repeat destr_if; lia. Qed.

Lemma within_unescape fuel : forall uc uc2 p, (length p < fuel)%nat -> text_ok p ->
  within (fun '(out, e) => Forall byte_ok out /\ e `suffix_of` p) (unescape fuel uc uc2 p).
Proof.
  induction fuel as [|fuel IH]; intros uc uc2 p Hf Hp; [lia|]. destruct p as [|c r]; [done|]. cbn [unescape length] in *.
  pose proof Hp as Hp'. apply Forall_cons in Hp' as [Hc Hr]. destruct (c =? 34); [by split|]. destruct (negb (c =? 92)).
  - eapply within_bind; [apply IH; [lia|done]|]. intros [out e] [H1 H2]. cbn. split; [constructor; [unfold byte_ok; lia|done]|].
    by apply suffix_cons_r.
  - destruct r as [|x r']; [done|]. cbn [length] in Hf. pose proof Hr as Hr2. apply Forall_cons in Hr2 as [Hx Hr'].
    destruct (x =? 117).
    + eapply within_bind; [apply within_parse_u|]. intros [[[w q] uc'] uc2'] [Hw Hq].
      eapply within_bind; [apply within_adv|]. intros q' [Hq' Hlen]. apply suffix_length in Hq as Hql. cbn [length] in Hql.
      eapply within_bind; [apply IH; [lia|]|].
      { apply (suffix_text _ q); [done|]. by apply (suffix_text _ (x :: r')). }
      intros [out e] [H1 H2]. cbn. split; [by apply Forall_app|].
      apply suffix_cons_r. transitivity q'; [done|]. by transitivity q.
    + eapply within_bind; [apply IH; [lia|done]|]. intros [out e] [H1 H2]. cbn.
      split; [constructor; [apply unescape_char_byte; unfold byte_ok; lia|done]|]. by do 2 apply suffix_cons_r.
Qed.

(** What a parsing function leaves. *)
Definition parsed_as {A} (p : bytes) (Q : A -> Prop) (r : parsed A) : Prop :=
  match r with PFail _ => True | POk a rest => Q a /\ rest `suffix_of` p end.

Lemma within_parse_string s p : text_ok p ->
  within (parsed_as p (fun c => exists x, c = Item cJSON_String (Some x) 0 d0 s [] /\ text_ok x)) (parse_string (fresh_item 0 s) p).
Proof.
  intros Hp. unfold parse_string, fresh_item. destruct (negb _); [done|].
  eapply within_bind; [by eapply within_string_len|]. intros len _. pose proof (tail_suffix p) as Ht.
  eapply within_bind; [apply within_unescape; [apply suffix_length in Ht; lia|by eapply suffix_text]|].
  intros [out e] [Ho He]. destruct (_ <=? _); [|done]. cbn. split.
  - exists (cstr out). split; [done|by apply cstr_text].
  - destruct (_ =? _); [|by transitivity (tail p)]. transitivity e; [apply tail_suffix|]. by transitivity (tail p).
Qed.

(** ** Numbers *)

Lemma within_parse_number ty s p :
  within (parsed_as p (fun c => item_typed c /\ it_string c = s)) (parse_number (fresh_item ty s) p).
Proof.
  unfold parse_number, fresh_item.
  set (q := if hd0 p =? 45 then (dm1, tail p) else (d1, p)).
  assert (H1 : q.2 `suffix_of` p) by (unfold q; destruct (_ =? _); [apply tail_suffix|done]). destruct q as [sign q]. cbn [snd] in H1.
  set (q1 := if hd0 q =? 48 then tail q else q).
  assert (H2 : q1 `suffix_of` p) by (transitivity q; [apply tail_if_suffix|done]).
  set (a := if _ && _ then digits_loop d0 0 q1 else (d0, 0, q1)).
  assert (H3 : a.2 `suffix_of` p) by (transitivity q1; [unfold a; destruct (_ && _); [apply digits_loop_suffix|done]|done]).
  destruct a as [[n k0] q2]. cbn [snd] in H3.
  set (b := if _ && _ then digits_loop n 0 (tail q2) else (n, 0, q2)).
  assert (H4 : b.2 `suffix_of` p).
  { transitivity q2; [|done]. unfold b. destruct (_ && _); [|done]. transitivity (tail q2); [apply digits_loop_suffix|apply tail_suffix]. }
  destruct b as [[n' k] q3]. cbn [snd] in H4.
  eapply (within_bind (fun r => r.2 `suffix_of` p)).
  - destruct (_ || _); [|done].
    set (e := if hd0 (tail q3) =? 43 then (1, tail (tail q3)) else if hd0 (tail q3) =? 45 then (-1, tail (tail q3)) else (1, tail q3)).
    assert (H5 : e.2 `suffix_of` p).
    { transitivity (tail q3); [|transitivity q3; [apply tail_suffix|done]]. unfold e. repeat case_match; try done; apply tail_suffix. }
    destruct e as [sg q4]. cbn [snd] in H5. eapply within_bind; [apply within_exponent|]. intros [sub q5] H6. cbn in *.
    by transitivity q4.
  - intros [[sg sub] q6] H6. cbn [snd] in H6. eapply within_bind; [apply within_sint|]. intros z _. cbn.
    split_and!; [apply (d_cast_range 32); lia| |done|done]. left. split_and!; [|done|done]. set_solver.
Qed.

(** ** Values *)

Definition parses fuel : Prop :=
  (forall ty s p, (2 * length p < fuel)%nat -> text_ok p ->
     within (parsed_as p (fun c => item_typed c /\ it_string c = s)) (parse_value fuel (fresh_item ty s) p)) /\
  (forall p, (2 * length p + 1 < fuel)%nat -> text_ok p ->
     within (parsed_as p (Forall (fun c => item_typed c /\ it_string c = None))) (parse_elements fuel p)) /\
  (forall p, (2 * length p + 1 < fuel)%nat -> text_ok p ->
     within (parsed_as p (Forall (fun c => item_typed c /\ exists x, it_string c = Some x /\ text_ok x))) (parse_members fuel p)).

(** A list of entries goes on behind a comma, and at its end is what follows it. *)
Lemma within_more {A} p rest (Q : A -> Prop) c (m : res (parsed (list A))) : Q c -> rest `suffix_of` p ->
  (hd0 (skip rest) = 44 -> within (parsed_as (tail (skip rest)) (Forall Q)) m) ->
  within (parsed_as p (Forall Q))
    (if hd0 (skip rest) =? 44 then r ← m; match r with PFail ep => Ret (PFail ep) | POk l rest => Ret (POk (c :: l) rest) end
     else Ret (POk [c] (skip rest))).
Proof.
  intros Hc Hr Hm. assert (Hs : skip rest `suffix_of` p) by (transitivity rest; [apply skip_suffix|done]).
  destruct (Z.eqb_spec (hd0 (skip rest)) 44); [|split; [by repeat constructor|done]].
  eapply within_bind; [by apply Hm|]. intros [ep|l r] Hl; [done|]. destruct Hl as [Hl Hlr]. cbn.
  split; [by constructor|]. transitivity (tail (skip rest)); [done|]. transitivity (skip rest); [apply tail_suffix|done].
Qed.

(** The fuel behind the character that opens a container or separates its entries. *)
Lemma behind_length h p q : q `suffix_of` p -> hd0 q = h -> h <> 0 -> (length (tail q) < length p)%nat.
Proof. intros Hq%suffix_length Hh H0. destruct q; cbn in *; [congruence|lia]. Qed.

Lemma parses_all fuel : parses fuel.
Proof.
  induction fuel as [|fuel (IHv & IHe & IHm)]; [split_and!; intros; lia|]. split_and!.
  - intros ty s p Hf Hp. cbn [parse_value fresh_item].
    assert (Hw : forall t n k, t ∈ [cJSON_NULL; cJSON_False; cJSON_True; cJSON_Number] -> in_s 32 n ->
      within (parsed_as p (fun c => item_typed c /\ it_string c = s)) (Ret (POk (Item t None n d0 s []) (drop k p)))).
    { intros t n k Ht Hn. split; [|apply suffix_drop]. split; [|done]. split; [done|by left]. }
    destruct (starts (lit "null") p); [apply Hw; [set_solver|unfold in_s; lia]|].
    destruct (starts (lit "false") p); [apply Hw; [set_solver|unfold in_s; lia]|].
    destruct (starts (lit "true") p); [apply Hw; [set_solver|unfold in_s; lia]|]. clear Hw.
    destruct (hd0 p =? 34).
    { eapply within_mono; [by apply within_parse_string|]. intros [ep|c rest] H; [done|]. destruct H as [(x & -> & Hx) H].
      split; [|done]. split; [|done]. split; [unfold in_s; lia|]. right. left. split; [done|]. split; [by exists x|done]. }
    destruct (_ || _); [apply within_parse_number|].
    assert (Ht : skip (tail p) `suffix_of` p) by (transitivity (tail p); [apply skip_suffix|apply tail_suffix]).
    assert (Hlen : hd0 p = 91 \/ hd0 p = 123 -> (length (skip (tail p)) < length p)%nat).
    { intros Hh. pose proof (suffix_length _ _ (skip_suffix (tail p))).
      assert (length (tail p) < length p)%nat; [|lia]. eapply (behind_length (hd0 p)); [done|done|lia]. }
    assert (Ht' : tail (skip (tail p)) `suffix_of` p) by (transitivity (skip (tail p)); [apply tail_suffix|done]).
    destruct (Z.eqb_spec (hd0 p) 91) as [H91|_]; [|destruct (Z.eqb_spec (hd0 p) 123) as [H123|_]; [|done]].
    + destruct (_ =? _); [split; [|done]; split; [|done]; split; [unfold in_s; lia|]; right; right; by left|].
      eapply within_bind; [apply IHe; [lia|by eapply suffix_text]|]. intros [ep|l rest] Hl; [done|].
      destruct Hl as [Hl Hr]. destruct (_ =? _); [|done]. split.
      * split; [|done]. split; [unfold in_s; lia|]. right. right. left. split; [done|]. split; [done|]. by apply children_Forall.
      * transitivity rest; [apply tail_suffix|]. by transitivity (skip (tail p)).
    + destruct (_ =? _); [split; [|done]; split; [|done]; split; [unfold in_s; lia|]; right; right; by right|].
      eapply within_bind; [apply IHm; [lia|by eapply suffix_text]|]. intros [ep|l rest] Hl; [done|].
      destruct Hl as [Hl Hr]. destruct (_ =? _); [|done]. split.
      * split; [|done]. split; [unfold in_s; lia|]. right. right. right. split; [done|]. split; [done|]. by apply children_Forall.
      * transitivity rest; [apply tail_suffix|]. by transitivity (skip (tail p)).
  - intros p Hf Hp. cbn [parse_elements]. change cJSON_New_Item with (fresh_item 0 None).
    pose proof (skip_suffix p) as Hs. pose proof (suffix_length _ _ Hs) as Hsl.
    eapply within_bind; [apply IHv; [lia|by eapply suffix_text]|]. intros [ep|c rest] Hc; [done|]. destruct Hc as [Hc Hr].
    assert (Hrp : rest `suffix_of` p) by (by transitivity (skip p)). apply within_more; [done|done|]. intros H44.
    assert (Hsr : skip rest `suffix_of` p) by (transitivity rest; [apply skip_suffix|done]).
    pose proof (behind_length 44 p _ Hsr H44 ltac:(lia)). apply IHe; [lia|].
    apply (suffix_text _ (skip rest)); [apply tail_suffix|by eapply suffix_text].
  - intros p Hf Hp. cbn [parse_members]. change cJSON_New_Item with (fresh_item 0 None).
    pose proof (skip_suffix p) as Hs. pose proof (suffix_length _ _ Hs) as Hsl.
    eapply within_bind; [apply within_parse_string; by eapply suffix_text|]. intros [ep|c rest] Hc; [done|].
    destruct Hc as [(x & -> & Hx) Hr]. assert (Hrp : rest `suffix_of` p) by (by transitivity (skip p)).
    assert (Hsr : skip rest `suffix_of` p) by (transitivity rest; [apply skip_suffix|done]).
    destruct (Z.eqb_spec (hd0 (skip rest)) 58) as [H58|_]; [|done]. cbn [negb].
    change (take_name _) with (fresh_item cJSON_String (Some x)).
    assert (Hv : skip (tail (skip rest)) `suffix_of` p).
    { transitivity (tail (skip rest)); [apply skip_suffix|]. transitivity (skip rest); [apply tail_suffix|done]. }
    assert (Hvl : (length (skip (tail (skip rest))) < length p)%nat).
    { pose proof (suffix_length _ _ (skip_suffix (tail (skip rest)))). pose proof (behind_length 58 p _ Hsr H58 ltac:(lia)). lia. }
    eapply within_bind; [apply IHv; [lia|by eapply suffix_text]|]. intros [ep|c rest2] Hc; [done|]. destruct Hc as [[Hc Hn] Hr2].
    assert (Hrp2 : rest2 `suffix_of` p) by (by transitivity (skip (tail (skip rest)))).
    apply within_more; [by split; [|exists x]|done|]. intros H44.
    assert (Hsr2 : skip rest2 `suffix_of` p) by (transitivity rest2; [apply skip_suffix|done]).
    pose proof (behind_length 44 p _ Hsr2 H44 ltac:(lia)). apply IHm; [lia|].
    apply (suffix_text _ (skip rest2)); [apply tail_suffix|by eapply suffix_text].
Qed.

(** ** Texts on which the parser is defined

    Behind every backslash there is a character, and behind a backslash and u four hex
    digits; behind every e, and a sign, there are at most nine digits; the length is an int. *)
Definition is_hex (c : Z) : bool := match hex_val c with Some _ => true | None => false end.
Definition escape_ok (r : bytes) : bool :=
  match r with
  | [] => false
  | x :: r => negb (x =? 117) || (match r with h1 :: h2 :: h3 :: h4 :: _ => is_hex h1 && is_hex h2 && is_hex h3 && is_hex h4 | _ => false end)
  end.
Fixpoint escapes_ok (p : bytes) : bool :=
  match p with [] => true | c :: r => (negb (c =? 92) || escape_ok r) && escapes_ok r end.
Fixpoint count_digits (p : bytes) : nat :=
  match p with c :: r => if is_digit c then S (count_digits r) else 0 | [] => 0 end.
Definition unsigned_part (p : bytes) : bytes := if (hd0 p =? 43) || (hd0 p =? 45) then tail p else p.
Fixpoint exponents_ok (p : bytes) : bool :=
  match p with
  | [] => true
  | c :: r => (negb ((c =? 101) || (c =? 69)) || (count_digits (unsigned_part r) <=? 9)%nat) && exponents_ok r
  end.
Definition fine (p : bytes) : Prop := escapes_ok p = true /\ exponents_ok p = true /\ Z.of_nat (length p) <= INT_MAX.

Lemma escapes_suffix r p : r `suffix_of` p -> escapes_ok p = true -> escapes_ok r = true.
Proof. intros [k ->]. induction k as [|c k IH]; [done|]. cbn. intros [_ H]%andb_true_iff. by apply IH. Qed.
Lemma exponents_suffix r p : r `suffix_of` p -> exponents_ok p = true -> exponents_ok r = true.
Proof. intros [k ->]. induction k as [|c k IH]; [done|]. cbn. intros [_ H]%andb_true_iff. by apply IH. Qed.
Lemma fine_suffix r p : r `suffix_of` p -> fine p -> fine r.
Proof.
  intros Hs (H1 & H2 & H3). pose proof (suffix_length _ _ Hs).
  split_and!; [by eapply escapes_suffix|by eapply exponents_suffix|lia].
Qed.

(** A call that is not undefined and raises nothing. *)
Definition defined {A} (m : res A) : Prop := match m with Undef | Raise => False | _ => True end.
Lemma defined_bind {A B} (R : A -> Prop) (m : res A) (f : A -> res B) :
  within R m -> defined m -> (forall a, R a -> defined (f a)) -> defined (m ≫= f).
Proof. destruct m; cbn; auto. Qed.

(** *** Strings *)

Lemma string_len_step len c r : 0 <= len < INT_MAX -> c <> 34 -> c <> 92 -> string_len len (c :: r) = string_len (len + 1) r.
Proof.
  intros Hl H1 H2. cbn [string_len]. destruct (Z.eqb_spec c 34), (Z.eqb_spec c 92); try done.
  by rewrite sint_ok, bind_Ret_l by (unfold INT_MIN, INT_MAX in *; lia).
Qed.
Lemma hex_range h : is_hex h = true -> 48 <= h <= 57 \/ 97 <= h <= 102 \/ 65 <= h <= 70.
Proof. unfold is_hex, hex_val. repeat destr_if; b2p; try done; lia. Qed.
Lemma hex_some h : is_hex h = true -> exists x, hex_val h = Some x.
Proof. unfold is_hex. destruct (hex_val h); [by eexists|done]. Qed.

(** Four hex digits: what the first loop counts, and what sscanf reads. *)
Definition hex4 (h : bytes) : Prop := length h = 4%nat /\ Forall (fun c => is_hex c = true) h.
Lemma escape_hex r : escape_ok (117 :: r) = true -> exists h t, r = h ++ t /\ hex4 h.
Proof.
  cbn. destruct r as [|h1 [|h2 [|h3 [|h4 r]]]]; try done.
  intros [[[H1 H2]%andb_true_iff H3]%andb_true_iff H4]%andb_true_iff.
  exists [h1; h2; h3; h4], r. split; [done|]. split; [done|]. by repeat constructor.
Qed.
Lemma string_len_hex h t len : hex4 h -> 0 <= len -> len + 4 <= INT_MAX -> string_len len (h ++ t) = string_len (len + 4) t.
Proof.
  intros [Hl Hh] H0 Hb. destruct h as [|h1 [|h2 [|h3 [|h4 [|]]]]]; try done. cbn [app].
  repeat (apply Forall_cons in Hh as [?%hex_range Hh]). do 4 (rewrite string_len_step by lia). f_equal. lia.
Qed.
Lemma scan_hex h t : hex4 h -> exists v, scan_4x (h ++ t) = Some v.
Proof.
  intros [Hl Hh]. destruct h as [|h1 [|h2 [|h3 [|h4 [|]]]]]; try done.
  repeat (apply Forall_cons in Hh as [? Hh]). pose proof (hex_range h1 ltac:(done)) as R1. pose proof (hex_range h2 ltac:(done)) as R2.
  destruct (hex_some h1 ltac:(done)) as [x1 E1], (hex_some h2 ltac:(done)) as [x2 E2],
    (hex_some h3 ltac:(done)) as [x3 E3], (hex_some h4 ltac:(done)) as [x4 E4].
  unfold scan_4x. cbn [app skip_space]. assert (Hs : is_space h1 = false) by (unfold is_space; repeat destr_if; b2p; lia).
  rewrite Hs. cbn [hd0 nth]. destruct (Z.eqb_spec h1 45), (Z.eqb_spec h1 43); try lia. cbn [hd0 nth].
  destruct (Z.eqb_spec h2 120), (Z.eqb_spec h2 88); try lia. cbn [orb]. rewrite andb_false_r. cbn [andb scan_digits]. rewrite E1, E2, E3, E4. cbn. by eexists.
Qed.
Lemma adv_app {h t : bytes} n : length h = n -> adv n (h ++ t) = Ret t.
Proof.
  intros <-. unfold adv. rewrite length_app, (proj2 (Nat.leb_le _ _)) by lia. by rewrite drop_app_length.
Qed.
Lemma utf8_short c : (length (utf8 c) <= 4)%nat.
Proof. unfold utf8. repeat destr_if; cbn; lia. Qed.

(** What the escape \u writes, and where it stops: at most five bytes less than it counts. *)
Lemma parse_u_fine uc uc2 h t len : hex4 h -> escapes_ok t = true -> 0 <= len -> len + 4 + Z.of_nat (length t) <= INT_MAX ->
  exists w d t' uc' uc2' k, parse_u uc uc2 (117 :: h ++ t) = Ret (w, d :: t', uc', uc2') /\ t' `suffix_of` t /\ (length t' <= length t)%nat /\
    string_len len (h ++ t) = string_len (len + k) t' /\ 4 <= k /\ k + Z.of_nat (length t') <= 4 + Z.of_nat (length t) /\
    Z.of_nat (length w) <= k.
Proof.
  intros Hh He H0 Hb. pose proof Hh as [Hl _]. destruct (scan_hex h t Hh) as [v Hv].
  assert (Ha : exists d, adv 4 (117 :: h ++ t) = Ret (d :: t)).
  { destruct h as [|h1 [|h2 [|h3 [|h4 [|]]]]]; try done. exists h4. exact (adv_app (h := [117; h1; h2; h3]) 4 eq_refl). }
  destruct Ha as [d Ha]. unfold parse_u. cbn [tail]. rewrite Hv, Ha, bind_Ret_l. cbn [of_option]. rewrite bind_Ret_l.
  assert (Hbase : forall (w : bytes) (uc1 : option Z), (length w <= 4)%nat -> exists w' d' t' uc' uc2' k, Ret (w, d :: t, uc1, uc2) = Ret (w', d' :: t', uc', uc2') /\
    t' `suffix_of` t /\ (length t' <= length t)%nat /\ string_len len (h ++ t) = string_len (len + k) t' /\ 4 <= k /\
    k + Z.of_nat (length t') <= 4 + Z.of_nat (length t) /\ Z.of_nat (length w') <= k).
  { intros w uc1 Hw. exists w, d, t, uc1, uc2, 4. split_and!; try done; try lia. by apply string_len_hex; [|lia|lia]. }
  destruct (_ || _); [by apply Hbase; cbn; lia|].
  destruct (_ && _); [|apply Hbase, utf8_short].
  destruct (Z.eqb_spec (nth 1 (d :: t) 0) 92) as [H92|]; cbn [negb orb]; [|by apply Hbase; cbn; lia].
  destruct (Z.eqb_spec (nth 2 (d :: t) 0) 117) as [H117|]; cbn [negb orb]; [|by apply Hbase; cbn; lia].
  destruct t as [|c1 [|c2 r2]]; try done. cbn [nth] in H92, H117. subst c1 c2.
  cbn [escapes_ok] in He. change (92 =? 92) with true in He. cbn [negb orb] in He. apply andb_true_iff in He as [He He'].
  apply escape_hex in He as (g & t2 & -> & Hg). pose proof Hg as [Hgl _]. destruct (scan_hex g t2 Hg) as [v2 Hv2].
  change (drop 3 (d :: 92 :: 117 :: g ++ t2)) with (g ++ t2). rewrite Hv2.
  assert (Ha2 : exists d2, adv 6 (d :: 92 :: 117 :: g ++ t2) = Ret (d2 :: t2)).
  { destruct g as [|g1 [|g2 [|g3 [|g4 [|]]]]]; try done. exists g4. exact (adv_app (h := [d; 92; 117; g1; g2; g3]) 6 eq_refl). }
  destruct Ha2 as [d2 Ha2]. rewrite Ha2, bind_Ret_l. cbn [of_option]. rewrite bind_Ret_l.
  cbn [length] in Hb. rewrite length_app in Hb.
  assert (Hlen : string_len len (h ++ 92 :: 117 :: g ++ t2) = string_len (len + 9) t2).
  { rewrite string_len_hex by (done || lia). cbn [string_len]. change (92 =? 34) with false. change (92 =? 92) with true. cbv iota.
    rewrite sint_ok, bind_Ret_l by (unfold INT_MIN, INT_MAX in *; lia). rewrite string_len_hex by (done || lia). f_equal. lia. }
  assert (Hsuf : t2 `suffix_of` 92 :: 117 :: g ++ t2) by (exists (92 :: 117 :: g); done).
  destruct ((v2 <? 56320) || (57343 <? v2)).
  - exists [], d2, t2, (Some v), (Some v2), 9. cbn [length]. rewrite length_app. split_and!; (done || lia).
  - eexists _, d2, t2, _, (Some v2), 9. split; [reflexivity|]. cbn [length]. rewrite length_app.
    pose proof (utf8_short (Z.lor (Z.lor 65536 (Z.shiftl (Z.land v 1023) 10)) (Z.land v2 1023))). split_and!; (done || lia).
Qed.

(** The two loops over a string: the second writes no more than the first counts. *)
Lemma string_fine fuel : forall uc uc2 len p, (length p < fuel)%nat -> escapes_ok p = true -> 0 <= len -> len + Z.of_nat (length p) <= INT_MAX ->
  exists n out e, string_len len p = Ret n /\ unescape fuel uc uc2 p = Ret (out, e) /\ len + Z.of_nat (length out) <= n.
Proof.
  induction fuel as [|fuel IH]; intros uc uc2 len p Hf He H0 Hb; [lia|]. destruct p as [|c r].
  { exists len, [], []. cbn. split_and!; (done || lia). }
  cbn [length] in Hf, Hb. cbn [string_len unescape]. pose proof He as He0. cbn [escapes_ok] in He. apply andb_true_iff in He as [Hc He].
  destruct (Z.eqb_spec c 34); [exists len, [], (c :: r); cbn; split_and!; (done || lia)|].
  rewrite sint_ok, bind_Ret_l by (unfold INT_MIN, INT_MAX in *; lia).
  destruct (Z.eqb_spec c 92) as [->|]; cbn [negb].
  2:{ destruct (IH uc uc2 (len + 1) r) as (m & out & e & H1 & H2 & H3); [lia|done|lia|lia|]. rewrite H1, H2, bind_Ret_l.
      exists m, (c :: out), e. cbn [length]. split_and!; (done || lia). }
  cbn [negb orb] in Hc. destruct r as [|x r]; [done|]. cbn [length] in Hf, Hb. pose proof He as He2. cbn [escapes_ok] in He2.
  apply andb_true_iff in He2 as [_ He2]. destruct (Z.eqb_spec x 117) as [->|].
  - apply escape_hex in Hc as (h & t & -> & Hh). pose proof Hh as [Hl _]. rewrite length_app in Hf, Hb.
    destruct (parse_u_fine uc uc2 h t (len + 1) Hh) as (w & d & t' & uc' & uc2' & k & Hp & Hs & Ht & Hlen & H4 & Hk & Hw); [|lia|lia|].
    { eapply escapes_suffix; [|exact He2]. by exists h. }
    rewrite Hp, bind_Ret_l. cbv iota beta zeta. change (adv 1 (d :: t')) with (adv 1 ([d] ++ t')). rewrite (adv_app 1), bind_Ret_l by done.
    destruct (IH uc' uc2' (len + 1 + k) t') as (m & out & e & H1 & H2 & H3); [lia| |lia|lia|].
    { eapply escapes_suffix; [|exact He2]. transitivity t; [done|by exists h]. }
    rewrite Hlen, H1, H2, bind_Ret_l. exists m, (w ++ out), e. rewrite length_app. split_and!; (done || lia).
  - destruct (IH uc uc2 (len + 1) r) as (m & out & e & H1 & H2 & H3); [lia|done|lia|lia|]. rewrite H1, H2, bind_Ret_l.
    exists m, (unescape_char x :: out), e. cbn [length]. split_and!; (done || lia).
Qed.

Lemma parse_string_fine s p : fine p -> defined (parse_string (fresh_item 0 s) p).
Proof.
  intros Hp. pose proof (tail_suffix p) as Hs. pose proof (suffix_length _ _ Hs). destruct (fine_suffix _ _ Hs Hp) as (He & _ & Hb).
  unfold parse_string, fresh_item. destruct (negb _); [done|].
  destruct (string_fine (S (length p)) None None 0 (tail p)) as (n & out & e & H1 & H2 & H3); [lia|done|lia|lia|].
  rewrite H1, bind_Ret_l, H2, bind_Ret_l. by rewrite (proj2 (Z.leb_le _ _)) by lia.
Qed.

(** *** Numbers *)

Lemma exponent_fine p : forall k, 0 <= k -> (k + 1) * 10 ^ Z.of_nat (count_digits p) <= 10 ^ 9 ->
  exists n rest, exponent_loop k p = Ret (n, rest) /\ 0 <= n < 10 ^ 9.
Proof.
  induction p as [|c p IH]; intros k H0 Hk; [cbn in *; exists k, []; split; [done|lia]|]. cbn [exponent_loop count_digits] in *.
  destruct (is_digit c) eqn:Hd; [|exists k, (c :: p); split; [done|]; cbn in Hk; lia].
  apply is_digit_range in Hd. rewrite Nat2Z.inj_succ, Z.pow_succ_r in Hk by lia.
  pose proof (Z.pow_pos_nonneg 10 (Z.of_nat (count_digits p)) ltac:(lia) ltac:(lia)).
  assert (k * 10 + (c - 48) + 1 <= 10 ^ 9) by nia.
  rewrite !sint_ok, bind_Ret_l, sint_ok, bind_Ret_l by (unfold INT_MIN, INT_MAX; lia). apply IH; [lia|]. nia.
Qed.
Lemma exponent_at c r : exponents_ok (c :: r) = true -> c = 101 \/ c = 69 -> (count_digits (unsigned_part r) <= 9)%nat.
Proof.
  cbn. intros [H _]%andb_true_iff Hc. apply orb_true_iff in H as [H|H%Nat.leb_le]; [|done]. destruct Hc as [-> | ->]; done.
Qed.

Lemma parse_number_fine ty s p : fine p -> defined (parse_number (fresh_item ty s) p).
Proof.
  intros (_ & Hx & _). unfold parse_number, fresh_item.
  set (q := if hd0 p =? 45 then (dm1, tail p) else (d1, p)).
  assert (H1 : q.2 `suffix_of` p) by (unfold q; destruct (_ =? _); [apply tail_suffix|done]). destruct q as [sign q]. cbn [snd] in H1.
  set (q1 := if hd0 q =? 48 then tail q else q).
  assert (H2 : q1 `suffix_of` p) by (transitivity q; [apply tail_if_suffix|done]).
  set (a := if _ && _ then digits_loop d0 0 q1 else (d0, 0, q1)).
  assert (H3 : a.2 `suffix_of` p) by (transitivity q1; [unfold a; destruct (_ && _); [apply digits_loop_suffix|done]|done]).
  destruct a as [[n k0] q2]. cbn [snd] in H3.
  set (b := if _ && _ then digits_loop n 0 (tail q2) else (n, 0, q2)).
  assert (H4 : b.2 `suffix_of` p).
  { transitivity q2; [|done]. unfold b. destruct (_ && _); [|done]. transitivity (tail q2); [apply digits_loop_suffix|apply tail_suffix]. }
  destruct b as [[n' k] q3]. cbn [snd] in H4.
  match goal with |- defined (?X ≫= _) =>
    assert (He : exists r, X = Ret r /\ (r.1.1 = 1 \/ r.1.1 = -1) /\ 0 <= r.1.2 < 10 ^ 9) end.
  - destruct (_ || _) eqn:E; [|exists (1, 0, q3); split_and!; [done|by left|cbn; lia|cbn; lia]].
    destruct q3 as [|c r]; [done|]. cbn [hd0 tail] in *. pose proof (exponents_suffix _ _ H4 Hx) as Hx3.
    apply exponent_at in Hx3; [|by destruct (Z.eqb_spec c 101), (Z.eqb_spec c 69); auto]. unfold unsigned_part in Hx3. cbv zeta.
    assert (Hloop : forall t, (count_digits t <= 9)%nat -> exists sub q6, exponent_loop 0 t = Ret (sub, q6) /\ 0 <= sub < 10 ^ 9).
    { intros t Ht. apply exponent_fine; [lia|]. rewrite Z.mul_1_l. apply Z.pow_le_mono_r; lia. }
    destruct (Z.eqb_spec (hd0 r) 43); [|destruct (Z.eqb_spec (hd0 r) 45)];
      destruct (Hloop _ Hx3) as (sub & q6 & -> & Hb); rewrite bind_Ret_l; eexists; (split; [reflexivity|split; [auto|exact Hb]]).
  - destruct He as ([[sg sub] q6] & -> & Hs & Hb). cbn [fst snd] in Hs, Hb. rewrite bind_Ret_l.
    by rewrite sint_ok, bind_Ret_l by (unfold INT_MIN, INT_MAX; destruct Hs as [-> | ->]; lia).
Qed.

(** *** Values *)

Lemma defined_more {A} (c : A) (b : bool) (m : res (parsed (list A))) r0 : (b = true -> defined m) ->
  defined (if b then r ← m; match r with PFail ep => Ret (PFail ep) | POk l rest => Ret (POk (c :: l) rest) end else Ret r0).
Proof. intros Hm. destruct b; [|done]. destruct m as [[]| | |]; try done; by apply Hm. Qed.
Lemma defined_end {A} (m : res (parsed A)) (f : A -> bytes -> res (parsed cJSON)) : defined m -> (forall l rest, defined (f l rest)) ->
  defined (r ← m; match r with PFail ep => Ret (PFail ep) | POk l rest => f l rest end).
Proof. intros Hm Hf. destruct m as [[]| | |]; try done. apply Hf. Qed.

(** The fuel is that of [parses]: it is what makes the rest of the text known. *)
Definition defined_on fuel : Prop :=
  (forall ty s p, (2 * length p < fuel)%nat -> text_ok p -> fine p -> defined (parse_value fuel (fresh_item ty s) p)) /\
  (forall p, (2 * length p + 1 < fuel)%nat -> text_ok p -> fine p -> defined (parse_elements fuel p)) /\
  (forall p, (2 * length p + 1 < fuel)%nat -> text_ok p -> fine p -> defined (parse_members fuel p)).

Lemma defined_all fuel : defined_on fuel.
Proof.
  induction fuel as [|fuel (IHv & IHe & IHm)]; [split_and!; intros; lia|].
  destruct (parses_all fuel) as (Pv & Pe & Pm). split_and!.
  - intros ty s p Hf Hp Hfine. cbn [parse_value fresh_item].
    destruct (starts (lit "null") p); [done|]. destruct (starts (lit "false") p); [done|]. destruct (starts (lit "true") p); [done|].
    destruct (hd0 p =? 34); [by apply (parse_string_fine s)|]. destruct (_ || _); [by apply (parse_number_fine ty s)|].
    assert (Ht : skip (tail p) `suffix_of` p) by (transitivity (tail p); [apply skip_suffix|apply tail_suffix]).
    assert (Hlen : hd0 p = 91 \/ hd0 p = 123 -> (length (skip (tail p)) < length p)%nat).
    { intros Hh. pose proof (suffix_length _ _ (skip_suffix (tail p))).
      assert (length (tail p) < length p)%nat; [|lia]. eapply (behind_length (hd0 p)); [done|done|lia]. }
    destruct (Z.eqb_spec (hd0 p) 91) as [H91|_]; [|destruct (Z.eqb_spec (hd0 p) 123) as [H123|_]; [|done]].
    + destruct (_ =? _); [done|]. apply defined_end; [|by intros; destruct (_ =? _)].
      apply IHe; [lia|by eapply suffix_text|by eapply fine_suffix].
    + destruct (_ =? _); [done|]. apply defined_end; [|by intros; destruct (_ =? _)].
      apply IHm; [lia|by eapply suffix_text|by eapply fine_suffix].
  - intros p Hf Hp Hfine. cbn [parse_elements]. change cJSON_New_Item with (fresh_item 0 None).
    pose proof (skip_suffix p) as Hs. pose proof (suffix_length _ _ Hs) as Hsl.
    eapply defined_bind; [apply Pv; [lia|by eapply suffix_text]|apply IHv; [lia|by eapply suffix_text|by eapply fine_suffix]|].
    intros [ep|c rest] Hc; [done|]. destruct Hc as [_ Hr]. cbv zeta. apply defined_more. intros H44%Z.eqb_eq.
    assert (Hsr : skip rest `suffix_of` p) by (transitivity rest; [apply skip_suffix|by transitivity (skip p)]).
    pose proof (behind_length 44 p _ Hsr H44 ltac:(lia)).
    assert (Htr : tail (skip rest) `suffix_of` p) by (transitivity (skip rest); [apply tail_suffix|done]).
    apply IHe; [lia|by eapply suffix_text|by eapply fine_suffix].
  - intros p Hf Hp Hfine. cbn [parse_members]. change cJSON_New_Item with (fresh_item 0 None).
    pose proof (skip_suffix p) as Hs. pose proof (suffix_length _ _ Hs) as Hsl.
    eapply defined_bind; [apply within_parse_string; by eapply suffix_text|apply parse_string_fine; by eapply fine_suffix|].
    intros [ep|c rest] Hc; [done|]. destruct Hc as [(x & -> & Hx) Hr]. cbv zeta.
    assert (Hsr : skip rest `suffix_of` p) by (transitivity rest; [apply skip_suffix|by transitivity (skip p)]).
    destruct (Z.eqb_spec (hd0 (skip rest)) 58) as [H58|_]; [|done]. cbn [negb].
    change (take_name _) with (fresh_item cJSON_String (Some x)).
    assert (Hv : skip (tail (skip rest)) `suffix_of` p).
    { transitivity (tail (skip rest)); [apply skip_suffix|]. transitivity (skip rest); [apply tail_suffix|done]. }
    assert (Hvl : (length (skip (tail (skip rest))) < length p)%nat).
    { pose proof (suffix_length _ _ (skip_suffix (tail (skip rest)))). pose proof (behind_length 58 p _ Hsr H58 ltac:(lia)). lia. }
    eapply defined_bind; [apply Pv; [lia|by eapply suffix_text]|apply IHv; [lia|by eapply suffix_text|by eapply fine_suffix]|].
    intros [ep|c rest2] Hc; [done|]. destruct Hc as [_ Hr2]. cbv zeta. apply defined_more. intros H44%Z.eqb_eq.
    assert (Hsr2 : skip rest2 `suffix_of` p).
    { transitivity rest2; [apply skip_suffix|]. by transitivity (skip (tail (skip rest))). }
    pose proof (behind_length 44 p _ Hsr2 H44 ltac:(lia)).
    assert (Htr : tail (skip rest2) `suffix_of` p) by (transitivity (skip rest2); [apply tail_suffix|done]).
    apply IHm; [lia|by eapply suffix_text|by eapply fine_suffix].
Qed.
End Parse.

(** C28. The parser always ends: on a text of any length and content, well formed or not, its
    recursion stops within the levels and entries the text has room for.  And it does no
    harm, returning an item or failing, on every text shorter than 2^31, well formed or not,
    in which every backslash has a character behind it (a u with four hex digits) and every
    letter e, with a sign or without, at most nine digits: it never reads past the end of
    the text, never writes more than it counted for a string, and no int overflows (the
    depth of the C stack is not modelled).  Without these it can: it reads past the end
    behind a last backslash (parse_backslash) or a cut \u, and the int of an exponent can
    overflow (parse_exponent). *)
Theorem json_parse_ends {JL : JsonLib} (text : bytes) : text_ok text ->
  cJSON_Parse text <> NoFuel /\
  (Z.of_nat (length text) <= INT_MAX -> escapes_ok text = true -> exponents_ok text = true -> exists r, cJSON_Parse text = Ret r).
Proof.
  intros Ht. unfold cJSON_Parse. pose proof (skip_suffix text) as Hs. pose proof (suffix_length _ _ Hs) as Hsl.
  destruct (parses_all (2 * length text + 2)) as [H _], (defined_all (2 * length text + 2)) as [HD _].
  specialize (H 0 None (skip text) ltac:(lia) (suffix_text _ _ Hs Ht)).
  specialize (HD 0 None (skip text) ltac:(lia) (suffix_text _ _ Hs Ht)).
  change (fresh_item 0 None) with cJSON_New_Item in H, HD. split.
  - destruct (parse_value _ _ _) as [[]| | |]; by try destruct H.
  - intros Hlen He Hx. assert (Hf : fine (skip text)) by (by apply (fine_suffix _ text)). specialize (HD Hf).
    destruct (parse_value _ _ _) as [r| | |]; [by eexists|by destruct HD|by destruct HD|by destruct H].
Qed.

(** A text that is cut off inside a string. *)
Definition ex_cut : bytes := lit "[1e5,[2," ++ [34] ++ lit "x\u00e4".
Lemma ex_cut_text : text_ok ex_cut.
Proof. unfold ex_cut. ex_text_ok. Qed.
Lemma json_parse_ends_witness : cJSON_Parse (JL := UnitPow) ex_cut <> NoFuel /\ exists r, cJSON_Parse (JL := UnitPow) ex_cut = Ret r.
Proof.
  destruct (@json_parse_ends UnitPow ex_cut ex_cut_text) as [H1 H2]. split; [exact H1|].
  apply H2; [by vm_compute|by vm_compute|by vm_compute].
Defined.

(** An exponent of ten digits overflows; the code has no limit for them. *)
Example parse_exponent : cJSON_Parse (JL := UnitPow) (lit "1e2147483648") = Undef.
Proof. by vm_compute. Qed.

(** C27. What the parser returns is well typed: every item of the tree has one of the
    seven types, a string has its characters and no zero among them, valueint is an int,
    the children of an object have names, those of an array have none, and no other item
    has children.  The whole has no name. *)
Theorem json_parse_typed {JL : JsonLib} (text : bytes) (c : cJSON) :
  text_ok text -> cJSON_Parse text = Ret (Some c) -> item_typed c /\ it_string c = None.
Proof.
  intros Ht. unfold cJSON_Parse. pose proof (skip_suffix text) as Hs. pose proof (suffix_length _ _ Hs) as Hsl.
  destruct (parses_all (2 * length text + 2)) as [H _].
  specialize (H 0 None (skip text) ltac:(lia) (suffix_text _ _ Hs Ht)).
  change (fresh_item 0 None) with cJSON_New_Item in H.
  destruct (parse_value _ _ _) as [[ep|c' rest]| | |]; cbn; intros [= ->]. by destruct H.
Qed.

Lemma json_parse_typed_witness : item_typed cJSON_CreateNull /\ it_string cJSON_CreateNull = None.
Proof. apply (@json_parse_typed UnitPow (lit " null") cJSON_CreateNull); [ex_text_ok|by vm_compute]. Defined.
