(* ===== verification/Ljson.v ===== *)
(** * Ljson: the JSON module for scripts

    Source: src/src/json/json.cc.  Lua tables are trees on the explicit stack of LuaStack.v.
    The messages written to the log and the console are left out. *)
From Stdlib Require Import SpecFloat.
From S2P Require Import Prelude Fmt Lua LuaStack Dbl Json JsonText.
Local Open Scope Z_scope.

Section Stack.
Variable limit : nat.
Local Abbreviation lua_push := (lua_push limit).
Local Abbreviation lua_next := (lua_next limit).

(** ** json_encode_tree

    An entry that cannot be encoded ends the loop with the key and the value still on the
    stack.  [encode_entries]: the loop, before lua_next. *)
Fixpoint encode_tree (fuel : nat) (stk : list tree) : res (option cJSON * list tree) :=
  match fuel with
  | O => NoFuel
  | S fuel =>
      match stk with
      | Val LNil :: _ => Ret (Some cJSON_CreateNull, stk)
      | Val (LBool b) :: _ => Ret (Some (cJSON_CreateBool b), stk)
      | Val (LNum num) :: _ => Ret (Some (cJSON_CreateNumber num), stk)
      | Val (LStr string) :: _ => Ret (Some (cJSON_CreateString (cstr string)), stk)
      | Tab _ :: _ =>
          stk ← lua_push (Val LNil) stk;
          '(json, stk) ← encode_entries fuel cJSON_CreateObject stk;
          Ret (Some json, stk)
      | _ => Ret (None, stk)
      end
  end
with encode_entries (fuel : nat) (json : cJSON) (stk : list tree) : res (cJSON * list tree) :=
  match fuel with
  | O => NoFuel
  | S fuel =>
      '(more, stk) ← lua_next stk;
      if more : bool then
        match stk with
        | _ :: Val (LStr k) :: _ =>
            '(c, stk) ← encode_tree fuel stk;
            match c with
            | None => Ret (json, stk)
            | Some c => encode_entries fuel (cJSON_AddItemToObject json (cstr k) c) (tail stk)
            end
        | _ :: Val (LNum d) :: _ =>
            '(c, stk) ← encode_tree fuel stk;
            match c with
            | None => Ret (json, stk)
            | Some c => encode_entries fuel (cJSON_AddItemToObject json (fmt_d (d2i32 d)) c) (tail stk)
            end
        | _ => encode_entries fuel json (tail stk)
        end
      else Ret (json, stk)
  end.

(** ** json_decode_tree *)

Definition is_zero (d : lnumber) : bool := match SFcompare d d0 with Some Eq => true | _ => false end.
Definition or_nil (s : option bytes) : lval := match s with Some s => lua_pushstring s | None => LNil end.

(** The loops over the children, from the i-th on. *)
Section Children.
Variable decode_tree : cJSON -> list tree -> res (list tree).
Fixpoint decode_array (i : Z) (l : list cJSON) (stk : list tree) : res (list tree) :=
  match l with
  | [] => Ret stk
  | c :: l =>
      stk ← lua_push (Val (lua_pushinteger (i + 1))) stk;
      stk ← decode_tree c stk;
      stk ← lua_settable stk;
      decode_array (i + 1) l stk
  end.
Definition decode_key (string : bytes) : res lval :=
  if is_digit (hd0 string) then intval ← atoi string; Ret (lua_pushinteger intval) else Ret (lua_pushstring string).
Fixpoint decode_object (l : list cJSON) (stk : list tree) : res (list tree) :=
  match l with
  | [] => Ret stk
  | c :: l =>
      string ← of_option (it_string c);
      k ← decode_key string;
      stk ← lua_push (Val k) stk;
      stk ← decode_tree c stk;
      stk ← lua_settable stk;
      decode_object l stk
  end.
End Children.

Fixpoint decode_tree (json : cJSON) (stk : list tree) : res (list tree) :=
  let 'Item type valuestring valueint valuedouble _ l := json in
  if type =? cJSON_Number then
    lua_push (Val (LNum (if negb (is_zero valuedouble) then valuedouble else d_of_Z valueint))) stk
  else if type =? cJSON_String then lua_push (Val (or_nil valuestring)) stk
  else if type =? cJSON_NULL then lua_push (Val LNil) stk
  else if type =? cJSON_True then lua_push (Val (LBool true)) stk
  else if type =? cJSON_False then lua_push (Val (LBool false)) stk
  else if type =? cJSON_Array then stk ← lua_push (Tab []) stk; decode_array decode_tree 0 l stk
  else if type =? cJSON_Object then stk ← lua_push (Tab []) stk; decode_object decode_tree l stk
  else Ret stk.
End Stack.

Section Module.
Context {F : LuaFmt} {JL : JsonLib}.

(** The text of the value on top, or NULL. *)
Definition json_encode (limit fuel : nat) (stk : list tree) : res (option bytes * list tree) :=
  '(json, stk) ← encode_tree limit fuel stk;
  match json with
  | None => Ret (None, stk)
  | Some json => str ← cJSON_Print json; Ret (str, stk)
  end.
Definition json_decode (limit : nat) (str : bytes) (stk : list tree) : res (Z * list tree) :=
  json ← cJSON_Parse str;
  match json with
  | None => Ret (0, stk)
  | Some json => stk ← decode_tree limit json stk; Ret (1, stk)
  end.

(** Below the arguments on the stack is the function itself. *)
Definition lencode (args : list tree) : res (list tree) :=
  '(str, stk) ← json_encode (frame args) (1 + tree_size (Tab (map (pair LNil) args))) (rev args);
  match str with
  | None => Ret []
  | Some str => _ ← lua_push (frame args) (Val (lua_pushstring str)) stk; Ret [Val (lua_pushstring str)]
  end.

Definition ldecode (args : list tree) : res (list tree) :=
  let L := map value_of args in
  if negb (lua_isstring L 1) then Ret []
  else
    str ← of_option (lua_tolstring L 1);
    '(ok, stk) ← json_decode (frame args) (cstr str) (rev args);
    if ok =? 0 then Ret []
    else match stk with v :: _ => Ret [v] | [] => Undef end.
End Module.

(** ** Scripts' values and their items *)

(** The values that JSON keeps: booleans, integers, strings, and tables of them whose keys
    are integers that are not negative or strings that do not begin with a digit. *)
Definition key_ok (k : lval) : Prop :=
  (exists s, k = LStr s /\ text_ok s /\ is_digit (hd0 s) = false) \/ (exists n, k = LNum (d_of_Z n) /\ 0 <= n <= INT_MAX).
Definition val_ok (v : lval) : Prop :=
  (exists b, v = LBool b) \/ (exists n, v = LNum (d_of_Z n) /\ INT_MIN <= n <= INT_MAX) \/ (exists s, v = LStr s /\ text_ok s).
Fixpoint tree_ok (t : tree) : Prop :=
  match t with
  | Val v => val_ok v
  | Tab l => NoDup (map fst l) /\ fold_right (fun '(k, v) R => (key_ok k /\ tree_ok v) /\ R) True l
  end.
Lemma entries_Forall l :
  fold_right (fun '(k, v) R => (key_ok k /\ tree_ok v) /\ R) True l <-> Forall (fun e => key_ok e.1 /\ tree_ok e.2) l.
Proof. induction l as [|[k v] l IH]; cbn; [split; constructor|]. by rewrite Forall_cons, IH. Qed.

(** The item of a value, under a name. *)
Definition key_text (k : lval) : bytes := match k with LStr s => s | LNum d => fmt_d (d2i32 d) | _ => [] end.
Definition named_item (t : Z) (v : option bytes) (n : Z) (name : option bytes) (l : list cJSON) : cJSON :=
  Item t v n (if t =? cJSON_Number then d_of_Z n else d0) name l.
Fixpoint item_of (name : option bytes) (t : tree) : cJSON :=
  match t with
  | Val (LBool b) => named_item (if b then cJSON_True else cJSON_False) None 0 name []
  | Val (LNum d) => named_item cJSON_Number None (d2i32 d) name []
  | Val (LStr s) => named_item cJSON_String (Some s) 0 name []
  | Val _ => named_item cJSON_NULL None 0 name []
  | Tab l => named_item cJSON_Object None 0 name (map (fun '(k, v) => item_of (Some (key_text k)) v) l)
  end.

Lemma item_of_name name t : it_string (item_of name t) = name.
Proof. by destruct t as [[]|]. Qed.
Lemma item_of_named s t : set_name (Some s) (item_of None t) = item_of (Some s) t.
Proof. by destruct t as [[]|]. Qed.
Lemma item_of_canon_name t : set_name None (canon (item_of None t)) = canon (item_of None t).
Proof. by destruct t as [[]|]. Qed.
Lemma add_named o k c : cJSON_AddItemToObject o k c = cJSON_AddItemToArray o (set_name (Some k) c).
Proof. by destruct o, c. Qed.

Lemma text_ok_cstr s : text_ok s -> cstr s = s.
Proof. intros H. apply cstr_nozero. eapply Forall_impl; [exact H|]. cbn. lia. Qed.
Lemma fmt_d_digits n : 0 <= n -> fmt_d n = dec n.
Proof. intros H. unfold fmt_d. destruct (Z.ltb_spec n 0); [lia|done]. Qed.
Lemma digits_text_ok l : Forall (fun c => is_digit c = true) l -> text_ok l.
Proof. apply List.Forall_impl. intros c Hc%is_digit_range. lia. Qed.

Lemma key_text_ok k : key_ok k -> text_ok (key_text k).
Proof.
  intros [(s & -> & Hs & _)|(n & -> & Hn)]; [done|]. unfold INT_MAX in *. cbn.
  rewrite d2i32_of_Z, fmt_d_digits by (unfold in_s; lia). apply digits_text_ok. by destruct (dec_spec n ltac:(lia)) as (_ & H & _).
Qed.
Lemma key_not_nil k : key_ok k -> is_nil k = false.
Proof. by intros [(? & -> & _)|(? & -> & _)]. Qed.

Lemma key_not_bad k : key_ok k -> bad_key k = false.
Proof.
  intros [(? & -> & _)|(n & -> & Hn)]; [done|]. pose proof (d_of_Z_not_nan n). unfold INT_MAX in *. cbn.
  destruct (d_of_Z n); try done. by destruct H; [lia|].
Qed.

Lemma item_of_ok t : forall name, tree_ok t -> json_ok (item_of name t).
Proof.
  induction t as [v|l IH] using tree_nest_ind; intros name Ht; cbn [tree_ok] in Ht.
  - destruct Ht as [(b & ->)|[(n & -> & Hn)|(s & -> & Hs)]].
    + destruct b; cbn; [do 2 right; left|right; left]; by split_and!.
    + cbn. rewrite d2i32_of_Z by (unfold in_s, INT_MIN, INT_MAX in *; lia). do 3 right. left. destruct Hn. by split_and!.
    + cbn. do 4 right. left. split_and!; try done. by exists s.
  - destruct Ht as [_ Hl]. apply entries_Forall in Hl. cbn [item_of named_item json_ok]. do 6 right.
    split_and!; try done. apply (children_Forall json_ok (fun c => exists x, it_string c = Some x /\ text_ok x)).
    apply Forall_map. rewrite Forall_forall in IH, Hl |- *. intros [k v] Hc. destruct (Hl _ Hc) as [Hk Hv]. cbn in *.
    split; [by apply (IH _ Hc)|]. exists (key_text k). split; [apply item_of_name|by apply key_text_ok].
Qed.

(** ** Encoding *)

(** The value is encoded, and the stack is as it was. *)
Definition encodes (limit : nat) (v : tree) : Prop :=
  forall fuel stk, (length stk + 2 * depth v < limit)%nat -> (tree_size v <= fuel)%nat ->
  encode_tree limit fuel (v :: stk) = Ret (Some (item_of None v), v :: stk).

Lemma encode_entries_ok limit l stk : NoDup (map fst l) -> Forall (fun e => key_ok e.1 /\ encodes limit e.2) l ->
  forall rest pre k0 fuel done, l = pre ++ rest -> cursor k0 l = Some rest ->
  (length stk + 2 * S (fold_right (fun '(_, v) n => Nat.max (depth v) n) 0 rest) < limit)%nat ->
  (1 + fold_right (fun '(_, v) n => 1 + tree_size v + n)%nat 0%nat rest <= fuel)%nat ->
  encode_entries limit fuel (named_item cJSON_Object None 0 None done) (Val k0 :: Tab l :: stk)
    = Ret (named_item cJSON_Object None 0 None (done ++ map (fun '(k, v) => item_of (Some (key_text k)) v) rest), Tab l :: stk).
Proof.
  intros Hnd Hl. induction rest as [|[k v] rest IH]; intros pre k0 fuel acc El Hk0 Hlim Hf; (destruct fuel as [|fuel]; [lia|]).
  - cbn [encode_entries lua_next]. rewrite Hk0, bind_Ret_l. cbn [map]. by rewrite app_nil_r.
  - cbn [encode_entries lua_next fold_right map] in *. rewrite Hk0.
    rewrite push_ok, bind_Ret_l, push_ok, bind_Ret_l, bind_Ret_l by (cbn [length]; lia).
    assert (Hkv : key_ok k /\ encodes limit v) by (rewrite Forall_forall in Hl; apply (Hl (k, v)); subst l; set_solver).
    destruct Hkv as [Hk Hv].
    assert (Hcur : cursor k l = Some rest).
    { unfold cursor. rewrite key_not_nil by done. subst l. apply after_app.
      rewrite map_app in Hnd. apply NoDup_app in Hnd as (_ & Hnd & _). intros Hin. specialize (Hnd _ Hin). set_solver. }
    assert (Hstep : encode_entries limit fuel (cJSON_AddItemToObject (named_item cJSON_Object None 0 None acc) (key_text k) (item_of None v))
        (Val k :: Tab l :: stk) = Ret (named_item cJSON_Object None 0 None (acc ++ item_of (Some (key_text k)) v
          :: map (fun '(k, v) => item_of (Some (key_text k)) v) rest), Tab l :: stk)).
    { rewrite add_named, item_of_named. change (cJSON_AddItemToArray ?o ?c) with (named_item cJSON_Object None 0 None (acc ++ [c])).
      rewrite (IH (pre ++ [(k, v)])); [by rewrite <- app_assoc|by rewrite <- app_assoc|done|lia|lia]. }
    assert (He : encode_tree limit fuel (v :: Val k :: Tab l :: stk) = Ret (Some (item_of None v), v :: Val k :: Tab l :: stk))
      by (apply Hv; [cbn [length]; lia|lia]).
    pose proof (key_text_ok k Hk) as Hkt.
    destruct Hk as [(s & -> & Hs & _)|(n & -> & Hn)]; rewrite He, bind_Ret_l; cbn [tail key_text] in *.
    + rewrite text_ok_cstr by done. exact Hstep.
    + exact Hstep.
Qed.

Lemma encode_tree_ok limit t : tree_ok t -> encodes limit t.
Proof.
  induction t as [v|l IH] using tree_nest_ind; intros Ht fuel stk Hlim Hf; cbn [tree_size depth tree_ok] in *;
    (destruct fuel as [|fuel]; [lia|]).
  - destruct Ht as [(b & ->)|[(n & -> & Hn)|(s & -> & Hs)]]; cbn [encode_tree item_of].
    + by destruct b.
    + unfold named_item, cJSON_CreateNumber. rewrite d2i32_of_Z by (unfold in_s, INT_MIN, INT_MAX in *; lia). done.
    + by rewrite text_ok_cstr.
  - destruct Ht as [Hnd Hl]. apply entries_Forall in Hl. cbn [encode_tree]. rewrite push_ok, bind_Ret_l by (cbn [length]; lia).
    change cJSON_CreateObject with (named_item cJSON_Object None 0 None []).
    rewrite (encode_entries_ok limit l stk Hnd) with (pre := []) (rest := l); [done| |done|done|lia|lia].
    rewrite Forall_forall in IH, Hl |- *. intros e He. split; [by apply Hl|]. apply IH; [done|by apply Hl].
Qed.

(** ** Decoding *)

Lemma decode_key_ok k : key_ok k -> decode_key (key_text k) = Ret k.
Proof.
  intros [(s & -> & Hs & Hd)|(n & -> & Hn)]; unfold decode_key; cbn [key_text].
  - rewrite Hd. unfold lua_pushstring. by rewrite text_ok_cstr.
  - rewrite d2i32_of_Z, fmt_d_digits by (unfold in_s, INT_MAX in *; lia).
    destruct (dec_spec n ltac:(lia)) as (_ & Hds & c & ds & E & _). rewrite E in Hds. apply Forall_cons in Hds as [Hc _].
    assert (H0 : hd0 (dec n) = c) by (by rewrite E). rewrite H0, Hc, atoi_dec by done. done.
Qed.

Lemma tree_ok_not_nil t : tree_ok t -> t <> Val LNil.
Proof. by intros H ->; destruct H as [(? & ?)|[(? & ? & _)|(? & ? & _)]]. Qed.

(** The item, whatever its name, is decoded onto the stack. *)
Definition decodes (limit : nat) (v : tree) : Prop :=
  forall name stk, (length stk + 2 * depth v < limit)%nat ->
  decode_tree limit (canon (item_of name v)) stk = Ret (v :: stk).

Lemma decode_object_ok limit rest : forall pre stk, NoDup (map fst (pre ++ rest)) ->
  Forall (fun e => key_ok e.1 /\ tree_ok e.2 /\ decodes limit e.2) rest ->
  (length stk + 2 * S (fold_right (fun '(_, v) n => Nat.max (depth v) n) 0 rest) < limit)%nat ->
  decode_object limit (decode_tree limit) (map canon (map (fun '(k, v) => item_of (Some (key_text k)) v) rest)) (Tab pre :: stk)
    = Ret (Tab (pre ++ rest) :: stk).
Proof.
  induction rest as [|[k v] rest IH]; intros pre stk Hnd Hl Hlim; [cbn; by rewrite app_nil_r|].
  apply Forall_cons in Hl as [(Hk & Hv & Hdec) Hl]. cbn [map fold_right decode_object] in *. cbn [fst snd] in *.
  assert (Hname : it_string (canon (item_of (Some (key_text k)) v)) = Some (key_text k)) by (by destruct v as [[]|]).
  rewrite Hname. cbn [of_option]. rewrite bind_Ret_l, decode_key_ok, bind_Ret_l, push_ok, bind_Ret_l by (done || (cbn [length]; lia)).
  rewrite Hdec, bind_Ret_l by (cbn [length]; lia).
  rewrite settable_ok, bind_Ret_l by by apply key_not_bad. rewrite settable_new.
  - rewrite IH; [by rewrite <- app_assoc|by rewrite <- app_assoc|done|lia].
  - apply tree_get_fresh. rewrite map_app in Hnd. apply NoDup_app in Hnd as (_ & Hnd & _). intros Hin. specialize (Hnd _ Hin). set_solver.
  - by apply tree_ok_not_nil.
Qed.

Lemma decode_tree_ok limit t : tree_ok t -> decodes limit t.
Proof.
  induction t as [v|l IH] using tree_nest_ind; intros Ht name stk Hlim; cbn [depth tree_ok] in *.
  - destruct Ht as [(b & ->)|[(n & -> & Hn)|(s & -> & Hs)]].
    + destruct b; cbn; by rewrite push_ok by lia.
    + cbn. rewrite d2i32_of_Z by (unfold in_s, INT_MIN, INT_MAX in *; lia). rewrite push_ok by lia. by destruct (negb _).
    + cbn. rewrite push_ok by lia. unfold lua_pushstring. by rewrite text_ok_cstr.
  - destruct Ht as [Hnd Hl]. apply entries_Forall in Hl. cbn [item_of named_item canon decode_tree].
    change (cJSON_Object =? cJSON_Number) with false. change (cJSON_Object =? cJSON_String) with false.
    change (cJSON_Object =? cJSON_NULL) with false. change (cJSON_Object =? cJSON_True) with false.
    change (cJSON_Object =? cJSON_False) with false. change (cJSON_Object =? cJSON_Array) with false.
    change (cJSON_Object =? cJSON_Object) with true. cbv iota. rewrite push_ok, bind_Ret_l by lia.
    rewrite (decode_object_ok limit l [] stk); [done|done| |lia].
    rewrite Forall_forall in IH, Hl |- *. intros e He. destruct (Hl _ He) as [Hk Hv]. split; [done|]. split; [done|]. by apply IH.
Qed.

(** ** The text is a C string *)

Lemma escape_text_ok t : text_ok t -> text_ok (concat (map escape_char t)).
Proof.
  assert (H : forallb (fun c => (c =? 0) || forallb (fun x => (0 <? x) && (x <? 256)) (escape_char c)) (seqZ 0 256) = true)
    by (vm_compute; reflexivity).
  induction 1 as [|c t Hc Ht IH]; [constructor|]. cbn [map concat]. apply Forall_app. split; [|done].
  pose proof (range_cases _ _ H c ltac:(lia)) as Hx. cbn beta in Hx. apply orb_true_iff in Hx as [Hx|Hx]; b2p; [lia|].
  apply Forall_forall. intros x Hin%list_elem_of_In. pose proof (proj1 (List.forallb_forall _ _) Hx x Hin). cbn in *. b2p. lia.
Qed.
Lemma string_text_ok t : text_ok t -> text_ok (string_text t).
Proof.
  intros H. unfold string_text. apply Forall_cons. split; [lia|]. apply Forall_app. split; [by apply escape_text_ok|].
  by repeat constructor.
Qed.
Lemma fmt_d_text_ok n : text_ok (fmt_d n).
Proof.
  unfold fmt_d. destruct (Z.ltb_spec n 0).
  - apply Forall_cons. split; [lia|]. apply digits_text_ok. by destruct (dec_spec (- n) ltac:(lia)) as (_ & H' & _).
  - apply digits_text_ok. by destruct (dec_spec n ltac:(lia)) as (_ & H' & _).
Qed.
Lemma array_text_text_ok fmt es : Forall text_ok es -> text_ok (array_text fmt es).
Proof.
  induction 1 as [|e es He Hes IH]; [constructor|]. destruct es as [|e' es]; [done|].
  change (array_text fmt (e :: e' :: es)) with (e ++ [44] ++ (if fmt then [32] else []) ++ array_text fmt (e' :: es)).
  unfold text_ok in *. rewrite !Forall_app. split_and!; [done| | |done]; [by repeat constructor|by destruct fmt; repeat constructor].
Qed.
Lemma object_text_text_ok fmt depth es : Forall (fun e => text_ok e.1 /\ text_ok e.2) es -> text_ok (object_text fmt depth es).
Proof.
  induction 1 as [|[a e] es [Ha He] Hes IH]; [constructor|]. cbn [object_text fst snd] in *. unfold text_ok in *. rewrite !Forall_app.
  split_and!; try done; try (by repeat constructor); try (by destruct fmt; repeat constructor).
  - destruct fmt; [|constructor]. by apply Forall_replicate.
  - by destruct es; repeat constructor.
Qed.
Lemma json_text_text_ok fmt c : forall depth, json_ok c -> text_ok (json_text fmt depth c).
Proof.
  induction c as [t v n d s l IH] using cJSON_tree_ind. intros depth Hok. cbn [json_ok] in Hok. item_cases Hok.
  - by repeat constructor.
  - by repeat constructor.
  - by repeat constructor.
  - apply fmt_d_text_ok.
  - by apply string_text_ok.
  - change (text_ok (91 :: array_text fmt (map (json_text fmt (depth + 1)) l) ++ [93])).
    apply Forall_cons. split; [lia|]. apply Forall_app. split; [|by repeat constructor]. apply array_text_text_ok, Forall_map.
    rewrite Forall_forall in IH, Hl |- *. intros c Hc. apply IH; [done|by apply Hl].
  - change (text_ok (123 :: (if fmt then [10] else []) ++
      object_text fmt (depth + 1) (map (fun c => (string_text (name_of c), json_text fmt (depth + 1) c)) l) ++
      (if fmt then replicate (Z.to_nat depth) 9 else []) ++ [125])).
    apply Forall_cons. split; [lia|]. unfold text_ok. rewrite !Forall_app. split_and!; [by destruct fmt; repeat constructor| | |by repeat constructor].
    + apply object_text_text_ok, Forall_map. rewrite Forall_forall in IH, Hl |- *. intros c Hc.
      destruct (Hl c Hc) as [Hc1 (x & Hx & Hxt)]. cbn. split; [|by apply IH]. apply string_text_ok. unfold name_of. by rewrite Hx.
    + destruct fmt; [|constructor]. by apply Forall_replicate.
Qed.

(** ** The module's round trip *)

Section Roundtrip.
Context {F : LuaFmt} {JL : JsonLib} {JLOk : JsonLibOk JL}.

(** The text a script gets for a value. *)
Definition script_text (t : tree) : bytes := json_text true 0 (item_of None t).

Lemma lencode_ok t : tree_ok t -> (depth t <= 9)%nat -> 2 * Z.of_nat (length (script_text t)) + 16 <= INT_MAX ->
  lencode [t] = Ret [Val (LStr (script_text t))].
Proof.
  unfold script_text. intros Ht Hd Hb. pose proof (item_of_ok t None Ht) as Hok. pose proof (json_text_text_ok true _ 0 Hok) as Htext. unfold lencode, json_encode.
  change (rev [t]) with [t]. rewrite (encode_tree_ok (frame [t]) t Ht) by (unfold frame, LUA_MINSTACK; cbn; lia). rewrite bind_Ret_l. unfold cJSON_Print.
  rewrite print_value_ok by (done || lia). rewrite !bind_Ret_l, push_ok, bind_Ret_l by (unfold frame, LUA_MINSTACK; cbn; lia).
  unfold lua_pushstring. by rewrite text_ok_cstr.
Qed.

Lemma ldecode_ok t : tree_ok t -> (depth t <= 9)%nat -> Z.of_nat (length (script_text t)) <= INT_MAX ->
  ldecode [Val (LStr (script_text t))] = Ret [t].
Proof.
  unfold script_text. intros Ht Hd Hb. pose proof (item_of_ok t None Ht) as Hok. pose proof (json_text_text_ok true _ 0 Hok) as Htext. unfold ldecode, json_decode.
  change (negb (lua_isstring _ 1)) with false. cbv iota. change (lua_tolstring _ 1) with (Some (script_text t)). cbn [of_option].
  rewrite bind_Ret_l, text_ok_cstr by done. unfold script_text. rewrite json_parse_text, bind_Ret_l, item_of_canon_name by done.
  rewrite (decode_tree_ok (frame [Val (LStr (script_text t))]) t Ht) by (unfold frame, LUA_MINSTACK; cbn; lia). done.
Qed.

(** C12. Json.encode and Json.decode are a round trip for scripts: a value made of
    booleans, ints, strings of any characters but zero, and tables of these nested at
    most nine deep, whose keys are strings that do not begin with a digit or ints that
    are not negative, is encoded, and decoding the text gives the value back, through
    the encoder's walk of the tables, the printer, the parser and the decoder. *)
Theorem json_script_roundtrip (t : tree) :
  tree_ok t -> (depth t <= 9)%nat -> 2 * Z.of_nat (length (script_text t)) + 16 <= INT_MAX ->
  exists text, lencode [t] = Ret [Val (LStr text)] /\ ldecode [Val (LStr text)] = Ret [t].
Proof. intros Ht Hd Hb. exists (script_text t). split; [by apply lencode_ok|apply ldecode_ok; [done|done|lia]]. Qed.
End Roundtrip.

(** {name = "x\n", [7] = {true, -3}} *)
Definition ex_value : tree :=
  Tab [(LStr (lit "name"), Val (LStr [120; 10])); (LNum (d_of_Z 7), Tab [(LNum (d_of_Z 1), Val (LBool true)); (LNum (d_of_Z 2), Val (LNum (d_of_Z (-3))))])].
Lemma ex_value_ok : tree_ok ex_value.
Proof.
  assert (Hk : forall n, 0 <= n <= INT_MAX -> key_ok (LNum (d_of_Z n))) by (intros n Hn; right; by exists n).
  cbn [ex_value tree_ok map fst fold_right]. split_and!; try done.
  - apply (bool_decide_unpack _); by vm_compute.
  - left. exists (lit "name"). split; [done|]. split; [ex_text_ok|by vm_compute].
  - right. right. eexists. split; [done|ex_text_ok].
  - apply Hk. by vm_compute.
  - apply (bool_decide_unpack _); by vm_compute.
  - apply Hk. by vm_compute.
  - left. by exists true.
  - apply Hk. by vm_compute.
  - right. left. exists (-3). split; [done|by vm_compute].
Defined.

Lemma json_script_roundtrip_witness :
  exists text, lencode (JL := UnitPow) [ex_value] = Ret [Val (LStr text)] /\
    ldecode (F := NoFmt) (JL := UnitPow) [Val (LStr text)] = Ret [ex_value].
Proof. apply (@json_script_roundtrip NoFmt UnitPow UnitPow_ok ex_value ex_value_ok); [cbn; lia|by vm_compute]. Defined.

(** ** What the encoder and the decoder do elsewhere *)

(** {a = {f = function, z = 1}, b = 2}: the function ends the walk of the inner table with
    its key and itself on the stack, and the outer walk goes on in the inner table: z
    becomes an entry of the outer object and b is lost. *)
Example encode_function_entry :
  let a := LStr (lit "a") in let b := LStr (lit "b") in let f := LStr (lit "f") in let z := LStr (lit "z") in
  encode_tree 40 40 [Tab [(a, Tab [(f, Val (LFun 0)); (z, Val (LNum (d_of_Z 1)))]); (b, Val (LNum (d_of_Z 2)))]]
    = Ret (Some (named_item cJSON_Object None 0 None
             [named_item cJSON_Object None 0 (Some (lit "a")) []; named_item cJSON_Number None 1 (Some (lit "z")) []]),
           [Tab [(f, Val (LFun 0)); (z, Val (LNum (d_of_Z 1)))]; Val a;
            Tab [(a, Tab [(f, Val (LFun 0)); (z, Val (LNum (d_of_Z 1)))]); (b, Val (LNum (d_of_Z 2)))]]).
Proof. by vm_compute. Qed.

(** A key that begins with a digit comes back as an int, a negative int as a string, and
    two keys with the same text as one. *)
Example keys_changed :
  ldecode (F := NoFmt) (JL := UnitPow) [Val (LStr [123; 34; 49; 97; 34; 58; 116; 114; 117; 101; 125])]
    = Ret [Tab [(LNum (d_of_Z 1), Val (LBool true))]] /\
  (text ← lencode (JL := UnitPow) [Tab [(LNum (d_of_Z (-1)), Val (LBool true))]]; ldecode (F := NoFmt) (JL := UnitPow) text)
    = Ret [Tab [(LStr (lit "-1"), Val (LBool true))]] /\
  (text ← lencode (JL := UnitPow) [Tab [(LNum (d_of_Z 1), Val (LBool true)); (LStr (lit "1"), Val (LBool false))]];
   ldecode (F := NoFmt) (JL := UnitPow) text) = Ret [Tab [(LNum (d_of_Z 1), Val (LBool false))]].
Proof. by vm_compute. Qed.

Fixpoint nested (n : nat) : tree := match n with O => Tab [] | S n => Tab [(LNum (d_of_Z 1), nested n)] end.

(** A table deeper than the stack of a C function, which the module does not enlarge. *)
Example encode_deep : lencode (JL := UnitPow) [nested 10] = Undef.
Proof. by vm_compute. Qed.
Example decode_deep : ldecode (F := NoFmt) (JL := UnitPow) [Val (LStr (replicate 11 91))] = Ret [] /\
  ldecode (F := NoFmt) (JL := UnitPow) [Val (LStr (replicate 11 91 ++ replicate 11 93))] = Undef.
Proof. by vm_compute. Qed.
