(* ===== verification/JsonHeap.v ===== *)
(** * JsonHeap: the items of cJSON as they lie in memory

    Source: src/src/json/cJSON.cc, cJSON.h, and json_encode_tree of json.cc.  An item is a
    structure with its links, its name and its string behind pointers; every function reads
    and writes these through the pointers, and frees what it deletes.  The theorems show that
    on well-formed items the functions do what those of Json.v do on values, and that
    deleting an item frees all it owns, once.

    NULL is 0.  The allocator is a parameter: malloc returns NULL or a block that is not in
    use.  Walks along the links are given the number of blocks as fuel: a well-formed chain
    cannot be longer. *)
From Stdlib Require Import SpecFloat.
From S2P Require Import Prelude Fmt Lua LuaStack Dbl Json JsonText Ljson.
Local Open Scope Z_scope.

(** ** The structure and the heap *)

Definition cJSON_IsReference : Z := 256.
Record node := Node { n_next : Z; n_prev : Z; n_child : Z; n_type : Z; n_valuestring : Z; n_valueint : Z;
                      n_valuedouble : lnumber; n_string : Z }.
Definition set_next (v : Z) (n : node) := Node v (n_prev n) (n_child n) (n_type n) (n_valuestring n) (n_valueint n) (n_valuedouble n) (n_string n).
Definition set_prev (v : Z) (n : node) := Node (n_next n) v (n_child n) (n_type n) (n_valuestring n) (n_valueint n) (n_valuedouble n) (n_string n).
Definition set_child (v : Z) (n : node) := Node (n_next n) (n_prev n) v (n_type n) (n_valuestring n) (n_valueint n) (n_valuedouble n) (n_string n).
Definition set_type (v : Z) (n : node) := Node (n_next n) (n_prev n) (n_child n) v (n_valuestring n) (n_valueint n) (n_valuedouble n) (n_string n).
Definition set_valuestring (v : Z) (n : node) := Node (n_next n) (n_prev n) (n_child n) (n_type n) v (n_valueint n) (n_valuedouble n) (n_string n).
Definition set_number (i : Z) (d : lnumber) (n : node) := Node (n_next n) (n_prev n) (n_child n) (n_type n) (n_valuestring n) i d (n_string n).
Definition set_string (v : Z) (n : node) := Node (n_next n) (n_prev n) (n_child n) (n_type n) (n_valuestring n) (n_valueint n) (n_valuedouble n) v.

(** What malloc has handed out: items, and strings with the characters before their end. *)
Inductive block := BItem (n : node) | BStr (s : bytes).
Abbreviation jheap := (gmap Z block).

Definition node_at (h : jheap) (p : Z) : res node := match h !! p with Some (BItem n) => Ret n | _ => Undef end.
Definition upd (p : Z) (f : node -> node) (h : jheap) : res jheap := n ← node_at h p; Ret (<[p := BItem (f n)]> h).
Definition chars_at (h : jheap) (p : Z) : res bytes := match h !! p with Some (BStr s) => Ret s | _ => Undef end.
Definition opt_chars (h : jheap) (p : Z) : res (option bytes) := if p =? 0 then Ret None else s ← chars_at h p; Ret (Some s).
Definition cJSON_free (p : Z) (h : jheap) : res jheap := match h !! p with Some _ => Ret (delete p h) | None => Undef end.

(** A [const char *] argument: the caller's text, or a pointer to a string of the heap. *)
Inductive text := Text (s : bytes) | At (p : Z).
Definition chars (h : jheap) (s : text) : res bytes := match s with Text s => Ret s | At p => chars_at h p end.
Definition opt_text (h : jheap) (s : text) : res (option bytes) := match s with Text s => Ret (Some s) | At p => opt_chars h p end.

Class JMalloc := { jmalloc : jheap -> Z -> option Z }.
Class JMallocOk (M : JMalloc) : Prop := { jmalloc_ok : forall h n p, jmalloc h n = Some p -> 0 < p /\ h !! p = None }.

Definition is_ref (n : node) : bool := negb (Z.land (n_type n) cJSON_IsReference =? 0).

Section Heap.
Context {M : JMalloc}.

Definition sizeof_cJSON : Z := 64.
Definition cJSON_New_Item (h : jheap) : Z * jheap :=
  match jmalloc h sizeof_cJSON with
  | Some node => (node, <[node := BItem (Node 0 0 0 0 0 0 (S754_zero false) 0)]> h)
  | None => (0, h)
  end.
Definition cJSON_strdup (str : text) (h : jheap) : res (Z * jheap) :=
  s ← chars h str;
  match jmalloc h (Z.of_nat (length s) + 1) with
  | Some copy => Ret (copy, <[copy := BStr s]> h)
  | None => Ret (0, h)
  end.

(** An item, its children and all the items after it. *)
Fixpoint cJSON_Delete (fuel : nat) (c : Z) (h : jheap) : res jheap :=
  match fuel with
  | O => NoFuel
  | S fuel =>
      if c =? 0 then Ret h
      else
        n ← node_at h c;
        let next := n_next n in
        h ← (if negb (is_ref n) && negb (n_child n =? 0) then cJSON_Delete fuel (n_child n) h else Ret h);
        n ← node_at h c;
        h ← (if negb (is_ref n) && negb (n_valuestring n =? 0) then cJSON_free (n_valuestring n) h else Ret h);
        n ← node_at h c;
        h ← (if negb (n_string n =? 0) then cJSON_free (n_string n) h else Ret h);
        h ← cJSON_free c h;
        cJSON_Delete fuel next h
  end.
Definition cJSON_Delete_all (c : Z) (h : jheap) : res jheap := cJSON_Delete (S (size h)) c h.

(** ** Walking along the children *)

Fixpoint count (fuel : nat) (c i : Z) (h : jheap) : res Z :=
  match fuel with
  | O => NoFuel
  | S fuel => if c =? 0 then Ret i else i ← sint (i + 1); n ← node_at h c; count fuel (n_next n) i h
  end.
Definition cJSON_GetArraySize (array : Z) (h : jheap) : res Z := a ← node_at h array; count (S (size h)) (n_child a) 0 h.
Fixpoint walk (fuel : nat) (c item : Z) (h : jheap) : res Z :=
  match fuel with
  | O => NoFuel
  | S fuel => if negb (c =? 0) && (0 <? item) then n ← node_at h c; walk fuel (n_next n) (item - 1) h else Ret c
  end.
Definition cJSON_GetArrayItem (array item : Z) (h : jheap) : res Z := a ← node_at h array; walk (S (size h)) (n_child a) item h.
(** The first child of that name, and how many come before it. *)
Fixpoint find_named (fuel : nat) (string : text) (i c : Z) (h : jheap) : res (Z * Z) :=
  match fuel with
  | O => NoFuel
  | S fuel =>
      if c =? 0 then Ret (i, c)
      else
        n ← node_at h c;
        s1 ← opt_chars h (n_string n);
        s2 ← opt_text h string;
        if cJSON_strcasecmp s1 s2 =? 0 then Ret (i, c)
        else i ← sint (i + 1); find_named fuel string i (n_next n) h
  end.
Definition cJSON_GetObjectItem (object : Z) (string : text) (h : jheap) : res Z :=
  o ← node_at h object; '(_, c) ← find_named (S (size h)) string 0 (n_child o) h; Ret c.
Fixpoint last_of (fuel : nat) (c : Z) (h : jheap) : res Z :=
  match fuel with
  | O => NoFuel
  | S fuel => n ← node_at h c; if n_next n =? 0 then Ret c else last_of fuel (n_next n) h
  end.

(** ** Adding *)

Definition suffix_object (prev item : Z) (h : jheap) : res jheap := h ← upd prev (set_next item) h; upd item (set_prev prev) h.
Definition create_reference (item : Z) (h : jheap) : res (Z * jheap) :=
  let '(ref, h) := cJSON_New_Item h in
  if ref =? 0 then Ret (0, h)
  else
    n ← node_at h item;
    let n := set_string 0 n in
    let n := set_type (Z.lor (n_type n) cJSON_IsReference) n in
    Ret (ref, <[ref := BItem (set_next 0 (set_prev 0 n))]> h).
Definition cJSON_AddItemToArray (array item : Z) (h : jheap) : res jheap :=
  a ← node_at h array;
  let c := n_child a in
  if item =? 0 then Ret h
  else if c =? 0 then upd array (set_child item) h
  else c ← last_of (S (size h)) c h; suffix_object c item h.
Definition cJSON_AddItemToObject (object : Z) (string : text) (item : Z) (h : jheap) : res jheap :=
  if item =? 0 then Ret h
  else
    n ← node_at h item;
    h ← (if negb (n_string n =? 0) then cJSON_free (n_string n) h else Ret h);
    '(copy, h) ← cJSON_strdup string h;
    h ← upd item (set_string copy) h;
    cJSON_AddItemToArray object item h.
Definition cJSON_AddItemReferenceToArray (array item : Z) (h : jheap) : res jheap :=
  '(ref, h) ← create_reference item h; cJSON_AddItemToArray array ref h.
Definition cJSON_AddItemReferenceToObject (object : Z) (string : text) (item : Z) (h : jheap) : res jheap :=
  '(ref, h) ← create_reference item h; cJSON_AddItemToObject object string ref h.

(** ** Taking out, and replacing *)

Definition cJSON_DetachItemFromArray (array which : Z) (h : jheap) : res (Z * jheap) :=
  a ← node_at h array;
  c ← walk (S (size h)) (n_child a) which h;
  if c =? 0 then Ret (0, h)
  else
    n ← node_at h c;
    h ← (if negb (n_prev n =? 0) then upd (n_prev n) (set_next (n_next n)) h else Ret h);
    n ← node_at h c;
    h ← (if negb (n_next n =? 0) then upd (n_next n) (set_prev (n_prev n)) h else Ret h);
    a ← node_at h array;
    n ← node_at h c;
    h ← (if c =? n_child a then upd array (set_child (n_next n)) h else Ret h);
    h ← upd c (fun n => set_prev 0 (set_next 0 n)) h;
    Ret (c, h).
Definition cJSON_DeleteItemFromArray (array which : Z) (h : jheap) : res jheap :=
  '(c, h) ← cJSON_DetachItemFromArray array which h; cJSON_Delete_all c h.
Definition cJSON_DetachItemFromObject (object : Z) (string : text) (h : jheap) : res (Z * jheap) :=
  o ← node_at h object;
  '(i, c) ← find_named (S (size h)) string 0 (n_child o) h;
  if c =? 0 then Ret (0, h) else cJSON_DetachItemFromArray object i h.
Definition cJSON_DeleteItemFromObject (object : Z) (string : text) (h : jheap) : res jheap :=
  '(c, h) ← cJSON_DetachItemFromObject object string h; cJSON_Delete_all c h.

Definition cJSON_ReplaceItemInArray (array which newitem : Z) (h : jheap) : res jheap :=
  a ← node_at h array;
  c ← walk (S (size h)) (n_child a) which h;
  if c =? 0 then Ret h
  else
    n ← node_at h c;
    h ← upd newitem (set_next (n_next n)) h;
    n ← node_at h c;
    h ← upd newitem (set_prev (n_prev n)) h;
    m ← node_at h newitem;
    h ← (if negb (n_next m =? 0) then upd (n_next m) (set_prev newitem) h else Ret h);
    a ← node_at h array;
    h ← (if c =? n_child a then upd array (set_child newitem) h
         else m ← node_at h newitem; upd (n_prev m) (set_next newitem) h);
    h ← upd c (fun n => set_next 0 (set_prev 0 n)) h;
    cJSON_Delete_all c h.
Definition cJSON_ReplaceItemInObject (object : Z) (string : text) (newitem : Z) (h : jheap) : res jheap :=
  o ← node_at h object;
  '(i, c) ← find_named (S (size h)) string 0 (n_child o) h;
  if c =? 0 then Ret h
  else
    '(copy, h) ← cJSON_strdup string h;
    h ← upd newitem (set_string copy) h;
    cJSON_ReplaceItemInArray object i newitem h.

(** ** Making items *)

Definition create (f : node -> node) (h : jheap) : res (Z * jheap) :=
  let '(item, h) := cJSON_New_Item h in
  if item =? 0 then Ret (0, h) else h ← upd item f h; Ret (item, h).
Definition cJSON_CreateNull := create (set_type cJSON_NULL).
Definition cJSON_CreateTrue := create (set_type cJSON_True).
Definition cJSON_CreateFalse := create (set_type cJSON_False).
Definition cJSON_CreateBool (b : bool) := create (set_type (if b then cJSON_True else cJSON_False)).
Definition cJSON_CreateNumber (num : lnumber) := create (fun n => set_number (d2i32 num) num (set_type cJSON_Number n)).
Definition cJSON_CreateString (string : text) (h : jheap) : res (Z * jheap) :=
  let '(item, h) := cJSON_New_Item h in
  if item =? 0 then Ret (0, h)
  else
    h ← upd item (set_type cJSON_String) h;
    '(copy, h) ← cJSON_strdup string h;
    h ← upd item (set_valuestring copy) h;
    Ret (item, h).
Definition cJSON_CreateArray := create (set_type cJSON_Array).
Definition cJSON_CreateObject := create (set_type cJSON_Object).

(** The elements [l] of the C array from the i-th on; the last child made is [p]. *)
Fixpoint create_loop {A} (make : A -> jheap -> res (Z * jheap)) (l : list A) (i : Z) (p a : Z) (h : jheap) : res jheap :=
  match l with
  | [] => Ret h
  | x :: l =>
      '(n, h) ← make x h;
      h ← (if i =? 0 then upd a (set_child n) h else suffix_object p n h);
      create_loop make l (i + 1) n a h
  end.
Definition create_items {A} (make : A -> jheap -> res (Z * jheap)) (l : list A) (count : Z) (h : jheap) : res (Z * jheap) :=
  '(a, h) ← cJSON_CreateArray h;
  if a =? 0 then Ret (0, h)
  else if count <=? Z.of_nat (length l) then h ← create_loop make (take (Z.to_nat count) l) 0 0 a h; Ret (a, h)
  else Undef.
Definition cJSON_CreateIntArray := create_items (fun n => cJSON_CreateNumber (d_of_Z n)).
Definition cJSON_CreateFloatArray := create_items cJSON_CreateNumber.
Definition cJSON_CreateDoubleArray := create_items cJSON_CreateNumber.
Definition cJSON_CreateStringArray := create_items (fun s => cJSON_CreateString (Text s)).

(** ** json_encode_tree of json.cc over the heap: as in Ljson.v *)
Section Stack.
Variable limit : nat.
Local Abbreviation lua_push := (lua_push limit).
Local Abbreviation lua_next := (lua_next limit).
Fixpoint json_encode_tree (fuel : nat) (stk : list tree) (h : jheap) : res (Z * list tree * jheap) :=
  match fuel with
  | O => NoFuel
  | S fuel =>
      match stk with
      | Val LNil :: _ => '(json, h) ← cJSON_CreateNull h; Ret (json, stk, h)
      | Val (LBool b) :: _ => '(json, h) ← cJSON_CreateBool b h; Ret (json, stk, h)
      | Val (LNum num) :: _ => '(json, h) ← cJSON_CreateNumber num h; Ret (json, stk, h)
      | Val (LStr string) :: _ => '(json, h) ← cJSON_CreateString (Text (cstr string)) h; Ret (json, stk, h)
      | Tab _ :: _ =>
          '(json, h) ← cJSON_CreateObject h;
          if json =? 0 then Ret (0, stk, h)
          else
            stk ← lua_push (Val LNil) stk;
            '(stk, h) ← json_encode_entries fuel json stk h;
            Ret (json, stk, h)
      | _ => Ret (0, stk, h)
      end
  end
with json_encode_entries (fuel : nat) (json : Z) (stk : list tree) (h : jheap) : res (list tree * jheap) :=
  match fuel with
  | O => NoFuel
  | S fuel =>
      '(more, stk) ← lua_next stk;
      if more : bool then
        match stk with
        | _ :: Val (LStr k) :: _ =>
            '(c, stk, h) ← json_encode_tree fuel stk h;
            if c =? 0 then Ret (stk, h)
            else h ← cJSON_AddItemToObject json (Text (cstr k)) c h; json_encode_entries fuel json (tail stk) h
        | _ :: Val (LNum d) :: _ =>
            '(c, stk, h) ← json_encode_tree fuel stk h;
            if c =? 0 then Ret (stk, h)
            else h ← cJSON_AddItemToObject json (Text (fmt_d (d2i32 d))) c h; json_encode_entries fuel json (tail stk) h
        | _ => json_encode_entries fuel json (tail stk) h
        end
      else Ret (stk, h)
  end.
End Stack.
End Heap.

(** ** Well-formed chains

    [seg h prev p l lst q fp]: from [p] on lie items that represent [l], linked both ways; the
    first one's prev is [prev], the last one is [lst] ([prev] if there are none) and its next
    is [q].  [fp] lists the blocks the items own, their children and strings included.
    [content h n c fp]: what the node [n] represents, its links apart.  A reference owns its
    name only: its string and its children belong to another item. *)
Definition opt_at (h : jheap) (p : Z) (s : option bytes) (fp : list Z) : Prop :=
  match s with None => p = 0 /\ fp = [] | Some s => p <> 0 /\ h !! p = Some (BStr s) /\ fp = [p] end.

Inductive seg (h : jheap) : Z -> Z -> list cJSON -> Z -> Z -> list Z -> Prop :=
| seg_nil prev p : seg h prev p [] prev p []
| seg_cons prev p n c l lst q fi fn : p <> 0 -> h !! p = Some (BItem n) -> n_prev n = prev -> content h n c fi ->
    seg h p (n_next n) l lst q fn -> seg h prev p (c :: l) lst q (p :: fi ++ fn)
with content (h : jheap) : node -> cJSON -> list Z -> Prop :=
| content_own n v s l lst fv fs fc : is_ref n = false -> opt_at h (n_valuestring n) v fv -> opt_at h (n_string n) s fs ->
    seg h 0 (n_child n) l lst 0 fc ->
    content h n (Item (n_type n) v (n_valueint n) (n_valuedouble n) s l) (fv ++ fs ++ fc)
| content_ref n s fs : is_ref n = true -> opt_at h (n_string n) s fs ->
    content h n (Item (n_type n) None (n_valueint n) (n_valuedouble n) s []) fs.
Scheme seg_mut := Induction for seg Sort Prop with content_mut := Induction for content Sort Prop.
Combined Scheme seg_content_ind from seg_mut, content_mut.

(** The item [p] with its links, and the whole of what it owns. *)
Definition item_at (h : jheap) (prev next p : Z) (c : cJSON) (fp : list Z) : Prop :=
  seg h prev p [c] p next fp /\ NoDup fp.

Definition agree (fp : list Z) (h h' : jheap) : Prop := forall x, x ∈ fp -> h' !! x = h !! x.
Lemma agree_app a b h h' : agree (a ++ b) h h' <-> agree a h h' /\ agree b h h'.
Proof. unfold agree. set_solver. Qed.
Lemma agree_cons a b h h' : agree (a :: b) h h' <-> h' !! a = h !! a /\ agree b h h'.
Proof. unfold agree. set_solver. Qed.
Lemma opt_at_frame h h' p s fp : opt_at h p s fp -> agree fp h h' -> opt_at h' p s fp.
Proof. destruct s; cbn; [|done]. intros (H1 & H2 & ->) Ha. split_and!; try done. by rewrite Ha by set_solver. Qed.
Lemma seg_frame_both h :
  (forall prev p l lst q fp, seg h prev p l lst q fp -> forall h', agree fp h h' -> seg h' prev p l lst q fp) /\
  (forall n c fp, content h n c fp -> forall h', agree fp h h' -> content h' n c fp).
Proof.
  apply seg_content_ind.
  - intros. constructor.
  - intros prev p n c l lst q fi fn Hp Hn Hprev _ IHc _ IHn h' (H1 & [H2 H3]%agree_app)%agree_cons.
    econstructor; eauto. by rewrite H1.
  - intros n v s l lst fv fs fc Hr Hv Hs _ IH h' (H1 & [H2 H3]%agree_app)%agree_app. econstructor; eauto using opt_at_frame.
  - intros n s fs Hr Hs h' Ha. econstructor; eauto using opt_at_frame.
Qed.
Lemma seg_frame h h' prev p l lst q fp : seg h prev p l lst q fp -> agree fp h h' -> seg h' prev p l lst q fp.
Proof. intros H Ha. by apply (proj1 (seg_frame_both h)). Qed.
Lemma content_frame h h' n c fp : content h n c fp -> agree fp h h' -> content h' n c fp.
Proof. intros H Ha. by apply (proj2 (seg_frame_both h)). Qed.

(** The blocks of a chain are in use, and none of them is NULL. *)
Lemma seg_live_both h :
  (forall prev p l lst q fp, seg h prev p l lst q fp -> Forall (fun x => x <> 0 /\ is_Some (h !! x)) fp) /\
  (forall n c fp, content h n c fp -> Forall (fun x => x <> 0 /\ is_Some (h !! x)) fp).
Proof.
  assert (Ho : forall p s fp, opt_at h p s fp -> Forall (fun x => x <> 0 /\ is_Some (h !! x)) fp).
  { intros p [s|] fp; cbn; [|by intros [_ ->]]. intros (H1 & H2 & ->). by repeat constructor. }
  apply seg_content_ind; intros; rewrite ?Forall_cons, ?Forall_app; eauto 10.
Qed.
Lemma seg_live h prev p l lst q fp x : seg h prev p l lst q fp -> x ∈ fp -> x <> 0 /\ is_Some (h !! x).
Proof. intros H. pose proof (proj1 (seg_live_both h) _ _ _ _ _ _ H) as H1. rewrite Forall_forall in H1. auto. Qed.

(** ** Deleting *)

Definition deletes (fp : list Z) (h : jheap) : jheap := foldr delete h fp.
Lemma lookup_deletes fp h x : x ∉ fp -> deletes fp h !! x = h !! x.
Proof.
  induction fp as [|a fp IH]; intros Hx; [done|]. cbn. rewrite lookup_delete_ne by set_solver. apply IH. set_solver.
Qed.
Lemma lookup_deletes_in fp h x : x ∈ fp -> deletes fp h !! x = None.
Proof.
  induction fp as [|a fp IH]; intros Hx; [set_solver|]. cbn. destruct (decide (x = a)) as [->|]; [apply lookup_delete_eq|].
  rewrite lookup_delete_ne by done. apply IH. set_solver.
Qed.
Lemma deletes_same (fp fp' : list Z) h : (forall x, x ∈ fp <-> x ∈ fp') -> deletes fp h = deletes fp' h.
Proof.
  intros H. apply map_eq. intros x. destruct (decide (x ∈ fp)) as [Hx|Hx].
  - rewrite !lookup_deletes_in; [done|by apply H|done].
  - rewrite !lookup_deletes; [done| |done]. by rewrite <- H.
Qed.
Lemma deletes_app a b h : deletes a (deletes b h) = deletes (a ++ b) h.
Proof. unfold deletes. by rewrite foldr_app. Qed.
Lemma agree_deletes fp fp' h h' : agree fp h h' -> (forall x, x ∈ fp -> x ∉ fp') -> agree fp h (deletes fp' h').
Proof. intros H Hd x Hx. rewrite lookup_deletes by auto. auto. Qed.
Lemma deletes_size fp (h : jheap) : NoDup fp -> (forall x, x ∈ fp -> is_Some (h !! x)) -> (length fp <= size h)%nat.
Proof.
  intros Hn Hl. rewrite <- (size_list_to_set (C := gset Z) fp) by done. rewrite <- size_dom.
  apply subseteq_size. intros x Hx. apply elem_of_dom, Hl. set_solver.
Qed.
Lemma seg_size h prev p l lst q fp : seg h prev p l lst q fp -> NoDup fp -> (length fp <= size h)%nat.
Proof. intros H Hn. apply deletes_size; [done|]. intros x Hx. by eapply seg_live. Qed.

Lemma node_at_ok h p n : h !! p = Some (BItem n) -> node_at h p = Ret n.
Proof. unfold node_at. by intros ->. Qed.
Lemma free_opt h h' p s fp : opt_at h p s fp -> agree fp h h' ->
  (if negb (p =? 0) then cJSON_free p h' else Ret h') = Ret (deletes fp h').
Proof.
  destruct s as [s|]; cbn; intros H Ha.
  - destruct H as (H1 & H2 & ->). destruct (Z.eqb_spec p 0) as [->|]; [done|]. unfold cJSON_free. by rewrite Ha, H2 by set_solver.
  - by destruct H as [-> ->].
Qed.

Lemma delete_exact_both h :
  (forall prev p l lst q fp, seg h prev p l lst q fp -> q = 0 -> forall fuel h', NoDup fp -> agree fp h h' -> (length fp < fuel)%nat ->
     cJSON_Delete fuel p h' = Ret (deletes fp h')) /\
  (forall n c fp, content h n c fp -> forall fuel h' p (K : jheap -> res jheap), NoDup fp -> p ∉ fp -> agree fp h h' ->
     h' !! p = Some (BItem n) -> (length fp < fuel)%nat ->
     (h ← (if negb (is_ref n) && negb (n_child n =? 0) then cJSON_Delete fuel (n_child n) h' else Ret h');
      n ← node_at h p;
      h ← (if negb (is_ref n) && negb (n_valuestring n =? 0) then cJSON_free (n_valuestring n) h else Ret h);
      n ← node_at h p;
      h ← (if negb (n_string n =? 0) then cJSON_free (n_string n) h else Ret h); K h) = K (deletes fp h')).
Proof.
  apply seg_content_ind.
  - intros prev p -> [|fuel] h' _ _ Hf; [lia|]. done.
  - intros prev p n c l lst q fi fn Hp Hn Hprev _ IHc _ IHn Hq [|fuel] h' Hd (H1 & [H2 H3]%agree_app)%agree_cons Hf; [lia|].
    rewrite NoDup_cons, NoDup_app in Hd. destruct Hd as (Hpn & Hdi & Hdd & Hdn). cbn in Hf. rewrite length_app in Hf.
    cbn [cJSON_Delete]. rewrite (proj2 (Z.eqb_neq p 0)) by done. rewrite (node_at_ok h' p n) by congruence. ret_step.
    rewrite (IHc fuel h' p) by (done || congruence || lia || set_solver).
    unfold cJSON_free. rewrite lookup_deletes by set_solver. rewrite H1, Hn. ret_step.
    rewrite (IHn Hq fuel) by (done || lia || (intros x Hx; rewrite lookup_delete_ne, lookup_deletes by set_solver; by apply H3)).
    f_equal. change (delete p ?m) with (deletes [p] m). rewrite !deletes_app. apply deletes_same. set_solver.
  - intros n v s l lst fv fs fc Hr Hv Hs _ IH fuel h' p K Hd Hp (H1 & [H2 H3]%agree_app)%agree_app Hn Hf.
    rewrite !length_app in Hf. rewrite !NoDup_app in Hd. destruct Hd as (_ & Hd1 & _ & Hd2 & Hd3). rewrite Hr. cbn [negb andb].
    assert (E : (if negb (n_child n =? 0) then cJSON_Delete fuel (n_child n) h' else Ret h') = Ret (deletes fc h')).
    { rewrite <- (IH eq_refl fuel h') by (done || lia). destruct (Z.eqb_spec (n_child n) 0) as [->|]; [|done].
      destruct fuel; [lia|done]. }
    rewrite E. ret_step. rewrite (node_at_ok _ p n) by (rewrite lookup_deletes by set_solver; done). ret_step. rewrite Hr. cbn [negb andb].
    rewrite (free_opt h _ _ v fv Hv) by (apply agree_deletes; [done|set_solver]). ret_step. rewrite deletes_app.
    rewrite (node_at_ok _ p n) by (rewrite lookup_deletes by set_solver; done). ret_step.
    rewrite (free_opt h _ _ s fs Hs) by (apply agree_deletes; [done|set_solver]). ret_step. rewrite deletes_app.
    f_equal. apply deletes_same. set_solver.
  - intros n s fs Hr Hs fuel h' p K Hd Hp Ha Hn Hf. rewrite Hr. cbn [negb andb].
    ret_step. rewrite (node_at_ok _ p n) by done. ret_step. rewrite Hr. cbn [negb andb]. ret_step.
    rewrite (node_at_ok _ p n) by done. ret_step. rewrite (free_opt h _ _ s fs Hs) by done. by ret_step.
Qed.
Lemma delete_seg h prev p l lst fp : seg h prev p l lst 0 fp -> NoDup fp -> cJSON_Delete_all p h = Ret (deletes fp h).
Proof.
  intros H Hn. unfold cJSON_Delete_all. apply (proj1 (delete_exact_both h) _ _ _ _ _ _ H); [done|done|done|].
  pose proof (seg_size _ _ _ _ _ _ _ H Hn). lia.
Qed.

(** ** Cutting and joining chains *)

Lemma agree_trans fp h h1 h2 : agree fp h h1 -> agree fp h1 h2 -> agree fp h h2.
Proof. intros H1 H2 x Hx. by rewrite H2, H1. Qed.
Lemma agree_insert fp h a b : a ∉ fp -> agree fp h (<[a := b]> h).
Proof. intros Ha x Hx. rewrite lookup_insert_ne; [done|]. by intros ->. Qed.
(** [h'] differs from [h] in blocks of [fp] only. *)
Definition outside (fp : list Z) (h h' : jheap) : Prop := forall x, x ∉ fp -> h' !! x = h !! x.
Lemma outside_refl fp h : outside fp h h.
Proof. done. Qed.
Lemma outside_trans fp h h1 h2 : outside fp h h1 -> outside fp h1 h2 -> outside fp h h2.
Proof. intros H1 H2 x Hx. by rewrite H2, H1. Qed.
Lemma outside_mono fp fp' h h' : outside fp h h' -> (forall x, x ∈ fp -> x ∈ fp') -> outside fp' h h'.
Proof. intros H Hs x Hx. apply H. auto. Qed.
Lemma outside_insert fp h a b : a ∈ fp -> outside fp h (<[a := b]> h).
Proof. intros Ha x Hx. rewrite lookup_insert_ne; [done|]. intros ->. done. Qed.
Lemma outside_agree fp fp' h h' : outside fp h h' -> (forall x, x ∈ fp' -> x ∉ fp) -> agree fp' h h'.
Proof. intros H Hd x Hx. auto. Qed.

Lemma content_prev h n c fp v : content h n c fp -> content h (set_prev v n) c fp.
Proof.
  intros [n0 w s l lst fv fs fc Hr Hv Hs Hc|n0 s fs Hr Hs].
  - exact (content_own h (set_prev v n0) w s l lst fv fs fc Hr Hv Hs Hc).
  - exact (content_ref h (set_prev v n0) s fs Hr Hs).
Qed.
Lemma content_next h n c fp v : content h n c fp -> content h (set_next v n) c fp.
Proof.
  intros [n0 w s l lst fv fs fc Hr Hv Hs Hc|n0 s fs Hr Hs].
  - exact (content_own h (set_next v n0) w s l lst fv fs fc Hr Hv Hs Hc).
  - exact (content_ref h (set_next v n0) s fs Hr Hs).
Qed.
Lemma seg_cons_inv h prev p c l lst q fp : seg h prev p (c :: l) lst q fp -> exists n fi fn, fp = p :: fi ++ fn /\ p <> 0 /\
  h !! p = Some (BItem n) /\ n_prev n = prev /\ content h n c fi /\ seg h p (n_next n) l lst q fn.
Proof. inversion 1; subst. eauto 10. Qed.
Lemma seg_nil_inv h prev p lst q fp : seg h prev p [] lst q fp -> lst = prev /\ q = p /\ fp = [].
Proof. by inversion 1. Qed.
Lemma seg_app h prev p l1 m r f1 l2 lst q f2 : seg h prev p l1 m r f1 -> seg h m r l2 lst q f2 -> seg h prev p (l1 ++ l2) lst q (f1 ++ f2).
Proof.
  revert prev p f1. induction l1 as [|c l1 IH]; intros prev p f1 H1 H2.
  - by apply seg_nil_inv in H1 as (-> & -> & ->).
  - apply seg_cons_inv in H1 as (n & fi & fn & -> & Hp & Hn & Hv & Hc & H1). cbn. rewrite <- app_assoc. econstructor; eauto.
Qed.
Lemma seg_split h prev p l1 l2 lst q fp : seg h prev p (l1 ++ l2) lst q fp ->
  exists m r f1 f2, fp = f1 ++ f2 /\ seg h prev p l1 m r f1 /\ seg h m r l2 lst q f2.
Proof.
  revert prev p fp. induction l1 as [|c l1 IH]; intros prev p fp H.
  - exists prev, p, [], fp. split_and!; [done|constructor|done].
  - apply seg_cons_inv in H as (n & fi & fn & -> & Hp & Hn & Hv & Hc & (m & r & f1 & f2 & -> & H1 & H2)%IH).
    exists m, r, (p :: fi ++ f1), f2. split_and!; [cbn; by rewrite <- app_assoc|by econstructor|done].
Qed.
Lemma seg_ends h prev p l lst q fp : seg h prev p l lst q fp -> l <> [] -> p ∈ fp /\ lst ∈ fp /\ p <> 0 /\ lst <> 0.
Proof.
  revert prev p fp. induction l as [|c l IH]; intros prev p fp H Hl; [done|].
  apply seg_cons_inv in H as (n & fi & fn & -> & Hp & Hn & Hv & Hc & H). destruct l as [|c1 l].
  - apply seg_nil_inv in H as (-> & -> & ->). set_solver.
  - destruct (IH _ _ _ H ltac:(done)) as (_ & H2 & _ & H4). set_solver.
Qed.
Lemma seg_length h prev p l lst q fp : seg h prev p l lst q fp -> (length l <= length fp)%nat.
Proof.
  revert prev p fp. induction l as [|c l IH]; intros prev p fp H; cbn; [lia|].
  apply seg_cons_inv in H as (n & fi & fn & -> & _ & _ & _ & _ & H%IH). cbn. rewrite length_app. lia.
Qed.

(** Storing into the prev of the first item, and into the next of the last one. *)
Lemma seg_set_prev h prev p c l lst q fp v : seg h prev p (c :: l) lst q fp -> NoDup fp ->
  exists h', upd p (set_prev v) h = Ret h' /\ seg h' v p (c :: l) lst q fp /\ outside fp h h'.
Proof.
  intros (n & fi & fn & -> & Hp & Hn & Hv & Hc & H)%seg_cons_inv (Hpn & _)%NoDup_cons.
  exists (<[p := BItem (set_prev v n)]> h). unfold upd. rewrite (node_at_ok h p n Hn). split_and!; [done| |apply outside_insert; set_solver].
  apply (seg_cons _ _ _ (set_prev v n)); [done|apply lookup_insert_eq|done| |].
  - eapply content_frame; [by apply content_prev|apply agree_insert; set_solver].
  - eapply seg_frame; [done|apply agree_insert; set_solver].
Qed.
Lemma seg_set_next h prev p l lst q fp v : seg h prev p l lst q fp -> NoDup fp -> l <> [] ->
  exists h', upd lst (set_next v) h = Ret h' /\ seg h' prev p l lst v fp /\ outside fp h h'.
Proof.
  revert prev p fp. induction l as [|c l IH]; intros prev p fp H Hnd Hl; [done|].
  apply seg_cons_inv in H as (n & fi & fn & -> & Hp & Hn & Hv & Hc & H).
  pose proof Hnd as (Hpn & Hnd1)%NoDup_cons. apply NoDup_app in Hnd1 as (_ & Hd & Hndn). destruct l as [|c1 l].
  - apply seg_nil_inv in H as (-> & -> & ->). exists (<[p := BItem (set_next v n)]> h).
    unfold upd. rewrite (node_at_ok h p n Hn). split_and!; [done| |apply outside_insert; set_solver].
    apply (seg_cons _ _ _ (set_next v n)); [done|apply lookup_insert_eq|done| |apply seg_nil].
    eapply content_frame; [by apply content_next|apply agree_insert; set_solver].
  - destruct (seg_ends _ _ _ _ _ _ _ H ltac:(done)) as (_ & He & _). destruct (IH _ _ _ H Hndn ltac:(done)) as (h' & E & H' & Ho).
    exists h'. split_and!; [done| |eapply outside_mono; [exact Ho|set_solver]]. apply (seg_cons _ _ _ n); [done| |done| |done].
    + by rewrite Ho by set_solver.
    + eapply content_frame; [done|]. eapply outside_agree; [done|set_solver].
Qed.

(** ** Walking *)

Lemma last_of_seg h prev p l lst fp fuel : seg h prev p l lst 0 fp -> l <> [] -> (length l <= fuel)%nat -> last_of fuel p h = Ret lst.
Proof.
  revert prev p fp fuel. induction l as [|c l IH]; intros prev p fp [|fuel] H Hl Hf; cbn in Hf; [done|done|lia|].
  apply seg_cons_inv in H as (n & fi & fn & -> & Hp & Hn & Hv & Hc & H). cbn [last_of]. rewrite (node_at_ok h p n Hn). ret_step.
  destruct l as [|c1 l].
  - apply seg_nil_inv in H as (-> & <- & ->). done.
  - destruct (seg_ends _ _ _ _ _ _ _ H ltac:(done)) as (_ & _ & He & _). rewrite (proj2 (Z.eqb_neq _ 0) He).
    eapply IH; [done|done|lia].
Qed.
Lemma walk_seg h prev p l m r fp fuel which : seg h prev p l m r fp -> Z.to_nat which = length l -> (length l < fuel)%nat ->
  walk fuel p which h = Ret r.
Proof.
  revert prev p fp fuel which. induction l as [|c l IH]; intros prev p fp [|fuel] which H Hw Hf; cbn in Hf, Hw; [lia| |lia|].
  - apply seg_nil_inv in H as (-> & -> & ->). cbn. rewrite (proj2 (Z.ltb_ge 0 which)) by lia. by rewrite andb_false_r.
  - apply seg_cons_inv in H as (n & fi & fn & -> & Hp & Hn & Hv & Hc & H). cbn [walk].
    rewrite (proj2 (Z.eqb_neq p 0) Hp), (proj2 (Z.ltb_lt 0 which)) by lia. cbn [negb andb]. rewrite (node_at_ok h p n Hn). ret_step.
    eapply IH; [done|lia|lia].
Qed.
Lemma walk_past h prev p l m fp fuel which : seg h prev p l m 0 fp -> (length l <= Z.to_nat which)%nat -> (length l < fuel)%nat ->
  walk fuel p which h = Ret 0.
Proof.
  revert prev p fp fuel which. induction l as [|c l IH]; intros prev p fp [|fuel] which H Hw Hf; cbn in Hf, Hw; [lia| |lia|].
  - by apply seg_nil_inv in H as (-> & <- & ->).
  - apply seg_cons_inv in H as (n & fi & fn & -> & Hp & Hn & Hv & Hc & H). cbn [walk].
    rewrite (proj2 (Z.eqb_neq p 0) Hp), (proj2 (Z.ltb_lt 0 which)) by lia. cbn [negb andb]. rewrite (node_at_ok h p n Hn). ret_step.
    eapply IH; [done|lia|lia].
Qed.
Lemma count_seg h prev p l m fp fuel i : seg h prev p l m 0 fp -> (length l < fuel)%nat -> 0 <= i -> i + Z.of_nat (length l) <= INT_MAX ->
  count fuel p i h = Ret (i + Z.of_nat (length l)).
Proof.
  revert prev p fp fuel i. induction l as [|c l IH]; intros prev p fp [|fuel] i H Hf Hi Hm; cbn in Hf; [lia| |lia|].
  - apply seg_nil_inv in H as (-> & <- & ->). cbn. f_equal. lia.
  - apply seg_cons_inv in H as (n & fi & fn & -> & Hp & Hn & Hv & Hc & H). cbn [count length] in *.
    rewrite (proj2 (Z.eqb_neq p 0) Hp). sint_step. rewrite (node_at_ok h p n Hn). ret_step.
    rewrite (IH p (n_next n) fn fuel (i + 1) H) by lia. f_equal. lia.
Qed.

Lemma opt_chars_at h p s fp : opt_at h p s fp -> opt_chars h p = Ret s.
Proof.
  unfold opt_chars, chars_at. destruct s as [s|]; cbn; [|by intros [-> _]]. intros (H1 & H2 & _). by rewrite (proj2 (Z.eqb_neq p 0) H1), H2.
Qed.
Lemma content_name h n c fp : content h n c fp -> opt_chars h (n_string n) = Ret (it_string c).
Proof. intros [n0 v s l lst fv fs fc Hr Hv Hs Hc|n0 s fs Hr Hs]; by eapply opt_chars_at. Qed.

(** The walk by name ends at the place that [index_named] gives. *)
Lemma find_named_seg h prev p l m fp fuel string str i : opt_text h string = Ret (Some str) -> seg h prev p l m 0 fp ->
  (length l < fuel)%nat -> 0 <= i -> i + Z.of_nat (length l) <= INT_MAX ->
  match index_named str i l with
  | Some j => i <= j < i + Z.of_nat (length l) /\ exists r, r <> 0 /\ find_named fuel string i p h = Ret (j, r)
  | None => exists k, find_named fuel string i p h = Ret (k, 0)
  end.
Proof.
  intros Ht. revert prev p fp fuel i. induction l as [|c l IH]; intros prev p fp [|fuel] i H Hf Hi Hm; cbn in Hf; [lia| |lia|].
  - apply seg_nil_inv in H as (-> & <- & ->). by exists i.
  - apply seg_cons_inv in H as (n & fi & fn & -> & Hp & Hn & Hv & Hc & H). cbn [find_named index_named length] in *.
    rewrite (proj2 (Z.eqb_neq p 0) Hp), (node_at_ok h p n Hn). ret_step. rewrite (content_name _ _ _ _ Hc). ret_step.
    rewrite Ht. ret_step. unfold named. destruct (cJSON_strcasecmp _ _ =? 0); [split; [lia|by exists p]|].
    sint_step. specialize (IH p (n_next n) fn fuel (i + 1) H ltac:(lia) ltac:(lia) ltac:(lia)).
    destruct (index_named str (i + 1) l) as [j|]; [|done]. destruct IH as [H1 H2]. split; [lia|done].
Qed.

(** ** Containers *)

Definition owner (c : cJSON) : Prop := Z.land (it_type c) cJSON_IsReference = 0.
(** What an item owns apart from its children. *)
Definition shell (h : jheap) (n : node) (c : cJSON) (fo : list Z) : Prop :=
  exists fv fs, fo = fv ++ fs /\ is_ref n = false /\ opt_at h (n_valuestring n) (it_valuestring c) fv /\ opt_at h (n_string n) (it_string c) fs /\
  c = Item (n_type n) (it_valuestring c) (n_valueint n) (n_valuedouble n) (it_string c) (it_child c).

Lemma item_open h pr nx a A fp : item_at h pr nx a A fp -> owner A -> exists n fo fc lst, fp = a :: fo ++ fc /\ a <> 0 /\
  h !! a = Some (BItem n) /\ n_prev n = pr /\ n_next n = nx /\ shell h n A fo /\ seg h 0 (n_child n) (it_child A) lst 0 fc /\ NoDup fp.
Proof.
  intros [(n & fi & fn & -> & Hp & Hn & Hv & Hc & H)%seg_cons_inv Hnd] Ho. apply seg_nil_inv in H as (_ & E & ->). rewrite app_nil_r in *.
  unfold owner in Ho. destruct Hc as [n v s l lst fv fs fc Hr Hs1 Hs2 Hc|n s fs Hr Hs].
  - exists n, (fv ++ fs), fc, lst. rewrite <- app_assoc. split_and!; try done. by exists fv, fs.
  - cbn in Ho. unfold is_ref in Hr. by rewrite Ho in Hr.
Qed.
Lemma item_close h h' a n A fo v l lst fc : shell h n A fo -> agree fo h h' -> h' !! a = Some (BItem (set_child v n)) -> a <> 0 ->
  seg h' 0 v l lst 0 fc -> NoDup (a :: fo ++ fc) -> item_at h' (n_prev n) (n_next n) a (with_child A l) (a :: fo ++ fc).
Proof.
  intros (fv & fs & -> & Hr & Hv & Hs & E) [H1 H2]%agree_app Ha Hz Hc Hnd. split; [|done]. rewrite <- (app_nil_r ((fv ++ fs) ++ fc)).
  eapply seg_cons; [done|done|done| |apply seg_nil]. rewrite E, <- app_assoc. cbn [with_child].
  apply (content_own h' (set_child v n) _ _ l lst fv fs fc Hr); [by eapply opt_at_frame|by eapply opt_at_frame|done].
Qed.
Lemma item_frame h h' pr nx a A fp : item_at h pr nx a A fp -> agree fp h h' -> item_at h' pr nx a A fp.
Proof. intros [H Hn] Ha. split; [by eapply seg_frame|done]. Qed.
Lemma with_child_same A : with_child A (it_child A) = A.
Proof. by destruct A. Qed.
Lemma set_child_same n : set_child (n_child n) n = n.
Proof. by destruct n. Qed.

(** Facts on footprints: what is apart in a part of a list without duplicates. *)
Lemma apart_part {A} (L Y : list A) : NoDup L -> Y ⊆+ L -> NoDup Y.
Proof. intros H (Z & E)%submseteq_Permutation. rewrite E in H. by apply NoDup_app in H as [? _]. Qed.
Lemma apart_in {A} (L : list A) x Y : NoDup L -> x :: Y ⊆+ L -> x ∉ Y.
Proof. intros H HS. apply (apart_part _ _ H) in HS. by apply NoDup_cons in HS as [? _]. Qed.
Lemma apart_lists {A} (L X Y : list A) : NoDup L -> X ++ Y ⊆+ L -> forall x, x ∈ X -> x ∉ Y.
Proof. intros H HS. apply (apart_part _ _ H) in HS. by apply NoDup_app in HS as (_ & ? & _). Qed.
Ltac nodup := try done; match goal with H : NoDup ?L |- _ =>
  solve [first [eapply (apart_part L); [exact H|] | eapply (apart_in L); [exact H|] | eapply (apart_lists L); [exact H|]]; solve_submseteq] end.

(** The first and the last link of a chain, as AddItemToArray, Detach and Replace set them. *)
Lemma relink_next h p l m r f v : seg h 0 p l m r f -> NoDup f ->
  exists h', (if negb (m =? 0) then upd m (set_next v) h else Ret h) = Ret h' /\
    seg h' 0 (match l with [] => v | _ => p end) l m v f /\ outside f h h'.
Proof.
  intros H Hn. destruct l as [|c l].
  - apply seg_nil_inv in H as (-> & -> & ->). exists h. split_and!; [done|constructor|done].
  - destruct (seg_ends _ _ _ _ _ _ _ H ltac:(done)) as (_ & He & _ & Hz). rewrite (proj2 (Z.eqb_neq m 0) Hz). cbn [negb].
    exact (seg_set_next _ _ _ _ _ _ _ v H Hn ltac:(done)).
Qed.
Lemma relink_prev h r v l lst f m : seg h r v l lst 0 f -> NoDup f ->
  exists h' lst', (if negb (v =? 0) then upd v (set_prev m) h else Ret h) = Ret h' /\ seg h' m v l lst' 0 f /\ outside f h h'.
Proof.
  intros H Hn. destruct l as [|c l].
  - apply seg_nil_inv in H as (-> & <- & ->). exists h, m. split_and!; [done|constructor|done].
  - destruct (seg_ends _ _ _ _ _ _ _ H ltac:(done)) as (He & _ & Hz & _). rewrite (proj2 (Z.eqb_neq v 0) Hz). cbn [negb].
    destruct (seg_set_prev _ _ _ _ _ _ _ _ m H Hn) as (h' & E & H' & Ho). by exists h', lst.
Qed.

Lemma add_item_ok h pr nx a A fa i c fi : item_at h pr nx a A fa -> owner A -> item_at h 0 0 i c fi -> (forall x, x ∈ fa -> x ∉ fi) ->
  exists h', cJSON_AddItemToArray a i h = Ret h' /\ item_at h' pr nx a (Json.cJSON_AddItemToArray A c) (fa ++ fi) /\ outside (fa ++ fi) h h'.
Proof.
  intros HA Ho [Hi Hni] Hd. destruct (item_open _ _ _ _ _ _ HA Ho) as (n & fo & fc & lst & -> & Hz & Hn & <- & <- & Hsh & Hc & Hnd).
  assert (E : Json.cJSON_AddItemToArray A c = with_child A (it_child A ++ [c])) by by destruct A. rewrite E.
  pose proof (seg_ends _ _ _ _ _ _ _ Hi ltac:(done)) as (Hii & _ & Hiz & _).
  assert (Ec : (a :: fo ++ fc) ++ fi = a :: fo ++ (fc ++ fi)) by (cbn; by rewrite app_assoc). rewrite Ec.
  assert (Hnd' : NoDup (a :: fo ++ fc ++ fi)) by (rewrite <- Ec; apply NoDup_app; by split_and!). clear Hd Hnd Hni Ec.
  unfold cJSON_AddItemToArray. rewrite (node_at_ok h a n Hn). ret_step. rewrite (proj2 (Z.eqb_neq i 0) Hiz).
  destruct (decide (it_child A = [])) as [E1|E1].
  - rewrite E1 in *. apply seg_nil_inv in Hc as (-> & <- & ->). cbn. unfold upd. rewrite (node_at_ok h a n Hn). ret_step.
    eexists. split; [done|]. split; [|apply outside_insert; set_solver].
    eapply item_close; [exact Hsh|apply agree_insert; nodup|apply lookup_insert_eq|done| |done].
    eapply seg_frame; [exact Hi|apply agree_insert; nodup].
  - destruct (seg_ends _ _ _ _ _ _ _ Hc E1) as (_ & Hl & Hcz & Hlz). rewrite (proj2 (Z.eqb_neq _ 0) Hcz).
    rewrite (last_of_seg _ _ _ _ _ _ (S (size h)) Hc E1).
    2:{ pose proof (seg_length _ _ _ _ _ _ _ Hc). pose proof (seg_size _ _ _ _ _ _ _ Hc ltac:(nodup)). lia. }
    ret_step. unfold suffix_object.
    destruct (seg_set_next _ _ _ _ _ _ _ i Hc ltac:(nodup) E1) as (h1 & E2 & H1 & Ho1). rewrite E2. ret_step.
    assert (Hi1 : seg h1 0 i [c] i 0 fi) by (eapply seg_frame; [exact Hi|eapply outside_agree; [exact Ho1|nodup]]).
    destruct (seg_set_prev _ _ _ _ _ _ _ _ lst Hi1 ltac:(nodup)) as (h2 & E3 & H2 & Ho2). rewrite E3. exists h2. split; [done|].
    assert (Hout : outside (fc ++ fi) h h2).
    { eapply outside_trans; (eapply outside_mono; [eassumption|set_solver]). }
    split; [|eapply outside_mono; [exact Hout|set_solver]].
    eapply item_close; [exact Hsh|eapply outside_agree; [exact Hout|nodup]| |done| |done].
    + rewrite Hout by nodup. rewrite Hn. by rewrite set_child_same.
    + eapply seg_app; [|exact H2]. eapply seg_frame; [exact H1|eapply outside_agree; [exact Ho2|nodup]].
Qed.

Lemma child_split h p l lst fc k c : seg h 0 p l lst 0 fc -> l !! k = Some c -> exists l1 l2 m r n fi f1 f2,
  l = l1 ++ c :: l2 /\ length l1 = k /\ fc = f1 ++ r :: fi ++ f2 /\ seg h 0 p l1 m r f1 /\ r <> 0 /\ h !! r = Some (BItem n) /\
  n_prev n = m /\ content h n c fi /\ seg h r (n_next n) l2 lst 0 f2.
Proof.
  intros H Hk. apply list_elem_of_split_length in Hk as (l1 & l2 & -> & ->). apply seg_split in H as (m & r & f1 & f2 & -> & H1 & H2).
  apply seg_cons_inv in H2 as (n & fi & fn & -> & Hp & Hn & Hv & Hc & H2). exists l1, l2, m, r, n, fi, f1, fn. by split_and!.
Qed.
(** The child is the first one exactly when the container points at it. *)
Lemma is_first h p l m r f : seg h 0 p l m r f -> r ∉ f -> (r =? p) = (match l with [] => true | _ => false end).
Proof.
  intros H Hr. destruct l as [|c l].
  - apply seg_nil_inv in H as (_ & -> & _). apply Z.eqb_refl.
  - destruct (seg_ends _ _ _ _ _ _ _ H ltac:(done)) as (Hp & _). apply Z.eqb_neq. by intros ->.
Qed.
Lemma relink_first h0 h p l m r f a n v : seg h0 0 p l m r f -> r ∉ f -> h !! a = Some (BItem n) -> n_child n = p ->
  exists h', (if r =? n_child n then upd a (set_child v) h else Ret h) = Ret h' /\
    h' !! a = Some (BItem (set_child (match l with [] => v | _ => p end) n)) /\ outside [a] h h'.
Proof.
  intros H Hr Hn <-. rewrite (is_first _ _ _ _ _ _ H Hr). destruct l as [|c l].
  - unfold upd. rewrite (node_at_ok _ _ _ Hn). eexists. split_and!; [done|apply lookup_insert_eq|apply outside_insert; set_solver].
  - exists h. split_and!; [done|by rewrite set_child_same|done].
Qed.
Lemma walk_child h p l1 m r f1 k fc : seg h 0 p l1 m r f1 -> Z.to_nat k = length l1 -> NoDup (f1 ++ fc) -> walk (S (size h)) p k h = Ret r.
Proof.
  intros H Hk (Hn & _)%NoDup_app. apply (walk_seg _ _ _ _ _ _ _ _ _ H Hk).
  pose proof (seg_length _ _ _ _ _ _ _ H). pose proof (seg_size _ _ _ _ _ _ _ H Hn). lia.
Qed.
Lemma walk_none h p l lst fc k : seg h 0 p l lst 0 fc -> NoDup fc -> l !! Z.to_nat k = None -> walk (S (size h)) p k h = Ret 0.
Proof.
  intros H Hn Hk%lookup_ge_None. apply (walk_past _ _ _ _ _ _ _ _ H Hk).
  pose proof (seg_length _ _ _ _ _ _ _ H). pose proof (seg_size _ _ _ _ _ _ _ H Hn). lia.
Qed.

(** Detach, by its links: the neighbours are joined and the child's own links are cleared. *)
Lemma detach_links h a na l1 l2 lst m r n f1 f2 k : h !! a = Some (BItem na) -> seg h 0 (n_child na) l1 m r f1 -> Z.to_nat k = length l1 ->
  r <> 0 -> h !! r = Some (BItem n) -> n_prev n = m -> seg h r (n_next n) l2 lst 0 f2 -> NoDup (a :: r :: f1 ++ f2) ->
  exists h' v lst', cJSON_DetachItemFromArray a k h = Ret (r, h') /\ h' !! a = Some (BItem (set_child v na)) /\
    h' !! r = Some (BItem (set_prev 0 (set_next 0 n))) /\ seg h' 0 v (l1 ++ l2) lst' 0 (f1 ++ f2) /\ outside (a :: r :: f1 ++ f2) h h'.
Proof.
  intros Hna H1 Hk Hr Hn Hm H2 Hnd. unfold cJSON_DetachItemFromArray. rewrite (node_at_ok h a na Hna). ret_step.
  rewrite (walk_child _ _ _ _ _ _ _ f2 H1) by (done || nodup). ret_step. rewrite (proj2 (Z.eqb_neq r 0) Hr), (node_at_ok h r n Hn). ret_step.
  destruct (relink_next _ _ _ _ _ _ (n_next n) H1 ltac:(nodup)) as (h1 & E1 & H1' & O1). rewrite Hm, E1. ret_step.
  assert (Hn1 : h1 !! r = Some (BItem n)) by (rewrite O1; [done|nodup]). rewrite (node_at_ok h1 r n Hn1). ret_step.
  assert (H2' : seg h1 r (n_next n) l2 lst 0 f2) by (eapply seg_frame; [exact H2|eapply outside_agree; [exact O1|nodup]]).
  destruct (relink_prev _ _ _ _ _ _ m H2' ltac:(nodup)) as (h2 & lst' & E2 & H2'' & O2). rewrite Hm, E2. ret_step.
  assert (O12 : outside (f1 ++ f2) h h2) by (eapply outside_trans; (eapply outside_mono; [eassumption|set_solver])).
  assert (Hn2 : h2 !! r = Some (BItem n)) by (rewrite O12; [done|nodup]).
  assert (Hna2 : h2 !! a = Some (BItem na)) by (rewrite O12; [done|nodup]).
  rewrite (node_at_ok h2 a na Hna2). ret_step. rewrite (node_at_ok h2 r n Hn2). ret_step.
  destruct (relink_first _ _ _ _ _ _ _ a na (n_next n) H1 ltac:(nodup) Hna2 eq_refl) as (h3 & E3 & Ha3 & O3). rewrite E3. ret_step.
  assert (Hn3 : h3 !! r = Some (BItem n)) by (rewrite O3; [done|nodup]). unfold upd. rewrite (node_at_ok h3 r n Hn3). ret_step.
  set (h4 := <[r := _]> h3). assert (O4 : outside [r] h3 h4) by (apply outside_insert; set_solver).
  assert (O24 : outside [a; r] h2 h4) by (eapply outside_trans; (eapply outside_mono; [eassumption|set_solver])).
  exists h4, (match l1 with [] => n_next n | _ => n_child na end), lst'. split_and!.
  - done.
  - rewrite O4 by nodup. exact Ha3.
  - apply lookup_insert_eq.
  - eapply seg_app; [|eapply seg_frame; [exact H2''|eapply outside_agree; [exact O24|nodup]]].
    eapply seg_frame; [exact H1'|]. apply (agree_trans _ _ h2); (eapply outside_agree; [eassumption|nodup]).
  - eapply outside_trans; (eapply outside_mono; [eassumption|set_solver]).
Qed.
Lemma detach_item_ok h pr nx a A fa k c : item_at h pr nx a A fa -> owner A -> it_child A !! Z.to_nat k = Some c ->
  exists r h' fi fa', cJSON_DetachItemFromArray a k h = Ret (r, h') /\ item_at h' 0 0 r c fi /\
    item_at h' pr nx a (Json.cJSON_DetachItemFromArray A k).2 fa' /\ fa ≡ₚ fa' ++ fi /\ outside fa h h'.
Proof.
  intros HA Ho Hk. destruct (item_open _ _ _ _ _ _ HA Ho) as (na & fo & fc & lst & -> & Hz & Hna & <- & <- & Hsh & Hc & Hnd).
  destruct (child_split _ _ _ _ _ _ _ Hc Hk) as (l1 & l2 & m & r & n & fi & f1 & f2 & El & Ek & -> & H1 & Hr & Hn & Hm & Hci & H2).
  destruct (detach_links h a na l1 l2 lst m r n f1 f2 k) as (h4 & v & lst' & E & Ha4 & Hr4 & H4 & Of); [done..|nodup|].
  exists r, h4, (r :: fi), (a :: fo ++ (f1 ++ f2)). split_and!.
  - done.
  - split; [|nodup]. rewrite <- (app_nil_r fi). eapply seg_cons; [done|exact Hr4|done| |apply seg_nil].
    eapply content_frame; [apply content_prev, content_next, Hci|eapply outside_agree; [exact Of|nodup]].
  - cbn [snd Json.cJSON_DetachItemFromArray]. rewrite El, <- Ek, delete_middle.
    eapply item_close; [exact Hsh|eapply outside_agree; [exact Of|nodup]|exact Ha4|done|exact H4|nodup].
  - solve_Permutation.
  - eapply outside_mono; [exact Of|set_solver].
Qed.

(** What comes before the replaced child is linked to the new item. *)
Lemma relink_head h p l m r f a n i ni : seg h 0 p l m r f -> NoDup (a :: f) -> r ∉ f -> h !! a = Some (BItem n) -> n_child n = p ->
  h !! i = Some (BItem ni) -> n_prev ni = m ->
  exists h', (if r =? n_child n then upd a (set_child i) h else m ← node_at h i; upd (n_prev m) (set_next i) h) = Ret h' /\
    h' !! a = Some (BItem (set_child (match l with [] => i | _ => p end) n)) /\
    seg h' 0 (match l with [] => i | _ => p end) l m i f /\ outside (a :: f) h h'.
Proof.
  intros H Hnd Hr Hn <- Hi <-. rewrite (is_first _ _ _ _ _ _ H Hr), (node_at_ok h i ni Hi). ret_step. destruct l as [|c l].
  - apply seg_nil_inv in H as (E & -> & ->). unfold upd. rewrite (node_at_ok _ _ _ Hn), E. eexists.
    split_and!; [done|apply lookup_insert_eq|constructor|apply outside_insert; set_solver].
  - destruct (seg_ends _ _ _ _ _ _ _ H ltac:(done)) as (_ & He & _).
    destruct (seg_set_next _ _ _ _ _ _ _ i H ltac:(nodup) ltac:(done)) as (h' & E & H' & O). exists h'.
    split_and!; [done| |done|eapply outside_mono; [exact O|set_solver]]. rewrite O by nodup. by rewrite set_child_same.
Qed.

(** The new item takes the links of the old one. *)
Lemma take_links h pv nv i c fi r n : item_at h pv nv i c fi -> h !! r = Some (BItem n) -> r ∉ fi ->
  exists h' ni, (h ← upd i (set_next (n_next n)) h; n ← node_at h r; upd i (set_prev (n_prev n)) h) = Ret h' /\
    h' !! i = Some (BItem ni) /\ n_prev ni = n_prev n /\ n_next ni = n_next n /\ seg h' (n_prev n) i [c] i (n_next n) fi /\ outside fi h h'.
Proof.
  intros [H Hnd] Hn Hr. destruct (seg_set_next _ _ _ _ _ _ _ (n_next n) H Hnd ltac:(done)) as (h1 & E1 & H1 & O1).
  pose proof (seg_ends _ _ _ _ _ _ _ H ltac:(done)) as (Hi & _). rewrite E1. ret_step.
  rewrite (node_at_ok h1 r n) by (rewrite O1; [done|set_solver]). ret_step.
  destruct (seg_set_prev _ _ _ _ _ _ _ _ (n_prev n) H1 Hnd) as (h2 & E2 & H2 & O2).
  destruct (seg_cons_inv _ _ _ _ _ _ _ _ H2) as (ni & f1 & f2 & -> & _ & Hni & Hp & _ & Hs). apply seg_nil_inv in Hs as (_ & Hs & _).
  exists h2, ni. split_and!; try done. eapply outside_trans; (eapply outside_mono; [eassumption|set_solver]).
Qed.

(** Replace, up to the deletion of the old child. *)
Lemma replace_links h a na l1 c l2 lst m r n f1 fi f2 k i pv nv : h !! a = Some (BItem na) -> seg h 0 (n_child na) l1 m r f1 ->
  Z.to_nat k = length l1 -> r <> 0 -> h !! r = Some (BItem n) -> n_prev n = m -> seg h r (n_next n) l2 lst 0 f2 ->
  item_at h pv nv i c fi -> NoDup (a :: r :: f1 ++ f2 ++ fi) ->
  exists h' v lst', cJSON_ReplaceItemInArray a k i h = cJSON_Delete_all r h' /\ h' !! a = Some (BItem (set_child v na)) /\
    h' !! r = Some (BItem (set_next 0 (set_prev 0 n))) /\ seg h' 0 v (l1 ++ c :: l2) lst' 0 (f1 ++ fi ++ f2) /\
    outside (a :: r :: f1 ++ f2 ++ fi) h h'.
Proof.
  intros Hna H1 Hk Hr Hn Hm H2 HI Hnd. pose proof (seg_ends _ _ _ _ _ _ _ (proj1 HI) ltac:(done)) as (Hii & _).
  assert (E0 : forall K : jheap -> res jheap, (h ← upd i (set_next (n_next n)) h; n ← node_at h r; h ← upd i (set_prev (n_prev n)) h; K h)
    = ((h ← upd i (set_next (n_next n)) h; n ← node_at h r; upd i (set_prev (n_prev n)) h) ≫= K)).
  { intros K. destruct (upd i _ h) as [h0| | |]; [|done..]. rewrite !bind_Ret_l. by destruct (node_at h0 r). }
  unfold cJSON_ReplaceItemInArray. rewrite (node_at_ok h a na Hna). ret_step.
  rewrite (walk_child _ _ _ _ _ _ _ f2 H1) by (done || nodup). ret_step. rewrite (proj2 (Z.eqb_neq r 0) Hr), (node_at_ok h r n Hn). ret_step.
  destruct (take_links _ _ _ _ _ _ _ _ HI Hn ltac:(nodup)) as (h1 & ni & E1 & Hi1 & Hpi & Hxi & HI1 & O1). rewrite E0, E1. ret_step.
  rewrite (node_at_ok h1 i ni Hi1). ret_step. rewrite Hxi.
  assert (H2' : seg h1 r (n_next n) l2 lst 0 f2) by (eapply seg_frame; [exact H2|eapply outside_agree; [exact O1|nodup]]).
  destruct (relink_prev _ _ _ _ _ _ i H2' ltac:(nodup)) as (h2 & lst' & E2 & H2'' & O2). rewrite E2. ret_step.
  assert (O12 : outside (fi ++ f2) h h2) by (eapply outside_trans; (eapply outside_mono; [eassumption|set_solver])).
  assert (Hna2 : h2 !! a = Some (BItem na)) by (rewrite O12; [done|nodup]). rewrite (node_at_ok h2 a na Hna2). ret_step.
  assert (H1' : seg h2 0 (n_child na) l1 m r f1) by (eapply seg_frame; [exact H1|eapply outside_agree; [exact O12|nodup]]).
  destruct (relink_head _ _ _ _ _ _ a na i ni H1' ltac:(nodup) ltac:(nodup) Hna2 eq_refl) as (h3 & E3 & Ha3 & H3 & O3);
    [rewrite O2; [done|]; refine (apart_lists _ fi f2 Hnd _ i Hii); solve_submseteq|congruence|]. rewrite E3. ret_step.
  assert (O13 : outside (fi ++ f2 ++ a :: f1) h h3) by (eapply outside_trans; (eapply outside_mono; [eassumption|set_solver])).
  unfold upd at 1. rewrite (node_at_ok h3 r n) by (rewrite O13; [done|nodup]). ret_step. ret_step.
  set (h4 := <[r := _]> h3). assert (O4 : outside [r] h3 h4) by (apply outside_insert; set_solver).
  exists h4, (match l1 with [] => i | _ => n_child na end), lst'. split_and!.
  - done.
  - rewrite O4 by nodup. exact Ha3.
  - apply lookup_insert_eq.
  - eapply seg_app; [eapply seg_frame; [exact H3|eapply outside_agree; [exact O4|nodup]]|].
    apply (seg_app _ _ _ [c] i (n_next n)); [|eapply seg_frame; [exact H2''|apply (agree_trans _ _ h3); (eapply outside_agree; [eassumption|nodup])]].
    rewrite <- Hm. eapply seg_frame; [exact HI1|]. apply (agree_trans _ _ h2); [eapply outside_agree; [exact O2|nodup]|].
    apply (agree_trans _ _ h3); (eapply outside_agree; [eassumption|nodup]).
  - eapply outside_trans; (eapply outside_mono; [eassumption|set_solver]).
Qed.
Lemma replace_item_ok h pr nx a A fa pv nv i c fi k c0 : item_at h pr nx a A fa -> owner A -> item_at h pv nv i c fi ->
  (forall x, x ∈ fa -> x ∉ fi) -> it_child A !! Z.to_nat k = Some c0 ->
  exists h' fd fa', cJSON_ReplaceItemInArray a k i h = Ret (deletes fd h') /\
    item_at (deletes fd h') pr nx a (Json.cJSON_ReplaceItemInArray A k c) fa' /\ fa ++ fi ≡ₚ fa' ++ fd /\ outside (fa ++ fi) h h'.
Proof.
  intros HA Ho HI Hd Hk. destruct (item_open _ _ _ _ _ _ HA Ho) as (na & fo & fc & lst & -> & Hz & Hna & <- & <- & Hsh & Hc & Hnd).
  destruct (child_split _ _ _ _ _ _ _ Hc Hk) as (l1 & l2 & m & r & n & f & f1 & f2 & El & Ek & -> & H1 & Hr & Hn & Hm & Hci & H2).
  assert (Hnd' : NoDup ((a :: fo ++ f1 ++ r :: f ++ f2) ++ fi)) by (apply NoDup_app; split_and!; [done|done|apply HI]). clear Hd Hnd.
  destruct (replace_links h a na l1 c l2 lst m r n f1 fi f2 k i pv nv) as (h4 & v & lst' & -> & Ha4 & Hr4 & H4 & Of); [done..|nodup|].
  assert (HR : seg h4 0 r [c0] r 0 (r :: f)).
  { rewrite <- (app_nil_r f). eapply seg_cons; [done|exact Hr4|done| |apply seg_nil].
    eapply content_frame; [apply content_next, content_prev, Hci|eapply outside_agree; [exact Of|nodup]]. }
  rewrite (delete_seg _ _ _ _ _ _ HR) by nodup.
  assert (HD : forall fp, fp ++ (r :: f) ⊆+ (a :: fo ++ f1 ++ r :: f ++ f2) ++ fi -> agree fp h4 (deletes (r :: f) h4)).
  { intros fp Hs x Hx. apply lookup_deletes. exact (apart_lists _ _ _ Hnd' Hs x Hx). }
  exists h4, (r :: f), (a :: fo ++ (f1 ++ fi ++ f2)). split_and!; [done| |solve_Permutation|eapply outside_mono; [exact Of|set_solver]].
  unfold Json.cJSON_ReplaceItemInArray. rewrite El, <- Ek, insert_app_r_alt, Nat.sub_diag by lia. cbn [insert list_insert].
  eapply item_close; [exact Hsh| | |done| |nodup].
  - apply (agree_trans _ _ h4); [eapply outside_agree; [exact Of|nodup]|apply HD; solve_submseteq].
  - rewrite lookup_deletes by nodup. exact Ha4.
  - apply (seg_frame h4); [exact H4|apply HD; solve_submseteq].
Qed.

(** ** What a call owns, before and after

    [trade h fp h' fp']: a call that owned the blocks [fp] of [h] owns [fp'] in [h']: what is
    new was not in use, what it gave up is freed, and nothing else was touched. *)
Definition trade (h : jheap) (fp : list Z) (h' : jheap) (fp' : list Z) : Prop :=
  forall x, (x ∉ fp -> x ∉ fp' -> h' !! x = h !! x) /\ (x ∈ fp -> x ∉ fp' -> h' !! x = None) /\ (x ∉ fp -> x ∈ fp' -> h !! x = None).
Lemma trade_refl h : trade h [] h [].
Proof. intros x. set_solver. Qed.
Lemma trade_outside fp h h' : outside fp h h' -> trade h fp h' fp.
Proof. intros H x. split_and!; [auto|done|done]. Qed.
Lemma trade_trans h a h1 b h2 c : trade h a h1 b -> trade h1 b h2 c -> trade h a h2 c.
Proof.
  intros H1 H2 x. specialize (H1 x). specialize (H2 x). destruct H1 as (A1 & A2 & A3), H2 as (B1 & B2 & B3).
  destruct (decide (x ∈ b)) as [Hb|Hb]; split_and!; intros Ha Hc.
  - by rewrite A3, B2.
  - by apply B2.
  - by apply A3.
  - by rewrite B1, A1.
  - rewrite B1 by done. by apply A2.
  - rewrite <- A1 by done. by apply B3.
Qed.
Lemma trade_ext h a h' b a' b' : trade h a h' b -> (forall x, x ∈ a <-> x ∈ a') -> (forall x, x ∈ b <-> x ∈ b') -> trade h a' h' b'.
Proof. intros H Ha Hb x. rewrite <- Ha, <- Hb. apply H. Qed.
Lemma trade_frame h a h' b r : trade h a h' b -> trade h (a ++ r) h' (b ++ r).
Proof. intros H x. destruct (H x) as (A1 & A2 & A3). rewrite !elem_of_app. split_and!; [|intros [?|?]|intros ? [?|?]]; intros; try tauto; first [apply A1|apply A2|apply A3]; tauto. Qed.
Lemma trade_deletes h fp fd : trade h (fp ++ fd) (deletes fd h) fp.
Proof.
  intros x. rewrite elem_of_app. split_and!.
  - intros H1 H2. apply lookup_deletes. tauto.
  - intros [H1|H1] H2; [done|]. by apply lookup_deletes_in.
  - tauto.
Qed.
Lemma trade_nil h h' : trade h [] h' [] -> h' = h.
Proof. intros H. apply map_eq. intros x. apply H; set_solver. Qed.
Lemma trade_new h p b : h !! p = None -> trade h [] (<[p := b]> h) [p].
Proof.
  intros Hp x. split_and!; [intros _ Hx; apply lookup_insert_ne; set_solver|set_solver|].
  intros _ ->%list_elem_of_singleton. done.
Qed.
(** What is new is apart from what was in use, and what was in use is left alone. *)
Lemma trade_apart h h' fp (r : list Z) x : trade h [] h' fp -> (forall y, y ∈ r -> is_Some (h !! y)) -> x ∈ r -> x ∉ fp.
Proof. intros H Hl Hx Hf. destruct (Hl x Hx) as [b Hb]. destruct (H x) as (_ & _ & H3). rewrite H3 in Hb by set_solver. done. Qed.
Lemma trade_agree h a h' b (r : list Z) : trade h a h' b -> (forall x, x ∈ r -> x ∉ a) -> (forall x, x ∈ r -> is_Some (h !! x)) -> agree r h h'.
Proof.
  intros H Ha Hl x Hx. destruct (Hl x Hx) as [v Hv]. destruct (H x) as (H1 & _ & H3). apply H1; [auto|].
  intros Hb. rewrite H3 in Hv by auto. done.
Qed.

Lemma item_live h pr nx p c fp x : item_at h pr nx p c fp -> x ∈ fp -> is_Some (h !! x).
Proof. intros [H _] Hx. by destruct (seg_live _ _ _ _ _ _ _ _ H Hx). Qed.
Lemma item_nonnull h pr nx p c fp : item_at h pr nx p c fp -> p <> 0.
Proof. intros [H _]. by destruct (seg_ends _ _ _ _ _ _ _ H ltac:(done)) as (_ & _ & ? & _). Qed.
Lemma delete_item h pr p c fp h0 : item_at h pr 0 p c fp -> trade h0 [] h fp -> cJSON_Delete_all p h = Ret h0.
Proof.
  intros [H Hn] Ht. rewrite (delete_seg _ _ _ _ _ _ H Hn). f_equal. apply trade_nil.
  eapply trade_trans; [exact Ht|]. apply (trade_deletes h [] fp).
Qed.
(** A new item beside the ones there are. *)
Lemma item_beside h h' fp i c fi pr nx a A : trade h [] h' fi -> item_at h' 0 0 i c fi -> item_at h pr nx a A fp ->
  item_at h' pr nx a A fp /\ (forall x, x ∈ fp -> x ∉ fi) /\ trade h fp h' (fp ++ fi).
Proof.
  intros Ht Hi HA. assert (Hd : forall x, x ∈ fp -> x ∉ fi).
  { intros x Hx. eapply trade_apart; [exact Ht| |exact Hx]. intros y. by eapply item_live. }
  split_and!; [|done|].
  - eapply item_frame; [exact HA|]. eapply trade_agree; [exact Ht|set_solver|]. intros x. by eapply item_live.
  - eapply trade_ext; [apply (trade_frame _ _ _ _ fp Ht)|set_solver|set_solver].
Qed.

(** ** The operations that fail, and by name *)

Lemma detach_none h pr nx a A fa k : item_at h pr nx a A fa -> owner A -> it_child A !! Z.to_nat k = None ->
  cJSON_DetachItemFromArray a k h = Ret (0, h).
Proof.
  intros HA Ho Hk. destruct (item_open _ _ _ _ _ _ HA Ho) as (n & fo & fc & lst & -> & Hz & Hn & <- & <- & Hsh & Hc & Hnd).
  unfold cJSON_DetachItemFromArray. rewrite (node_at_ok h a n Hn). ret_step. by rewrite (walk_none _ _ _ _ _ _ Hc) by (done || nodup).
Qed.
Lemma replace_none h pr nx a A fa k i : item_at h pr nx a A fa -> owner A -> it_child A !! Z.to_nat k = None ->
  cJSON_ReplaceItemInArray a k i h = Ret h.
Proof.
  intros HA Ho Hk. destruct (item_open _ _ _ _ _ _ HA Ho) as (n & fo & fc & lst & -> & Hz & Hn & <- & <- & Hsh & Hc & Hnd).
  unfold cJSON_ReplaceItemInArray. rewrite (node_at_ok h a n Hn). ret_step. by rewrite (walk_none _ _ _ _ _ _ Hc) by (done || nodup).
Qed.
Definition few (A : cJSON) : Prop := Z.of_nat (length (it_child A)) <= INT_MAX.
Lemma find_item h pr nx a A fa string str : item_at h pr nx a A fa -> owner A -> few A -> opt_text h string = Ret (Some str) ->
  exists n, h !! a = Some (BItem n) /\
  match index_named str 0 (it_child A) with
  | Some j => 0 <= j < 0 + Z.of_nat (length (it_child A)) /\ exists r, r <> 0 /\ find_named (S (size h)) string 0 (n_child n) h = Ret (j, r)
  | None => exists k, find_named (S (size h)) string 0 (n_child n) h = Ret (k, 0)
  end.
Proof.
  intros HA Ho Hf Ht. destruct (item_open _ _ _ _ _ _ HA Ho) as (n & fo & fc & lst & -> & Hz & Hn & <- & <- & Hsh & Hc & Hnd).
  exists n. split; [done|]. apply (find_named_seg _ _ _ _ _ _ _ _ _ _ Ht Hc); [|lia|exact Hf].
  pose proof (seg_length _ _ _ _ _ _ _ Hc). pose proof (seg_size _ _ _ _ _ _ _ Hc ltac:(nodup)). lia.
Qed.
Lemma detach_named h pr nx a A fa string str : item_at h pr nx a A fa -> owner A -> few A -> opt_text h string = Ret (Some str) ->
  cJSON_DetachItemFromObject a string h = match index_named str 0 (it_child A) with
    | Some j => cJSON_DetachItemFromArray a j h | None => Ret (0, h) end.
Proof.
  intros HA Ho Hf Ht. destruct (find_item _ _ _ _ _ _ _ _ HA Ho Hf Ht) as (n & Hn & HF). unfold cJSON_DetachItemFromObject.
  rewrite (node_at_ok h a n Hn). ret_step. destruct (index_named _ _ _) as [j|].
  - destruct HF as (_ & r & Hr & ->). ret_step. by rewrite (proj2 (Z.eqb_neq r 0) Hr).
  - by destruct HF as (k & ->).
Qed.

(** ** Names, and new items, when malloc does not fail *)

Class JMallocTotal {M : JMalloc} : Prop := { jmalloc_total : forall h n, is_Some (jmalloc h n) }.

(** The name of an item, apart from the rest of what it owns. *)
Lemma item_name h pr nx i c fi : item_at h pr nx i c fi -> exists n fs fo, fi ≡ₚ i :: fs ++ fo /\ h !! i = Some (BItem n) /\
  n_prev n = pr /\ n_next n = nx /\ opt_at h (n_string n) (it_string c) fs /\
  (forall h' p s, h' !! i = Some (BItem (set_string p n)) -> p <> 0 -> h' !! p = Some (BStr s) -> agree fo h h' -> NoDup (i :: p :: fo) ->
     exists fi', fi' ≡ₚ i :: p :: fo /\ item_at h' pr nx i (set_name (Some s) c) fi').
Proof.
  intros [(n & fi' & fn & -> & Hp & Hn & Hv & Hc & H)%seg_cons_inv Hnd]. apply seg_nil_inv in H as (_ & Hx & ->). rewrite app_nil_r in *.
  destruct Hc as [n v s l lst fv fs fc Hr Hs1 Hs2 Hc|n s fs Hr Hs].
  - exists n, fs, (fv ++ fc). split_and!; [solve_Permutation|done|done|done|done|].
    intros h' p w Hi Hz Hw [Ha1 Ha2]%agree_app Hnd'. exists (i :: fv ++ [p] ++ fc). split; [solve_Permutation|]. split; [|nodup].
    rewrite <- (app_nil_r (fv ++ [p] ++ fc)). rewrite <- Hv. eapply seg_cons; [done|exact Hi|done| |rewrite Hx; apply seg_nil].
    apply (content_own h' (set_string p n) v (Some w) l lst fv [p] fc Hr); [by eapply opt_at_frame|done|by eapply seg_frame].
  - exists n, fs, []. rewrite app_nil_r. split_and!; try done.
    intros h' p w Hi Hz Hw _ Hnd'. exists (i :: [p]). split; [done|]. split; [|done].
    rewrite <- (app_nil_r [p]). rewrite <- Hv. eapply seg_cons; [done|exact Hi|done| |rewrite Hx; apply seg_nil].
    by apply (content_ref h' (set_string p n) (Some w) [p] Hr).
Qed.

Lemma list_delete_ge {A} (l : list A) k : (length l <= k)%nat -> delete k l = l.
Proof. revert k. induction l as [|x l IH]; intros [|k] Hk; cbn in *; [done|done|lia|]. f_equal. apply IH. lia. Qed.

(** What a caller does to one container; every new item is put into it. *)
Inductive make := MNull | MTrue | MFalse | MBool (b : bool) | MNumber (d : lnumber) | MString (s : bytes) | MArray | MObject.
Inductive edit :=
| EAdd (m : make) | EAddAs (name : bytes) (m : make) | EMove (k : Z) | EDelete (k : Z) | EDeleteAs (name : bytes)
| EReplace (k : Z) (m : make) | EReplaceAs (name : bytes) (m : make).
(** The same on values. *)
Definition make_value (m : make) : cJSON :=
  match m with
  | MNull => Json.cJSON_CreateNull | MTrue => Json.cJSON_CreateTrue | MFalse => Json.cJSON_CreateFalse
  | MBool b => Json.cJSON_CreateBool b | MNumber d => Json.cJSON_CreateNumber d | MString s => Json.cJSON_CreateString s
  | MArray => Json.cJSON_CreateArray | MObject => Json.cJSON_CreateObject
  end.
Definition edit_value (A : cJSON) (e : edit) : cJSON :=
  match e with
  | EAdd m => Json.cJSON_AddItemToArray A (make_value m)
  | EAddAs name m => Json.cJSON_AddItemToObject A name (make_value m)
  | EMove k => match Json.cJSON_DetachItemFromArray A k with (Some c, A) => Json.cJSON_AddItemToArray A c | (None, A) => A end
  | EDelete k => Json.cJSON_DeleteItemFromArray A k
  | EDeleteAs name => Json.cJSON_DeleteItemFromObject A name
  | EReplace k m => Json.cJSON_ReplaceItemInArray A k (make_value m)
  | EReplaceAs name m => Json.cJSON_ReplaceItemInObject A name (make_value m)
  end.

Section Total.
Context {M : JMalloc} {MO : JMallocOk M} {MT : JMallocTotal}.

Lemma malloc_new h n : exists p, jmalloc h n = Some p /\ p <> 0 /\ h !! p = None.
Proof. destruct (jmalloc_total h n) as [p Hp]. exists p. destruct (jmalloc_ok _ _ _ Hp). split_and!; [done|lia|done]. Qed.
Lemma strdup_new h string s : chars h string = Ret s ->
  exists p, cJSON_strdup string h = Ret (p, <[p := BStr s]> h) /\ p <> 0 /\ h !! p = None.
Proof.
  intros Hs. unfold cJSON_strdup. rewrite Hs. ret_step. destruct (malloc_new h (Z.of_nat (length s) + 1)) as (p & -> & Hp & Hn).
  by exists p.
Qed.

(** [item->string] is freed and set to a copy of the argument, as AddItemToObject does it. *)
Lemma rename_ok h pr nx i c fi string s : item_at h pr nx i c fi -> (forall h', outside fi h h' -> chars h' string = Ret s) ->
  exists h' fi', (forall K : jheap -> res jheap,
      (n ← node_at h i;
       h ← (if negb (n_string n =? 0) then cJSON_free (n_string n) h else Ret h);
       '(copy, h) ← cJSON_strdup string h;
       h ← upd i (set_string copy) h; K h) = K h') /\
    item_at h' pr nx i (set_name (Some s) c) fi' /\ trade h fi h' fi'.
Proof.
  intros HI Hs. pose proof (item_name _ _ _ _ _ _ HI) as (n & fs & fo & Ep & Hn & Hp & Hx & Ho & HR).
  pose proof (proj2 HI) as Hnd. rewrite Ep in Hnd.
  assert (Hin : forall x, x ∈ fi <-> x ∈ i :: fs ++ fo) by (intros x; by rewrite Ep).
  set (h1 := deletes fs h). assert (O1 : outside fs h h1) by (intros x; apply lookup_deletes).
  destruct (strdup_new h1 string s) as (p & E & Hz & Hpn).
  { apply Hs. eapply outside_mono; [exact O1|]. intros x ?. apply Hin. set_solver. }
  assert (Hn1 : h1 !! i = Some (BItem n)) by (rewrite O1; [done|nodup]).
  assert (Hpi : p <> i) by congruence. set (h2 := <[i := BItem (set_string p n)]> (<[p := BStr s]> h1)).
  assert (Hl : forall x, x ∈ fo -> is_Some (h1 !! x)).
  { intros x Hx'. rewrite O1; [|revert x Hx'; nodup]. eapply item_live; [exact HI|]. apply Hin. set_solver. }
  assert (Hpo : p ∉ fo) by (intros [v Hv]%Hl; congruence).
  destruct (HR h2 p s) as (fi' & Ep' & HI').
  - apply lookup_insert_eq.
  - done.
  - unfold h2. rewrite lookup_insert_ne by done. apply lookup_insert_eq.
  - intros x Hx'. assert (x <> i /\ x <> p) as [] by (split; intros ->; [revert Hx'; nodup|done]).
    unfold h2. rewrite !lookup_insert_ne by done. apply O1. revert x Hx' H H0. intros x Hx' _ _. revert x Hx'. nodup.
  - rewrite !NoDup_cons. split_and!; [|done|nodup]. intros [?|?]%elem_of_cons; [done|]. revert H. nodup.
  - exists h2, fi'. split_and!; [|done|].
    + intros K. rewrite (node_at_ok h i n Hn). ret_step. rewrite (free_opt h h _ _ _ Ho) by done. ret_step.
      fold h1. rewrite E. ret_step. unfold upd. rewrite (node_at_ok _ i n) by (by rewrite lookup_insert_ne). ret_step. by ret_step.
    + eapply (trade_ext _ (([] ++ i :: fo) ++ fs) _ ([p] ++ i :: fo)); [|intros x; rewrite Hin; set_solver|intros x; rewrite Ep'; set_solver].
      eapply trade_trans; [apply (trade_deletes h (i :: fo) fs)|]. fold h1.
      eapply trade_trans; [apply (trade_frame _ [] (<[p := BStr s]> h1) [p] (i :: fo)); by apply trade_new|].
      apply trade_outside, outside_insert. set_solver.
Qed.

Lemma add_object_ok h pr nx a A fa i c fi string s : item_at h pr nx a A fa -> owner A -> item_at h 0 0 i c fi ->
  (forall x, x ∈ fa -> x ∉ fi) -> (forall h', outside fi h h' -> chars h' string = Ret s) ->
  exists h' fa', cJSON_AddItemToObject a string i h = Ret h' /\ item_at h' pr nx a (Json.cJSON_AddItemToObject A s c) fa' /\
    trade h (fa ++ fi) h' fa'.
Proof.
  intros HA Ho HI Hd Hs. destruct (rename_ok _ _ _ _ _ _ _ _ HI Hs) as (h1 & fi1 & E & HI1 & HT).
  assert (HA1 : item_at h1 pr nx a A fa).
  { eapply item_frame; [exact HA|]. eapply trade_agree; [exact HT|done|]. intros x. by eapply item_live. }
  destruct (add_item_ok _ _ _ _ _ _ _ _ _ HA1 Ho HI1) as (h2 & E2 & HA2 & O2).
  { intros x Hx Hx1. destruct (item_live _ _ _ _ _ _ _ HA Hx) as [v Hv]. destruct (HT x) as (_ & _ & H3). rewrite H3 in Hv by auto. done. }
  exists h2, (fa ++ fi1). unfold cJSON_AddItemToObject. pose proof (item_nonnull _ _ _ _ _ _ HI) as Hz.
  rewrite (proj2 (Z.eqb_neq i 0) Hz), E. split_and!; [done|by rewrite add_named|].
  eapply trade_trans; [|by apply trade_outside]. eapply trade_ext; [apply (trade_frame _ _ _ _ fa HT)|set_solver|set_solver].
Qed.

(** [made h m c]: the call makes a new item that represents [c]. *)
Definition made (h : jheap) (m : res (Z * jheap)) (c : cJSON) : Prop :=
  exists i h' fi, m = Ret (i, h') /\ item_at h' 0 0 i c fi /\ trade h [] h' fi.

Lemma new_item_ok h : exists i, cJSON_New_Item h = (i, <[i := BItem (Node 0 0 0 0 0 0 (S754_zero false) 0)]> h) /\ i <> 0 /\ h !! i = None.
Proof. unfold cJSON_New_Item. destruct (malloc_new h sizeof_cJSON) as (i & -> & Hi & Hn). by exists i. Qed.
Lemma create_made h t n d f : Z.land t cJSON_IsReference = 0 ->
  f (Node 0 0 0 0 0 0 (S754_zero false) 0) = Node 0 0 0 t 0 n d 0 -> made h (create f h) (Item t None n d None []).
Proof.
  intros Ht Hf. unfold create. destruct (new_item_ok h) as (i & -> & Hi & Hn). rewrite (proj2 (Z.eqb_neq i 0) Hi).
  unfold upd. rewrite (node_at_ok _ i _ (lookup_insert_eq _ _ _)). ret_step. rewrite insert_insert_eq, Hf. ret_step.
  eexists i, _, [i]. split_and!; [done| |by apply trade_new]. split; [|by apply NoDup_singleton].
  eapply (seg_cons _ _ _ _ _ _ _ _ []); [done|apply lookup_insert_eq|done| |apply seg_nil].
  apply (content_own _ (Node 0 0 0 t 0 n d 0) None None [] 0 [] [] []); [|done..|apply seg_nil]. unfold is_ref. cbn. by rewrite Ht.
Qed.
Lemma create_string_made h s : made h (cJSON_CreateString (Text s) h) (Json.cJSON_CreateString s).
Proof.
  unfold cJSON_CreateString. destruct (new_item_ok h) as (i & -> & Hi & Hn). rewrite (proj2 (Z.eqb_neq i 0) Hi).
  unfold upd. rewrite (node_at_ok _ i _ (lookup_insert_eq _ _ _)). ret_step. rewrite insert_insert_eq. ret_step.
  set (h1 := <[i := _]> h). destruct (strdup_new h1 (Text s) s eq_refl) as (p & -> & Hp & Hpn).
  assert (Hpi : p <> i) by (intros ->; unfold h1 in Hpn; by rewrite lookup_insert_eq in Hpn). ret_step.
  rewrite (node_at_ok _ i (set_type cJSON_String (Node 0 0 0 0 0 0 (S754_zero false) 0)))
    by (rewrite lookup_insert_ne by done; apply lookup_insert_eq). ret_step. ret_step.
  eexists i, _, [i; p]. split_and!; [done| |].
  - split; [|rewrite NoDup_cons; split; [set_solver|apply NoDup_singleton]].
    eapply (seg_cons _ _ _ _ _ _ _ _ [p]); [done|apply lookup_insert_eq|done| |apply seg_nil].
    apply (content_own _ (Node 0 0 0 cJSON_String p 0 (S754_zero false) 0) (Some s) None [] 0 [p] [] []); [done| |done|apply seg_nil].
    split_and!; [done|rewrite lookup_insert_ne by done; apply lookup_insert_eq|done].
  - eapply trade_trans; [by apply (trade_new h i)|]. fold h1.
    eapply (trade_trans _ ([] ++ [i]) (<[p := BStr s]> h1) ([p] ++ [i])); [by apply trade_frame, trade_new|].
    eapply trade_ext; [apply (trade_outside [i; p]), outside_insert|..]; set_solver.
Qed.

(** ** A history of edits of one container *)

Definition make_item (m : make) (h : jheap) : res (Z * jheap) :=
  match m with
  | MNull => cJSON_CreateNull h | MTrue => cJSON_CreateTrue h | MFalse => cJSON_CreateFalse h
  | MBool b => cJSON_CreateBool b h | MNumber d => cJSON_CreateNumber d h | MString s => cJSON_CreateString (Text s) h
  | MArray => cJSON_CreateArray h | MObject => cJSON_CreateObject h
  end.
Definition do_edit (a : Z) (e : edit) (h : jheap) : res jheap :=
  match e with
  | EAdd m => '(i, h) ← make_item m h; cJSON_AddItemToArray a i h
  | EAddAs name m => '(i, h) ← make_item m h; cJSON_AddItemToObject a (Text name) i h
  | EMove k => '(c, h) ← cJSON_DetachItemFromArray a k h; cJSON_AddItemToArray a c h
  | EDelete k => cJSON_DeleteItemFromArray a k h
  | EDeleteAs name => cJSON_DeleteItemFromObject a (Text name) h
  | EReplace k m =>
      c ← cJSON_GetArrayItem a k h;
      if c =? 0 then Ret h else '(i, h) ← make_item m h; cJSON_ReplaceItemInArray a k i h
  | EReplaceAs name m =>
      c ← cJSON_GetObjectItem a (Text name) h;
      if c =? 0 then Ret h else '(i, h) ← make_item m h; cJSON_ReplaceItemInObject a (Text name) i h
  end.
Fixpoint do_edits (a : Z) (es : list edit) (h : jheap) : res jheap :=
  match es with [] => Ret h | e :: es => h ← do_edit a e h; do_edits a es h end.

Lemma make_made m h : made h (make_item m h) (make_value m).
Proof. destruct m as [| | |[]| | | |]; cbn [make_item make_value]; try (by apply create_made). apply create_string_made. Qed.

Definition edited (h : jheap) (fa : list Z) (a : Z) (m : res jheap) (A : cJSON) : Prop :=
  exists h' fa', m = Ret h' /\ item_at h' 0 0 a A fa' /\ trade h fa h' fa'.

(** An edit that makes an item first. *)
Lemma edited_made h a A fa m (f : Z -> jheap -> res jheap) A' : item_at h 0 0 a A fa ->
  (forall i h1 fi, item_at h1 0 0 a A fa -> item_at h1 0 0 i (make_value m) fi -> (forall x, x ∈ fa -> x ∉ fi) ->
     edited h1 (fa ++ fi) a (f i h1) A') ->
  edited h fa a ('(i, h) ← make_item m h; f i h) A'.
Proof.
  intros HA Hf. destruct (make_made m h) as (i & h1 & fi & -> & HI & HT). ret_step.
  destruct (item_beside _ _ _ _ _ _ _ _ _ _ HT HI HA) as (HA1 & Hd & HT1).
  destruct (Hf i h1 fi HA1 HI Hd) as (h2 & fa' & E & HA2 & HT2). exists h2, fa'. split_and!; [done|done|by eapply trade_trans].
Qed.
Lemma edited_detached h a A fa k : item_at h 0 0 a A fa -> owner A ->
  edited h fa a ('(c, h) ← cJSON_DetachItemFromArray a k h; cJSON_Delete_all c h) (Json.cJSON_DeleteItemFromArray A k).
Proof.
  intros HA Ho. destruct (it_child A !! Z.to_nat k) as [c|] eqn:Hk.
  - destruct (detach_item_ok _ _ _ _ _ _ _ _ HA Ho Hk) as (r & h1 & fi & fa' & -> & HI & HA1 & Ep & O). ret_step.
    rewrite (delete_seg _ _ _ _ _ _ (proj1 HI) (proj2 HI)). exists (deletes fi h1), fa'. split_and!; [done| |].
    + eapply item_frame; [exact HA1|]. intros x Hx. apply lookup_deletes. pose proof (proj2 HA) as Hnd. rewrite Ep in Hnd. revert x Hx. nodup.
    + eapply trade_trans; [apply trade_outside; exact O|]. eapply trade_ext; [apply (trade_deletes h1 fa' fi)| |done]. intros x. by rewrite Ep.
  - rewrite (detach_none _ _ _ _ _ _ _ HA Ho Hk). exists h, fa. split_and!; [done| |by apply trade_outside].
    unfold Json.cJSON_DeleteItemFromArray, Json.cJSON_DetachItemFromArray. cbn [snd].
    rewrite list_delete_ge by (by apply lookup_ge_None). by rewrite with_child_same.
Qed.

Lemma get_item h pr nx a A fa k : item_at h pr nx a A fa -> owner A -> exists r, cJSON_GetArrayItem a k h = Ret r /\
  (r = 0 <-> it_child A !! Z.to_nat k = None).
Proof.
  intros HA Ho. destruct (item_open _ _ _ _ _ _ HA Ho) as (n & fo & fc & lst & -> & Hz & Hn & <- & <- & Hsh & Hc & Hnd).
  unfold cJSON_GetArrayItem. rewrite (node_at_ok h a n Hn). ret_step. destruct (it_child A !! Z.to_nat k) as [c|] eqn:Hk.
  - destruct (child_split _ _ _ _ _ _ _ Hc Hk) as (l1 & l2 & m & r & nc & fi & f1 & f2 & El & Ek & -> & H1 & Hr & _).
    exists r. split; [|by split]. apply (walk_child _ _ _ _ _ _ _ (r :: fi ++ f2) H1); [done|nodup].
  - exists 0. split; [|done]. apply (walk_none _ _ _ _ _ _ Hc); [nodup|done].
Qed.
Lemma rename_new h pr nx i c fi string s : item_at h pr nx i c fi -> it_string c = None -> (forall h', outside fi h h' -> chars h' string = Ret s) ->
  exists h' fi', (forall K : jheap -> res jheap, ('(copy, h) ← cJSON_strdup string h; h ← upd i (set_string copy) h; K h) = K h') /\
    item_at h' pr nx i (set_name (Some s) c) fi' /\ trade h fi h' fi'.
Proof.
  intros HI Hc Hs. destruct (rename_ok _ _ _ _ _ _ _ _ HI Hs) as (h' & fi' & E & H). exists h', fi'. split; [|done].
  intros K. rewrite <- E. destruct (item_name _ _ _ _ _ _ HI) as (n & fs & fo & _ & Hn & _ & _ & Ho & _).
  rewrite (node_at_ok h i n Hn). ret_step. rewrite Hc in Ho. destruct Ho as [Ho _]. by rewrite Ho.
Qed.

Lemma edited_replace h a A fa k c fi i : item_at h 0 0 a A fa -> owner A -> item_at h 0 0 i c fi -> (forall x, x ∈ fa -> x ∉ fi) ->
  is_Some (it_child A !! Z.to_nat k) -> edited h (fa ++ fi) a (cJSON_ReplaceItemInArray a k i h) (Json.cJSON_ReplaceItemInArray A k c).
Proof.
  intros HA Ho HI Hd [c0 Hk]. destruct (replace_item_ok _ _ _ _ _ _ _ _ _ _ _ _ _ HA Ho HI Hd Hk) as (h' & fd & fa' & -> & HA' & Ep & O).
  exists (deletes fd h'), fa'. split_and!; [done|done|]. eapply trade_trans; [apply trade_outside; exact O|].
  eapply trade_ext; [apply (trade_deletes h' fa' fd)| |done]. intros x. by rewrite Ep.
Qed.
Lemma edited_replace_as h a A fa name m i fi : item_at h 0 0 a A fa -> owner A -> few A -> item_at h 0 0 i (make_value m) fi ->
  (forall x, x ∈ fa -> x ∉ fi) -> is_Some (index_named name 0 (it_child A)) ->
  edited h (fa ++ fi) a (cJSON_ReplaceItemInObject a (Text name) i h) (Json.cJSON_ReplaceItemInObject A name (make_value m)).
Proof.
  intros HA Ho Hf HI Hd [j Hj]. destruct (find_item _ _ _ _ _ _ (Text name) name HA Ho Hf eq_refl) as (n & Hn & HF). rewrite Hj in HF.
  destruct HF as (Hb & r & Hr & EF). unfold cJSON_ReplaceItemInObject. rewrite (node_at_ok h a n Hn). ret_step. rewrite EF. ret_step.
  rewrite (proj2 (Z.eqb_neq r 0) Hr).
  destruct (rename_new _ _ _ _ _ _ (Text name) name HI) as (h1 & fi1 & E & HI1 & HT); [by destruct m|done|]. rewrite E.
  destruct (edited_replace h1 a A fa j (set_name (Some name) (make_value m)) fi1 i) as (h2 & fa' & E2 & HA2 & HT2).
  - eapply item_frame; [exact HA|]. eapply trade_agree; [exact HT|done|]. intros x. by eapply item_live.
  - done.
  - exact HI1.
  - intros x Hx Hx1. destruct (item_live _ _ _ _ _ _ _ HA Hx) as [v Hv]. destruct (HT x) as (_ & _ & H3). rewrite H3 in Hv by auto. done.
  - apply lookup_lt_is_Some. lia.
  - exists h2, fa'. split_and!; [exact E2| |].
    + unfold Json.cJSON_ReplaceItemInObject. rewrite Hj. by destruct m.
    + eapply trade_trans; [|exact HT2]. eapply trade_ext; [apply (trade_frame _ _ _ _ fa HT)|set_solver|set_solver].
Qed.

Lemma edit_ok h a A fa e : item_at h 0 0 a A fa -> owner A -> few A -> edited h fa a (do_edit a e h) (edit_value A e).
Proof.
  intros HA Ho Hf. destruct e as [m|name m|k|k|name|k m|name m]; cbn [do_edit edit_value].
  - eapply edited_made; [exact HA|]. intros i h1 fi HA1 HI Hd. destruct (add_item_ok _ _ _ _ _ _ _ _ _ HA1 Ho HI Hd) as (h2 & E & HA2 & O).
    exists h2, (fa ++ fi). split_and!; [done|done|by apply trade_outside].
  - eapply edited_made; [exact HA|]. intros i h1 fi HA1 HI Hd. by apply add_object_ok.
  - unfold Json.cJSON_DetachItemFromArray. destruct (it_child A !! Z.to_nat k) as [c|] eqn:Hk.
    + destruct (detach_item_ok _ _ _ _ _ _ _ _ HA Ho Hk) as (r & h1 & fi & fa' & -> & HI & HA1 & Ep & O). ret_step.
      destruct (add_item_ok _ _ _ _ _ _ _ _ _ HA1 ltac:(by destruct A) HI) as (h2 & E & HA2 & O2).
      { pose proof (proj2 HA) as Hnd. rewrite Ep in Hnd. nodup. }
      exists h2, (fa' ++ fi). split_and!; [done|done|]. eapply trade_trans; [apply trade_outside; exact O|].
      eapply trade_ext; [apply trade_outside; exact O2| |done]. intros x. by rewrite Ep.
    + rewrite (detach_none _ _ _ _ _ _ _ HA Ho Hk). ret_step. rewrite list_delete_ge, with_child_same by (by apply lookup_ge_None).
      destruct (item_open _ _ _ _ _ _ HA Ho) as (n & _ & _ & _ & _ & _ & Hn & _).
      exists h, fa. split_and!; [|done|by apply trade_outside]. unfold cJSON_AddItemToArray. by rewrite (node_at_ok h a n Hn).
  - by apply edited_detached.
  - unfold cJSON_DeleteItemFromObject, Json.cJSON_DeleteItemFromObject, Json.cJSON_DetachItemFromObject.
    rewrite (detach_named _ _ _ _ _ _ (Text name) name HA Ho Hf eq_refl). destruct (index_named _ _ _) as [j|]; [by apply edited_detached|].
    exists h, fa. split_and!; [done|done|by apply trade_outside].
  - destruct (get_item _ _ _ _ _ _ k HA Ho) as (r & -> & Hr). ret_step. destruct (Z.eqb_spec r 0) as [E|E].
    + apply Hr in E. exists h, fa. split_and!; [done| |by apply trade_outside].
      unfold Json.cJSON_ReplaceItemInArray. by rewrite list_insert_ge, with_child_same by (by apply lookup_ge_None).
    + eapply edited_made; [exact HA|]. intros i h1 fi HA1 HI Hd. apply edited_replace; try done.
      destruct (it_child A !! Z.to_nat k); [done|]. by destruct E; apply Hr.
  - destruct (find_item _ _ _ _ _ _ (Text name) name HA Ho Hf eq_refl) as (n & Hn & HF).
    unfold cJSON_GetObjectItem. rewrite (node_at_ok h a n Hn). ret_step. destruct (index_named name 0 _) as [j|] eqn:Hj.
    + destruct HF as (_ & r & Hr & ->). ret_step. ret_step. rewrite (proj2 (Z.eqb_neq r 0) Hr).
      eapply edited_made; [exact HA|]. intros i h1 fi HA1 HI Hd. apply edited_replace_as; [done..|]. by rewrite Hj.
    + destruct HF as (k & ->). ret_step. ret_step. exists h, fa. split_and!; [done| |by apply trade_outside].
      unfold Json.cJSON_ReplaceItemInObject. by rewrite Hj.
Qed.

Lemma edit_value_shape A e : owner A -> owner (edit_value A e) /\ (length (it_child (edit_value A e)) <= S (length (it_child A)))%nat.
Proof.
  assert (HD : forall k B, (length (it_child (with_child B (delete k (it_child B)))) <= length (it_child B))%nat).
  { intros k [t v n d s l]. cbn [it_child with_child]. destruct (decide (k < length l)%nat).
    - rewrite length_delete by (by apply lookup_lt_is_Some). lia.
    - by rewrite list_delete_ge by lia. }
  intros Ho. destruct A as [t v n d s l]. destruct e as [m|name m|k|k|name|k m|name m]; cbn [edit_value].
  - cbn. by rewrite length_app, Nat.add_1_r.
  - destruct m as [| | |[]| | | |]; cbn; by rewrite length_app, Nat.add_1_r.
  - unfold Json.cJSON_DetachItemFromArray. pose proof (HD (Z.to_nat k) (Item t v n d s l)) as H. cbn in *.
    destruct (l !! Z.to_nat k); cbn; rewrite ?length_app; cbn; split; [done|lia|done|lia].
  - pose proof (HD (Z.to_nat k) (Item t v n d s l)) as H. split; [done|]. cbn in *. lia.
  - unfold Json.cJSON_DeleteItemFromObject, Json.cJSON_DetachItemFromObject. destruct (index_named _ _ _) as [j|]; [|cbn; split; [done|lia]].
    pose proof (HD (Z.to_nat j) (Item t v n d s l)) as H. split; [done|]. cbn in *. lia.
  - unfold Json.cJSON_ReplaceItemInArray. cbn. rewrite length_insert. split; [done|lia].
  - unfold Json.cJSON_ReplaceItemInObject. destruct (index_named _ _ _) as [j|]; [|cbn; split; [done|lia]].
    destruct (make_value m) as [t1 v1 n1 d1 s1 l1]. cbn. rewrite length_insert. split; [done|lia].
Qed.
Lemma edits_ok es : forall h a A fa, item_at h 0 0 a A fa -> owner A -> Z.of_nat (length (it_child A) + length es) <= INT_MAX ->
  edited h fa a (do_edits a es h) (fold_left edit_value es A) /\ owner (fold_left edit_value es A) /\
  (length (it_child (fold_left edit_value es A)) <= length (it_child A) + length es)%nat.
Proof.
  induction es as [|e es IH]; intros h a A fa HA Ho Hl; cbn [do_edits fold_left length] in *.
  - split_and!; [|done|lia]. exists h, fa. split_and!; [done|done|by apply trade_outside].
  - destruct (edit_ok h a A fa e HA Ho ltac:(unfold few; lia)) as (h1 & fa1 & -> & HA1 & HT1). ret_step.
    destruct (edit_value_shape A e Ho) as [Ho1 Hl1]. destruct (IH h1 a _ fa1 HA1 Ho1 ltac:(lia)) as ((h2 & fa2 & E & HA2 & HT2) & Ho2 & Hl2).
    split_and!; [|done|lia]. exists h2, fa2. split_and!; [done|done|by eapply trade_trans].
Qed.
Lemma size_ok h pr nx a A fa : item_at h pr nx a A fa -> owner A -> few A -> cJSON_GetArraySize a h = Ret (Json.cJSON_GetArraySize A).
Proof.
  intros HA Ho Hf. destruct (item_open _ _ _ _ _ _ HA Ho) as (n & fo & fc & lst & -> & Hz & Hn & <- & <- & Hsh & Hc & Hnd).
  unfold cJSON_GetArraySize, Json.cJSON_GetArraySize. rewrite (node_at_ok h a n Hn). ret_step.
  rewrite (count_seg _ _ _ _ _ _ _ 0 Hc); [done| |lia|exact Hf].
  pose proof (seg_length _ _ _ _ _ _ _ Hc). pose proof (seg_size _ _ _ _ _ _ _ Hc ltac:(nodup)). lia.
Qed.

(** ** json_encode_tree *)

(** [m'] goes the way [m] goes, and their results are related. *)
Definition follows {X Y} (R : X -> Y -> Prop) (m : res X) (m' : res Y) : Prop :=
  match m with Ret x => exists y, m' = Ret y /\ R x y | Undef => m' = Undef | Raise => m' = Raise | NoFuel => m' = NoFuel end.
Lemma follows_bind {X Y X' Y'} (R : X -> Y -> Prop) (R' : X' -> Y' -> Prop) m m' f f' : follows R m m' ->
  (forall x y, R x y -> follows R' (f x) (f' y)) -> follows R' (m ≫= f) (m' ≫= f').
Proof. destruct m as [x| | |]; cbn; [intros (y & -> & H) Hf; rewrite bind_Ret_l; by apply Hf|by intros ->..]. Qed.
Lemma follows_same {X X' Y'} (R' : X' -> Y' -> Prop) (m : res X) f f' :
  (forall x, follows R' (f x) (f' x)) -> follows R' (m ≫= f) (m ≫= f').
Proof. intros H. apply (follows_bind eq); [destruct m; cbn; eauto|]. by intros x _ <-. Qed.

Definition tree_made (h : jheap) (x : option cJSON * list tree) (y : Z * list tree * jheap) : Prop :=
  y.1.2 = x.2 /\ match x.1 with
  | Some c => owner c /\ exists fp, item_at y.2 0 0 y.1.1 c fp /\ trade h [] y.2 fp
  | None => y.1.1 = 0 /\ y.2 = h
  end.
Definition entries_made (h : jheap) (fa : list Z) (a : Z) (x : cJSON * list tree) (y : list tree * jheap) : Prop :=
  y.1 = x.2 /\ owner x.1 /\ exists fa', item_at y.2 0 0 a x.1 fa' /\ trade h fa y.2 fa'.

Lemma made_tree h m c stk : made h m c -> owner c -> follows (tree_made h) (Ret (Some c, stk)) ('(json, h) ← m; Ret (json, stk, h)).
Proof. intros (i & h' & fi & -> & HI & HT) Ho. eexists. split; [done|]. split; [done|]. split; [done|]. by exists fi. Qed.

Lemma encode_follows limit fuel :
  (forall stk h, follows (tree_made h) (encode_tree limit fuel stk) (json_encode_tree limit fuel stk h)) /\
  (forall A stk h a fa, item_at h 0 0 a A fa -> owner A ->
     follows (entries_made h fa a) (encode_entries limit fuel A stk) (json_encode_entries limit fuel a stk h)).
Proof.
  induction fuel as [|fuel [IHt IHe]]; [done|]. split.
  - intros stk h. cbn [encode_tree json_encode_tree]. destruct stk as [|[[]|l] stk];
      try (eexists; split; [done|done]); try (apply made_tree; [by apply create_made|done]).
    + apply made_tree; [by destruct b; apply create_made|by destruct b].
    + apply made_tree; [by apply create_string_made|done].
    + unfold cJSON_CreateObject. destruct (create_made h cJSON_Object 0 (S754_zero false) (set_type cJSON_Object) eq_refl eq_refl) as (i & h1 & fi & -> & HI & HT).
      ret_step. rewrite (proj2 (Z.eqb_neq i 0)) by (by eapply item_nonnull). apply follows_same. intros stk'.
      eapply follows_bind; [by apply (IHe _ _ _ _ _ HI)|]. intros [A' s1] [s2 h2] (E & Ho & fa' & HA' & HT'). cbn in E, Ho, HA', HT'.
      subst s2. eexists. split; [done|]. split; [done|]. split; [done|]. exists fa'. split; [done|by eapply trade_trans].
  - intros A stk h a fa HA Ho. cbn [encode_entries json_encode_entries]. apply follows_same. intros [[] stk1].
    2:{ eexists. split; [done|]. split; [done|]. split; [done|]. exists fa. split; [done|by apply trade_outside]. }
    assert (HK : forall k, follows (entries_made h fa a)
      ('(c, stk) ← encode_tree limit fuel stk1;
       match c with None => Ret (A, stk) | Some c => encode_entries limit fuel (Json.cJSON_AddItemToObject A k c) (tail stk) end)
      ('(c, stk, h) ← json_encode_tree limit fuel stk1 h;
       if c =? 0 then Ret (stk, h) else h ← cJSON_AddItemToObject a (Text k) c h; json_encode_entries limit fuel a (tail stk) h)).
    { intros k. eapply follows_bind; [apply IHt|]. intros [[c|] s1] [[p s2] h1] [E HM]; cbn in E, HM; subst s2.
      - destruct HM as (Hoc & fp & HI & HT). rewrite (proj2 (Z.eqb_neq p 0)) by (by eapply item_nonnull).
        destruct (item_beside _ _ _ _ _ _ _ _ _ _ HT HI HA) as (HA1 & Hd & HT1).
        destruct (add_object_ok _ _ _ _ _ _ _ _ _ (Text k) k HA1 Ho HI Hd) as (h2 & fa2 & -> & HA2 & HT2); [done|]. ret_step.
        pose proof (IHe _ (tail s1) _ _ _ HA2 ltac:(by destruct A, c)) as HF. revert HF. unfold follows.
        destruct (encode_entries _ _ _ _) as [[A3 s3]| | |]; [|done..]. intros ([s4 h4] & E4 & E5 & Ho3 & fa3 & HA3 & HT3).
        eexists. split; [done|]. split; [done|]. split; [done|]. exists fa3. split; [done|]. cbn in HT3. eauto using trade_trans.
      - destruct HM as [-> ->]. eexists. split; [done|]. split; [done|]. split; [done|]. exists fa. split; [done|by apply trade_outside]. }
    destruct stk1 as [|x [|[[]|] stk2]]; try (by apply IHe); apply HK.
Qed.

(** ** References *)

Lemma create_reference_ok h pr nx i c fi : item_at h pr nx i c fi -> exists r h',
  create_reference i h = Ret (r, h') /\ item_at h' 0 0 r (Item (Z.lor (it_type c) cJSON_IsReference) None (it_valueint c) (it_valuedouble c) None []) [r] /\
  trade h [] h' [r].
Proof.
  intros [(n & f & fn & -> & Hp & Hn & Hv & Hc & _)%seg_cons_inv _]. unfold create_reference.
  destruct (new_item_ok h) as (r & -> & Hr & Hrn). rewrite (proj2 (Z.eqb_neq r 0) Hr).
  assert (r <> i) by congruence. rewrite (node_at_ok _ i n) by (by rewrite lookup_insert_ne). ret_step. rewrite insert_insert_eq.
  eexists r, _. split_and!; [done| |by apply trade_new]. split; [|apply NoDup_singleton].
  eapply (seg_cons _ _ _ _ _ _ _ _ []); [done|apply lookup_insert_eq|done| |apply seg_nil].
  assert (E : it_type c = n_type n /\ it_valueint c = n_valueint n /\ it_valuedouble c = n_valuedouble n) by (by destruct Hc).
  destruct E as (-> & -> & ->).
  apply (content_ref _ (set_next 0 (set_prev 0 (set_type (Z.lor (n_type n) cJSON_IsReference) (set_string 0 n)))) None []); [|done].
  unfold is_ref. cbn. rewrite Z.land_lor_distr_l. destruct (Z.eqb_spec (Z.lor (Z.land (n_type n) cJSON_IsReference) (Z.land cJSON_IsReference cJSON_IsReference)) 0) as [Ez|]; [|done].
  by apply Z.lor_eq_0_iff in Ez as [_ Ez].
Qed.

(** An item added to a container as a reference survives the container. *)
Theorem reference_kept h a A fa pr nx i c fi : item_at h 0 0 a A fa -> owner A -> item_at h pr nx i c fi -> (forall x, x ∈ fa -> x ∉ fi) ->
  exists h', cJSON_AddItemReferenceToArray a i h = Ret h' /\ item_at h' pr nx i c fi /\ cJSON_Delete_all a h' = Ret (deletes fa h).
Proof.
  intros HA Ho HI Hd. destruct (create_reference_ok _ _ _ _ _ _ HI) as (r & h1 & E & HR & HT).
  destruct (item_beside _ _ _ _ _ _ _ _ _ _ HT HR HA) as (HA1 & Hd1 & HT1).
  destruct (item_beside _ _ _ _ _ _ _ _ _ _ HT HR HI) as (HI1 & Hd2 & _).
  destruct (add_item_ok _ _ _ _ _ _ _ _ _ HA1 Ho HR Hd1) as (h2 & E2 & HA2 & O). exists h2.
  unfold cJSON_AddItemReferenceToArray. rewrite E. ret_step. split_and!; [done| |].
  - eapply item_frame; [exact HI1|]. eapply outside_agree; [exact O|]. intros x Hx. rewrite not_elem_of_app. split; [|by apply Hd2].
    intros Hf. by apply (Hd x).
  - apply (delete_item _ _ _ _ _ (deletes fa h) HA2). eapply trade_trans; [|eapply trade_trans; [exact HT1|by apply trade_outside]].
    intros x. split_and!; [|set_solver|intros _; by apply lookup_deletes_in]. intros _ Hx. symmetry. by apply lookup_deletes.
Qed.
End Total.

(** ** The theorems *)

(** C16. A container that is made and edited in any way (items of any kind added with or
    without a name, moved, deleted or replaced, by index or by name) represents what the
    same edits make of the value; its size is the value's; and deleting it gives back the
    heap as it was: every block is freed, once, and no other block is touched. *)
Theorem json_edits {M : JMalloc} {MO : JMallocOk M} {MT : JMallocTotal} m es h0 : Z.of_nat (length es) <= INT_MAX ->
  exists a h fa, ('(a, h) ← make_item m h0; h ← do_edits a es h; Ret (a, h)) = Ret (a, h) /\
    item_at h 0 0 a (fold_left edit_value es (make_value m)) fa /\
    cJSON_GetArraySize a h = Ret (Json.cJSON_GetArraySize (fold_left edit_value es (make_value m))) /\
    cJSON_Delete_all a h = Ret h0.
Proof.
  intros Hl. destruct (make_made m h0) as (a & h1 & fa & E & HA & HT). rewrite E. ret_step.
  assert (Ho : owner (make_value m) /\ it_child (make_value m) = []) by (by destruct m as [| | |[]| | | |]). destruct Ho as [Ho Hc].
  destruct (edits_ok es h1 a _ fa HA Ho ltac:(rewrite Hc; done)) as ((h2 & fa2 & E2 & HA2 & HT2) & Ho2 & Hl2). rewrite E2. ret_step.
  rewrite Hc in Hl2. exists a, h2, fa2. split_and!; [done|done| |].
  - apply (size_ok _ _ _ _ _ _ HA2 Ho2). unfold few. cbn in Hl2. lia.
  - eapply delete_item; [exact HA2|by eapply trade_trans].
Qed.

(** C17. The encoder in memory goes as the encoder of Ljson.v goes, with a malloc that does not
    fail: when that one makes an item, it returns an item in memory that represents it, and
    deleting this gives back the heap as it was; when that one makes none, for a value with
    no JSON form, it returns NULL with the heap as it was; both leave the same stack; and it
    is undefined, raises a Lua error or needs more steps exactly when that one does. *)
Theorem json_encode_heap {M : JMalloc} {MO : JMallocOk M} {MT : JMallocTotal} limit fuel stk h :
  match encode_tree limit fuel stk with
  | Ret (Some c, stk') => exists p h' fp, json_encode_tree limit fuel stk h = Ret (p, stk', h') /\ p <> 0 /\
      item_at h' 0 0 p c fp /\ cJSON_Delete_all p h' = Ret h
  | Ret (None, stk') => json_encode_tree limit fuel stk h = Ret (0, stk', h)
  | Undef => json_encode_tree limit fuel stk h = Undef
  | Raise => json_encode_tree limit fuel stk h = Raise
  | NoFuel => json_encode_tree limit fuel stk h = NoFuel
  end.
Proof.
  pose proof (proj1 (encode_follows limit fuel) stk h) as HF. destruct (encode_tree limit fuel stk) as [[[c|] stk']| | |]; [..|exact HF|exact HF|exact HF].
  - destruct HF as ([[p s] h'] & E & Es & _ & fp & HI & HT). cbn in *. subst s. exists p, h', fp.
    split_and!; [done|by eapply item_nonnull|done|by eapply delete_item].
  - destruct HF as ([[p s] h'] & E & Es & Ep & Eh). cbn in *. by subst.
Qed.

(** ** Examples *)

(** The lowest address above all the blocks. *)
#[export] Instance ExMalloc : JMalloc := {| jmalloc h _ := Some (foldr (fun e m => Z.max (e.1 + 1) m) 1 (map_to_list h)) |}.
Lemma ex_above (l : list (Z * block)) : 0 < foldr (fun e m => Z.max (e.1 + 1) m) 1 l /\
  Forall (fun e => e.1 < foldr (fun e m => Z.max (e.1 + 1) m) 1 l) l.
Proof.
  induction l as [|e l [IH1 IH2]]; cbn; [by split; [lia|]|]. split; [lia|]. constructor; [lia|].
  eapply List.Forall_impl; [|exact IH2]. cbn. intros ? ?. lia.
Qed.
#[export] Instance ExMallocOk : JMallocOk ExMalloc.
Proof.
  split. intros h _ p [= <-]. destruct (ex_above (map_to_list h)) as [H1 H2]. split; [done|].
  match goal with |- h !! ?x = None => destruct (h !! x) as [b|] eqn:Hb; [|done] end.
  apply elem_of_map_to_list in Hb. rewrite Forall_forall in H2. specialize (H2 _ Hb). cbn in H2. lia.
Qed.
#[export] Instance ExMallocTotal : JMallocTotal.
Proof. split. intros. by eexists. Qed.

Definition ex_edits : list edit :=
  [EAddAs [97] (MBool true); EAddAs [98] (MString [120; 121]); EAdd MNull; EMove 0; EReplaceAs [98] (MString [122]); EReplace 5 MNull;
   EDelete 1; EDeleteAs [113]; EReplace (-1) (MNumber d1)].
Lemma json_edits_witness : exists a h fa, ('(a, h) ← make_item MObject (<[9 := BStr []]> ∅); h ← do_edits a ex_edits h; Ret (a, h)) = Ret (a, h) /\
    item_at h 0 0 a (fold_left edit_value ex_edits (make_value MObject)) fa /\
    cJSON_GetArraySize a h = Ret (Json.cJSON_GetArraySize (fold_left edit_value ex_edits (make_value MObject))) /\
    cJSON_Delete_all a h = Ret (<[9 := BStr []]> ∅).
Proof. apply (json_edits MObject ex_edits (<[9 := BStr []]> ∅)). by vm_compute. Defined.
Example ex_edits_value : fold_left edit_value ex_edits (make_value MObject) =
  with_child Json.cJSON_CreateObject [Json.cJSON_CreateNumber d1; set_name (Some [97]) Json.cJSON_CreateTrue].
Proof. by vm_compute. Qed.

Definition ex_table : tree := Tab [(LStr [97], Val (LStr [120])); (lua_pushinteger 1, Tab [(LStr [98], Val (LBool true))])].
Lemma json_encode_heap_witness :
  match encode_tree 20 20 [ex_table] with
  | Ret (Some c, stk') => exists p h' fp, json_encode_tree 20 20 [ex_table] ∅ = Ret (p, stk', h') /\ p <> 0 /\
      item_at h' 0 0 p c fp /\ cJSON_Delete_all p h' = Ret ∅
  | _ => False
  end.
Proof. exact (json_encode_heap 20 20 [ex_table] ∅). Defined.

(** What is left in the heap after a call, and the sizes. *)
Definition left_over {A} (m : res (A * jheap)) : option nat := match m with Ret (_, h) => Some (size h) | _ => None end.

(** A C array of strings as an item: an array, two children and two strings; all are freed. *)
Example string_array : ('(a, h) ← cJSON_CreateStringArray [[97]; [98]] 2 ∅; n ← cJSON_GetArraySize a h; h' ← cJSON_Delete_all a h; Ret (n, size h, h'))
  = Ret (2, 5%nat, ∅).
Proof. by vm_compute. Qed.

(** ReplaceItemInObject gives the new item a name without freeing the one it had. *)
Example replace_leaks_name :
  left_over ('(o, h) ← cJSON_CreateObject ∅; '(i, h) ← cJSON_CreateNull h; h ← cJSON_AddItemToObject o (Text [97]) i h;
             '(p, h) ← cJSON_CreateObject h; '(j, h) ← cJSON_CreateTrue h; h ← cJSON_AddItemToObject p (Text [98]) j h;
             '(j, h) ← cJSON_DetachItemFromArray p 0 h; h ← cJSON_ReplaceItemInObject o (Text [97]) j h;
             h ← cJSON_Delete_all o h; h ← cJSON_Delete_all p h; Ret (tt, h)) = Some 1%nat.
Proof. by vm_compute. Qed.

(** AddItemToObject under the item's own name reads the name after freeing it. *)
Example own_name_undefined :
  ('(o, h) ← cJSON_CreateObject ∅; '(i, h) ← cJSON_CreateNull h; h ← cJSON_AddItemToObject o (Text [97]) i h;
   '(i, h) ← cJSON_DetachItemFromArray o 0 h; n ← node_at h i; cJSON_AddItemToObject o (At (n_string n)) i h) = Undef.
Proof. by vm_compute. Qed.

(** An item that was added as a reference must outlive the container: to delete it first
    leaves the container with a pointer to freed memory. *)
Example reference_dangles :
  match ('(o, h) ← cJSON_CreateObject ∅; '(s, h) ← cJSON_CreateString (Text [97]) h; h ← cJSON_AddItemReferenceToArray o s h;
         h ← cJSON_Delete_all s h; r ← cJSON_GetArrayItem o 0 h; n ← node_at h r; Ret (n, h)) with
  | Ret (n, h) => n_type n = 260 /\ chars_at h (n_valuestring n) = Undef
  | _ => False
  end.
Proof. by vm_compute. Qed.

(** The second child of the array cannot be allocated: it is linked all the same. *)
#[local] Instance ExFull : JMalloc := {| jmalloc h n := if (size h <? 2)%nat then @jmalloc ExMalloc h n else None |}.
Example array_out_of_memory : @cJSON_CreateIntArray ExFull [1; 2] 2 ∅ = Undef.
Proof. by vm_compute. Qed.
