(* ===== verification/Srvproto.v ===== *)
(** * Srvproto: messages between servers, over the buffers and archives

    Source: src/mod/srvproto/srvproto.lua, the script that uses the receive buffers, the send
    buffers, the archives and the ports together.  A message is a list of values; it travels
    as a frame: its length in 4 bytes, the number of values in 2, and each value under a tag.

    The C functions are those of Recvbuf.v, Sendbuf.v, Ar.v and Lport.v, on one process and
    its memory.  Numbers that these return are integers and are compared as such.  Log output
    is left out.  Postproto.dispatch, which a message is handed to, is another module and a
    parameter ([PostHandler]), a function of the process.  Protobuf messages belong to Pblua.v
    and are parameters too ([PbScript]).  A message that is sent holds no nil and no boolean: pairs
    skips the one, and the other is counted but not written. *)
From Stdlib Require Import SpecFloat.
From S2P Require Import Prelude Mem Lua LuaStack Dbl Json Ljson Ar Sendbuf Recvbuf Ae Proc Lport.
Local Open Scope Z_scope.

(** ** The process and its archives *)

Record world (E D : Type) := World { w_proc : proc E D; w_ars : list ar_t }.
Arguments World {E D}. Arguments w_proc {E D}. Arguments w_ars {E D}.

Section World.
Context {E D : Type}.
Implicit Types w : world E D.
Definition ar_st w : Ar.st := Ar.St (w_ars w) (g_heap (w_proc w)).
Definition set_ar_st w (s : Ar.st) : world E D :=
  World (set_recv (w_proc w) (Recvbuf.St (g_rbufs (w_proc w)) (g_total (w_proc w)) (Ar.hp s))) (Ar.s_ars s).
Definition on_ar {A} (f : Ar.st -> res (A * Ar.st)) w : res (A * world E D) :=
  '(x, s) ← f (ar_st w); Ret (x, set_ar_st w s).
Definition on_proc {A} (f : proc E D -> res (A * proc E D)) w : res (A * world E D) :=
  '(x, g) ← f (w_proc w); Ret (x, World g (w_ars w)).
End World.

(** ** Values *)

(** The first result, or nil. *)
Definition first (out : list lval) : lval := default LNil (head out).
(** A result that the script computes with: nil raises an error. *)
Definition num (out : list lval) : res Z := match out with LNum d :: _ => Ret (d2i64 d) | _ => Raise end.
Definition eq_num (v : lval) (k : Z) : bool :=
  match v with LNum d => match SFcompare d (d_of_Z k) with Some Eq => true | _ => false end | _ => false end.
(** table.insert at the end; inserting nil changes nothing. *)
Definition insert (args out : list lval) : list lval := if is_nil (first out) then args else args ++ [first out].

(** A value that is sent: a number, a string, a table, or a protobuf message. *)
Inductive sval := SNum (d : lnumber) | SStr (s : bytes) | STab (t : tree) | SMsg (m : lval).
(** msgname, tostring and bytesize of a message; msgnew and parse_from_buf on the bytes. *)
Class PbScript := { pb_msgname : lval -> bytes; pb_tostring : lval -> bytes; pb_bytesize : lval -> Z;
  pb_parse : lval -> bytes -> res (list lval) }.

(** Postproto.dispatch(sockfd, ...), called in the middle of the loop. *)
Class PostHandler (E D : Type) := { post_dispatch : lval -> list lval -> world E D -> res (world E D) }.

Definition NIL_TYPE : Z := 1.
Definition INT_TYPE : Z := 2.
Definition STR_TYPE : Z := 3.
Definition PROTOBUF_TYPE : Z := 4.
Definition JSON_TYPE : Z := 5.
Definition POST_PROTO : Z := 1.

Section Script.
Context {F : LuaFmt} {JL : JsonLib} {PB : PbScript}.

(** ** Reading a message *)

(** The loop over the values.  A table arrives as its text: the decoded value is dropped.
    After a protobuf message the archive still stands before its bytes. *)
Fixpoint read_args (n : nat) (arfd : lval) (args : list lval) (s : Ar.st) : res (list lval * Ar.st) :=
  match n with
  | O => Ret (args, s)
  | S n =>
      '(out, s) ← Ar.lreadint8 [arfd] s;
      let tag := first out in
      if eq_num tag INT_TYPE then '(val, s) ← Ar.lreadint32 [arfd] s; read_args n arfd (insert args val) s
      else if eq_num tag NIL_TYPE then read_args n arfd (insert args [LNil]) s
      else if eq_num tag STR_TYPE then '(val, s) ← Ar.lreadlstr [arfd] s; read_args n arfd (insert args val) s
      else if eq_num tag JSON_TYPE then
        '(val, s) ← Ar.lreadlstr [arfd] s;
        _ ← Ljson.ldecode [Val (first val)];
        read_args n arfd (insert args val) s
      else if eq_num tag PROTOBUF_TYPE then
        '(msgname, s) ← Ar.lreadlstr [arfd] s;
        '(len, s) ← Ar.lreadint16 [arfd] s;
        '(ptr, s) ← Ar.lgetptr [arfd] s;
        buflen ← num len;
        buf ← of_option (loadz (h_mem (Ar.hp s)) (lua_touserdata ptr 1) buflen);
        msg ← pb_parse (first msgname) buf;
        read_args n arfd (insert args msg) s
      else read_args n arfd args s
  end.
(** The length and the values. *)
Definition parse (arfd : lval) (s : Ar.st) : res ((Z * list lval) * Ar.st) :=
  '(out, s) ← Ar.lreadint32 [arfd] s;
  plen ← num out;
  '(out, s) ← Ar.lreadint16 [arfd] s;
  argcount ← num out;
  '(args, s) ← read_args (Z.to_nat argcount) arfd [] s;
  Ret ((plen, args), s).

Context {E D : Type} {OS : Os E} {A : Allocator}.
Context {PH : PostHandler E D}.
Implicit Types w : world E D.

(** The loop of dispatch.  [acc] records the messages that were handed to Postproto; a message
    for another protocol is skipped. *)
Fixpoint unpack (fuel : nat) (sockfd : lval) (acc : list (list lval)) w : res (list (list lval) * world E D) :=
  match fuel with
  | O => NoFuel
  | S fuel =>
      '(out, w) ← on_proc (on_recv (Recvbuf.ldatalen [sockfd])) w;
      datalen ← num out;
      if datalen <=? 4 then Ret (acc, w)
      else
        '(out, w) ← on_proc (on_recv (Recvbuf.lgetint32 [sockfd])) w;
        plen ← num out;
        if datalen <? plen then Ret (acc, w)
        else
          '(out, w) ← on_proc (on_recv (Recvbuf.lgetrptr [sockfd])) w;
          '(out, w) ← on_ar (Ar.lcreate [first out; lua_pushinteger datalen]) w;
          let arfd := first out in
          '((plen, args), w) ← on_ar (parse arfd) w;
          '(acc, w) ← (if eq_num (first args) POST_PROTO
                       then w ← post_dispatch sockfd args w; Ret (acc ++ [args], w) else Ret (acc, w));
          '(_, w) ← on_ar (Ar.lfree [arfd]) w;
          '(_, w) ← on_proc (on_recv (Recvbuf.lrskip [sockfd; lua_pushinteger plen])) w;
          unpack fuel sockfd acc w
  end.

(** dispatch: an error of recv, or the messages that were handed over. *)
Definition dispatch (fuel : nat) (sockfd : lval) w : res ((option lval * list (list lval)) * world E D) :=
  '(buf, w) ← on_proc (on_recv (Recvbuf.lgetwptr [sockfd])) w;
  '(out, w) ← on_proc (on_recv (Recvbuf.lbufremain [sockfd])) w;
  bufremain ← num out;
  '(out, w) ← on_proc (Lport.lrecv [sockfd; first buf; lua_pushinteger bufremain]) w;
  recv ← num out;
  if recv =? -1 then Ret ((Some (first (tail out)), []), w)
  else if recv =? 0 then Ret ((None, []), w)
  else
    '(_, w) ← on_proc (on_recv (Recvbuf.lwskip [sockfd; lua_pushinteger recv])) w;
    '(msgs, w) ← unpack fuel sockfd [] w;
    '(_, w) ← on_proc (on_recv (Recvbuf.lbuf2line [sockfd])) w;
    Ret ((None, msgs), w).

(** ** Sending a message *)

Definition json_text (t : tree) : res bytes :=
  out ← Ljson.lencode [t];
  match out with [Val (LStr s)] => Ret s | _ => Raise end.
Definition arg_len (v : sval) : res Z :=
  match v with
  | SNum _ => Ret (1 + 4)
  | SStr s => Ret (1 + 2 + Z.of_nat (length s))
  | STab t => str ← json_text t; Ret (1 + 2 + Z.of_nat (length str))
  | SMsg m => Ret (1 + 2 + Z.of_nat (length (pb_msgname m)) + (2 + pb_bytesize m))
  end.
Fixpoint calc_len (len : Z) (args : list sval) : res Z :=
  match args with [] => Ret len | v :: args => n ← arg_len v; calc_len (len + n) args end.
Definition write_arg (arfd : lval) (v : sval) (s : Ar.st) : res Ar.st :=
  let tagged (tag : Z) (k : Ar.st -> res Ar.st) := '(_, s) ← Ar.lwriteint8 [arfd; lua_pushinteger tag] s; k s in
  match v with
  | SNum d => tagged INT_TYPE (fun s => '(_, s) ← Ar.lwriteint32 [arfd; LNum d] s; Ret s)
  | SStr str => tagged STR_TYPE (fun s => '(_, s) ← Ar.lwritelstr [arfd; LStr str] s; Ret s)
  | STab t => str ← json_text t; tagged JSON_TYPE (fun s => '(_, s) ← Ar.lwritelstr [arfd; LStr str] s; Ret s)
  | SMsg m => tagged PROTOBUF_TYPE (fun s =>
      '(_, s) ← Ar.lwritelstr [arfd; LStr (pb_msgname m)] s;
      '(_, s) ← Ar.lwritelstr [arfd; LStr (pb_tostring m)] s; Ret s)
  end.
Fixpoint write_args (arfd : lval) (args : list sval) (s : Ar.st) : res Ar.st :=
  match args with [] => Ret s | v :: args => s ← write_arg arfd v s; write_args arfd args s end.
Definition write_msg (arfd : lval) (plen : Z) (args : list sval) (s : Ar.st) : res (unit * Ar.st) :=
  '(_, s) ← Ar.lwriteint32 [arfd; lua_pushinteger plen] s;
  '(_, s) ← Ar.lwriteint16 [arfd; lua_pushinteger (Z.of_nat (length args))] s;
  s ← write_args arfd args s;
  Ret (tt, s).

(** Up to the flush: the message is in the queue of the socket. *)
Definition enqueue_msg (sockfd : lval) (args : list sval) w : res (world E D) :=
  n ← calc_len 2 args;
  let plen := 4 + n in
  '(buf, w) ← on_proc (on_send (Sendbuf.lalloc [sockfd; lua_pushinteger plen])) w;
  '(out, w) ← on_ar (Ar.lcreate [first buf; lua_pushinteger plen]) w;
  let arfd := first out in
  '(_, w) ← on_ar (write_msg arfd plen args) w;
  '(_, w) ← on_proc (on_send (Sendbuf.lflush [sockfd; first buf; lua_pushinteger plen])) w;
  '(_, w) ← on_ar (Ar.lfree [arfd]) w;
  Ret w.
Definition send {API : AeApi (proc E D) D} (sockfd : lval) (args : list sval) w : res (world E D) :=
  w ← enqueue_msg sockfd args w;
  '(_, w) ← on_proc (Lport.ladd_write_event [sockfd]) w;
  Ret w.
End Script.

(** ** Frames *)

(** The values of the theorems: integers and strings. *)
Inductive arg := AInt (v : Z) | AStr (s : bytes).
Definition arg_sval (x : arg) : sval := match x with AInt v => SNum (d_of_Z v) | AStr s => SStr s end.
Definition arg_val (x : arg) : lval := match x with AInt v => lua_pushinteger v | AStr s => LStr s end.
Definition arg_items (x : arg) : list item := match x with AInt v => [I8 INT_TYPE; I32 v] | AStr s => [I8 STR_TYPE; LStrI s] end.
Definition arg_ok (x : arg) : Prop := match x with AInt v => INT_MIN <= v <= INT_MAX | AStr s => Z.of_nat (length s) < 2 ^ 15 end.
Definition body (m : list arg) : bytes := wire (flat_map arg_items m).
Definition plen_of (m : list arg) : Z := 6 + Z.of_nat (length (body m)).
(** A frame with [n] in its length field; the right one. *)
Definition framed (n : Z) (m : list arg) : bytes := wire (I32 n :: I16 (Z.of_nat (length m)) :: flat_map arg_items m).
Definition msg_items (m : list arg) : list item := I32 (plen_of m) :: I16 (Z.of_nat (length m)) :: flat_map arg_items m.
Definition frame (m : list arg) : bytes := wire (msg_items m).
Definition msg_ok (m : list arg) : Prop := Forall arg_ok m /\ Z.of_nat (length m) < 2 ^ 15 /\ plen_of m <= INT_MAX.

Definition frames (ms : list (list arg)) : bytes := concat (map frame ms).

Lemma framed_split n m : framed n m = le_enc 4 n ++ le_enc 2 (Z.of_nat (length m)) ++ body m.
Proof. done. Qed.
Lemma framed_length n m : Z.of_nat (length (framed n m)) = plen_of m.
Proof. rewrite framed_split, !length_app, !le_enc_length. unfold plen_of. lia. Qed.
Lemma frame_split m : frame m = le_enc 4 (plen_of m) ++ le_enc 2 (Z.of_nat (length m)) ++ body m.
Proof. done. Qed.
Lemma frame_length m : Z.of_nat (length (frame m)) = plen_of m.
Proof. apply (framed_length (plen_of m)). Qed.
Lemma plen_pos m : 6 <= plen_of m.
Proof. unfold plen_of. lia. Qed.
Lemma wire_app a b : wire (a ++ b) = wire a ++ wire b.
Proof. unfold wire. by rewrite map_app, concat_app. Qed.
Lemma arg_items_ok x : arg_ok x -> Forall item_ok (arg_items x).
Proof.
  destruct x as [v|s]; cbn [arg_ok arg_items]; unfold INT_MIN, INT_MAX; intros H; rewrite !Forall_cons; cbn [item_ok]; unfold INT_TYPE, STR_TYPE;
    (split_and!; [lia..|]); apply List.Forall_nil.
Qed.
Lemma body_items_ok m : Forall arg_ok m -> Forall item_ok (flat_map arg_items m).
Proof. induction 1 as [|x m Hx _ IH]; cbn; [constructor|]. apply Forall_app. split; [by apply arg_items_ok|done]. Qed.
Lemma msg_items_ok m : msg_ok m -> Forall item_ok (msg_items m).
Proof.
  intros (H1 & H2 & H3). pose proof (plen_pos m). unfold INT_MAX in *. unfold msg_items. rewrite !Forall_cons. cbn [item_ok].
  split_and!; [lia..|]. by apply body_items_ok.
Qed.

Section Parse.
Context {F : LuaFmt} {JL : JsonLib} {PB : PbScript}.

Lemma tag_int : eq_num (first [item_val (I8 INT_TYPE)]) INT_TYPE = true.
Proof. by vm_compute. Qed.
Lemma tag_str : eq_num (first [item_val (I8 STR_TYPE)]) INT_TYPE = false /\ eq_num (first [item_val (I8 STR_TYPE)]) NIL_TYPE = false /\
  eq_num (first [item_val (I8 STR_TYPE)]) STR_TYPE = true.
Proof. by vm_compute. Qed.
Lemma tag_json : eq_num (first [item_val (I8 JSON_TYPE)]) INT_TYPE = false /\
  eq_num (first [item_val (I8 JSON_TYPE)]) NIL_TYPE = false /\
  eq_num (first [item_val (I8 JSON_TYPE)]) STR_TYPE = false /\
  eq_num (first [item_val (I8 JSON_TYPE)]) JSON_TYPE = true.
Proof. by vm_compute. Qed.
Lemma tag_msg : eq_num (first [item_val (I8 PROTOBUF_TYPE)]) INT_TYPE = false /\
  eq_num (first [item_val (I8 PROTOBUF_TYPE)]) NIL_TYPE = false /\
  eq_num (first [item_val (I8 PROTOBUF_TYPE)]) STR_TYPE = false /\
  eq_num (first [item_val (I8 PROTOBUF_TYPE)]) JSON_TYPE = false /\
  eq_num (first [item_val (I8 PROTOBUF_TYPE)]) PROTOBUF_TYPE = true.
Proof. by vm_compute. Qed.
(** Reading one item of a stretch of memory. *)
Lemma read_next s k a it rest : slot_ok s k a -> item_ok it -> Z.of_nat (length (enc it ++ rest)) <= Ar.buf_len a - Ar.rptr a ->
  mload (h_mem (Ar.hp s)) (Ar.buf a + Ar.rptr a) (length (enc it ++ rest)) = Some (enc it ++ rest) ->
  let a' := Ar.set_rptr a (Ar.rptr a + item_size it) in let s' := advance s k a (item_size it) in
  read_item k it s = Ret ([item_val it], s') /\ slot_ok s' k a' /\ Z.of_nat (length rest) <= Ar.buf_len a' - Ar.rptr a' /\
  mload (h_mem (Ar.hp s')) (Ar.buf a' + Ar.rptr a') (length rest) = Some rest /\
  (forall n, advance s' k a' n = advance s k a (item_size it + n)).
Proof.
  intros Hs Hit Hn Hl. rewrite length_app in Hn, Hl. apply mload_app_inv in Hl as [H1 H2].
  rewrite take_app_length in H1. rewrite drop_app_length in H2. cbv zeta. unfold item_size in *. split_and!.
  - apply read_item_ok; [done|done|unfold item_size; lia|done].
  - apply slot_advance; [done|lia].
  - cbn. lia.
  - cbn. by rewrite Z.add_assoc.
  - intros n. destruct Hs as (_ & Ha & _). unfold advance, set_ar. cbn. rewrite list_insert_insert_eq. do 2 f_equal.
    unfold Ar.set_rptr. cbn. f_equal. lia.
Qed.

Lemma read_values_ok m : forall s k a args, Forall arg_ok m -> slot_ok s k a ->
  Z.of_nat (length (body m)) <= Ar.buf_len a - Ar.rptr a -> mload (h_mem (Ar.hp s)) (Ar.buf a + Ar.rptr a) (length (body m)) = Some (body m) ->
  exists s', read_args (length m) (lua_pushinteger k) args s = Ret (args ++ map arg_val m, s') /\ s' = advance s k a (Z.of_nat (length (body m))).
Proof.
  induction m as [|x m IH]; intros s k a args Hok Hs Hn Hl.
  - exists s. cbn. rewrite app_nil_r. split; [done|]. destruct Hs as (_ & Ha & _). unfold advance, set_ar. cbn. rewrite list_insert_id.
    { by destruct s. } { rewrite Ha. unfold Ar.set_rptr. rewrite Z.add_0_r. by destruct a. }
  - apply Forall_cons in Hok as [Hx Hok].
    assert (E : body (x :: m) = wire (arg_items x) ++ body m) by apply wire_app.
    assert (Ei : exists it1 it2, arg_items x = [it1; it2] /\ item_ok it1 /\ item_ok it2).
    { pose proof (arg_items_ok x Hx) as H. destruct x; cbn [arg_items] in H; apply Forall_cons in H as [H1 [H2 _]%Forall_cons]; by do 2 eexists. }
    destruct Ei as (it1 & it2 & Ex & Hi1 & Hi2). rewrite Ex in E. unfold wire in E. cbn [map concat] in E. rewrite app_nil_r, <- app_assoc in E.
    rewrite E in Hn, Hl. destruct (read_next s k a it1 _ Hs Hi1 Hn Hl) as (R1 & Hs1 & Hn1 & Hl1 & Ha1). cbv zeta in *.
    destruct (read_next _ k _ it2 _ Hs1 Hi2 Hn1 Hl1) as (R2 & Hs2 & Hn2 & Hl2 & Ha2). cbv zeta in *.
    destruct (IH _ k _ (insert args [item_val it2]) Hok Hs2 Hn2 Hl2) as (s' & R3 & Es). exists s'. split.
    + cbn [read_args length]. unfold arg_ok, INT_MIN, INT_MAX in Hx.
      destruct x as [v|str]; injection Ex as <- <-; cbn [read_item] in R1, R2; rewrite R1; ret_step; cbv zeta.
      * rewrite tag_int, R2. ret_step. rewrite R3. unfold insert.
        cbn [first head default is_nil item_val map arg_val lua_pushinteger id]. rewrite <- app_assoc, wrapS_id; [done|lia|unfold in_s; lia].
      * destruct tag_str as (-> & -> & ->). rewrite R2. ret_step. rewrite R3. unfold insert.
        cbn [first head default is_nil item_val map arg_val id]. by rewrite <- app_assoc.
    + rewrite Es, Ha2, Ha1. f_equal. rewrite E, !length_app. unfold item_size. lia.
Qed.

Lemma parse_ok pl m s k a : msg_ok m -> 0 <= pl < 2 ^ 31 -> slot_ok s k a -> plen_of m <= Ar.buf_len a - Ar.rptr a ->
  mload (h_mem (Ar.hp s)) (Ar.buf a + Ar.rptr a) (length (framed pl m)) = Some (framed pl m) ->
  parse (lua_pushinteger k) s = Ret ((pl, map arg_val m), advance s k a (plen_of m)).
Proof.
  intros Hok Hpl Hs Hn Hl. pose proof (msg_items_ok m Hok) as Hi. destruct Hok as (Hm & Hc & Hp). pose proof (plen_pos m) as Hpos. unfold INT_MAX in Hp.
  apply Forall_cons in Hi as [_ [Hi2 _]%Forall_cons]. assert (Hi1 : item_ok (I32 pl)) by (cbn [item_ok]; lia).
  rewrite <- (framed_length pl) in Hn. change (framed pl m) with (enc (I32 pl) ++ enc (I16 (Z.of_nat (length m))) ++ body m) in Hl, Hn.
  destruct (read_next s k a _ _ Hs Hi1 Hn Hl) as (R1 & Hs1 & Hn1 & Hl1 & Ha1). cbv zeta in *.
  destruct (read_next _ k _ _ _ Hs1 Hi2 Hn1 Hl1) as (R2 & Hs2 & Hn2 & Hl2 & Ha2). cbv zeta in *. cbn [read_item] in R1, R2.
  destruct (read_values_ok m _ k _ [] Hm Hs2 Hn2 Hl2) as (s' & R3 & Es). unfold parse.
  rewrite R1. ret_step. cbn [item_val num lua_pushinteger]. rewrite wrapS_id, d2i64_of_Z by (lia || (unfold in_s; lia)). ret_step.
  rewrite R2. ret_step. cbn [item_val num lua_pushinteger]. rewrite wrapS_id, d2i64_of_Z by (lia || (unfold in_s; lia)). ret_step.
  rewrite Nat2Z.id, R3. ret_step. do 2 f_equal. rewrite Es, Ha2, Ha1. f_equal. unfold item_size, plen_of. cbn. lia.
Qed.

(** A table that was sent arrives as its text: what decode returns is not used. *)
Theorem table_arrives_as_text s k a t out n args : slot_ok s k a -> Z.of_nat (length t) < 2 ^ 15 ->
  let w := enc (I8 JSON_TYPE) ++ enc (LStrI t) in
  Z.of_nat (length w) <= Ar.buf_len a - Ar.rptr a -> mload (h_mem (Ar.hp s)) (Ar.buf a + Ar.rptr a) (length w) = Some w ->
  Ljson.ldecode [Val (LStr t)] = Ret out ->
  read_args (S n) (lua_pushinteger k) args s = read_args n (lua_pushinteger k) (args ++ [LStr t]) (advance s k a (Z.of_nat (length w))).
Proof.
  intros Hs Ht w Hn Hl Hj. unfold w in Hn, Hl.
  destruct (read_next s k a (I8 JSON_TYPE) (enc (LStrI t)) Hs ltac:(cbn [item_ok]; unfold JSON_TYPE; lia) Hn Hl) as (R1 & Hs1 & Hn1 & Hl1 & Ha1). cbv zeta in *.
  rewrite <- (app_nil_r (enc (LStrI t))) in Hn1, Hl1.
  destruct (read_next _ k _ (LStrI t) [] Hs1 ltac:(cbn [item_ok]; lia) Hn1 Hl1) as (R2 & _). cbv zeta in *. cbn [read_item] in R1, R2.
  cbn [read_args]. rewrite R1. ret_step. cbv zeta. destruct tag_json as (-> & -> & -> & ->).
  rewrite R2. ret_step. cbn [item_val first head default id]. rewrite Hj. ret_step. f_equal.
  rewrite Ha1. f_equal. unfold w, item_size. rewrite length_app. lia.
Qed.
(** The bytes of a protobuf message stay in the archive: the next value is read from them. *)
Theorem message_not_skipped s k a name len pay msg n args : slot_ok s k a -> Z.of_nat (length name) < 2 ^ 15 ->
  Z.of_nat (length pay) = len -> 0 <= len < 2 ^ 15 ->
  let hd := [I8 PROTOBUF_TYPE; LStrI name; I16 len] in let w := wire hd ++ pay in
  Z.of_nat (length w) <= Ar.buf_len a - Ar.rptr a -> mload (h_mem (Ar.hp s)) (Ar.buf a + Ar.rptr a) (length w) = Some w ->
  pb_parse (LStr name) pay = Ret msg ->
  read_args (S n) (lua_pushinteger k) args s = read_args n (lua_pushinteger k) (insert args msg) (advance s k a (Z.of_nat (length (wire hd)))).
Proof.
  intros Hs Ht Hlp Hlen hd w Hn Hl Hj.
  assert (Ew : w = enc (I8 PROTOBUF_TYPE) ++ enc (LStrI name) ++ enc (I16 len) ++ pay) by
    (unfold w, wire, hd; cbn [map concat]; by rewrite app_nil_r, <- !app_assoc). rewrite Ew in Hn, Hl.
  destruct (read_next s k a (I8 PROTOBUF_TYPE) _ Hs ltac:(cbn [item_ok]; unfold PROTOBUF_TYPE; lia) Hn Hl) as (R1 & Hs1 & Hn1 & Hl1 & Ha1). cbv zeta in *.
  destruct (read_next _ k _ (LStrI name) _ Hs1 ltac:(cbn [item_ok]; lia) Hn1 Hl1) as (R2 & Hs2 & Hn2 & Hl2 & Ha2). cbv zeta in *.
  destruct (read_next _ k _ (I16 len) _ Hs2 ltac:(cbn [item_ok]; lia) Hn2 Hl2) as (R3 & Hs3 & Hn3 & Hl3 & Ha3). cbv zeta in *. cbn [read_item] in R1, R2, R3.
  cbn [read_args]. rewrite R1. ret_step. cbv zeta. destruct tag_msg as (-> & -> & -> & -> & ->).
  rewrite R2. ret_step. rewrite R3. ret_step. set (s3 := advance _ _ _ (item_size (I16 len))) in *.
  set (p := Ar.buf a + (Ar.rptr a + item_size (I8 PROTOBUF_TYPE) + item_size (LStrI name) + item_size (I16 len))).
  assert (HP : Ar.lgetptr [lua_pushinteger k] s3 = Ret ([lua_pushlightuserdata p], s3)).
  { unfold Ar.lgetptr. pose proof Hs3 as (Hk & _). rewrite fd_arg by lia. rewrite (fd2ar_slot _ _ _ Hs3). by ret_step. }
  rewrite HP. ret_step. cbn [item_val num lua_pushinteger]. rewrite wrapS_id, d2i64_of_Z by (lia || (unfold in_s; lia)). ret_step.
  change (lua_touserdata _ 1) with p. cbn [Ar.buf Ar.rptr Ar.set_rptr] in Hl3. fold p in Hl3. rewrite <- Hlp at 1.
  rewrite (loadz_mload _ _ _ Hl3). ret_step. cbn [item_val first head default id]. rewrite Hj. ret_step. f_equal.
  unfold s3. rewrite Ha2, Ha1. f_equal. unfold hd, wire, item_size. cbn [map concat]. rewrite !length_app. cbn [length]. lia.
Qed.
End Parse.

(** ** The process, step by step *)

Section Steps.
Context {F : LuaFmt} {E D : Type}.
Implicit Types w : world E D.
Definition put_recv w (s : Recvbuf.st) : world E D := World (set_recv (w_proc w) s) (w_ars w).
Definition recv_of w : Recvbuf.st := recv_st (w_proc w).
Definition put_ars w (l : list ar_t) : world E D := World (w_proc w) l.

Lemma on_recv_Ret {B} (f : Recvbuf.st -> res (B * Recvbuf.st)) w x s : f (recv_of w) = Ret (x, s) -> on_proc (on_recv f) w = Ret (x, put_recv w s).
Proof. intros H. unfold on_proc, on_recv. fold (recv_of w). by rewrite H. Qed.
Lemma put_recv_same w : put_recv w (recv_of w) = w.
Proof. by destruct w as [[]]. Qed.
Lemma recv_of_put w s : recv_of (put_recv w s) = s.
Proof. by destruct s. Qed.
Lemma on_recv_look {B} (f : Recvbuf.st -> res (B * Recvbuf.st)) w x : f (recv_of w) = Ret (x, recv_of w) -> on_proc (on_recv f) w = Ret (x, w).
Proof. intros H. by rewrite (on_recv_Ret _ _ _ _ H), put_recv_same. Qed.
(** A call that changes the archives only. *)
Lemma on_ar_Ret {B} (f : Ar.st -> res (B * Ar.st)) w x l : f (ar_st w) = Ret (x, Ar.St l (g_heap (w_proc w))) -> on_ar f w = Ret (x, put_ars w l).
Proof. intros H. unfold on_ar. rewrite H. unfold set_ar_st, put_ars. by destruct w as [[]]. Qed.

Definition free_slot (l : list ar_t) : Prop := length l = MAX_AR /\ exists j a, (1 <= j < MAX_AR)%nat /\ l !! j = Some a /\ used a = 0.
Lemma find_free_some l n : forall i j a, l !! j = Some a -> used a = 0 -> (i <= j < i + n)%nat -> (i + n <= length l)%nat ->
  exists k b, find_free l i n = Some k /\ (i <= k < i + n)%nat /\ l !! k = Some b /\ used b = 0.
Proof.
  induction n as [|n IH]; intros i j a Hj Ha Hr Hl; [lia|]. cbn [find_free].
  destruct (lookup_lt_is_Some_2 l i) as [b Hb]; [lia|]. rewrite Hb. destruct (Z.eqb_spec (used b) 0) as [E0|E0].
  - exists i, b. split_and!; [done|lia|lia|done|done].
  - destruct (decide (j = i)) as [->|]; [congruence|]. destruct (IH (S i) j a) as (k & c & H1 & H2 & H3); [done|done|lia|lia|].
    exists k, c. split_and!; [done|lia|lia|apply H3|apply H3].
Qed.
Lemma ar_create_ok l h p n : free_slot l -> 0 <= n < 2 ^ 64 -> exists k b, ar_create p n (Ar.St l h) = (k, Ar.St (<[Z.to_nat k := Ar_t p n 0 1]> l) h) /\
  1 <= k < Z.of_nat MAX_AR /\ l !! Z.to_nat k = Some b /\ used b = 0.
Proof.
  intros (Hl & j & a & Hj & Ha & Hu) Hn. destruct (find_free_some l (MAX_AR - 1) 1 j a) as (k & b & Hk & Hr & Hb); [done|done|unfold MAX_AR in *; lia|lia|].
  exists (Z.of_nat k), b. unfold ar_create. cbn [s_ars Ar.hp]. rewrite Hk, wrapU_id by done. rewrite Nat2Z.id. split; [done|]. unfold MAX_AR in *. split; [lia|done].
Qed.
Lemma lcreate_ok w p n : free_slot (w_ars w) -> 0 <= n < 2 ^ 31 ->
  exists k b, on_ar (Ar.lcreate [lua_pushlightuserdata p; lua_pushinteger n]) w = Ret ([lua_pushinteger k], put_ars w (<[Z.to_nat k := Ar_t p n 0 1]> (w_ars w))) /\
    1 <= k < Z.of_nat MAX_AR /\ w_ars w !! Z.to_nat k = Some b /\ used b = 0.
Proof.
  intros Hf Hn. destruct (ar_create_ok (w_ars w) (g_heap (w_proc w)) p n Hf ltac:(lia)) as (k & b & Hk & Hkr). exists k, b. split; [|done].
  apply on_ar_Ret. unfold Ar.lcreate. lua_guard. rewrite int_arg2 by (unfold in_s; lia).
  change (lua_touserdata _ 1) with p. unfold ar_st. by rewrite Hk.
Qed.
Lemma lfree_ok w k a : w_ars w !! Z.to_nat k = Some a -> 0 <= k < Z.of_nat MAX_AR ->
  on_ar (Ar.lfree [lua_pushinteger k]) w = Ret ([], put_ars w (<[Z.to_nat k := Ar_t (Ar.buf a) (Ar.buf_len a) (Ar.rptr a) 0]> (w_ars w))).
Proof.
  intros Ha Hk. apply on_ar_Ret. unfold Ar.lfree. rewrite fd_arg by lia. unfold fd2ar, ar_st. rewrite (proj2 (Z.leb_le 0 k)) by lia.
  cbn [s_ars]. rewrite Ha. by ret_step.
Qed.
Lemma free_insert l k a : free_slot l -> used a = 0 -> free_slot (<[k := a]> l).
Proof.
  intros (Hl & j & b & Hj & Hb & Hu) Ha. split; [by rewrite length_insert|]. destruct (decide (j = k)) as [->|Hne].
  - exists k, a. split_and!; [lia|lia| |done]. apply list_lookup_insert_eq. lia.
  - exists j, b. split_and!; [lia|lia| |done]. by rewrite list_lookup_insert_ne.
Qed.

(** Every archive that is in use stays as it is. *)
Definition ars_kept (l l' : list ar_t) : Prop := forall k a, (1 <= k)%nat -> l !! k = Some a -> used a <> 0 -> l' !! k = Some a.
Lemma ars_kept_insert l k a b : l !! k = Some b -> used b = 0 \/ k = 0%nat -> ars_kept l (<[k := a]> l).
Proof. intros Hb Hu j c Hj Hc Hcu. rewrite list_lookup_insert_ne; [done|]. intros ->. rewrite Hb in Hc. injection Hc as ->. by destruct Hu; [|lia]. Qed.
End Steps.

(** ** Sending *)

Section Send.
Context {F : LuaFmt} {JL : JsonLib} {PB : PbScript} {E D : Type} {OS : Os E} {A : Allocator} {AOk : AllocatorOk A}.
Implicit Types w : world E D.
Variable fd : Z.
Hypothesis fd_ok : 0 < fd < Sendbuf.MAX_SOCKET.
Local Abbreviation sock := (lua_pushinteger fd).
Definition send_of w : Sendbuf.st := send_st (w_proc w).
Definition put_send w (s : Sendbuf.st) : world E D := World (set_send (w_proc w) s) (w_ars w).

Lemma on_send_Ret {B} (f : Sendbuf.st -> res (B * Sendbuf.st)) w x s : f (send_of w) = Ret (x, s) -> on_proc (on_send f) w = Ret (x, put_send w s).
Proof. intros H. unfold on_proc, on_send. fold (send_of w). by rewrite H. Qed.
Lemma send_of_put w s : send_of (put_send w s) = s.
Proof. by destruct s. Qed.
(** A call that changes an archive, and the memory at its cursor. *)
Lemma on_ar_mem {B} (f : Ar.st -> res (B * Ar.st)) w x l m : f (ar_st w) = Ret (x, Ar.St l (Heap m (h_blk (g_heap (w_proc w))))) ->
  on_ar f w = Ret (x, put_send (put_ars w l) (Sendbuf.set_mem (send_of w) m)).
Proof. intros H. unfold on_ar. rewrite H. done. Qed.

(** What sending leaves alone: a block of the memory that the send buffers do not own. *)
Definition foreign (s s' : Sendbuf.st) : Prop := forall p n, h_blk (Sendbuf.hp s) !! p = Some n -> hdr s !! p = None ->
  h_blk (Sendbuf.hp s') !! p = Some n /\ hdr s' !! p = None /\
  forall x, p <= x < p + n -> h_mem (Sendbuf.hp s') !! x = h_mem (Sendbuf.hp s) !! x.
Lemma foreign_trans s1 s2 s3 : foreign s1 s2 -> foreign s2 s3 -> foreign s1 s3.
Proof.
  intros H1 H2 p n Hp Hn. destruct (H1 p n Hp Hn) as (Hp2 & Hn2 & Hm2). destruct (H2 p n Hp2 Hn2) as (Hp3 & Hn3 & Hm3).
  split_and!; [done|done|]. intros x Hx. rewrite Hm3 by done. by apply Hm2.
Qed.
Lemma foreign_same s s' : hdr s' = hdr s -> Sendbuf.hp s' = Sendbuf.hp s -> foreign s s'.
Proof. intros H1 H2 p n. by rewrite H1, H2. Qed.
Lemma foreign_put s b blk blk' : hdr s !! b = Some blk -> foreign s (put_block s b blk').
Proof. intros Hb p n Hp Hn. cbn. split_and!; [done| |done]. rewrite lookup_insert_ne; [done|]. intros ->. congruence. Qed.
Lemma get_block_Ret s b blk : get_block s b = Ret blk -> hdr s !! b = Some blk.
Proof. unfold get_block. destruct (hdr s !! b); [by intros [= ->]|done]. Qed.
Lemma refill_foreign s i s' : heap_ok (Sendbuf.hp s) -> refill i s = Ret (Some s') -> foreign s s'.
Proof.
  intros Hh. unfold refill. intros (t & _ & H)%bind_Ret_inv. destruct (t =? NULL); [|injection H as <-; by apply foreign_same].
  destruct (malloc _ _) as [[b h]|] eqn:Em; [|done]. injection H as <-.
  apply malloc_ok in Em as (Hb & Hnew & Hblk & Hin & Hout); [|apply wrapU_range; lia].
  intros p n Hp Hn. cbn. assert (p <> b) by congruence. rewrite Hblk, !lookup_insert_ne by done. split_and!; [done|done|].
  intros x Hx. apply Hout. intros Hx'. destruct (heap_mapped _ Hh _ _ Hp) as [_ Hm]. destruct (Hm x Hx), (Hin x Hx'). congruence.
Qed.
Lemma alloc_foreign s fd' n p s' : heap_ok (Sendbuf.hp s) -> sendbuf_alloc fd' n s = Ret (p, s') -> foreign s s'.
Proof.
  intros Hh. unfold sendbuf_alloc. intros (q & _ & H)%bind_Ret_inv. apply bind_Ret_inv in H as (fit & _ & H).
  destruct fit as [x|]; [injection H as _ <-; by apply foreign_same|]. unfold alloc_block in H. apply bind_Ret_inv in H as (i & _ & H).
  apply bind_Ret_inv in H as ([s1|] & Hr & H); [|injection H as _ <-; by apply foreign_same].
  apply bind_Ret_inv in H as (b & _ & H). apply bind_Ret_inv in H as (blk & Hb & H). apply get_block_Ret in Hb. apply bind_Ret_inv in H as (s2 & He & [= _ <-]).
  set (s0 := set_table s1 i (next blk)) in *.
  eapply foreign_trans; [by eapply refill_foreign|]. apply (foreign_trans _ s0); [by apply foreign_same|].
  eapply foreign_trans; [by apply (foreign_put s0 b blk (Block NULL (buf_size blk) 0 0))|].
  unfold Sendbuf.enqueue in He. destruct (_ =? NULL); [injection He as <-; by apply foreign_same|].
  apply bind_Ret_inv in He as (tl & Ht & [= <-]). apply get_block_Ret in Ht.
  eapply foreign_trans; [by eapply (foreign_put _ _ tl)|by apply foreign_same].
Qed.
Lemma flush_foreign s fd' n r s' : sendbuf_flush fd' n s = Ret (r, s') -> foreign s s'.
Proof.
  unfold sendbuf_flush. intros (q & _ & H)%bind_Ret_inv. destruct (_ =? NULL); [injection H as _ <-; by apply foreign_same|].
  apply bind_Ret_inv in H as (blk & Hb & H). apply get_block_Ret in Hb. apply bind_Ret_inv in H as (room & _ & H).
  destruct (room <? n); [injection H as _ <-; by apply foreign_same|]. apply bind_Ret_inv in H as (l & _ & [= _ <-]). by eapply foreign_put.
Qed.
Lemma write_foreign s q f p v m : Sendbuf.Rep s q f -> write_ptr s q fd p (Z.of_nat (length v)) -> mstore (h_mem (Sendbuf.hp s)) p v = Some m ->
  foreign s (Sendbuf.set_mem s m).
Proof.
  intros HR (t & blk & Hlast & Hb & -> & Hroom) Hm c n Hc Hn. cbn. split_and!; [done|done|]. intros x Hx. rewrite (mstore_lookup _ _ _ _ Hm).
  case_decide as Hin; [|done]. exfalso. assert (Ht : t ∈ q fd) by (apply last_Some in Hlast as [? ->]; set_solver).
  destruct (r_use _ _ _ HR _ _ Ht) as (? & ? & Hu & _). simplify_eq. destruct (r_sized _ _ _ HR _ _ Hb) as (i & ? & ? & Hi & _ & Hbi). simplify_eq.
  unfold Sendbuf.buf, SIZEOF_BLOCK in *. assert (c = t) as -> by (apply (heap_disj _ (r_heap _ _ _ HR) _ _ _ _ x Hc Hbi); lia). congruence.
Qed.

(** A call that sends: the receive buffers, the system and the archives in use are as before. *)
Record sends w w' : Prop := {
  sd_rbufs : g_rbufs (w_proc w') = g_rbufs (w_proc w);
  sd_env : g_env (w_proc w') = g_env (w_proc w);
  sd_mem : foreign (send_of w) (send_of w');
  sd_ars : ars_kept (w_ars w) (w_ars w') }.

Lemma calc_len_ok m : forall n, Forall arg_ok m -> calc_len n (map arg_sval m) = Ret (n + Z.of_nat (length (body m))).
Proof.
  induction m as [|x m IH]; intros n Hok; cbn [map calc_len]; [f_equal; cbn; lia|]. apply Forall_cons in Hok as [Hx Hok].
  assert (Hl : arg_len (arg_sval x) = Ret (Z.of_nat (length (wire (arg_items x))))) by (destruct x; [done|]; unfold wire; cbn [arg_sval arg_len arg_items map concat enc]; rewrite !length_app, !le_enc_length; f_equal; cbn; lia).
  rewrite Hl. ret_step. rewrite IH by done. f_equal. unfold body. cbn [flat_map]. rewrite wire_app, length_app. lia.
Qed.
Lemma write_arg_ok k x s : write_arg (lua_pushinteger k) (arg_sval x) s = write_items k (arg_items x) s.
Proof.
  destruct x; cbn [arg_sval write_arg arg_items write_items write_item].
  all: destruct (lwriteint8 _ s) as [[? s1]| | |]; [|done..]; rewrite !bind_Ret_l; cbv beta iota.
  - by destruct (lwriteint32 _ s1) as [[? s2]| | |].
  - by destruct (lwritelstr _ s1) as [[? s2]| | |].
Qed.
Lemma write_items_app k a b s : write_items k (a ++ b) s = s ← write_items k a s; write_items k b s.
Proof.
  revert s. induction a as [|it a IH]; intros s; [done|]. cbn [write_items app].
  destruct (write_item k it s) as [[? s1]| | |]; [|done..]. ret_step. apply IH.
Qed.
Lemma write_args_ok k m : forall s, write_args (lua_pushinteger k) (map arg_sval m) s = write_items k (flat_map arg_items m) s.
Proof.
  induction m as [|x m IH]; intros s; [done|]. cbn [map write_args flat_map]. rewrite write_items_app, write_arg_ok.
  destruct (write_items k (arg_items x) s); [|done..]. ret_step. apply IH.
Qed.
Lemma write_msg_ok k m s : write_msg (lua_pushinteger k) (plen_of m) (map arg_sval m) s = s ← write_items k (msg_items m) s; Ret (tt, s).
Proof.
  unfold write_msg, msg_items. cbn [write_items write_item]. rewrite length_map.
  destruct (lwriteint32 _ s) as [[? s1]| | |]; [|done..]. rewrite !bind_Ret_l. cbv beta iota.
  destruct (lwriteint16 _ s1) as [[? s2]| | |]; [|done..]. rewrite !bind_Ret_l. cbv beta iota. by rewrite write_args_ok.
Qed.
(** The bytes of a message, in the block that was allocated for it. *)
Lemma fill_msg_ok w p m k q f : Sendbuf.Rep (send_of w) q f -> write_ptr (send_of w) q fd p (plen_of m) -> msg_ok m ->
  w_ars w !! Z.to_nat k = Some (Ar_t p (plen_of m) 0 1) -> 1 <= k < Z.of_nat MAX_AR ->
  exists mem, mstore (h_mem (g_heap (w_proc w))) p (frame m) = Some mem /\
    on_ar (write_msg (lua_pushinteger k) (plen_of m) (map arg_sval m)) w =
      Ret (tt, put_send (put_ars w (<[Z.to_nat k := Ar_t p (plen_of m) (plen_of m) 1]> (w_ars w))) (Sendbuf.set_mem (send_of w) mem)).
Proof.
  intros HR Hp Hm Hk Hkr. pose proof (plen_pos m). destruct Hm as (Hm1 & Hm2 & Hm3). unfold INT_MAX in Hm3.
  set (a := Ar_t p (plen_of m) 0 1). assert (Hs : slot_ok (ar_st w) k a).
  { split_and!; [lia|lia|done|split; cbn; lia|]. destruct Hp as (t & blk & Hlast & Hb & -> & Hroom).
    destruct (Rep_block_mem _ _ _ _ _ HR Hb) as [Hmap _]. cbn. intros x Hx. apply Hmap.
    assert (Ht : t ∈ q fd) by (apply last_Some in Hlast as [? ->]; set_solver).
    destruct (r_use _ _ _ HR _ _ Ht) as (? & ? & Hu & _). simplify_eq. lia. }
  destruct (write_items_ok (msg_items m) (ar_st w) k a Hs) as (mem & Hmem & HW); [by apply msg_items_ok| |].
  { fold (frame m). rewrite frame_length. cbn. lia. }
  fold (frame m) in Hmem, HW. cbn [Ar.buf Ar.rptr a] in Hmem. rewrite Z.add_0_r in Hmem. exists mem. split; [done|].
  apply on_ar_mem. rewrite frame_length in HW. rewrite write_msg_ok, HW. by ret_step.
Qed.

(** Nothing was allocated: a new block was asked for, and flush finds no room for the message. *)
Lemma alloc_null s q f n : Sendbuf.Rep s q f -> sendbuf_alloc fd n s = Ret (NULL, s) ->
  alloc_block fd n s = Ret (NULL, s) /\ sendbuf_flush fd n s = Ret (1, s).
Proof.
  intros HR. unfold sendbuf_alloc, sendbuf_flush. rewrite fd2bbuf_ok, !bind_Ret_l by lia.
  destruct (block_tail (bbuf_of s fd) =? NULL); [done|]. destruct (get_block s _) as [blk| | |] eqn:Hb; [|done..]. rewrite !bind_Ret_l.
  destruct (sint _) as [room| | |]; [|done..]. rewrite !bind_Ret_l. destruct (Z.leb_spec n room); [|by rewrite (proj2 (Z.ltb_lt room n)) by lia].
  intros [= H0]. exfalso. unfold get_block in Hb. destruct (hdr s !! _) as [b|] eqn:Eb; [|done]. injection Hb as ->.
  destruct (r_queue _ _ _ HR fd) as (_ & Ht & _). destruct (last (q fd)) as [t|] eqn:El; cbn in Ht.
  - assert (Hin : t ∈ q fd) by (apply last_Some in El as [? ->]; set_solver). rewrite Ht in *.
    destruct (r_use _ _ _ HR _ _ Hin) as (? & ? & Hu & _). simplify_eq.
    pose proof (buf_nonnull _ _ _ _ _ (Sendbuf.buf_len blk) HR Eb ltac:(lia)) as Hn0. by apply Z.eqb_neq in Hn0.
  - rewrite Ht in Eb. by apply (Rep_null _ _ _ _ _ HR Eb).
Qed.
Lemma write_args_nil l : forall s, write_args LNil (map arg_sval l) s = Ret s.
Proof.
  induction l as [|[v|str] l IH]; intros s; cbn [map write_args]; [done| |].
  - change (write_arg LNil (arg_sval (AInt v)) s) with (Ret s). ret_step. apply IH.
  - change (write_arg LNil (arg_sval (AStr str)) s) with (Ret s). ret_step. apply IH.
Qed.
Lemma alloc_some s q f n : (forall h k, 0 <= k <= 2 ^ 30 -> is_Some (malloc h k)) -> Sendbuf.Rep s q f -> 0 <= n <= 2 ^ 30 - SIZEOF_BLOCK ->
  sendbuf_alloc fd n s <> Ret (NULL, s).
Proof.
  intros Hmem HR Hn H. destruct (alloc_null _ _ _ _ HR H) as [Hb _]. unfold SIZEOF_BLOCK in *. unfold alloc_block, SIZEOF_BLOCK in Hb.
  rewrite wrapS_id in Hb by (unfold in_s; lia). set (rs := if n + 24 <=? 4096 then 4096 else n + 24) in *.
  assert (Hrs : 4096 <= rs <= 2 ^ 30) by (unfold rs; destruct (Z.leb_spec (n + 24) 4096); lia).
  destruct (hash_spec rs ltac:(lia)) as (i & Hi & Hi0 & Hle & Hlow). rewrite Hi, bind_Ret_l in Hb.
  assert (Hi12 : 12 <= i <= 30).
  { split; [apply (Z.pow_le_mono_r_iff 2); lia|]. destruct (Z.le_gt_cases i 30); [done|]. specialize (Hlow 30). lia. }
  destruct (refill_ok s q f i HR Hi12) as (r & Hr & Hpost). rewrite Hr, bind_Ret_l in Hb. destruct r as [s1|].
  - destruct Hpost as (f1 & b & HR1 & _ & Ht & Hb0 & _). unfold get_table in Hb. rewrite Ht in Hb. cbn [of_option] in Hb. rewrite bind_Ret_l in Hb.
    unfold get_block in Hb. destruct (hdr s1 !! b) as [blk|] eqn:Eb; [|done]. cbn [of_option] in Hb. rewrite bind_Ret_l in Hb.
    apply bind_Ret_inv in Hb as (s2 & _ & [= H0 _]). pose proof (buf_nonnull _ _ _ _ _ 0 HR1 Eb ltac:(lia)) as Hz.
    rewrite Z.add_0_r, H0 in Hz. done.
  - unfold refill in Hr. destruct (table_is_Some _ _ _ (Z.to_nat i) HR) as [t Ht]; [unfold MAX_TABLE; lia|].
    unfold get_table in Hr. rewrite Ht in Hr. cbn [of_option] in Hr. rewrite bind_Ret_l in Hr. destruct (t =? NULL); [|done].
    assert (2 ^ 12 <= 2 ^ i <= 2 ^ 30) by (split; apply Z.pow_le_mono_r; lia).
    rewrite (wrapS_id 32 (2 ^ i)), wrapU_id in Hr by (unfold in_s, in_u; lia). by destruct (Hmem (Sendbuf.hp s) (2 ^ i) ltac:(lia)) as [[? ?] Hm]; rewrite Hm in Hr.
Qed.
Lemma put_send_same w : put_send w (send_of w) = w.
Proof. by destruct w as [[]]. Qed.
Lemma on_ar_none {B} (f : Ar.st -> res (B * Ar.st)) w x : f (ar_st w) = Ret (x, ar_st w) -> on_ar f w = Ret (x, w).
Proof. intros H. unfold on_ar. rewrite H. by destruct w as [[? ? ? ? ? ? ? ? ? []]]. Qed.

(** Without a block nothing happens but that archive 0 is marked as free. *)
Lemma enqueue_null w q f m : Sendbuf.Rep (send_of w) q f -> free_slot (w_ars w) -> Forall arg_ok m -> plen_of m <= INT_MAX ->
  sendbuf_alloc fd (plen_of m) (send_of w) = Ret (NULL, send_of w) ->
  exists l, enqueue_msg sock (map arg_sval m) w = Ret (put_ars w l) /\ free_slot l /\ sends w (put_ars w l).
Proof.
  intros HR Hf Hm Hp Ha. pose proof (plen_pos m). unfold INT_MAX in Hp. unfold enqueue_msg. rewrite calc_len_ok by done. ret_step.
  replace (4 + (2 + Z.of_nat (length (body m)))) with (plen_of m) by (unfold plen_of; lia).
  assert (Hal : Sendbuf.lalloc [sock; lua_pushinteger (plen_of m)] (send_of w) = Ret ([], send_of w)).
  { unfold Sendbuf.lalloc. rewrite int_arg1, int_arg2 by (unfold in_s, Sendbuf.MAX_SOCKET in *; lia). rewrite Ha. by ret_step. }
  rewrite (on_send_Ret _ _ _ _ Hal), put_send_same. ret_step. cbn [first head default].
  rewrite (on_ar_none (Ar.lcreate _) w []) by done. ret_step. cbn [first head default].
  rewrite (on_ar_none (write_msg _ _ _) w tt).
  2: { unfold write_msg. change (Ar.lwriteint32 _ _) with (Ret ([] : list lval, ar_st w)). ret_step.
       change (Ar.lwriteint16 _ _) with (Ret ([] : list lval, ar_st w)). ret_step. rewrite write_args_nil. by ret_step. }
  ret_step.
  assert (Hfl : Sendbuf.lflush [sock; LNil; lua_pushinteger (plen_of m)] (send_of w) = Ret ([], send_of w)).
  { unfold Sendbuf.lflush. rewrite int_arg1 by (unfold in_s, Sendbuf.MAX_SOCKET in *; lia).
    change (lua_tointeger [_; _; lua_pushinteger (plen_of m)] 3) with (d2i64 (d_of_Z (plen_of m))). rewrite d2i64_of_Z, (wrapS_id 32) by (lia || (unfold in_s; lia)).
    destruct (alloc_null _ _ _ _ HR Ha) as [_ ->]. by ret_step. }
  rewrite (on_send_Ret _ _ _ _ Hfl), put_send_same. ret_step.
  pose proof Hf as (Hl & _). destruct (lookup_lt_is_Some_2 (w_ars w) 0) as [a0 H0]; [rewrite Hl; unfold MAX_AR; lia|].
  exists (<[0%nat := Ar_t (Ar.buf a0) (Ar.buf_len a0) (Ar.rptr a0) 0]> (w_ars w)).
  split_and!; [|by apply free_insert|split; [done|done|by apply foreign_same|eapply ars_kept_insert; [done|by right]]].
  assert (HF : Ar.lfree [LNil] (ar_st w) = Ret ([], Ar.St (<[0%nat := Ar_t (Ar.buf a0) (Ar.buf_len a0) (Ar.rptr a0) 0]> (w_ars w)) (g_heap (w_proc w)))).
  { unfold Ar.lfree. cbn [lua_tointeger]. change (i32 _) with 0. unfold fd2ar, ar_st. cbn [s_ars]. change (Z.to_nat 0) with 0%nat. by rewrite H0. }
  rewrite (on_ar_Ret _ _ _ _ HF). by ret_step.
Qed.

(** One message is sent: the frame is behind what was queued, or there was no memory and the
    message is dropped. *)
Lemma enqueue_ok w q f m d : Sendbuf.Rep (send_of w) q f -> free_slot (w_ars w) -> msg_ok m -> plen_of m <= 2 ^ 30 - SIZEOF_BLOCK ->
  pending (send_of w) (q fd) = Some d ->
  exists ok w' q' f', enqueue_msg sock (map arg_sval m) w = Ret w' /\ Sendbuf.Rep (send_of w') q' f' /\ free_slot (w_ars w') /\
    pending (send_of w') (q' fd) = Some (if (ok : bool) then d ++ frame m else d) /\
    (forall fd', fd' <> fd -> pending (send_of w') (q' fd') = pending (send_of w) (q fd')) /\
    (ok = false -> sendbuf_alloc fd (plen_of m) (send_of w) = Ret (NULL, send_of w)) /\ sends w w' /\
    (solid (send_of w) (q fd) -> solid (send_of w') (q' fd)).
Proof.
  intros HR Hf Hm Hp Hd. pose proof (plen_pos m) as Hpos. pose proof Hm as (Hm1 & Hm2 & Hm3). unfold INT_MAX, SIZEOF_BLOCK in *.
  destruct (alloc_ok (send_of w) q f fd (plen_of m) HR ltac:(lia) ltac:(unfold SIZEOF_BLOCK; lia)) as (p & s1 & Hal & Hpost).
  unfold alloc_post in Hpost. destruct (Z.eqb_spec p NULL) as [->|Hpn].
  { subst s1. destruct (enqueue_null w q f m HR Hf Hm1 Hm3 Hal) as (l & HE & Hl & Hsd). exists false, (put_ars w l), q, f. by split_and!. }
  destruct Hpost as (q1 & f1 & HR1 & Hwp & Hoth & Hpend & Hso). unfold enqueue_msg. rewrite calc_len_ok by done. ret_step.
  replace (4 + (2 + Z.of_nat (length (body m)))) with (plen_of m) by (unfold plen_of; lia).
  assert (HA : Sendbuf.lalloc [sock; lua_pushinteger (plen_of m)] (send_of w) = Ret ([lua_pushlightuserdata p], s1)).
  { unfold Sendbuf.lalloc. rewrite int_arg1, int_arg2 by (unfold in_s, Sendbuf.MAX_SOCKET in *; lia). rewrite Hal. ret_step. by rewrite (proj2 (Z.eqb_neq p NULL)). }
  rewrite (on_send_Ret _ _ _ _ HA). ret_step. cbn [first head default id].
  destruct (lcreate_ok (put_send w s1) p (plen_of m) Hf ltac:(lia)) as (k & b0 & HC & Hk & Hkb & Hku). rewrite HC. ret_step. cbn [first head default id]. cbv zeta.
  set (w1 := put_ars _ _). assert (Hs1 : send_of w1 = s1) by (unfold w1; by destruct s1).
  pose proof Hf as (Hlen & _).
  destruct (fill_msg_ok w1 p m k q1 f1) as (mem & Hmem & HF); [by rewrite Hs1|by rewrite Hs1|done| |done|].
  { unfold w1. cbn [w_ars put_ars put_send]. apply list_lookup_insert_eq. lia. }
  rewrite HF. ret_step. set (w2 := put_send (put_ars w1 _) _).
  assert (Hs2 : send_of w2 = Sendbuf.set_mem s1 mem) by (unfold w2; by rewrite send_of_put, Hs1).
  rewrite <- frame_length in Hwp. destruct (write_ok s1 q1 f1 fd p (frame m) HR1 Hwp) as (mem' & Hmem' & HR2 & Hpend2).
  assert (mem' = mem) as -> by (replace (h_mem (g_heap (w_proc w1))) with (h_mem (Sendbuf.hp s1)) in Hmem by (by rewrite <- Hs1); congruence).
  destruct (flush_ok _ q1 f1 fd p (frame m) d HR2 ltac:(lia) Hwp) as (s3 & Hs3 & HR3 & Hpend3 & Hoth3 & Hso3);
    [by eapply mload_mstore_same|by rewrite Hpend2, Hpend|].
  assert (HFl : Sendbuf.lflush [sock; lua_pushlightuserdata p; lua_pushinteger (plen_of m)] (send_of w2) = Ret ([lua_pushboolean true], s3)).
  { unfold Sendbuf.lflush. rewrite int_arg1 by (unfold in_s, Sendbuf.MAX_SOCKET in *; lia).
    change (lua_tointeger [_; _; lua_pushinteger (plen_of m)] 3) with (d2i64 (d_of_Z (plen_of m))). rewrite d2i64_of_Z, (wrapS_id 32) by (lia || (unfold in_s; lia)).
    rewrite Hs2, <- frame_length, Hs3. by ret_step. }
  rewrite (on_send_Ret _ _ _ _ HFl). ret_step.
  rewrite (lfree_ok _ k (Ar_t p (plen_of m) (plen_of m) 1)); [|cbn; rewrite list_insert_insert_eq; apply list_lookup_insert_eq; lia|lia]. ret_step.
  eexists true, _, q1, f1. split; [done|]. set (w3 := put_ars _ _). assert (Hw3 : send_of w3 = s3) by (unfold w3; by destruct s3).
  assert (Ha3 : w_ars w3 = <[Z.to_nat k := Ar_t p (plen_of m) (plen_of m) 0]> (w_ars w)) by (unfold w3; cbn; by rewrite !list_insert_insert_eq).
  rewrite Hw3, Ha3. split_and!; [done|by apply free_insert|done| |done| |].
  { intros fd' Hne. by rewrite Hoth3, Hpend2, Hpend. }
  2: { intros Hs. apply Hso3; [|by apply Hso]. intros E0. apply (f_equal length) in E0. pose proof (frame_length m). cbn in E0. lia. }
  split; [done|done| |rewrite Ha3; eapply ars_kept_insert; [done|by left]].
  rewrite Hw3. eapply foreign_trans; [eapply alloc_foreign; [apply (r_heap _ _ _ HR)|exact Hal]|].
  eapply foreign_trans; [by eapply write_foreign|by eapply flush_foreign].
Qed.

Fixpoint enqueue_all (ms : list (list arg)) w : res (world E D) :=
  match ms with [] => Ret w | m :: ms => w ← enqueue_msg sock (map arg_sval m) w; enqueue_all ms w end.
Definition small (m : list arg) : Prop := plen_of m <= 2 ^ 30 - SIZEOF_BLOCK.
Lemma enqueue_all_ok ms : forall w q f d, (forall h k, 0 <= k <= 2 ^ 30 -> is_Some (malloc h k)) ->
  Sendbuf.Rep (send_of w) q f -> free_slot (w_ars w) -> Forall msg_ok ms -> Forall small ms -> pending (send_of w) (q fd) = Some d ->
  exists w' q' f', enqueue_all ms w = Ret w' /\ Sendbuf.Rep (send_of w') q' f' /\ free_slot (w_ars w') /\
    pending (send_of w') (q' fd) = Some (d ++ frames ms) /\
    forall fd', fd' <> fd -> pending (send_of w') (q' fd') = pending (send_of w) (q fd').
Proof.
  induction ms as [|m ms IH]; intros w q f d Hmem HR Hf Hok Hsm Hd.
  { exists w, q, f. split_and!; [done..| |done]. by rewrite app_nil_r. }
  apply Forall_cons in Hok as [Hm Hok]. apply Forall_cons in Hsm as [Hs Hsm]. pose proof (plen_pos m).
  destruct (enqueue_ok w q f m d HR Hf Hm Hs Hd) as (ok & w1 & q1 & f1 & H1 & HR1 & Hf1 & Hd1 & Ho1 & Hfail & _).
  destruct ok; [|destruct (alloc_some _ q f (plen_of m) Hmem HR ltac:(unfold small in Hs; lia)); by apply Hfail].
  destruct (IH w1 q1 f1 _ Hmem HR1 Hf1 Hok Hsm Hd1) as (w2 & q2 & f2 & H2 & HR2 & Hf2 & Hd2 & Ho2).
  exists w2, q2, f2. cbn [enqueue_all]. rewrite H1. ret_step. split_and!; [done..| |].
  - rewrite Hd2. unfold frames. cbn [map concat]. by rewrite <- app_assoc.
  - intros fd' Hne. rewrite Ho2 by done. by apply Ho1.
Qed.
End Send.

(** ** Properties *)

(** C10.  Sending a message of integers and strings puts exactly its frame behind what the
    socket has still to send, whether the bytes go into the last block or into a new one, and
    gives the archive back; every other queue stays as it is.  When there is no memory the
    message is dropped as a whole: the queue is as before and nothing undefined happens,
    although the script never looks at what alloc returned. *)
Theorem send_frame {F : LuaFmt} {JL : JsonLib} {PB : PbScript} {E D : Type} {A : Allocator} {AOk : AllocatorOk A}
    fd (w : world E D) q f m d :
  0 < fd < Sendbuf.MAX_SOCKET -> Sendbuf.Rep (send_of w) q f -> free_slot (w_ars w) -> msg_ok m -> small m ->
  pending (send_of w) (q fd) = Some d ->
  exists w' q' f' sent, enqueue_msg (lua_pushinteger fd) (map arg_sval m) w = Ret w' /\
    Sendbuf.Rep (send_of w') q' f' /\ free_slot (w_ars w') /\
    pending (send_of w') (q' fd) = Some (d ++ sent) /\
    (sent = frame m \/ sent = [] /\ sendbuf_alloc fd (plen_of m) (send_of w) = Ret (NULL, send_of w)) /\
    forall fd', fd' <> fd -> pending (send_of w') (q' fd') = pending (send_of w) (q fd').
Proof.
  intros Hfd HR Hf Hm Hs Hd. destruct (enqueue_ok fd Hfd w q f m d HR Hf Hm Hs Hd) as (ok & w' & q' & f' & H1 & H2 & H3 & H4 & H5 & H6 & _).
  exists w', q', f', (if ok then frame m else []). destruct ok; split_and!; try done; [by left|by rewrite app_nil_r|right; eauto].
Qed.

(** ** Examples *)

#[export] Instance NoPb : PbScript := {| pb_msgname := fun _ => []; pb_tostring := fun _ => []; pb_bytesize := fun _ => 0; pb_parse := fun _ _ => Raise |}.
#[export] Instance NoPow : JsonLib := {| pow := fun _ _ => d1; fmt_f0 := fun _ => []; fmt_e := fun _ => []; fmt_f := fun _ => [] |}.
#[local] Existing Instances NoFmt Bump.

(** A process with a receive buffer of 16 bytes on socket 3. *)
Definition ex_world {E} (e : E) : world E unit :=
  World (set_recv (Proc ∅ (PortSt ∅ ∅) (TimerSt None 0 0 0 ∅) (AeSt NULL ∅ ∅) ∅ (replicate MAX_TABLE NULL) ∅ ∅ 0 (Heap ∅ ∅) e) ex_state) init_ars.
Definition ex_message : list arg := [AInt 1; AStr [104]].
Lemma ex_message_ok : msg_ok ex_message.
Proof. split_and!; [repeat constructor; cbn; unfold INT_MIN, INT_MAX; lia|cbn; lia|vm_compute; discriminate]. Qed.
Lemma ex_free_slot : free_slot init_ars.
Proof. split; [done|]. exists 1%nat, (Ar_t NULL 0 0 0). unfold MAX_AR. split_and!; [lia|lia|done|done]. Qed.
Lemma ex_Rep {E} (e : E) : Sendbuf.Rep (send_of (ex_world e)) (fun _ => []) (fun _ => []) /\ pending (send_of (ex_world e)) [] = Some [].
Proof. split; [exact (init_Rep _ ex_heap_ok)|done]. Qed.

Lemma send_frame_witness :
  exists w' q' f' sent, enqueue_msg (lua_pushinteger 3) (map arg_sval ex_message) (ex_world ex_env) = Ret w' /\
    Sendbuf.Rep (send_of w') q' f' /\ free_slot (w_ars w') /\ pending (send_of w') (q' 3) = Some ([] ++ sent) /\
    (sent = frame ex_message \/
     sent = [] /\ sendbuf_alloc 3 (plen_of ex_message) (send_of (ex_world ex_env)) = Ret (NULL, send_of (ex_world ex_env))) /\
    forall fd', fd' <> 3 -> pending (send_of w') (q' fd') = pending (send_of (ex_world ex_env)) [].
Proof.
  apply (@send_frame NoFmt NoPow NoPb env unit Bump Bump_ok 3 (ex_world ex_env) (fun _ => []) (fun _ => [])).
  - unfold Sendbuf.MAX_SOCKET. lia.
  - apply ex_Rep.
  - exact ex_free_slot.
  - exact ex_message_ok.
  - vm_compute. discriminate.
  - apply ex_Rep.
Defined.

(** All archives are taken: the writes go to archive 0, which has no buffer, and the message
    that is queued is whatever the block held. *)
Example no_archive_queues_garbage :
  let full := put_ars (ex_world ex_env) (replicate MAX_AR (Ar_t NULL 0 0 1)) in
  (match enqueue_msg (lua_pushinteger 3) (map arg_sval [AInt 1]) full with
   | Ret w => pending (send_of w) [block_tail (bbuf_of (send_of w) 3)] | _ => None end) = Some (replicate 11 0).
Proof. vm_compute. reflexivity. Qed.
