(* ===== verification/SrvDispatch.v ===== *)
(** * SrvDispatch: receiving messages between servers

    The theorems on dispatch of src/mod/srvproto/srvproto.lua (modelled in Srvproto.v): what
    the loop does with a stream of messages, with a handler that runs in the middle of it and
    may itself send messages. *)
From Stdlib Require Import SpecFloat.
From S2P Require Import Prelude Mem Lua LuaStack Dbl Json Ljson Ar Sendbuf Recvbuf Ae Proc Lport Srvproto.
Local Open Scope Z_scope.

(** ** Interfaces *)

(** A connection that has bytes to read: recv takes some of them, in order. *)
Class TcpIn (E : Type) {OS : Os E} := {
  incoming : E -> Z -> bytes;
  recv_some : forall e fd n, 0 < n -> incoming e fd <> [] -> exists k e',
    os_recv fd n e = ((k, take (Z.to_nat k) (incoming e fd)), e') /\ 1 <= k <= n /\ k <= Z.of_nat (length (incoming e fd)) /\
    incoming e' fd = drop (Z.to_nat k) (incoming e fd);
}.

(** The buffer of socket [fd] may have been filled, read or moved. *)
Definition moved (fd : Z) (s s' : Recvbuf.st) : Prop :=
  h_blk (hp s') = h_blk (hp s) /\
  (forall fd', buf (rbuf_of s' fd') = buf (rbuf_of s fd') /\ buf_len (rbuf_of s' fd') = buf_len (rbuf_of s fd')) /\
  forall x, ~ (buf (rbuf_of s fd) <= x < buf (rbuf_of s fd) + buf_len (rbuf_of s fd)) -> h_mem (hp s') !! x = h_mem (hp s) !! x.
Definition others {E D} (w : world E D) :=
  let g := w_proc w in (g_loops g, g_port g, g_timer g, g_ae g, g_bbufs g, g_table g, g_hdr g).
(** What dispatch itself may change: this buffer, the archives and the system. *)
Definition touches {E D} (fd : Z) (w w' : world E D) : Prop := others w' = others w /\ moved fd (recv_of w) (recv_of w').

Lemma moved_refl fd s : moved fd s s.
Proof. done. Qed.
Lemma moved_trans fd s1 s2 s3 : moved fd s1 s2 -> moved fd s2 s3 -> moved fd s1 s3.
Proof.
  intros (B1 & G1 & M1) (B2 & G2 & M2). split_and!; [congruence| |].
  - intros fd'. destruct (G1 fd') as [-> ->] || idtac. destruct (G1 fd'), (G2 fd'). split; congruence.
  - intros x Hx. rewrite M2; [by apply M1|]. destruct (G1 fd) as [-> ->]. done.
Qed.
Lemma moved_cursor fd s p q : moved fd s (set_rbuf s fd (RBuf (buf_len (rbuf_of s fd)) p q (buf (rbuf_of s fd)))).
Proof. split_and!; [done| |done]. intros fd'. rewrite rbuf_of_set. case_decide; by subst. Qed.
Lemma moved_store fd s a v m : mstore (h_mem (hp s)) a v = Some m -> buf (rbuf_of s fd) <= a ->
  a + Z.of_nat (length v) <= buf (rbuf_of s fd) + buf_len (rbuf_of s fd) -> moved fd s (Recvbuf.set_mem s m).
Proof.
  intros Hm H1 H2. split_and!; [done|done|]. intros x Hx. cbn. rewrite (mstore_lookup _ _ _ _ Hm). case_decide; [lia|done].
Qed.
Lemma touches_trans {E D} fd (w1 w2 w3 : world E D) : touches fd w1 w2 -> touches fd w2 w3 -> touches fd w1 w3.
Proof. intros [O1 M1] [O2 M2]. split; [congruence|by eapply moved_trans]. Qed.

(** A handler of messages that does its work: [post_inv] says what state it has reached after
    the messages it was given, and holds whatever dispatch does with its buffer.  A handler
    leaves the receive buffer of the socket and the archives in use alone, and gives back the
    archives that it takes. *)
Class PostOk {E D : Type} {OS : Os E} {TI : TcpIn E} (PH : PostHandler E D) (fd : Z) := {
  post_inv : list (list lval) -> world E D -> Prop;
  post_frame : forall log w w', post_inv log w -> Recvbuf.Inv (recv_of w) -> Recvbuf.Inv (recv_of w') -> touches fd w w' -> post_inv log w';
  post_ok : forall log args w u, post_inv log w -> Recvbuf.Inv (recv_of w) -> unread (recv_of w) fd = Some u -> free_slot (w_ars w) ->
    exists w', post_dispatch (lua_pushinteger fd) args w = Ret w' /\ post_inv (log ++ [args]) w' /\
      Recvbuf.Inv (recv_of w') /\ rbuf_of (recv_of w') fd = rbuf_of (recv_of w) fd /\ unread (recv_of w') fd = Some u /\
      incoming (g_env (w_proc w')) fd = incoming (g_env (w_proc w)) fd /\
      free_slot (w_ars w') /\ ars_kept (w_ars w) (w_ars w') }.

(** ** Unpacking *)

(** Two archives are free: one for dispatch and one for the handler. *)
Definition spare (l : list ar_t) : Prop := length l = MAX_AR /\
  exists i j a b, i <> j /\ (1 <= i < MAX_AR)%nat /\ (1 <= j < MAX_AR)%nat /\ l !! i = Some a /\ l !! j = Some b /\ used a = 0 /\ used b = 0.
Lemma spare_free l : spare l -> free_slot l.
Proof. intros (Hl & i & j & a & b & _ & Hi & _ & Ha & _ & Hu & _). split; [done|]. by exists i, a. Qed.
Lemma spare_take l k c : spare l -> free_slot (<[k := c]> l).
Proof.
  intros (Hl & i & j & a & b & Hij & Hi & Hj & Ha & Hb & Hu & Hv). split; [by rewrite length_insert|].
  destruct (decide (i = k)) as [->|Hne]; [exists j, b|exists i, a]; by rewrite list_lookup_insert_ne.
Qed.
Lemma spare_give l k a c : free_slot l -> (1 <= k)%nat -> l !! k = Some a -> used a <> 0 -> used c = 0 -> spare (<[k := c]> l).
Proof.
  intros (Hl & j & b & Hj & Hb & Hu) Hk Ha Hua Huc. split; [by rewrite length_insert|]. apply lookup_lt_Some in Ha as Hlt.
  assert (k <> j) by congruence. exists k, j, c, b. rewrite list_lookup_insert_eq, list_lookup_insert_ne by done. split_and!; try done; lia.
Qed.

(** What Postproto gets of a message, and of messages. *)
Definition given (m : list arg) : list (list lval) := if eq_num (first (map arg_val m)) POST_PROTO then [map arg_val m] else [].
Definition values (ms : list (list arg)) : list (list lval) := concat (map given ms).

Section Unpack.
Context {F : LuaFmt} {JL : JsonLib} {PB : PbScript} {E D : Type} {OS : Os E} {TI : TcpIn E} {PH : PostHandler E D}.
Implicit Types w : world E D.
Variable fd : Z.
Hypothesis fd_ok : 0 < fd < Recvbuf.MAX_SOCKET.
Local Abbreviation sock := (lua_pushinteger fd).

(** The buffers are in order, [d] is unread on the socket, and an archive is free. *)
Definition ready w (d : bytes) : Prop := Recvbuf.Inv (recv_of w) /\ unread (recv_of w) fd = Some d /\ spare (w_ars w).
(** The room of the buffer and the bytes to come are as they were. *)
Definition same_socket w w' : Prop :=
  buf_len (rbuf_of (recv_of w') fd) = buf_len (rbuf_of (recv_of w) fd) /\ incoming (g_env (w_proc w')) fd = incoming (g_env (w_proc w)) fd.

Lemma fd_assert : assert_sockfd fd = true.
Proof. unfold assert_sockfd. rewrite (proj2 (Z.leb_gt fd 0)), (proj2 (Z.leb_gt _ fd)) by lia. done. Qed.
Lemma fd_arg1 L : i32 (lua_tointeger (sock :: L) 1) = fd.
Proof. apply int_arg1, fd_int. lia. Qed.
Lemma unread_length s d : Recvbuf.Inv s -> unread s fd = Some d ->
  let r := rbuf_of s fd in Z.of_nat (length d) = wptr r - rptr r /\ 0 <= rptr r <= wptr r /\ wptr r <= buf_len r <= INT_MAX.
Proof.
  intros HI Hd. destruct (inv_buf _ HI fd) as (H1 & H2 & _). pose proof (mload_length _ _ _ _ Hd) as Hl. cbv zeta. split_and!; lia.
Qed.
Lemma ldatalen_ok s d : Recvbuf.Inv s -> unread s fd = Some d -> Recvbuf.ldatalen [sock] s = Ret ([lua_pushinteger (Z.of_nat (length d))], s).
Proof.
  intros HI Hd. destruct (unread_length s d HI Hd) as (H1 & H2 & H3). unfold Recvbuf.ldatalen.
  rewrite fd_arg1, fd_assert, fd2rbuf_ok, bind_Ret_l by lia. unfold INT_MAX in *. rewrite sint_ok by (unfold INT_MIN, INT_MAX; lia). ret_step. by rewrite H1.
Qed.
Lemma lgetrptr_ok s : Recvbuf.lgetrptr [sock] s = Ret ([lua_pushlightuserdata (buf (rbuf_of s fd) + rptr (rbuf_of s fd))], s).
Proof. unfold Recvbuf.lgetrptr. by rewrite fd_arg1, fd_assert, fd2rbuf_ok, bind_Ret_l by lia. Qed.

(** Reading a message from an archive that was just made. *)
Lemma read_msg_ok w p n k pl m : w_ars w !! Z.to_nat k = Some (Ar_t p n 0 1) -> 1 <= k < Z.of_nat MAX_AR -> msg_ok m -> 0 <= pl < 2 ^ 31 ->
  plen_of m <= n < 2 ^ 31 -> mapped (h_mem (g_heap (w_proc w))) p n -> mload (h_mem (g_heap (w_proc w))) p (length (framed pl m)) = Some (framed pl m) ->
  on_ar (parse (lua_pushinteger k)) w = Ret ((pl, map arg_val m), put_ars w (<[Z.to_nat k := Ar_t p n (plen_of m) 1]> (w_ars w))).
Proof.
  intros Ha Hk Hok Hpl Hn Hm Hd. set (a := Ar_t p n 0 1) in *. pose proof (plen_pos m).
  assert (Hs : slot_ok (ar_st w) k a) by (split_and!; [lia|lia|done|split; cbn; lia|done]).
  apply on_ar_Ret. rewrite (parse_ok pl m (ar_st w) k a Hok Hpl Hs ltac:(cbn; lia) ltac:(cbn; by rewrite Z.add_0_r)).
  unfold advance, set_ar, ar_st. cbn. by destruct (g_heap (w_proc w)).
Qed.

Context {PO : PostOk PH fd}.
Lemma handle_ok log acc w u m : post_inv log w -> Recvbuf.Inv (recv_of w) -> unread (recv_of w) fd = Some u -> free_slot (w_ars w) ->
  exists w', (if eq_num (first (map arg_val m)) POST_PROTO then w ← post_dispatch sock (map arg_val m) w; Ret (acc ++ [map arg_val m], w) else Ret (acc, w))
      = Ret (acc ++ given m, w') /\ post_inv (log ++ given m) w' /\
    Recvbuf.Inv (recv_of w') /\ rbuf_of (recv_of w') fd = rbuf_of (recv_of w) fd /\ unread (recv_of w') fd = Some u /\
    incoming (g_env (w_proc w')) fd = incoming (g_env (w_proc w)) fd /\ free_slot (w_ars w') /\ ars_kept (w_ars w) (w_ars w').
Proof.
  intros Hp HI Hd Hf. unfold given. destruct (eq_num _ _).
  - destruct (post_ok log (map arg_val m) w u Hp HI Hd Hf) as (w' & H1 & H2). exists w'. rewrite H1. by ret_step.
  - exists w. rewrite !app_nil_r. split_and!; try done. by intros k a _ Ha _.
Qed.

Lemma touches_ars w l : touches fd w (put_ars w l).
Proof. done. Qed.
Lemma touches_recv w s : moved fd (recv_of w) s -> touches fd w (put_recv w s).
Proof. intros H. split; [done|by rewrite recv_of_put]. Qed.

(** One turn of the loop reads one message, hands it over and skips what its length field says. *)
Lemma unpack_turn fuel log acc w pl m rest : post_inv log w -> ready w (framed pl m ++ rest) -> msg_ok m -> 0 <= pl <= Z.of_nat (length (framed pl m ++ rest)) ->
  exists w', unpack (S fuel) sock acc w = unpack fuel sock (acc ++ given m) w' /\ post_inv (log ++ given m) w' /\
    ready w' (drop (Z.to_nat pl) (framed pl m ++ rest)) /\ same_socket w w'.
Proof.
  intros HP (HI & Hd & Hf) Hok Hpl. destruct (unread_length _ _ HI Hd) as (Hlen & Hr & Hw). pose proof (plen_pos m) as Hpos.
  pose proof (framed_length pl m) as Hfl. rewrite length_app in Hlen, Hpl. unfold INT_MAX in Hw. set (r := rbuf_of (recv_of w) fd) in *.
  cbn [unpack]. rewrite (on_recv_look _ _ _ (ldatalen_ok _ _ HI Hd)). ret_step. cbn [num lua_pushinteger].
  rewrite d2i64_of_Z by (rewrite length_app; lia). ret_step. rewrite (proj2 (Z.leb_gt _ 4)) by (rewrite length_app; lia).
  assert (Hg : Recvbuf.lgetint32 [sock] (recv_of w) = Ret ([lua_pushinteger (i32 pl)], recv_of w)).
  { apply (proj2 (getuint32_truncates (recv_of w) fd pl (le_enc 2 (Z.of_nat (length m)) ++ body m ++ rest) HI ltac:(lia) ltac:(rewrite Hd, framed_split; by rewrite <- !app_assoc))). }
  rewrite (on_recv_look _ _ _ Hg). ret_step.
  cbn [num lua_pushinteger]. rewrite wrapS_id, d2i64_of_Z by (lia || (unfold in_s; lia)). ret_step.
  rewrite (proj2 (Z.ltb_ge _ pl)) by (rewrite length_app; lia).
  rewrite (on_recv_look _ _ _ (lgetrptr_ok _)). ret_step. fold r. cbn [first head default id].
  set (n := Z.of_nat (length (framed pl m ++ rest))). assert (Hn : plen_of m <= n < 2 ^ 31) by (unfold n; rewrite length_app; lia).
  destruct (lcreate_ok w (buf r + rptr r) n (spare_free _ Hf) ltac:(lia)) as (k & b & Hcr & Hkr & Hkb & _). apply lookup_lt_Some in Hkb as Hlt.
  rewrite Hcr. ret_step. cbn [first head default id]. set (w1 := put_ars w _).
  rewrite (read_msg_ok w1 (buf r + rptr r) n k pl m); [|by apply list_lookup_insert_eq|done|done|lia|lia| |].
  2: { intros x Hx. apply (buf_mapped (recv_of w) fd HI). fold r. unfold n in Hx. rewrite length_app in Hx. lia. }
  2: { unfold unread in Hd. fold r in Hd. replace (Z.to_nat (wptr r - rptr r)) with (length (framed pl m) + length rest)%nat in Hd by lia.
       apply mload_app_inv in Hd as [Hd _]. by rewrite take_app_length in Hd. }
  ret_step. set (a := Ar_t _ n (plen_of m) 1). set (w2 := put_ars w1 _).
  assert (Ha2 : w_ars w2 = <[Z.to_nat k := a]> (w_ars w)) by (apply list_insert_insert_eq).
  assert (HP2 : post_inv log w2) by (by apply (post_frame log w)).
  destruct (handle_ok log acc w2 _ m HP2 HI Hd) as (w3 & -> & HP3 & HI3 & Hr3 & Hd3 & He3 & Hf3 & Hk3); [rewrite Ha2; by apply spare_take|].
  ret_step. assert (Ha3 : w_ars w3 !! Z.to_nat k = Some a) by (apply Hk3; [lia|rewrite Ha2; by apply list_lookup_insert_eq|done]).
  rewrite (lfree_ok w3 k a Ha3) by lia. ret_step. set (w4 := put_ars w3 _).
  pose proof (lrskip_ok (recv_of w4) fd _ pl HI3 ltac:(lia) ltac:(unfold INT_MAX; lia) Hd3) as HS.
  rewrite length_app, (proj2 (Z.ltb_ge _ pl)) in HS by lia.
  rewrite (on_recv_Ret _ _ _ _ HS). ret_step.
  destruct (consume_ok (recv_of w4) fd _ pl HI3 Hd3 ltac:(rewrite length_app; lia)) as (HI' & Hd' & _).
  set (s' := set_rbuf _ _ _) in *. exists (put_recv w4 s'). split_and!; [done| | |].
  - apply (post_frame _ w3); [done|done|by rewrite recv_of_put|]. eapply (touches_trans fd w3 w4); [apply touches_ars|].
    apply touches_recv. apply moved_cursor.
  - split_and!; [by rewrite recv_of_put|by rewrite recv_of_put|]. eapply spare_give; [done|lia|exact Ha3|done|done].
  - split; [|done]. rewrite recv_of_put. unfold s'. rewrite rbuf_of_set, decide_True by done. cbn. change (recv_of w4) with (recv_of w3). by rewrite Hr3.
Qed.
Lemma unpack_step fuel log acc w m rest : post_inv log w -> ready w (frame m ++ rest) -> msg_ok m ->
  exists w', unpack (S fuel) sock acc w = unpack fuel sock (acc ++ given m) w' /\ post_inv (log ++ given m) w' /\ ready w' rest /\ same_socket w w'.
Proof.
  intros HP Hw Hok. pose proof (frame_length m) as Hfl. pose proof (plen_pos m).
  destruct (unpack_turn fuel log acc w (plen_of m) m rest HP Hw Hok) as (w' & E1 & HP' & Hw' & Hs).
  { change (framed (plen_of m) m) with (frame m). rewrite length_app. lia. }
  exists w'. split_and!; [done|done| |done].
  change (framed (plen_of m) m) with (frame m) in Hw'. by rewrite <- Hfl, Nat2Z.id, drop_app_length in Hw'.
Qed.

(** The length field is not checked: on a frame that gives its length as zero the loop never ends. *)
Theorem zero_length_spins fuel : forall log acc w m rest, post_inv log w -> ready w (framed 0 m ++ rest) -> msg_ok m -> unpack fuel sock acc w = NoFuel.
Proof.
  induction fuel as [|fuel IH]; intros log acc w m rest HP Hw Hm; [done|].
  destruct (unpack_turn fuel log acc w 0 m rest HP Hw Hm ltac:(lia)) as (w' & -> & HP' & Hw' & _). by apply (IH _ _ w' m rest HP').
Qed.

(** A negative length moves the read pointer back, before what was received. *)
Theorem negative_length_rewinds s n d : Recvbuf.Inv s -> unread s fd = Some d -> INT_MIN <= n < 0 ->
  Recvbuf.lrskip [sock; lua_pushinteger n] s =
    Ret ([lua_pushinteger n], set_rbuf s fd (set_rptr (rbuf_of s fd) (rptr (rbuf_of s fd) + n))).
Proof.
  intros HI Hd Hn. destruct (unread_length _ _ HI Hd) as (Hlen & Hr & Hw). unfold INT_MIN, INT_MAX in *. unfold Recvbuf.lrskip.
  rewrite fd_arg1, int_arg2, fd2rbuf_ok, bind_Ret_l by (lia || (unfold in_s; lia)).
  rewrite (sint_ok (wptr _ - _)) by (unfold INT_MIN, INT_MAX; lia). ret_step. rewrite (proj2 (Z.ltb_ge _ n)) by lia.
  rewrite sint_ok by (unfold INT_MIN, INT_MAX; lia). by ret_step.
Qed.

(** What is left when no whole message is there. *)
Definition incomplete (rest : bytes) : Prop := rest = [] \/ exists m z, msg_ok m /\ frame m = rest ++ z /\ z <> [].

Lemma unpack_stop fuel acc w rest : ready w rest -> incomplete rest -> unpack (S fuel) sock acc w = Ret (acc, w).
Proof.
  intros (HI & Hd & Hf) Hi. destruct (unread_length _ _ HI Hd) as (Hlen & Hr & Hw). unfold INT_MAX in Hw.
  cbn [unpack]. rewrite (on_recv_look _ _ _ (ldatalen_ok _ _ HI Hd)). ret_step. cbn [num lua_pushinteger].
  rewrite d2i64_of_Z by lia. ret_step. destruct (Z.leb_spec (Z.of_nat (length rest)) 4) as [|H4]; [done|].
  destruct Hi as [->|(m & z & (Hm & Hc & Hp) & Ez & Hz)]; [cbn in H4; lia|]. pose proof (plen_pos m) as Hpos. unfold INT_MAX in Hp.
  assert (Ed : rest = le_enc 4 (plen_of m) ++ drop 4 rest).
  { rewrite <- (take_drop 4 rest) at 1. f_equal. rewrite frame_split in Ez. apply (f_equal (take 4)) in Ez.
    rewrite take_app_length' in Ez by by rewrite le_enc_length. rewrite take_app_le in Ez by lia. done. }
  assert (Hg : Recvbuf.lgetint32 [sock] (recv_of w) = Ret ([lua_pushinteger (i32 (plen_of m))], recv_of w)).
  { apply (proj2 (getuint32_truncates (recv_of w) fd (plen_of m) (drop 4 rest) HI ltac:(lia) ltac:(rewrite Hd; by f_equal))). }
  rewrite (on_recv_look _ _ _ Hg). ret_step. cbn [num lua_pushinteger]. rewrite wrapS_id, d2i64_of_Z by (lia || (unfold in_s; lia)). ret_step.
  rewrite (proj2 (Z.ltb_lt _ (plen_of m))); [done|]. rewrite <- frame_length, Ez, length_app.
  destruct z; [done|cbn; lia].
Qed.
Lemma unpack_all ms : forall fuel log acc w rest, post_inv log w -> ready w (frames ms ++ rest) -> Forall msg_ok ms -> incomplete rest -> (length ms < fuel)%nat ->
  exists w', unpack fuel sock acc w = Ret (acc ++ values ms, w') /\ post_inv (log ++ values ms) w' /\ ready w' rest /\ same_socket w w'.
Proof.
  induction ms as [|m ms IH]; intros [|fuel] log acc w rest HP Hw Hok Hi Hf; cbn in Hf; [lia| |lia|].
  - exists w. rewrite !app_nil_r. split_and!; [by eapply unpack_stop|done|done|done].
  - apply Forall_cons in Hok as [Hm Hok]. unfold frames in Hw. cbn [map concat] in Hw. rewrite <- app_assoc in Hw.
    destruct (unpack_step fuel log acc w m _ HP Hw Hm) as (w1 & E1 & HP1 & Hw1 & Hs1).
    destruct (IH fuel _ (acc ++ given m) w1 rest HP1 Hw1 Hok Hi ltac:(lia)) as (w2 & E2 & HP2 & Hw2 & Hs2).
    exists w2. unfold values in *. cbn [map concat]. rewrite !app_assoc. split_and!; [by rewrite E1, E2|done|done|].
    destruct Hs1, Hs2. split; congruence.
Qed.

(** A prefix of a stream of frames: whole frames, and the beginning of the next one. *)
Lemma cut_frames ms : forall p q, p ++ q = frames ms -> exists ms1 ms2 rest, ms = ms1 ++ ms2 /\ p = frames ms1 ++ rest /\ rest ++ q = frames ms2 /\
  match ms2 with [] => rest = [] | m :: _ => (length rest < length (frame m))%nat end.
Proof.
  induction ms as [|m ms IH]; intros p q Hpq; unfold frames in Hpq; cbn [map concat] in Hpq.
  - apply app_nil in Hpq as [-> ->]. by exists [], [], [].
  - fold (frames ms) in Hpq. destruct (decide (length p < length (frame m))%nat) as [Hl|Hl]; [by exists [], (m :: ms), p|].
    apply (app_eq_inv p q) in Hpq as [(k & -> & Hk)|(k & Hm & Hq)].
    + destruct (IH k q (eq_sym Hk)) as (ms1 & ms2 & rest & -> & -> & H2 & H3). exists (m :: ms1), ms2, rest.
      split_and!; [done| |done|done]. unfold frames. cbn [map concat]. by rewrite app_assoc.
    + assert (k = []) as -> by (destruct k; [done|]; rewrite Hm, length_app in Hl; cbn in Hl; lia). rewrite app_nil_r in Hm. subst p.
      destruct (IH [] q Hq) as (ms1 & ms2 & rest & -> & H1 & H2 & H3). exists (m :: ms1), ms2, rest.
      split_and!; [done| |done|done]. unfold frames in *. cbn [map concat]. by rewrite <- app_assoc, <- H1, app_nil_r.
Qed.
Lemma cut_incomplete ms2 rest q : Forall msg_ok ms2 -> rest ++ q = frames ms2 ->
  match ms2 with [] => rest = [] | m :: _ => (length rest < length (frame m))%nat end -> incomplete rest.
Proof.
  destruct ms2 as [|m ms2]; [by left|]. intros [Hm _]%Forall_cons Hq Hl. right. unfold frames in Hq. cbn [map concat] in Hq.
  apply app_eq_inv in Hq as [(k & -> & _)|(k & Hk & _)]; [rewrite length_app in Hl; lia|]. exists m, k. split_and!; [done|done|].
  intros ->. rewrite app_nil_r in Hk. rewrite Hk in Hl. lia.
Qed.
End Unpack.

(** ** Receiving *)

Section Receive.
Context {F : LuaFmt} {JL : JsonLib} {PB : PbScript} {E D : Type} {OS : Os E} {TI : TcpIn E} {PH : PostHandler E D}.
Implicit Types w : world E D.
Variable fd : Z.
Hypothesis fd_ok : 0 < fd < Recvbuf.MAX_SOCKET.
Context {PO : PostOk PH fd}.
Local Abbreviation sock := (lua_pushinteger fd).
Local Abbreviation ready := (ready fd).
Definition coming w : bytes := incoming (g_env (w_proc w)) fd.
(** Between two calls of dispatch the unread bytes are at the front of the buffer. *)
Definition settled w (u : bytes) : Prop := ready w u /\ rptr (rbuf_of (recv_of w) fd) = 0.
Definition size_of w : Z := buf_len (rbuf_of (recv_of w) fd).

(** The first half of dispatch: some bytes are taken and put behind the unread ones. *)
Lemma fill_ok fuel w u : settled w u -> coming w <> [] -> Z.of_nat (length u) < size_of w ->
  exists c i w1, coming w = c ++ i /\ c <> [] /\ ready w1 (u ++ c) /\ coming w1 = i /\ touches fd w w1 /\
    dispatch fuel sock w = ('(msgs, w) ← unpack fuel sock [] w1; '(_, w) ← on_proc (on_recv (Recvbuf.lbuf2line [sock])) w; Ret ((None, msgs), w)).
Proof.
  intros ((HI & Hd & Hf) & H0) Hc Hu. destruct (unread_length fd _ _ HI Hd) as (Hlen & Hr & Hw). unfold INT_MAX in Hw. unfold size_of, coming in *.
  set (r := rbuf_of (recv_of w) fd) in *. set (n := buf_len r - wptr r). assert (Hn : 0 < n < 2 ^ 31) by (unfold n; lia).
  destruct (recv_some (g_env (w_proc w)) fd n ltac:(lia) Hc) as (k & e' & Hrecv & Hk & Hkl & Hi).
  set (c := take (Z.to_nat k) (incoming (g_env (w_proc w)) fd)) in *. assert (Hcl : length c = Z.to_nat k) by (unfold c; rewrite length_take; lia).
  destruct (receive_ok (recv_of w) fd c u HI ltac:(lia) Hd) as (s' & HR & HI' & Hd' & _). fold r in HR, Hd'.
  rewrite take_ge in HR, Hd' by (rewrite Hcl; lia). unfold receive in HR. rewrite fd2rbuf_ok, bind_Ret_l in HR by lia. fold r in HR. cbv zeta in HR.
  rewrite take_ge in HR by (rewrite Hcl; lia). apply bind_Ret_inv in HR as (m & Hm & HR). apply bind_Ret_inv in HR as ([o s1] & HS & HR). injection HR as ->.
  exists c, (drop (Z.to_nat k) (incoming (g_env (w_proc w)) fd)).
  set (g1 := set_recv (set_env (w_proc w) e') (Recvbuf.set_mem (recv_of w) m)).
  exists (put_recv (World g1 (w_ars w)) s'). split_and!.
  - unfold c. by rewrite take_drop.
  - intros E0. rewrite E0 in Hcl. cbn in Hcl. lia.
  - by split_and!; rewrite ?recv_of_put.
  - exact Hi.
  - split; [done|]. rewrite recv_of_put. eapply moved_trans.
    { eapply (moved_store fd (recv_of w)); [exact (proj1 (of_option_Ret _ _) Hm)|fold r; lia|fold r; rewrite Hcl; lia]. }
    unfold lwskip in HS. rewrite fd_arg1, fd2rbuf_ok, bind_Ret_l in HS by lia.
    apply bind_Ret_inv in HS as (q & _ & HS). injection HS as _ <-. apply moved_cursor.
  - unfold dispatch. assert (H1 : lgetwptr [sock] (recv_of w) = Ret ([lua_pushlightuserdata (buf r + wptr r)], recv_of w)).
    { unfold lgetwptr. by rewrite fd_arg1, fd2rbuf_ok, bind_Ret_l by lia. }
    assert (H2 : lbufremain [sock] (recv_of w) = Ret ([lua_pushinteger n], recv_of w)).
    { unfold lbufremain. rewrite fd_arg1, fd_assert, fd2rbuf_ok, bind_Ret_l by lia. fold r. fold n.
      rewrite sint_ok by (unfold INT_MIN, INT_MAX; lia). by ret_step. }
    rewrite (on_recv_look _ _ _ H1). ret_step. rewrite (on_recv_look _ _ _ H2). ret_step. cbn [num lua_pushinteger].
    rewrite d2i64_of_Z by lia. ret_step.
    assert (H3 : on_proc (lrecv [sock; first [lua_pushlightuserdata (buf r + wptr r)]; lua_pushinteger n]) w = Ret ([lua_pushinteger k], World g1 (w_ars w))).
    { unfold on_proc, lrecv. rewrite fd_arg1 by lia. change (lua_touserdata _ 2) with (buf r + wptr r).
      change (lua_tointeger [_; _; lua_pushinteger n] 3) with (d2i64 (d_of_Z n)). rewrite d2i64_of_Z, (wrapS_id 32) by (lia || (unfold in_s; lia)).
      rewrite wrapU_id by (unfold in_u; lia). unfold sys. rewrite Hrecv. change (h_mem (g_heap (set_env (w_proc w) e'))) with (h_mem (hp (recv_of w))).
      rewrite Hm. ret_step. change (recv_st (set_env (w_proc w) e')) with (recv_of w). fold g1.
      rewrite (proj2 (Z.eqb_neq k 0)), (proj2 (Z.eqb_neq k (-1))) by lia. cbn [andb]. by ret_step. }
    rewrite H3. ret_step. cbn [num lua_pushinteger]. rewrite d2i64_of_Z by lia. ret_step.
    rewrite (proj2 (Z.eqb_neq k (-1))), (proj2 (Z.eqb_neq k 0)) by lia.
    rewrite Hcl, Z2Nat.id in HS by lia. change (set_mem (recv_of w) m) with (recv_of (World g1 (w_ars w))) in HS.
    rewrite (on_recv_Ret _ _ _ _ HS). by ret_step.
Qed.

Lemma lbuf2line_moved s out s' : Recvbuf.Inv s -> lbuf2line [sock] s = Ret (out, s') -> moved fd s s'.
Proof.
  intros HI. destruct (inv_buf _ HI fd) as (H1 & H2 & _). pose proof (buf_mapped s fd HI) as Hmap. unfold INT_MAX in *. set (r := rbuf_of s fd) in *.
  unfold lbuf2line. rewrite fd_arg1, fd2rbuf_ok, bind_Ret_l by lia. fold r. destruct (rptr r =? 0); [intros [= _ <-]; apply moved_refl|].
  rewrite sint_ok by (unfold INT_MIN, INT_MAX; lia). ret_step. rewrite wrapU_id by (unfold in_u; lia).
  rewrite loadz_mapped by first [lia | intros x Hx; apply Hmap; lia].
  intros (l & Hl & H)%bind_Ret_inv. apply bind_Ret_inv in H as (m & Hm & [= _ <-]). apply of_option_Ret in Hl, Hm. apply mload_length in Hl.
  eapply moved_trans; [eapply (moved_store fd s); [exact Hm|fold r; lia|fold r; lia]|]. apply (moved_cursor fd (Recvbuf.set_mem s m)).
Qed.

Lemma moved_size w w' : touches fd w w' -> size_of w' = size_of w.
Proof. intros [_ (_ & H & _)]. apply (H fd). Qed.

(** [u] has no whole frame of [ms] in it. *)
Definition short (u : bytes) (ms : list (list arg)) : Prop :=
  match ms with [] => u = [] | m :: _ => (length u < length (frame m))%nat end.
(** A call of dispatch takes some bytes, and hands over the messages these complete; [more] is
    what has not arrived yet. *)
Lemma dispatch_ok fuel log w u more ms : post_inv log w -> settled w u -> coming w <> [] -> Z.of_nat (length u) < size_of w ->
  u ++ coming w ++ more = frames ms -> Forall msg_ok ms -> (length ms < fuel)%nat ->
  exists ms1 ms2 rest w', ms = ms1 ++ ms2 /\ dispatch fuel sock w = Ret ((None, values ms1), w') /\ post_inv (log ++ values ms1) w' /\
    settled w' rest /\ rest ++ coming w' ++ more = frames ms2 /\ short rest ms2 /\
    size_of w' = size_of w /\ (length (coming w') < length (coming w))%nat.
Proof.
  intros HP Hw Hc Hu Hms Hok Hf. destruct (fill_ok fuel w u Hw Hc Hu) as (c & i & w1 & Hci & Hcn & Hw1 & Hi & Ht1 & HD).
  rewrite Hci, <- app_assoc, app_assoc in Hms. destruct (cut_frames ms (u ++ c) (i ++ more) Hms) as (ms1 & ms2 & rest & -> & Hp & Hq & Hr).
  apply Forall_app in Hok as [Hok1 Hok2]. rewrite length_app in Hf. pose proof Hw1 as (HI1 & _). rewrite Hp in Hw1. destruct Hw as ((HI & _) & _).
  assert (HP1 : post_inv log w1) by (by apply (post_frame log w)).
  destruct (unpack_all fd fd_ok ms1 fuel log [] w1 rest HP1 Hw1 Hok1 (cut_incomplete ms2 rest _ Hok2 Hq Hr) ltac:(lia))
    as (w2 & HU & HP2 & (HI2 & Hd2 & Hf2) & Hsz & Hen).
  destruct (lbuf2line_ok (recv_of w2) fd rest HI2 ltac:(lia) Hd2) as (s3 & HB & HI3 & Hd3 & H03 & _ & _).
  exists ms1, ms2, rest, (put_recv w2 s3). rewrite HD, HU. ret_step. rewrite (on_recv_Ret _ _ _ _ HB). ret_step.
  assert (Hco : coming (put_recv w2 s3) = i) by (rewrite <- Hi; unfold coming; by rewrite <- Hen).
  pose proof (lbuf2line_moved _ _ _ HI2 HB) as Hm3. assert (Ht3 : touches fd w2 (put_recv w2 s3)) by (by apply touches_recv).
  split_and!; [done|done| | |by rewrite Hco|done| |].
  - apply (post_frame _ w2); [done|done|by rewrite recv_of_put|done].
  - split; [|by rewrite recv_of_put]. by split_and!; rewrite ?recv_of_put.
  - rewrite (moved_size _ _ Ht3), <- (moved_size _ _ Ht1). exact Hsz.
  - rewrite Hco, Hci, length_app. destruct c; [done|cbn; lia].
Qed.

(** The event loop calls dispatch while the socket is readable; here at most [n] times. *)
Fixpoint pump (n fuel : nat) w : res (list (list lval) * world E D) :=
  match n with
  | O => Ret ([], w)
  | S n =>
      if decide (coming w = []) then Ret ([], w)
      else
        '((_, msgs), w) ← dispatch fuel sock w;
        '(more, w) ← pump n fuel w;
        Ret (msgs ++ more, w)
  end.

Lemma values_app a b : values (a ++ b) = values a ++ values b.
Proof. unfold values. by rewrite map_app, concat_app. Qed.
Lemma short_nil ms : short [] ms.
Proof. destruct ms as [|m ms]; [done|]. cbn [short]. pose proof (frame_length m). pose proof (plen_pos m). change (length []) with O. lia. Qed.
Lemma pump_ok n : forall fuel log w u ms, post_inv log w -> settled w u -> u ++ coming w = frames ms -> short u ms -> Forall msg_ok ms ->
  Forall (fun m => plen_of m <= size_of w) ms -> (length ms < fuel)%nat -> (length (coming w) <= n)%nat ->
  exists w', pump n fuel w = Ret (values ms, w') /\ post_inv (log ++ values ms) w' /\ settled w' [] /\ coming w' = [].
Proof.
  assert (Hend : forall u ms, u ++ [] = frames ms -> short u ms -> u = [] /\ ms = []).
  { intros u [|m ms]; cbn; [by intros _ ->|]. rewrite app_nil_r. intros ->. unfold frames. cbn. rewrite length_app. lia. }
  induction n as [|n IH]; intros fuel log w u ms HP Hw Hms Hsh Hok Hsz Hf Hn; cbn [pump].
  { destruct (coming w) eqn:Ec; [|cbn in Hn; lia]. destruct (Hend _ _ Hms Hsh) as [-> ->]. exists w. by rewrite app_nil_r. }
  destruct (decide (coming w = [])) as [Ec|Ec].
  { rewrite Ec in Hms. destruct (Hend _ _ Hms Hsh) as [-> ->]. exists w. by rewrite app_nil_r. }
  assert (Hu : Z.of_nat (length u) < size_of w).
  { destruct ms as [|m ms]; unfold short in Hsh.
    - rewrite Hsh in Hms. by destruct (coming w).
    - apply Forall_cons in Hsz as [Hm _]. rewrite <- frame_length in Hm. lia. }
  destruct (dispatch_ok fuel log w u [] ms HP Hw Ec Hu ltac:(by rewrite app_nil_r) Hok Hf) as (ms1 & ms2 & rest & w1 & -> & HD & HP1 & Hw1 & Hr & Hsh1 & Hs1 & Hlt).
  apply Forall_app in Hok as [_ Hok]. apply Forall_app in Hsz as [_ Hsz]. rewrite length_app in Hf.
  rewrite app_nil_r in Hr. destruct (IH fuel _ w1 rest ms2 HP1 Hw1 Hr Hsh1 Hok ltac:(by rewrite Hs1) ltac:(lia) ltac:(lia)) as (w2 & HE & HP2 & H2 & H3).
  exists w2. rewrite HD. ret_step. rewrite HE. ret_step. by rewrite values_app, app_assoc.
Qed.
End Receive.

(** ** A handler that answers *)

Section Reply.
Context {F : LuaFmt} {JL : JsonLib} {PB : PbScript} {E D : Type} {OS : Os E} {TI : TcpIn E} {A : Allocator} {AOk : AllocatorOk A}.
Implicit Types w : world E D.
(** The socket of the answers, what is queued on it already, and the answer to a message. *)
Variables (out : Z) (d0 : bytes) (reply : list lval -> list arg).
Hypothesis out_ok : 0 < out < Sendbuf.MAX_SOCKET.
Hypothesis reply_ok : forall args, msg_ok (reply args) /\ small (reply args).
Hypothesis enough : forall h k, 0 <= k <= 2 ^ 30 -> is_Some (malloc h k).

(** The handler sends its answer up to the flush (see [enqueue_msg]). *)
Definition Replies : PostHandler E D :=
  {| post_dispatch := fun _ args w => enqueue_msg (lua_pushinteger out) (map arg_sval (reply args)) w |}.

(** No receive buffer is a block of a send queue. *)
Definition apart w : Prop := forall fd, g_hdr (w_proc w) !! buf (rbuf_of (recv_of w) fd) = None.
Definition answered (log : list (list lval)) w : Prop := exists q f, Sendbuf.Rep (send_of w) q f /\ apart w /\
  pending (send_of w) (q out) = Some (d0 ++ frames (map reply log)).

Lemma sends_recv w w' q f : Sendbuf.Rep (send_of w') q f -> Recvbuf.Inv (recv_of w) -> apart w -> sends w w' ->
  Recvbuf.Inv (recv_of w') /\ apart w' /\ forall fd, rbuf_of (recv_of w') fd = rbuf_of (recv_of w) fd /\ unread (recv_of w') fd = unread (recv_of w) fd.
Proof.
  intros HR HI Ha [Hb _ Hm _]. assert (Hsame : forall fd, rbuf_of (recv_of w') fd = rbuf_of (recv_of w) fd) by (intros fd; unfold rbuf_of; cbn; by rewrite Hb).
  assert (Hblk : forall fd, let r := rbuf_of (recv_of w) fd in h_blk (g_heap (w_proc w)) !! buf r = Some (buf_len r) ->
    h_blk (g_heap (w_proc w')) !! buf r = Some (buf_len r) /\ g_hdr (w_proc w') !! buf r = None /\
    forall x, buf r <= x < buf r + buf_len r -> h_mem (g_heap (w_proc w')) !! x = h_mem (g_heap (w_proc w)) !! x).
  { intros fd r Hr. exact (Hm _ _ Hr (Ha fd)). }
  split_and!.
  - constructor; [apply (r_heap _ _ _ HR)| |].
    + intros fd. rewrite Hsame. destruct (inv_buf _ HI fd) as (H1 & H2 & H3). split_and!; [lia..|]. destruct H3 as [H3|H3]; [by left|]. right. by apply Hblk.
    + intros fd fd'. rewrite !Hsame. apply (inv_own _ HI).
  - intros fd. rewrite Hsame. destruct (inv_buf _ HI fd) as (_ & _ & [[-> _]|H3]); [|by apply Hblk].
    destruct (g_hdr (w_proc w') !! NULL) as [blk|] eqn:Eb; [|done]. by destruct (Rep_null _ _ _ _ _ HR Eb).
  - intros fd. split; [done|]. unfold unread. rewrite Hsame. destruct (inv_buf _ HI fd) as (H1 & H2 & [[Hn Hl]|H3]).
    + replace (Z.to_nat _) with O by lia. done.
    + apply mload_agree. intros x Hx. apply (Hblk fd H3). lia.
Qed.

Lemma Rep_heap s h q f : h_blk h = h_blk (Sendbuf.hp s) -> heap_ok h -> Sendbuf.Rep s q f -> Sendbuf.Rep (Sendbuf.St (bbufs s) (block_table s) (hdr s) h) q f.
Proof.
  intros Hb Hh HR. constructor; try apply HR; [done| |]; cbn.
  - intros i b Hin. destruct (r_free _ _ _ HR i b Hin) as (blk & H1 & H2 & H3 & H4). exists blk. cbn. by rewrite Hb.
  - intros b blk Hblk. destruct (r_sized _ _ _ HR b blk Hblk) as (i & blk' & H1 & H2 & H3 & H4). exists i, blk'. cbn. by rewrite Hb.
Qed.

Lemma answered_frame fd log w w' : answered log w -> Recvbuf.Inv (recv_of w) -> Recvbuf.Inv (recv_of w') -> touches fd w w' -> answered log w'.
Proof.
  intros (q & f & HR & Ha & Hp) HI HI' [Ho (Hb & Hg & Hm)]. unfold others in Ho. injection Ho as _ _ _ _ H1 H2 H3. exists q, f.
  assert (Hs : send_of w' = Sendbuf.St (bbufs (send_of w)) (block_table (send_of w)) (hdr (send_of w)) (g_heap (w_proc w')))
    by (unfold send_of, send_st; cbn; by rewrite H1, H2, H3).
  split_and!.
  - rewrite Hs. apply Rep_heap; [done|apply (inv_heap _ HI')|done].
  - intros fd'. rewrite H3. destruct (Hg fd') as [-> _]. apply Ha.
  - rewrite <- Hp. apply pending_ext. intros b Hin. rewrite Hs. unfold chunk. cbn. destruct (g_hdr (w_proc w) !! b) as [blk|] eqn:Eb; [|done]. cbn.
    apply mload_agree. intros x Hx. apply Hm. intros Hx'.
    destruct (r_use _ _ _ HR _ _ Hin) as (? & Eb' & Hu1 & Hu2). cbn in Eb'. rewrite Eb in Eb'. injection Eb' as <-.
    destruct (r_sized _ _ _ HR _ _ Eb) as (i & ? & Eb' & Hi & _ & Hbi). cbn in Eb'. rewrite Eb in Eb'. injection Eb' as <-.
    unfold Sendbuf.buf, SIZEOF_BLOCK in *. destruct (inv_buf _ HI fd) as (_ & _ & [[_ Hl]|Hr]); [lia|].
    assert (b = buf (rbuf_of (recv_of w) fd)) as -> by (apply (heap_disj _ (r_heap _ _ _ HR) _ _ _ _ x Hbi Hr); lia).
    by rewrite Ha in Eb.
Qed.

#[local] Instance Replies_ok fd : PostOk Replies fd.
Proof using d0 out_ok reply_ok enough AOk.
  refine {| post_inv := answered; post_frame := answered_frame fd |}.
  intros log args w u (q & f & HR & Ha & Hp) HI Hu Hf. destruct (reply_ok args) as [Hm Hs].
  destruct (enqueue_ok out out_ok w q f _ _ HR Hf Hm Hs Hp) as (ok & w' & q' & f' & H1 & HR' & Hf' & Hp' & _ & Hfail & Hsd & _).
  pose proof (plen_pos (reply args)). destruct ok; [|destruct (alloc_some out out_ok _ q f (plen_of (reply args)) enough HR ltac:(unfold small in Hs; lia)); by apply Hfail].
  destruct (sends_recv w w' q' f' HR' HI Ha Hsd) as (HI' & Ha' & Hr'). exists w'. split_and!; [exact H1| |done| | | |done|apply Hsd].
  - exists q', f'. split_and!; [done|done|]. rewrite Hp'. unfold frames. by rewrite !map_app, concat_app, app_assoc; cbn; rewrite app_nil_r.
  - apply Hr'.
  - rewrite <- Hu. apply Hr'.
  - by rewrite (sd_env _ _ Hsd).
Defined.
End Reply.

(** ** Properties *)



(** End to end: when memory does not run out, the messages sent on an idle socket leave a
    stream in its queue, and any process that gets this stream on one of its sockets receives
    exactly these messages, in order. *)
Theorem messages_delivered {F : LuaFmt} {JL : JsonLib} {PB : PbScript} {E D : Type} {A : Allocator} {AOk : AllocatorOk A}
    {E' D' : Type} {OS' : Os E'} {TI : TcpIn E'} {PH : PostHandler E' D'} fd fd' {PO : PostOk PH fd'} ms (w : world E D) q f :
  0 < fd < Sendbuf.MAX_SOCKET -> 0 < fd' < Recvbuf.MAX_SOCKET -> (forall h k, 0 <= k <= 2 ^ 30 -> is_Some (malloc h k)) ->
  Sendbuf.Rep (send_of w) q f -> free_slot (w_ars w) -> pending (send_of w) (q fd) = Some [] -> Forall msg_ok ms -> Forall small ms ->
  exists w1 q1 f1 d, enqueue_all fd ms w = Ret w1 /\ Sendbuf.Rep (send_of w1) q1 f1 /\ pending (send_of w1) (q1 fd) = Some d /\
    forall log (r : world E' D') n fuel, post_inv log r -> settled fd' r [] -> coming fd' r = d -> Forall (fun m => plen_of m <= size_of fd' r) ms ->
      (length ms < fuel)%nat -> (length d <= n)%nat ->
      exists r', pump fd' n fuel r = Ret (values ms, r') /\ post_inv (log ++ values ms) r' /\ settled fd' r' [] /\ coming fd' r' = [].
Proof.
  intros Hfd Hfd' Hmem HR Hf Hd Hok Hsm.
  destruct (enqueue_all_ok fd Hfd ms w q f [] Hmem HR Hf) as (w1 & q1 & f1 & H1 & H2 & _ & H4 & _); [done..|].
  exists w1, q1, f1, (frames ms). split_and!; [done..|]. intros log r n fuel HP Hr Hc Hsz Hfu Hn. rewrite <- Hc in Hn.
  apply (pump_ok fd' Hfd' n fuel log r [] ms); try done. apply short_nil.
Qed.

(** ** Examples *)

(** A connection that delivers at most three bytes at a time. *)
#[export] Instance DripOs : Os bytes := {|
  os_malloc := fun e => (None, e); os_time := fun e => (0, e); os_gettimeofday := fun e => ((0, 0), e);
  os_pollfd := fun _ _ _ e => ((0, 0), e); os_errno := fun _ => 0; os_strerror := fun _ => []; os_socket := fun e => (-1, e);
  os_reuseaddr := fun _ e => e; os_bind := fun _ _ e => (-1, e); os_listen := fun _ e => (-1, e); os_accept := fun _ e => (-1, e);
  os_connect := fun _ _ _ e => (-1, e); os_nonblock := fun _ e => e; os_send := fun _ _ e => (-1, e);
  os_recv := fun _ n e => let k := Z.min n (Z.min 3 (Z.of_nat (length e))) in ((k, take (Z.to_nat k) e), drop (Z.to_nat k) e);
  os_shutdown_rd := fun _ e => e; os_close := fun _ e => e; os_getpeername := fun _ e => ((0, 0), e);
  os_inet_ntoa := fun _ => []; os_inet_addr := fun _ => None; os_gethostbyname := fun _ e => (None, e) |}.
#[export] Instance DripIn : TcpIn bytes.
Proof.
  refine {| incoming := fun e _ => e |}. intros e fd n Hn He. destruct e as [|b e]; [done|].
  eexists _, _. split; [reflexivity|]. cbn [length]. split_and!; [lia|lia|lia|done].
Defined.
#[local] Existing Instances NoFmt Bump.

(** A handler that does nothing. *)
#[export] Instance Ignore : PostHandler bytes unit := {| post_dispatch := fun _ _ w => Ret w |}.
#[export] Instance Ignore_ok : PostOk Ignore 3.
Proof.
  refine {| post_inv := fun _ _ => True |}; [done|]. intros log args w u _ HI Hu Hf. exists w. split_and!; try done. by intros k a _ Ha _.
Defined.

(** Three messages for Postproto of 15, 11 and 16 bytes, and one of 13 for nobody. *)
Definition ex_messages : list (list arg) := [[AInt 1; AStr [104]]; [AStr [1; 2; 3; 4]]; [AInt 1]; [AInt 1; AInt (-7)]].
Lemma ex_messages_ok : Forall msg_ok ex_messages.
Proof. repeat (constructor; [split_and!; [repeat constructor; cbn; unfold INT_MIN, INT_MAX; lia|cbn; lia|vm_compute; discriminate]|]). constructor. Qed.
Lemma ex_settled (e : bytes) : settled 3 (ex_world e) [].
Proof.
  split; [|done]. split_and!; [exact ex_Inv|done|]. split; [done|].
  exists 1%nat, 2%nat, (Ar_t NULL 0 0 0), (Ar_t NULL 0 0 0). unfold MAX_AR. split_and!; try done; lia.
Qed.

Example ex_first_pieces :
  (match pump 3 11 3 (ex_world (frames ex_messages)) with Ret (msgs, w) => Some (msgs, unread (recv_of w) 3) | _ => None end)
  = Some ([[LNum (d_of_Z 1); LStr [104]]], Some (take 5 (frame [AInt 1]))).
Proof. vm_compute. reflexivity. Qed.

(** The answer: how many values there were. *)
Definition ex_reply (args : list lval) : list arg := [AInt 1; AInt (Z.of_nat (length args) mod 256)].
Lemma ex_reply_ok args : msg_ok (ex_reply args) /\ small (ex_reply args).
Proof.
  pose proof (Z.mod_pos_bound (Z.of_nat (length args)) 256 ltac:(lia)). unfold ex_reply, small, SIZEOF_BLOCK.
  split; [split_and!; [repeat constructor; cbn; unfold INT_MIN, INT_MAX; lia|cbn; lia|unfold plen_of; cbn; unfold INT_MAX; lia]|unfold plen_of; cbn; lia].
Qed.
Lemma bump_enough h k : 0 <= k <= 2 ^ 30 -> is_Some (malloc (Allocator := Bump) h k).
Proof. intros _. cbn. unfold bump_malloc. eauto. Qed.

Lemma messages_delivered_witness :
  exists w1 q1 f1 d, enqueue_all 5 ex_messages (ex_world ex_env) = Ret w1 /\ Sendbuf.Rep (send_of w1) q1 f1 /\ pending (send_of w1) (q1 5) = Some d /\
    forall (log : list (list lval)) (r : world bytes unit) n fuel, True -> settled 3 r [] -> coming 3 r = d ->
      Forall (fun m => plen_of m <= size_of 3 r) ex_messages -> (length ex_messages < fuel)%nat -> (length d <= n)%nat ->
      exists r', pump 3 n fuel r = Ret (values ex_messages, r') /\ True /\ settled 3 r' [] /\ coming 3 r' = [].
Proof.
  apply (@messages_delivered NoFmt NoPow NoPb env unit Bump Bump_ok bytes unit DripOs DripIn Ignore 5 3 Ignore_ok ex_messages (ex_world ex_env)
    (fun _ => []) (fun _ => [])).
  - unfold Sendbuf.MAX_SOCKET. lia.
  - unfold Recvbuf.MAX_SOCKET. lia.
  - exact bump_enough.
  - apply ex_Rep.
  - exact ex_free_slot.
  - apply ex_Rep.
  - exact ex_messages_ok.
  - apply (bool_decide_unpack _). vm_compute. exact I.
Defined.
