(* ===== verification/SrvLink.v ===== *)
(** * SrvLink: two servers over a connection

    The sending process of src/mod/srvproto/srvproto.lua, the write handler of its event loop
    (port_on_write of src/src/ae/lport.cc), the network, and the receiving process, as one
    system whose parts take turns in any order.  It refines a queue of messages, and with turns
    for all it empties. *)
From S2P Require Import Prelude Mem Lua LuaStack Dbl Json Ljson Ar Sendbuf Recvbuf Ae Proc Lport Srvproto SrvDispatch.
Local Open Scope Z_scope.

(** The network hands bytes to the system of the receiver. *)
Class TcpPush (E : Type) {OS : Os E} {TI : TcpIn E} := {
  push : Z -> bytes -> E -> E;
  push_incoming : forall e fd v, incoming (push fd v e) fd = incoming e fd ++ v;
}.
(** The peer acknowledges: the system of the sender has room again. *)
Class TcpRoom (E : Type) {OS : Os E} {SOk : OsSendOk E} := {
  acknowledge : Z -> E -> E;
  acknowledge_room : forall fd e, takes_some (acknowledge fd e) fd;
  acknowledge_sent : forall fd fd' e, sent (acknowledge fd e) fd' = sent e fd';
}.

Section Link.
Context {F : LuaFmt} {JL : JsonLib} {PB : PbScript}.
(** The sender. *)
Context {E D : Type} {OS : Os E} {SOk : OsSendOk E} {TR : TcpRoom E} {SC : LuaScript (proc E D)}.
Context {API : AeApi (proc E D) D} {A : Allocator} {AOk : AllocatorOk A}.
(** The receiver. *)
Context {E' D' : Type} {OS' : Os E'} {TI : TcpIn E'} {TP : TcpPush E'} {PH : PostHandler E' D'}.
Variables fd fd' : Z.
Hypothesis fd_ok : 0 < fd < Sendbuf.MAX_SOCKET.
Hypothesis fd_ok' : 0 < fd' < Recvbuf.MAX_SOCKET.
Context {PO : PostOk PH fd'}.
Hypothesis enough : forall h k, 0 <= k <= 2 ^ 30 -> is_Some (malloc h k).

(** The two processes, the bytes on the way, and the messages the handler was given. *)
Record link := Link { l_snd : world E D; l_rcv : world E' D'; l_net : bytes; l_got : list (list lval) }.

(** A message is sent; the socket of the sender can be written; the write handler runs; the
    network delivers at most [n] bytes; the receiver reads, if there is something to read. *)
Inductive act := ASend (m : list arg) | AReady | AWrite | ADeliver (n : nat) | AReceive.

Definition do_act (fuel : nat) (a : act) (s : link) : res link :=
  let 'Link snd rcv net got := s in
  match a with
  | ASend m => snd ← enqueue_msg (lua_pushinteger fd) (map arg_sval m) snd; Ret (Link snd rcv net got)
  | AReady =>
      let g := w_proc snd in
      Ret (Link (World (set_env g (acknowledge fd (g_env g))) (w_ars snd)) rcv net got)
  | AWrite =>
      g ← write_loop fuel fd (w_proc snd);
      let taken := drop (length (sent (g_env (w_proc snd)) fd)) (sent (g_env g) fd) in
      Ret (Link (World g (w_ars snd)) rcv (net ++ taken) got)
  | ADeliver n =>
      let g := w_proc rcv in
      Ret (Link snd (World (set_env g (push fd' (take n net) (g_env g))) (w_ars rcv)) (drop n net) got)
  | AReceive =>
      if decide (coming fd' rcv = []) then Ret s
      else '((_, msgs), rcv) ← dispatch fuel (lua_pushinteger fd') rcv; Ret (Link snd rcv net (got ++ msgs))
  end.
Fixpoint run_link (fuel : nat) (acts : list act) (s : link) : res link :=
  match acts with [] => Ret s | a :: acts => s ← do_act fuel a s; run_link fuel acts s end.

Definition messages (acts : list act) : list (list arg) := omap (fun a => match a with ASend m => Some m | _ => None end) acts.

(** The system holds the messages [c], the first of them maybe in part, and [d] is queued;
    under [P] no block of the queue is unflushed. *)
Variable P : Prop.
Record holds (log : list (list lval)) (room : Z) (c : list (list arg)) (d : bytes) (s : link) : Prop := {
  h_send : exists q f, Sendbuf.Rep (send_of (l_snd s)) q f /\ free_slot (w_ars (l_snd s)) /\ pending (send_of (l_snd s)) (q fd) = Some d /\
    (P -> solid (send_of (l_snd s)) (q fd));
  h_recv : exists u, settled fd' (l_rcv s) u /\ short u c /\ u ++ coming fd' (l_rcv s) ++ l_net s ++ d = frames c;
  h_post : post_inv (log ++ l_got s) (l_rcv s);
  h_room : size_of fd' (l_rcv s) = room;
  h_msgs : Forall (fun m => msg_ok m /\ small m /\ plen_of m <= room) c }.

(** The bytes that the receiver has not read yet. *)
Definition outstanding (d : bytes) (s : link) : nat := length d + length (l_net s) + length (coming fd' (l_rcv s)).

Lemma frames_app a b : frames (a ++ b) = frames a ++ frames b.
Proof. unfold frames. by rewrite map_app, concat_app. Qed.
Lemma frames_one m : frames [m] = frame m.
Proof. unfold frames. cbn [map concat]. apply app_nil_r. Qed.
Lemma frames_long c : (length c <= length (frames c))%nat.
Proof.
  induction c as [|m c IH]; [done|]. unfold frames in *. cbn [map concat length]. rewrite length_app.
  pose proof (frame_length m). pose proof (plen_pos m). lia.
Qed.

Lemma send_holds fuel log room c d m s : holds log room c d s -> msg_ok m -> small m -> plen_of m <= room ->
  exists s', do_act fuel (ASend m) s = Ret s' /\ holds log room (c ++ [m]) (d ++ frame m) s' /\ l_got s' = l_got s.
Proof.
  destruct s as [snd rcv net got]. intros [(q & f & HR & Hf & Hd & Hso) (u & Hu & Hsh & Hb) HP Hr Hc] Hm Hs Hp. cbn [l_snd l_rcv l_net l_got] in *.
  pose proof (plen_pos m). destruct (enqueue_ok fd fd_ok snd q f m d HR Hf Hm Hs Hd) as (ok & w' & q' & f' & HE & HR' & Hf' & Hd' & _ & Hfail & _ & Hso').
  destruct ok; [|destruct (alloc_some fd fd_ok _ q f (plen_of m) enough HR ltac:(unfold small in Hs; lia)); by apply Hfail].
  exists (Link w' rcv net got). cbn [do_act]. rewrite HE. ret_step. split_and!; [done| |done].
  split; cbn [l_snd l_rcv l_net l_got]; [| |done|done|].
  - exists q', f'. split_and!; [done..|]. auto.
  - exists u. split_and!; [done| |].
    + destruct c as [|x c]; [|done]. cbn [short] in Hsh. subst u. apply (short_nil [m]).
    + rewrite frames_app, frames_one, <- Hb. by rewrite !app_assoc.
  - apply Forall_app. split; [done|]. constructor; [done|constructor].
Qed.

Lemma ready_holds fuel log room c d s : holds log room c d s ->
  exists s', do_act fuel AReady s = Ret s' /\ holds log room c d s' /\ l_got s' = l_got s /\ outstanding d s' = outstanding d s /\
    takes_some (g_env (w_proc (l_snd s'))) fd.
Proof.
  destruct s as [snd rcv net got]. intros [Hs Hu HP Hr Hc]. eexists. split; [done|]. cbn [l_snd w_proc g_env set_env].
  split_and!; [by split|done|done|apply acknowledge_room].
Qed.

Lemma write_holds fuel log room c d s : holds log room c d s -> (length (frames c) < fuel)%nat ->
  exists s' v d', do_act fuel AWrite s = Ret s' /\ holds log room c d' s' /\ l_got s' = l_got s /\ outstanding d' s' = outstanding d s /\
    d = v ++ d' /\ l_net s' = l_net s ++ v /\ (P -> d <> [] -> takes_some (g_env (w_proc (l_snd s))) fd -> v <> []).
Proof.
  destruct s as [snd rcv net got]. intros [(q & f & HR & Hf & Hd & Hso) (u & Hu & Hsh & Hb) HP Hr Hc] Hfu. cbn [l_snd l_rcv l_net l_got] in *.
  assert (length d < fuel)%nat by (apply (f_equal length) in Hb; rewrite !length_app in Hb; lia).
  destruct (write_loop_fifo fuel fd (w_proc snd) q f d HR ltac:(lia) Hd) as (g & HW & q' & f' & v & d' & HR' & Hv & Hd' & Hs & _ & _ & _ & Hso'); [done|].
  exists (Link (World g (w_ars snd)) rcv (net ++ v) got), v, d'. cbn [do_act]. rewrite HW. ret_step. rewrite Hs, drop_app_length.
  split_and!; [done| |done| |done|done|].
  - split; cbn [l_snd l_rcv l_net l_got]; [| |done..].
    + exists q', f'. split_and!; [done..|]. intros HPs. by apply Hso', Hso.
    + exists u. split_and!; [done..|]. rewrite <- Hb, Hv. by rewrite <- !app_assoc.
  - unfold outstanding. cbn [l_net l_rcv]. rewrite Hv, !length_app. lia.
  - intros HPs. by apply Hso', Hso.
Qed.

Lemma deliver_holds fuel log room c d n s : holds log room c d s ->
  exists s', do_act fuel (ADeliver n) s = Ret s' /\ holds log room c d s' /\ l_got s' = l_got s /\ outstanding d s' = outstanding d s /\
    coming fd' (l_rcv s') = coming fd' (l_rcv s) ++ take n (l_net s).
Proof.
  destruct s as [snd rcv net got]. intros [Hs (u & Hu & Hsh & Hb) HP Hr Hc]. cbn [l_snd l_rcv l_net l_got] in *.
  eexists. split; [done|]. assert (Hco : coming fd' (World (set_env (w_proc rcv) (push fd' (take n net) (g_env (w_proc rcv)))) (w_ars rcv)) =
    coming fd' rcv ++ take n net) by (unfold coming; cbn [w_proc g_env set_env]; by rewrite push_incoming).
  split_and!; [|done| |exact Hco].
  - split; cbn [l_snd l_rcv l_net l_got]; [done| |apply (post_frame _ rcv); [done|apply Hu|apply Hu|done]|done|done].
    exists u. split_and!; [exact Hu|done|]. rewrite <- Hb, Hco. rewrite <- !app_assoc. do 2 f_equal. by rewrite app_assoc, take_drop.
  - unfold outstanding. cbn [l_net l_rcv]. rewrite Hco, length_app, length_take, length_drop. lia.
Qed.

Lemma receive_holds fuel log room c d s : holds log room c d s -> (length c < fuel)%nat ->
  exists s' ms1 ms2, do_act fuel AReceive s = Ret s' /\ c = ms1 ++ ms2 /\ holds log room ms2 d s' /\ l_got s' = l_got s ++ values ms1 /\
    (outstanding d s' <= outstanding d s)%nat /\ (coming fd' (l_rcv s) <> [] -> outstanding d s' < outstanding d s)%nat.
Proof.
  destruct s as [snd rcv net got]. intros [Hs (u & Hu & Hsh & Hb) HP Hr Hc] Hfu. cbn [l_snd l_rcv l_net l_got do_act] in *.
  destruct (decide (coming fd' rcv = [])) as [E0|Hne].
  { exists (Link snd rcv net got), [], c. rewrite app_nil_r. split_and!; [done|done| |done|done|done]. split; [done| |done..]. by exists u. }
  assert (Hlu : Z.of_nat (length u) < size_of fd' rcv).
  { destruct c as [|m c]; cbn [short] in Hsh.
    - subst u. by destruct (coming fd' rcv).
    - apply Forall_cons in Hc as [(_ & _ & Hm) _]. rewrite <- frame_length in Hm. lia. }
  destruct (dispatch_ok fd' fd_ok' fuel _ rcv u (net ++ d) c HP Hu Hne Hlu Hb) as (ms1 & ms2 & rest & w' & -> & HD & HP' & Hw' & Hb' & Hsh' & Hs' & Hlt);
    [eapply Forall_impl; [exact Hc|]; by intros m []|done|].
  exists (Link snd w' net (got ++ values ms1)), ms1, ms2. rewrite HD. ret_step. apply Forall_app in Hc as [_ Hc]. unfold outstanding. cbn [l_net l_rcv].
  split_and!; [done|done| |done|lia|lia]. split; cbn [l_snd l_rcv l_net l_got]; [done| |by rewrite app_assoc|congruence|done].
  by exists rest.
Qed.

Lemma run_link_app acts1 : forall fuel acts2 s, run_link fuel (acts1 ++ acts2) s = (s ← run_link fuel acts1 s; run_link fuel acts2 s).
Proof. induction acts1 as [|a acts1 IH]; intros fuel acts2 s; cbn [app run_link]; [done|]. destruct (do_act fuel a s); [apply IH|done..]. Qed.

Lemma run_link_holds acts : forall fuel log room c d s, holds log room c d s ->
  Forall (fun m => msg_ok m /\ small m /\ plen_of m <= room) (messages acts) -> (length (frames (c ++ messages acts)) < fuel)%nat ->
  exists s' ms1 ms2 d', run_link fuel acts s = Ret s' /\ c ++ messages acts = ms1 ++ ms2 /\ holds log room ms2 d' s' /\ l_got s' = l_got s ++ values ms1.
Proof.
  induction acts as [|a acts IH]; intros fuel log room c d s Hs Hok Hf.
  { exists s, [], c, d. cbn [run_link messages omap list_omap values map concat]. rewrite !app_nil_r. by split_and!. }
  cbn [run_link]. assert (Hlong : (length (frames c) < fuel)%nat) by (rewrite frames_app, length_app in Hf; lia).
  (** The actions other than sending and receiving leave [c] as it is. *)
  assert (Hkeep : forall s1 d1, do_act fuel a s = Ret s1 -> holds log room c d1 s1 -> l_got s1 = l_got s -> messages (a :: acts) = messages acts ->
    exists s' ms1 ms2 d', (s ← do_act fuel a s; run_link fuel acts s) = Ret s' /\ c ++ messages (a :: acts) = ms1 ++ ms2 /\ holds log room ms2 d' s' /\ l_got s' = l_got s ++ values ms1).
  { intros s1 d1 H1 Hs1 Hg Em. rewrite Em in *. rewrite H1. ret_step. rewrite <- Hg. by apply (IH fuel log room c d1). }
  destruct a as [m| | |n|].
  - change (messages (ASend m :: acts)) with (m :: messages acts) in *. apply Forall_cons in Hok as [(Hm & Hsm & Hp) Hok].
    destruct (send_holds fuel log room c d m s Hs Hm Hsm Hp) as (s1 & -> & Hs1 & Hg). ret_step. rewrite cons_middle, app_assoc in Hf.
    destruct (IH fuel log room _ _ s1 Hs1 Hok Hf) as (s' & ms1 & ms2 & d' & H1 & H2 & H3 & H4). exists s', ms1, ms2, d'. by rewrite H4, Hg, cons_middle, app_assoc.
  - destruct (ready_holds fuel log room c d s Hs) as (s1 & H1 & Hs1 & Hg & _). by apply (Hkeep s1 d).
  - destruct (write_holds fuel log room c d s Hs Hlong) as (s1 & v & d1 & H1 & Hs1 & Hg & _). by apply (Hkeep s1 d1).
  - destruct (deliver_holds fuel log room c d n s Hs) as (s1 & H1 & Hs1 & Hg & _). by apply (Hkeep s1 d).
  - clear Hkeep. change (messages (AReceive :: acts)) with (messages acts) in *. pose proof (frames_long c).
    destruct (receive_holds fuel log room c d s Hs ltac:(lia)) as (s1 & m1 & m2 & -> & -> & Hs1 & Hg & _). ret_step.
    destruct (IH fuel log room m2 d s1 Hs1 Hok) as (s' & ms1 & ms2 & d' & H1 & H2 & H3 & H4).
    { rewrite <- app_assoc, frames_app, length_app in Hf. lia. }
    exists s', (m1 ++ ms1), ms2, d'. rewrite H1, H4, Hg, values_app, <- !app_assoc, H2. by split_and!.
Qed.

(** Everybody has a turn: one byte at least gets on. *)
Definition turn (k : nat) : list act := [AReady; AWrite; ADeliver k; AReceive].
Lemma turn_holds fuel log room c d k s : P -> holds log room c d s -> (length (frames c) < fuel)%nat -> (0 < k)%nat ->
  exists s' ms1 ms2 d', run_link fuel (turn k) s = Ret s' /\ c = ms1 ++ ms2 /\ holds log room ms2 d' s' /\ l_got s' = l_got s ++ values ms1 /\
    (outstanding d' s' <= pred (outstanding d s))%nat.
Proof.
  intros HPs Hs Hf Hk. pose proof (frames_long c). unfold turn. cbn [run_link].
  destruct (ready_holds fuel log room c d s Hs) as (s1 & -> & Hs1 & Hg1 & Hl1 & Ht). ret_step.
  destruct (write_holds fuel log room c d s1 Hs1 Hf) as (s2 & v & d' & -> & Hs2 & Hg2 & Hl2 & Hv & Hn2 & Hgo). ret_step.
  destruct (deliver_holds fuel log room c d' k s2 Hs2) as (s3 & -> & Hs3 & Hg3 & Hl3 & Hc3). ret_step.
  destruct (receive_holds fuel log room c d' s3 Hs3 ltac:(lia)) as (s4 & ms1 & ms2 & -> & Hc & Hs4 & Hg4 & Hle & Hlt). ret_step.
  exists s4, ms1, ms2, d'. split_and!; [done|done|done|by rewrite Hg4, Hg3, Hg2, Hg1|]. rewrite <- Hl1, <- Hl2, <- Hl3.
  destruct (decide (coming fd' (l_rcv s3) = [])) as [E0|E0]; [|specialize (Hlt E0); lia].
  assert (outstanding d' s3 = 0)%nat; [|lia]. rewrite Hl3. rewrite Hc3 in E0. apply app_nil in E0 as [E1 E2]. rewrite Hn2 in E2.
  assert (E3 : l_net s1 ++ v = []) by (by destruct (l_net s1 ++ v), k; [| |lia|]). apply app_nil in E3 as [E3 ->].
  unfold outstanding. rewrite E1, Hn2, E3. cbn [app] in Hv. subst d'. destruct d as [|b d]; [done|]. by destruct (Hgo HPs ltac:(done) Ht).
Qed.
Lemma nothing_left log room c d s : holds log room c d s -> outstanding d s = O -> c = [] /\ d = [].
Proof.
  intros [_ (u & _ & Hsh & Hb) _ _ _] Hl. unfold outstanding in Hl.
  assert (d = []) as -> by (by destruct d). assert (En : l_net s = []) by (by destruct (l_net s); [|cbn in Hl; lia]).
  assert (Ec : coming fd' (l_rcv s) = []) by (by destruct (coming fd' (l_rcv s)); [|cbn in Hl; lia]).
  rewrite En, Ec in Hb. cbn [app] in Hb. rewrite app_nil_r in Hb. destruct c as [|m c]; [done|]. cbn [short] in Hsh.
  rewrite Hb in Hsh. unfold frames in Hsh. cbn [map concat] in Hsh. rewrite length_app in Hsh. lia.
Qed.
Lemma left_le log room c d s : holds log room c d s -> (outstanding d s <= length (frames c))%nat.
Proof. intros [_ (u & _ & _ & <-) _ _ _]. unfold outstanding. rewrite !length_app. lia. Qed.
Lemma turns_hold n : forall fuel log room c d k s, P -> holds log room c d s -> (length (frames c) < fuel)%nat -> (0 < k)%nat -> (outstanding d s <= n)%nat ->
  exists s', run_link fuel (concat (replicate n (turn k))) s = Ret s' /\ holds log room [] [] s' /\ outstanding [] s' = O /\ l_got s' = l_got s ++ values c.
Proof.
  induction n as [|n IH]; intros fuel log room c d k s HPs Hs Hf Hk Hl.
  - destruct (nothing_left log room c d s Hs ltac:(lia)) as [-> ->]. exists s. rewrite app_nil_r. split_and!; [done|done|lia|done].
  - destruct (turn_holds fuel log room c d k s HPs Hs Hf Hk) as (s1 & ms1 & ms2 & d1 & H1 & -> & Hs1 & Hg1 & Hl1).
    rewrite frames_app, length_app in Hf. cbn [replicate concat]. rewrite run_link_app, H1. ret_step.
    destruct (IH fuel log room ms2 d1 k s1 HPs Hs1 ltac:(lia) Hk ltac:(lia)) as (s' & H2 & H3 & H4 & H5). exists s'.
    by rewrite H2, H5, Hg1, values_app, app_assoc.
Qed.

Lemma start_holds log snd rcv q f : Sendbuf.Rep (send_of snd) q f -> free_slot (w_ars snd) -> pending (send_of snd) (q fd) = Some [] ->
  (P -> solid (send_of snd) (q fd)) -> post_inv log rcv -> settled fd' rcv [] -> coming fd' rcv = [] ->
  holds log (size_of fd' rcv) [] [] (Link snd rcv [] []).
Proof.
  intros HR Hf Hd Hso HP Hs Hc. split; cbn [l_snd l_rcv l_net l_got]; [by exists q, f| |by rewrite app_nil_r|done|constructor].
  exists []. split_and!; [done..|]. by rewrite Hc.
Qed.
End Link.

(** ** Properties *)



(** ** Examples *)

#[local] Instance DripPush : TcpPush bytes.
Proof. by refine {| push := fun _ v e => e ++ v |}. Defined.
#[local] Instance ExRoom : @TcpRoom env ExOs ExSendOk.
Proof.
  refine {| acknowledge := fun _ e => Env (env_clock e) (env_sent e) 4 (env_fd e) (env_brk e) (env_errno e) (env_closed e) |}; [|done].
  intros fd e d r e' Hd [= <- _]. destruct d; [done|cbn [length]; lia].
Defined.
#[local] Existing Instances NoFmt ExScript NoApi Bump.

(** Messages are sent before, between and after the turns of the others; at the end the last
    one is on the way in part. *)
Definition ex_acts : list act :=
  [ASend [AInt 1; AStr [104]]; AWrite; ADeliver 4; AReceive; AReceive; ASend [AInt 1]; ADeliver 100; AReceive; AWrite; AReceive; AReceive;
   AReceive; ADeliver 100; AReceive; AReceive; AReceive; AReceive; ASend [AInt 1; AInt (-7)]; AWrite; ADeliver 5; AReceive].
Lemma ex_acts_ok : Forall (fun m => msg_ok m /\ small m /\ plen_of m <= 16) (messages ex_acts).
Proof.
  change (messages ex_acts) with [[AInt 1; AStr [104]]; [AInt 1]; [AInt 1; AInt (-7)]].
  repeat (constructor; [split; [split_and!; [repeat constructor; cbn; unfold INT_MIN, INT_MAX; lia|cbn; lia|vm_compute; discriminate]|split; vm_compute; discriminate]|]).
  constructor.
Qed.

Example ex_link_run :
  (match run_link 5 3 43 ex_acts (Link (ex_world ex_env) (ex_world []) [] []) with
   | Ret s => Some (l_got s, unread (recv_of (l_rcv s)) 3, length (l_net s)) | _ => None end)
  = Some (values [[AInt 1; AStr [104]]; [AInt 1]], Some (take 3 (frame [AInt 1; AInt (-7)])), 11%nat).
Proof. vm_compute. reflexivity. Qed.

(** The socket of the sender is full at first: it takes nothing until it is acknowledged. *)
Definition full_env : env := Env 100000000 [] 0 7 4096 0 [].
(** The full socket alone gets nothing through; with the turns behind them, all arrive. *)
Example ex_link_stuck :
  (match run_link 5 3 43 ex_acts (Link (ex_world full_env) (ex_world []) [] []) with
   | Ret s => Some (l_got s, unread (recv_of (l_rcv s)) 3, l_net s) | _ => None end) = Some ([], Some [], []).
Proof. vm_compute. reflexivity. Qed.
Example ex_link_drained :
  (match run_link 5 3 43 (ex_acts ++ concat (replicate 42 (turn 3))) (Link (ex_world full_env) (ex_world []) [] []) with
   | Ret s => Some (l_got s) | _ => None end) = Some (values [[AInt 1; AStr [104]]; [AInt 1]; [AInt 1; AInt (-7)]]).
Proof. vm_compute. reflexivity. Qed.
