(* ===== verification/Pblua.v ===== *)
(** * Pblua: protocol buffer messages for scripts

    Source: src/src/pblua/pblua.cc.  A script holds messages, parts of messages and
    repeated fields as userdata that refer to each other and to messages of the protobuf
    library.  The library's reflection is the class [Protobuf], over a world [W] of
    messages; the accessor of a C++ type ([GetInt32], [AddString]) is that operation at
    that type.  find, which never has a result, and the import of enumerations, which is
    never reached, are left out; so are the messages of the log. *)
From Stdlib Require Import SpecFloat.
From S2P Require Import Prelude Fmt Lua LuaStack Dbl.
Local Open Scope Z_scope.

(** ** Descriptors *)

Inductive ftype :=
| TYPE_DOUBLE | TYPE_FLOAT | TYPE_INT64 | TYPE_UINT64 | TYPE_INT32 | TYPE_FIXED64 | TYPE_FIXED32 | TYPE_BOOL | TYPE_STRING
| TYPE_GROUP | TYPE_MESSAGE | TYPE_BYTES | TYPE_UINT32 | TYPE_ENUM | TYPE_SFIXED32 | TYPE_SFIXED64 | TYPE_SINT32 | TYPE_SINT64.
Inductive cpptype :=
| CPPTYPE_INT32 | CPPTYPE_INT64 | CPPTYPE_UINT32 | CPPTYPE_UINT64 | CPPTYPE_DOUBLE | CPPTYPE_FLOAT | CPPTYPE_BOOL
| CPPTYPE_ENUM | CPPTYPE_STRING | CPPTYPE_MESSAGE.
Inductive label := LABEL_OPTIONAL | LABEL_REQUIRED | LABEL_REPEATED.

#[export] Instance cpptype_eq_dec : EqDecision cpptype.
Proof. solve_decision. Defined.

Record FieldDescriptor := Field {
  f_name : bytes;
  f_number : Z;
  f_type : ftype;
  f_label : label;
  f_has_default : bool;
  f_default_int32 : Z;
  f_default_uint32 : Z;
  f_default_string : bytes;
}.
Record Descriptor := Desc { d_id : Z; d_name : bytes; d_fields : list FieldDescriptor }.

Definition type_to_cpp (t : ftype) : cpptype :=
  match t with
  | TYPE_DOUBLE => CPPTYPE_DOUBLE
  | TYPE_FLOAT => CPPTYPE_FLOAT
  | TYPE_INT64 | TYPE_SFIXED64 | TYPE_SINT64 => CPPTYPE_INT64
  | TYPE_UINT64 | TYPE_FIXED64 => CPPTYPE_UINT64
  | TYPE_INT32 | TYPE_SFIXED32 | TYPE_SINT32 => CPPTYPE_INT32
  | TYPE_FIXED32 | TYPE_UINT32 => CPPTYPE_UINT32
  | TYPE_BOOL => CPPTYPE_BOOL
  | TYPE_STRING | TYPE_BYTES => CPPTYPE_STRING
  | TYPE_GROUP | TYPE_MESSAGE => CPPTYPE_MESSAGE
  | TYPE_ENUM => CPPTYPE_ENUM
  end.
Definition cpp_type (f : FieldDescriptor) : cpptype := type_to_cpp (f_type f).
Definition is_repeated (f : FieldDescriptor) : bool := match f_label f with LABEL_REPEATED => true | _ => false end.
Definition is_required (f : FieldDescriptor) : bool := match f_label f with LABEL_REQUIRED => true | _ => false end.
Definition FindFieldByName (d : Descriptor) (name : bytes) : option FieldDescriptor :=
  List.find (fun f => bool_decide (f_name f = name)) (d_fields d).

(** What an accessor of a type passes; a message is a pointer. *)
Definition cval (k : cpptype) : Type :=
  match k with
  | CPPTYPE_FLOAT | CPPTYPE_DOUBLE => lnumber
  | CPPTYPE_BOOL => bool
  | CPPTYPE_STRING => bytes
  | _ => Z
  end.

Class Protobuf (W : Type) := {
  pb_descriptor : W -> Z -> Descriptor;
  pb_field_size : W -> Z -> FieldDescriptor -> Z;
  pb_has_field : W -> Z -> FieldDescriptor -> bool;
  pb_get : forall k, W -> Z -> FieldDescriptor -> cval k;
  pb_set : forall k, Z -> FieldDescriptor -> cval k -> W -> W;
  pb_get_repeated : forall k, W -> Z -> FieldDescriptor -> Z -> cval k;
  pb_set_repeated : forall k, Z -> FieldDescriptor -> Z -> cval k -> W -> W;
  pb_add : forall k, Z -> FieldDescriptor -> cval k -> W -> W;
  pb_mutable_message : Z -> FieldDescriptor -> W -> Z * W;
  pb_add_message : Z -> FieldDescriptor -> W -> Z * W;
  pb_clear_field : Z -> FieldDescriptor -> W -> W;
  pb_remove_last : Z -> FieldDescriptor -> W -> W;
  pb_swap_elements : Z -> FieldDescriptor -> Z -> Z -> W -> W;
  pb_copy_from : Z -> Z -> W -> W;
  pb_merge_from : Z -> Z -> W -> W;
  pb_parse : Z -> bytes -> W -> bool * W;
  pb_parse_buf : Z -> Z -> Z -> W -> bool * W;                (* message, address, length *)
  pb_serialize_to_string : Z -> W -> option bytes * W;
  pb_serialize_to_array : Z -> Z -> W -> Z * W;               (* message, address: the bytes written *)
  pb_byte_size : Z -> W -> Z * W;
  pb_debug_string : W -> Z -> bytes;
  pb_find_type : W -> bytes -> option Descriptor;
  pb_new : Descriptor -> W -> Z * W;                          (* a new message of the prototype, or NULL *)
  pb_delete : Z -> W -> W;
  pb_import : bytes -> W -> bool * W;
  pb_map_path : bytes -> bytes -> W -> W;
  pb_new_importer : W -> W;
}.

(** ** Userdata *)

Record LuaMessage := LMsg { message : Z; root_message : Z; dirty : Z }.
Record RepeatedField := Rep { rmessage : Z; rfield : FieldDescriptor }.
Inductive udata := UMsg (m : LuaMessage) | URep (r : RepeatedField).

(** The userdata of the interpreter by address, the next free address, the counters. *)
Record st (W : Type) := St {
  ud : gmap Z udata;
  next_ud : Z;
  s_msg_count : Z;
  s_msg_new_times : Z;
  s_msg_delete_times : Z;
  world : W;
}.
Arguments St {W}.
Arguments ud {W}.
Arguments next_ud {W}.
Arguments s_msg_count {W}.
Arguments s_msg_new_times {W}.
Arguments s_msg_delete_times {W}.
Arguments world {W}.

Definition init_st {W} (w : W) : st W := St ∅ 1 0 0 0 w.

Section Pblua.
Context {W : Type} {PB : Protobuf W} {F : LuaFmt}.
Implicit Types s : st W.

Definition set_world s (w : W) : st W := St (ud s) (next_ud s) (s_msg_count s) (s_msg_new_times s) (s_msg_delete_times s) w.
Definition put_ud s (p : Z) (u : udata) : st W :=
  St (<[p := u]> (ud s)) (next_ud s) (s_msg_count s) (s_msg_new_times s) (s_msg_delete_times s) (world s).
(** lua_newuserdata, with its contents and metatable *)
Definition new_user s (u : udata) : lval * st W :=
  (LUser (next_ud s),
   St (<[next_ud s := u]> (ud s)) (next_ud s + 1) (s_msg_count s) (s_msg_new_times s) (s_msg_delete_times s) (world s)).

(** luaL_checkudata; a pointer in a userdata may be one that was collected. *)
Definition check_msg (L : list lval) (i : Z) s : res (Z * LuaMessage) :=
  match index2adr L i with
  | LUser p => match ud s !! p with Some (UMsg m) => Ret (p, m) | _ => Raise end
  | _ => Raise
  end.
Definition check_rep (L : list lval) (i : Z) s : res RepeatedField :=
  match index2adr L i with
  | LUser p => match ud s !! p with Some (URep r) => Ret r | _ => Raise end
  | _ => Raise
  end.
Definition get_msg (p : Z) s : res LuaMessage := match ud s !! p with Some (UMsg m) => Ret m | _ => Undef end.

Definition set_dirty (p n : Z) s : res (st W) :=
  m ← get_msg p s;
  Ret (put_ud s p (UMsg (LMsg (message m) (root_message m) n))).
(** root_message->dirty = 1, where the code tests the pointer *)
Definition mark_dirty (m : LuaMessage) s : res (st W) :=
  if root_message m =? 0 then Ret s else set_dirty (root_message m) 1 s.

Definition bool_result (b : bool) s : res (list lval * st W) := Ret ([LBool b], s).
Definition nothing s : res (list lval * st W) := Ret ([], s).

(** ** Messages *)

Definition pblua_load_msg (type_name : bytes) s : res (Z * st W) :=
  match pb_find_type (world s) type_name with
  | None => Ret (0, s)
  | Some descriptor =>
      let '(message, w) := pb_new descriptor (world s) in
      let s := set_world s w in
      if message =? 0 then Ret (0, s)
      else
        n ← sint (s_msg_count s + 1);
        t ← sint (s_msg_new_times s + 1);
        Ret (message, St (ud s) (next_ud s) n t (s_msg_delete_times s) (world s))
  end.

Definition lmsgnew (L : list lval) s : res (list lval * st W) :=
  if lua_isstring L 1 then
    msg_name ← of_option (lua_tolstring L 1);
    '(message, s) ← pblua_load_msg (cstr msg_name) s;
    if message =? 0 then nothing s
    else
      let '(v, s) := new_user s (UMsg (LMsg message (next_ud s) 0)) in
      Ret ([v], s)
  else nothing s.

Definition lmsg_delete (L : list lval) s : res (list lval * st W) :=
  '(p, m) ← check_msg L 1 s;
  if negb (root_message m =? p) then nothing s
  else if message m =? 0 then nothing s
  else
    n ← sint (s_msg_count s - 1);
    t ← sint (s_msg_delete_times s + 1);
    let s := St (<[p := UMsg (LMsg 0 (root_message m) (dirty m))]> (ud s)) (next_ud s) n (s_msg_new_times s) t (world s) in
    nothing (set_world s (pb_delete (message m) (world s))).

(** A userdata the collector finds unreachable: its handler, and its memory is freed. *)
Definition collect (p : Z) s : res (st W) :=
  s ← match ud s !! p with Some (UMsg _) => '(_, s) ← lmsg_delete [LUser p] s; Ret s | _ => Ret s end;
  Ret (St (delete p (ud s)) (next_ud s) (s_msg_count s) (s_msg_new_times s) (s_msg_delete_times s) (world s)).

Definition limport (L : list lval) s : res (list lval * st W) :=
  if lua_isstring L 1 then
    file_name ← of_option (lua_tolstring L 1);
    let '(ok, w) := pb_import (cstr file_name) (world s) in
    if ok : bool then bool_result true (set_world s w) else nothing (set_world s w)
  else nothing s.
Definition lmappath (L : list lval) s : res (list lval * st W) :=
  if lua_isstring L 1 && lua_isstring L 2 then
    name ← of_option (lua_tolstring L 1);
    dir ← of_option (lua_tolstring L 2);
    bool_result true (set_world s (pb_map_path (cstr name) (cstr dir) (pb_map_path (cstr name) (cstr dir) (world s))))
  else nothing s.
Definition lmsgclean (L : list lval) s : res (list lval * st W) :=
  bool_result true (set_world s (pb_map_path [] [] (pb_new_importer (world s)))).

Definition lmsg_parse_from_buf (L : list lval) s : res (list lval * st W) :=
  '(_, m) ← check_msg L 1 s;
  if message m =? 0 then nothing s
  else
    let buf := lua_touserdata L 2 in
    if buf =? 0 then nothing s
    else
      let '(ok, w) := pb_parse_buf (message m) buf (i32 (lua_tointeger L 3)) (world s) in
      bool_result ok (set_world s w).

Definition lmsg_parse_from_string (L : list lval) s : res (list lval * st W) :=
  '(_, m) ← check_msg L 1 s;
  if message m =? 0 then nothing s
  else if negb (lua_isstring L 2) then nothing s
  else
    str ← of_option (lua_tolstring L 2);
    let '(ok, w) := pb_parse (message m) str (world s) in
    bool_result ok (set_world s w).

(** Writing to a NULL buffer is undefined. *)
Definition lmsg_serialize (L : list lval) s : res (list lval * st W) :=
  '(_, m) ← check_msg L 1 s;
  if message m =? 0 then nothing s
  else
    let buf := lua_touserdata L 2 in
    let '(n, w) := pb_serialize_to_array (message m) buf (world s) in
    if (buf =? 0) && negb (n =? 0) then Undef else Ret ([lua_pushinteger n], set_world s w).

Definition lmsg_bytesize (L : list lval) s : res (list lval * st W) :=
  '(_, m) ← check_msg L 1 s;
  if message m =? 0 then nothing s
  else let '(n, w) := pb_byte_size (message m) (world s) in Ret ([lua_pushinteger n], set_world s w).

Definition lmsg_isdirty (L : list lval) s : res (list lval * st W) :=
  '(_, m) ← check_msg L 1 s; bool_result (dirty m =? 1) s.
Definition lmsg_setdirty (L : list lval) s : res (list lval * st W) :=
  '(p, m) ← check_msg L 1 s;
  bool_result true (put_ud s p (UMsg (LMsg (message m) (root_message m) (d2i32 (lua_tonumber L 2))))).

Definition lmsg_debug_string (L : list lval) s : res (list lval * st W) :=
  '(_, m) ← check_msg L 1 s;
  if message m =? 0 then nothing s else Ret ([lua_pushstring (pb_debug_string (world s) (message m))], s).
Definition lmsg_msgname (L : list lval) s : res (list lval * st W) :=
  '(_, m) ← check_msg L 1 s;
  if message m =? 0 then nothing s else Ret ([lua_pushstring (d_name (pb_descriptor (world s) (message m)))], s).
Definition lmsg_tostring (L : list lval) s : res (list lval * st W) :=
  '(_, m) ← check_msg L 1 s;
  if message m =? 0 then nothing s
  else
    let '(str, w) := pb_serialize_to_string (message m) (world s) in
    Ret ([match str with Some str => lua_pushlstring str | None => LNil end], set_world s w).

(** copyfrom and mergefrom: the second message into the first, of the same type. *)
Definition lmsg_transfer (transfer : Z -> Z -> W -> W) (L : list lval) s : res (list lval * st W) :=
  '(_, m1) ← check_msg L 1 s;
  if message m1 =? 0 then nothing s
  else
    '(_, m2) ← check_msg L 2 s;
    if message m2 =? 0 then nothing s
    else if negb (d_id (pb_descriptor (world s) (message m1)) =? d_id (pb_descriptor (world s) (message m2))) then nothing s
    else
      s ← set_dirty (root_message m1) 1 s;
      bool_result true (set_world s (transfer (message m1) (message m2) (world s))).
Definition lmsg_mergefrom := lmsg_transfer pb_merge_from.
Definition lmsg_copyfrom := lmsg_transfer pb_copy_from.

(** ** Reading and writing fields *)

(** The C functions a message has under names that are no fields. *)
Definition FN_tostring : Z := 1.
Definition FN_msgname : Z := 2.
Definition FN_parse_from_string : Z := 3.
Definition FN_parse_from_buf : Z := 4.
Definition FN_debug_string : Z := 5.
Definition FN_bytesize : Z := 6.
Definition FN_totable : Z := 7.
Definition FN_serialize : Z := 8.
Definition FN_isdirty : Z := 9.
Definition FN_setdirty : Z := 10.
Definition FN_copyfrom : Z := 11.
Definition FN_repeated_iter : Z := 12.

Definition method (field_name : bytes) : option Z :=
  let eqs w := bool_decide (field_name = lit w) in
  if eqs "tostring"%string then Some FN_tostring
  else if eqs "msgname"%string then Some FN_msgname
  else if eqs "parse_from_string"%string then Some FN_parse_from_string
  else if eqs "parse_from_buf"%string then Some FN_parse_from_buf
  else if eqs "debug_string"%string then Some FN_debug_string
  else if eqs "bytesize"%string then Some FN_bytesize
  else if eqs "totable"%string then Some FN_totable
  else if eqs "serialize"%string then Some FN_serialize
  else if eqs "isdirty"%string then Some FN_isdirty
  else if eqs "setdirty"%string then Some FN_setdirty
  else if eqs "copyfrom"%string then Some FN_copyfrom
  else None.

(** The size of a string becomes an int. *)
Definition lmsg_get (L : list lval) s : res (list lval * st W) :=
  '(p, m) ← check_msg L 1 s;
  if message m =? 0 then nothing s
  else
    field_name ← of_option (lua_tolstring L 2);
    let w := world s in
    match FindFieldByName (pb_descriptor w (message m)) (cstr field_name) with
    | None => match method (cstr field_name) with Some f => Ret ([LFun f], s) | None => nothing s end
    | Some field =>
        if is_repeated field then let '(v, s) := new_user s (URep (Rep p field)) in Ret ([v], s)
        else
          match cpp_type field with
          | CPPTYPE_MESSAGE =>
              let '(message_new, w) := pb_mutable_message (message m) field w in
              let s := set_world s w in
              if message_new =? 0 then nothing s
              else let '(v, s) := new_user s (UMsg (LMsg message_new (root_message m) 0)) in Ret ([v], s)
          | CPPTYPE_STRING =>
              let str := pb_get CPPTYPE_STRING w (message m) field in
              if Z.of_nat (length str) <=? INT_MAX then Ret ([lua_pushlstring str], s) else Undef
          | CPPTYPE_INT32 => Ret ([lua_pushinteger (pb_get CPPTYPE_INT32 w (message m) field)], s)
          | CPPTYPE_UINT32 => Ret ([LNum (d_of_Z (pb_get CPPTYPE_UINT32 w (message m) field))], s)
          | CPPTYPE_INT64 => Ret ([LNum (d_of_Z (pb_get CPPTYPE_INT64 w (message m) field))], s)
          | CPPTYPE_UINT64 => Ret ([LNum (d_of_Z (pb_get CPPTYPE_UINT64 w (message m) field))], s)
          | CPPTYPE_FLOAT => Ret ([LNum (pb_get CPPTYPE_FLOAT w (message m) field)], s)
          | CPPTYPE_DOUBLE => Ret ([LNum (pb_get CPPTYPE_DOUBLE w (message m) field)], s)
          | CPPTYPE_BOOL => bool_result (pb_get CPPTYPE_BOOL w (message m) field) s
          | CPPTYPE_ENUM => nothing s
          end
    end.

Definition lua_isboolean (L : list lval) (i : Z) : bool := match index2adr L i with LBool _ => true | _ => false end.
(** (uint32_t) of a number *)
Definition d2u32 (d : lnumber) : Z := u32 (d2i64 d).

(** A scalar field is set when the value has its kind. *)
Definition set_scalar (L : list lval) (m : Z) (field : FieldDescriptor) s : res (list lval * st W) :=
  let number := lua_tonumber L 3 in
  let set k v := Ret ([LNum (d_of_Z 1)], set_world s (pb_set k m field v (world s))) in
  match cpp_type field with
  | CPPTYPE_STRING => if lua_isstring L 3 then str ← of_option (lua_tolstring L 3); set CPPTYPE_STRING str else nothing s
  | CPPTYPE_INT32 =>
      if lua_isnumber L 3 then
        let val := d2i32 number in
        if f_has_default field && (f_default_int32 field =? val)
        then Ret ([LNum (d_of_Z 1)], set_world s (pb_clear_field m field (world s)))
        else set CPPTYPE_INT32 val
      else nothing s
  | CPPTYPE_UINT32 => if lua_isnumber L 3 then set CPPTYPE_UINT32 (d2u32 number) else nothing s
  | CPPTYPE_INT64 => if lua_isnumber L 3 then set CPPTYPE_INT64 (d2i64 number) else nothing s
  | CPPTYPE_UINT64 => if lua_isnumber L 3 then set CPPTYPE_UINT64 (d2u64 number) else nothing s
  | CPPTYPE_FLOAT => if lua_isnumber L 3 then set CPPTYPE_FLOAT (to_float number) else nothing s
  | CPPTYPE_DOUBLE => if lua_isnumber L 3 then set CPPTYPE_DOUBLE number else nothing s
  | CPPTYPE_BOOL => if lua_isboolean L 3 then set CPPTYPE_BOOL (lua_toboolean L 3) else nothing s
  | CPPTYPE_ENUM | CPPTYPE_MESSAGE => nothing s
  end.

(** A message field is parsed from a string or copied from a message of its type. *)
Definition set_message (L : list lval) (m : Z) (field : FieldDescriptor) s : res (list lval * st W) :=
  if lua_isstring L 3 then
    str ← of_option (lua_tolstring L 3);
    let '(message_new, w) := pb_mutable_message m field (world s) in
    if message_new =? 0 then nothing (set_world s w)
    else let '(ok, w) := pb_parse message_new str w in bool_result ok (set_world s w)
  else if lua_isuserdata L 3 then
    let '(message_field, w) := pb_mutable_message m field (world s) in
    let s := set_world s w in
    if message_field =? 0 then nothing s
    else
      '(_, new) ← check_msg L 3 s;
      if message new =? 0 then nothing s
      else if negb (d_id (pb_descriptor w message_field) =? d_id (pb_descriptor w (message new))) then nothing s
      else bool_result true (set_world s (pb_copy_from message_field (message new) w))
  else nothing s.

Definition lmsg_set (L : list lval) s : res (list lval * st W) :=
  '(_, m) ← check_msg L 1 s;
  if message m =? 0 then nothing s
  else
    field_name ← of_option (lua_tolstring L 2);
    match FindFieldByName (pb_descriptor (world s) (message m)) (cstr field_name) with
    | None => nothing s
    | Some field =>
        if is_repeated field then nothing s
        else
          s ← mark_dirty m s;
          if lua_isnil L 3 && is_required field then nothing s
          else if lua_isnil L 3 then Ret ([lua_pushinteger 1], set_world s (pb_clear_field (message m) field (world s)))
          else if bool_decide (cpp_type field = CPPTYPE_MESSAGE) then set_message L (message m) field s
          else set_scalar L (message m) field s
    end.

(** ** Messages as tables

    Only the types listed in the code have a value; a name that is set twice keeps the
    last one.  Each level of nesting pushes a table and a key, for an element of a repeated
    field also a name and a table, and lua_checkstack is not called: [room] is what is free
    of the stack.  Nesting takes fuel. *)
Definition load_value (room : nat) (load : nat -> Z -> res tree) (field : FieldDescriptor) (get : forall k, cval k)
    : res (option tree) :=
  let value v := with_slots room 2 (Ret (Some (Val v))) in
  match f_type field with
  | TYPE_MESSAGE => with_slots room 1 (t ← load (room - 1)%nat (get CPPTYPE_MESSAGE); Ret (Some t))
  | TYPE_STRING => value (lua_pushstring (get CPPTYPE_STRING))
  | TYPE_INT32 => value (LNum (d_of_Z (get CPPTYPE_INT32)))
  | TYPE_UINT32 => value (LNum (d_of_Z (get CPPTYPE_UINT32)))
  | TYPE_FLOAT => value (LNum (get CPPTYPE_FLOAT))
  | TYPE_DOUBLE => value (LNum (get CPPTYPE_DOUBLE))
  | TYPE_BOOL => value (LBool (get CPPTYPE_BOOL))
  | _ => Ret None
  end.

Definition set_some (k : lval) (v : option tree) (t : list (lval * tree)) : list (lval * tree) :=
  match v with Some v => settable k v t | None => t end.

(** The loops over the indices of a repeated field and over the fields. *)
Fixpoint load_elements (room : nat) (load : nat -> Z -> res tree) (w : W) (m : Z) (field : FieldDescriptor) (ixs : list Z)
    (t : list (lval * tree)) : res (list (lval * tree)) :=
  match ixs with
  | [] => Ret t
  | i :: ixs =>
      v ← load_value room load field (fun k => pb_get_repeated k w m field i);
      load_elements room load w m field ixs (set_some (LNum (d_of_Z (i + 1))) v t)
  end.
Fixpoint load_fields (room : nat) (load : nat -> Z -> res tree) (w : W) (m : Z) (fields : list FieldDescriptor)
    (t : list (lval * tree)) : res (list (lval * tree)) :=
  match fields with
  | [] => Ret t
  | field :: fields =>
      if is_repeated field then
        e ← with_slots room 2 (load_elements (room - 2) load w m field (seqZ 0 (pb_field_size w m field)) []);
        load_fields room load w m fields (settable (lua_pushstring (f_name field)) (Tab e) t)
      else if pb_has_field w m field then
        v ← load_value room load field (fun k => pb_get k w m field);
        load_fields room load w m fields (set_some (lua_pushstring (f_name field)) v t)
      else load_fields room load w m fields t
  end.
Fixpoint pb_load_tree (fuel room : nat) (w : W) (m : Z) : res tree :=
  match fuel with
  | O => NoFuel
  | S fuel =>
      with_slots room 1
        (t ← load_fields (room - 1) (fun room x => pb_load_tree fuel room w x) w m (d_fields (pb_descriptor w m)) [];
         Ret (Tab t))
  end.

(** A call has LUA_MINSTACK slots beyond its arguments. *)
Definition lmsg_totable (fuel : nat) (L : list lval) s : res (list tree * st W) :=
  '(_, m) ← check_msg L 1 s;
  if message m =? 0 then Ret ([], s)
  else t ← pb_load_tree fuel LUA_MINSTACK (world s) (message m); Ret ([t], s).

(** The table that describes a field. *)
Definition field_table (field : FieldDescriptor) : tree :=
  let type :=
    match cpp_type field with
    | CPPTYPE_INT32 | CPPTYPE_UINT32 => lit "int"
    | CPPTYPE_STRING => lit "string"
    | CPPTYPE_MESSAGE => lit "message"
    | _ => lit "unknown"
    end in
  let t := settable (LStr (lit "type")) (Val (LStr type)) [] in
  let t := settable (LStr (lit "number")) (Val (LNum (d_of_Z (f_number field)))) t in
  Tab (if f_has_default field then
         settable (LStr (lit "default"))
           (Val match cpp_type field with
                | CPPTYPE_INT32 => lua_pushinteger (f_default_int32 field)
                | CPPTYPE_UINT32 => lua_pushinteger (f_default_uint32 field)
                | CPPTYPE_STRING => lua_pushstring (f_default_string field)
                | _ => LNil
                end) t
       else t).
Definition lget_descriptor (L : list lval) s : res (list tree * st W) :=
  if lua_isstring L 1 then
    msg_name ← of_option (lua_tolstring L 1);
    match pb_find_type (world s) (cstr msg_name) with
    | None => Ret ([], s)
    | Some descriptor =>
        Ret ([Tab (fold_left (fun t field => settable (lua_pushstring (f_name field)) (field_table field) t) (d_fields descriptor) [])], s)
    end
  else Ret ([], s).

(** ** Repeated fields *)

(** The message a repeated field belongs to; None: it has no message. *)
Definition rep_parent (r : RepeatedField) s : res (option LuaMessage) :=
  if rmessage r =? 0 then Ret None else m ← get_msg (rmessage r) s; Ret (Some m).
(** (int)lua_tonumber(L, 2) with an offset *)
Definition index_arg (L : list lval) (d : Z) : res Z := sint (d2i32 (lua_tonumber L 2) + d).

(** An element as a value, None for the types the code does not have. *)
Definition element_value (field : FieldDescriptor) (get : forall k, cval k) : option lval :=
  match cpp_type field with
  | CPPTYPE_STRING => Some (lua_pushstring (get CPPTYPE_STRING))
  | CPPTYPE_INT32 => Some (lua_pushinteger (get CPPTYPE_INT32))
  | CPPTYPE_UINT32 => Some (LNum (d_of_Z (get CPPTYPE_UINT32)))
  | CPPTYPE_FLOAT => Some (LNum (get CPPTYPE_FLOAT))
  | CPPTYPE_DOUBLE => Some (LNum (get CPPTYPE_DOUBLE))
  | CPPTYPE_BOOL => Some (LBool (get CPPTYPE_BOOL))
  | _ => None
  end.
(** The i-th element, a message as a new userdata. *)
Definition push_element (m : LuaMessage) (field : FieldDescriptor) (i : Z) s : option lval * st W :=
  if bool_decide (cpp_type field = CPPTYPE_MESSAGE) then
    let '(v, s) := new_user s (UMsg (LMsg (pb_get_repeated CPPTYPE_MESSAGE (world s) (message m) field i) (root_message m) 0)) in
    (Some v, s)
  else (element_value field (fun k => pb_get_repeated k (world s) (message m) field i), s).

Definition lmsg_repeated_iter (L : list lval) s : res (list lval * st W) :=
  r ← check_rep L 1 s;
  if rmessage r =? 0 then nothing s
  else
    index ← index_arg L 1;
    m ← get_msg (rmessage r) s;
    if message m =? 0 then nothing s
    else if (index <=? 0) || (pb_field_size (world s) (message m) (rfield r) <? index) then Ret ([LNil], s)
    else
      match push_element m (rfield r) (index - 1) s with
      | (Some v, s) => Ret ([LNum (d_of_Z index); v], s)
      | (None, s) => nothing s
      end.

(** The value below the function that was pushed is the last argument. *)
Definition lmsg_repeated_pairs (L : list lval) s : res (list lval * st W) :=
  _ ← check_rep L 1 s;
  Ret ([LFun FN_repeated_iter; index2adr (L ++ [LFun FN_repeated_iter]) (-2); LNum (d_of_Z 0)], s).

Definition lmsg_repeated_add (L : list lval) s : res (list lval * st W) :=
  r ← check_rep L 1 s;
  parent ← rep_parent r s;
  match parent with
  | None => nothing s
  | Some m =>
      if message m =? 0 then nothing s
      else
        s ← mark_dirty m s;
        let field := rfield r in
        let add k v := bool_result true (set_world s (pb_add k (message m) field v (world s))) in
        match cpp_type field with
        | CPPTYPE_STRING => val ← of_option (lua_tolstring L 2); add CPPTYPE_STRING (cstr val)
        | CPPTYPE_INT32 => add CPPTYPE_INT32 (i32 (lua_tointeger L 2))
        | CPPTYPE_UINT32 => add CPPTYPE_UINT32 (d2u32 (lua_tonumber L 2))
        | CPPTYPE_FLOAT => add CPPTYPE_FLOAT (to_float (lua_tonumber L 2))
        | CPPTYPE_DOUBLE => add CPPTYPE_DOUBLE (lua_tonumber L 2)
        | CPPTYPE_BOOL => add CPPTYPE_BOOL (lua_toboolean L 2)
        | CPPTYPE_MESSAGE =>
            let '(message_new, w) := pb_add_message (message m) field (world s) in
            let s := set_world s w in
            if message_new =? 0 then nothing s
            else let '(v, s) := new_user s (UMsg (LMsg message_new (root_message m) 0)) in Ret ([v], s)
        | _ => nothing s
        end
  end.

Definition is_LStr (v : lval) : bool := match v with LStr _ => true | _ => false end.
Definition is_LNum (v : lval) : bool := match v with LNum _ => true | _ => false end.

Definition lmsg_repeated_set (L : list lval) s : res (list lval * st W) :=
  r ← check_rep L 1 s;
  if rmessage r =? 0 then nothing s
  else
    index ← index_arg L (-1);
    m ← get_msg (rmessage r) s;
    let field := rfield r in
    if message m =? 0 then nothing s
    else if (index <? 0) || (pb_field_size (world s) (message m) field <=? index) then nothing s
    else
      s ← mark_dirty m s;
      let number := lua_tonumber L 3 in
      let set k v := Ret ([LNum (d_of_Z 1)], set_world s (pb_set_repeated k (message m) field index v (world s))) in
      match cpp_type field with
      | CPPTYPE_STRING =>
          if is_LStr (index2adr L 3) then str ← of_option (lua_tolstring L 3); set CPPTYPE_STRING (cstr str) else nothing s
      | CPPTYPE_INT32 => if is_LNum (index2adr L 3) then set CPPTYPE_INT32 (d2i32 number) else nothing s
      | CPPTYPE_UINT32 => if is_LNum (index2adr L 3) then set CPPTYPE_UINT32 (d2u32 number) else nothing s
      | CPPTYPE_FLOAT => if is_LNum (index2adr L 3) then set CPPTYPE_FLOAT (to_float number) else nothing s
      | CPPTYPE_DOUBLE => if is_LNum (index2adr L 3) then set CPPTYPE_DOUBLE number else nothing s
      | CPPTYPE_BOOL => if lua_isboolean L 3 then set CPPTYPE_BOOL (lua_toboolean L 3) else nothing s
      | _ => nothing s
      end.

(** For the other types nothing is pushed and the result is the last argument. *)
Definition lmsg_repeated_get (L : list lval) s : res (list lval * st W) :=
  r ← check_rep L 1 s;
  if rmessage r =? 0 then nothing s
  else
    index ← index_arg L (-1);
    m ← get_msg (rmessage r) s;
    if message m =? 0 then nothing s
    else if (index <? 0) || (pb_field_size (world s) (message m) (rfield r) <=? index) then Ret ([LNil], s)
    else
      match push_element m (rfield r) index s with
      | (Some v, s) => Ret ([v], s)
      | (None, s) => Ret ([index2adr L (-1)], s)
      end.

Definition lmsg_repeated_count (L : list lval) s : res (list lval * st W) :=
  r ← check_rep L 1 s;
  parent ← rep_parent r s;
  match parent with
  | None => nothing s
  | Some m =>
      if message m =? 0 then nothing s
      else Ret ([LNum (d_of_Z (pb_field_size (world s) (message m) (rfield r)))], s)
  end.

Definition lmsg_repeated_remove_last (L : list lval) s : res (list lval * st W) :=
  r ← check_rep L 1 s;
  parent ← rep_parent r s;
  match parent with
  | None => nothing s
  | Some m =>
      if message m =? 0 then nothing s
      else if pb_field_size (world s) (message m) (rfield r) <=? 0 then Ret ([lua_pushinteger 1], s)
      else
        s ← mark_dirty m s;
        Ret ([lua_pushinteger 1], set_world s (pb_remove_last (message m) (rfield r) (world s)))
  end.

(** The element is moved to the end by swaps with its successors. *)
Fixpoint swap_up (m : Z) (field : FieldDescriptor) (ixs : list Z) (index : Z) (w : W) : W :=
  match ixs with
  | [] => w
  | i :: ixs => swap_up m field ixs index (pb_swap_elements m field (i + index) (i + index + 1) w)
  end.

(** remove_at and remove: bring the element to the end, then remove the last one. *)
Definition remove_with (change : Z -> FieldDescriptor -> Z -> W -> W) (L : list lval) s : res (list lval * st W) :=
  r ← check_rep L 1 s;
  parent ← rep_parent r s;
  match parent with
  | None => nothing s
  | Some m =>
      if message m =? 0 then nothing s
      else
        index ← index_arg L (-1);
        let field := rfield r in
        if (index <? 0) || (pb_field_size (world s) (message m) field <=? index) then nothing s
        else
          s ← mark_dirty m s;
          Ret ([lua_pushinteger 1], set_world s (pb_remove_last (message m) field (change (message m) field index (world s))))
  end.
Definition lmsg_repeated_remove_at :=
  remove_with (fun m field index w => swap_up m field (seqZ 0 (pb_field_size w m field - index - 1)) index w).
Definition lmsg_repeated_remove :=
  remove_with (fun m field index w => pb_swap_elements m field index (pb_field_size w m field - 1) w).

Definition lmsg_repeated_clear (L : list lval) s : res (list lval * st W) :=
  r ← check_rep L 1 s;
  parent ← rep_parent r s;
  match parent with
  | None => nothing s
  | Some m =>
      if message m =? 0 then nothing s
      else
        s ← mark_dirty m s;
        Ret ([lua_pushinteger 1], set_world s (pb_clear_field (message m) (rfield r) (world s)))
  end.

(** The elements of the second field are added to the first one; adding a message that
    fails ends the loop. *)
Fixpoint merge_elements (m1 : Z) (f1 : FieldDescriptor) (m2 : Z) (f2 : FieldDescriptor) (ixs : list Z) (w : W) : W :=
  match ixs with
  | [] => w
  | i :: ixs =>
      match cpp_type f1 with
      | (CPPTYPE_STRING | CPPTYPE_INT32 | CPPTYPE_UINT32 | CPPTYPE_FLOAT | CPPTYPE_DOUBLE | CPPTYPE_BOOL) as k =>
          merge_elements m1 f1 m2 f2 ixs (pb_add k m1 f1 (pb_get_repeated k w m2 f2 i) w)
      | CPPTYPE_MESSAGE =>
          let '(message_new1, w) := pb_add_message m1 f1 w in
          if message_new1 =? 0 then w
          else merge_elements m1 f1 m2 f2 ixs (pb_copy_from message_new1 (pb_get_repeated CPPTYPE_MESSAGE w m2 f2 i) w)
      | _ => merge_elements m1 f1 m2 f2 ixs w
      end
  end.
Definition lmsg_repeated_merge_from (L : list lval) s : res (list lval * st W) :=
  r1 ← check_rep L 1 s;
  parent1 ← rep_parent r1 s;
  match parent1 with
  | None => nothing s
  | Some m1 =>
      if message m1 =? 0 then nothing s
      else
        r2 ← check_rep L 2 s;
        parent2 ← rep_parent r2 s;
        match parent2 with
        | None => nothing s
        | Some m2 =>
            if message m2 =? 0 then nothing s
            else
              s ← set_dirty (root_message m1) 1 s;
              let ixs := seqZ 0 (pb_field_size (world s) (message m2) (rfield r2)) in
              bool_result true (set_world s (merge_elements (message m1) (rfield r1) (message m2) (rfield r2) ixs (world s)))
        end
  end.
End Pblua.
