(* ===== verification/PbluaProps.v ===== *)
(** * PbluaProps: messages and repeated fields as scripts see them

    The references between userdata stay good, a repeated field is a list, and a field
    that is set is read back; each change marks the root message dirty. *)
From Stdlib Require Import SpecFloat.
From S2P Require Import Prelude Fmt Lua LuaStack Dbl Pblua.
Local Open Scope Z_scope.

(** Read a field of a state that was changed. *)
Ltac st_proj := cbn [ud next_ud s_msg_count s_msg_new_times s_msg_delete_times world set_world put_ud message root_message dirty rmessage rfield] in *.

(** ** References *)

Section Invariant.
Context {W : Type} {PB : Protobuf W} {F : LuaFmt}.
Implicit Types s : st W.

(** A message: its root is a message userdata that is its own root.  A repeated field:
    the message it belongs to is one. *)
Definition good_ref s (u : udata) : Prop :=
  match u with
  | UMsg m => exists r, ud s !! root_message m = Some (UMsg r) /\ root_message r = root_message m
  | URep r => exists m, ud s !! rmessage r = Some (UMsg m)
  end.
Definition refs_ok s : Prop :=
  (forall p u, ud s !! p = Some u -> 0 < p < next_ud s /\ good_ref s u) /\ 0 < next_ud s.
Definition counts_ok s : Prop := s_msg_count s = s_msg_new_times s - s_msg_delete_times s.
Definition wf s : Prop := refs_ok s /\ counts_ok s.

(** The userdata and counters are those of another state. *)
Definition same_ud s s' : Prop :=
  ud s' = ud s /\ next_ud s' = next_ud s /\ s_msg_count s' = s_msg_count s /\ s_msg_new_times s' = s_msg_new_times s /\
  s_msg_delete_times s' = s_msg_delete_times s.

Lemma wf_world s w : wf s -> wf (set_world s w).
Proof. done. Qed.

(** A message userdata is replaced by one with the same root. *)
Lemma wf_put s p m n d : wf s -> ud s !! p = Some (UMsg m) -> wf (put_ud s p (UMsg (LMsg n (root_message m) d))).
Proof.
  intros [[H Hn] Hc] Hp. split; [|done]. split; [|done]. st_proj. intros q u.
  assert (Hroot : forall x r, ud s !! x = Some (UMsg r) -> exists r', <[p := UMsg (LMsg n (root_message m) d)]> (ud s) !! x = Some (UMsg r') /\
    root_message r' = root_message r).
  { intros x r Hx. destruct (decide (x = p)) as [->|Hne].
    - rewrite lookup_insert_eq. eexists. split; [done|]. rewrite Hp in Hx. by injection Hx as ->.
    - rewrite lookup_insert_ne by done. by exists r. }
  assert (Hgood : forall u, good_ref s u -> good_ref (put_ud s p (UMsg (LMsg n (root_message m) d))) u).
  { intros [mm|rr] Hg; cbn in *.
    - destruct Hg as (r & Hr & He). destruct (Hroot _ _ Hr) as (r' & Hr' & He'). exists r'. split; [done|congruence].
    - destruct Hg as (r & Hr). destruct (Hroot _ _ Hr) as (r' & Hr' & _). by exists r'. }
  destruct (decide (q = p)) as [->|Hne].
  - rewrite lookup_insert_eq. intros [= <-]. destruct (H _ _ Hp) as [Hr Hg]. split; [done|]. apply Hgood. exact Hg.
  - rewrite lookup_insert_ne by done. intros Hq. destruct (H _ _ Hq) as [Hr Hg]. split; [done|]. by apply Hgood.
Qed.

(** A new userdata with good references. *)
Lemma wf_new s u v s' : wf s -> good_ref s u \/ (exists m, u = UMsg (LMsg m (next_ud s) 0)) ->
  new_user s u = (v, s') -> wf s'.
Proof.
  intros [[H Hn] Hc] Hu [= <- <-]. split; [|done]. split; [|st_proj; lia]. st_proj.
  assert (Hfresh : ud s !! next_ud s = None).
  { destruct (ud s !! next_ud s) as [x|] eqn:E; [|done]. destruct (H _ _ E). lia. }
  set (s' := St _ _ _ _ _ _).
  assert (Hgood : forall u, good_ref s u -> good_ref s' u).
  { intros [m|r]; intros [x Hx]; cbn in *; exists x.
    - destruct Hx as [Hx He]. rewrite lookup_insert_ne by congruence. done.
    - by rewrite lookup_insert_ne by congruence. }
  intros q x. destruct (decide (q = next_ud s)) as [->|Hne].
  - rewrite lookup_insert_eq. intros [= <-]. split; [lia|]. destruct Hu as [Hu|[m ->]]; [by apply Hgood|].
    eexists. cbn. rewrite lookup_insert_eq. by split.
  - rewrite lookup_insert_ne by congruence. intros Hq. destruct (H _ _ Hq). split; [lia|by apply Hgood].
Qed.

Lemma check_msg_ok L i s p m : check_msg L i s = Ret (p, m) -> ud s !! p = Some (UMsg m).
Proof. unfold check_msg. intros H. res_cases. done. Qed.
Lemma get_msg_ok p s m : get_msg p s = Ret m -> ud s !! p = Some (UMsg m).
Proof. unfold get_msg. intros H. res_cases. done. Qed.

Lemma wf_set_dirty p n s s' : wf s -> set_dirty p n s = Ret s' -> wf s'.
Proof. unfold set_dirty. intros H Hs. res_inv. apply wf_put; [done|]. by apply get_msg_ok. Qed.
Lemma wf_mark_dirty m s s' : wf s -> mark_dirty m s = Ret s' -> wf s'.
Proof. unfold mark_dirty. intros H Hs. res_cases; [done|]. by eapply wf_set_dirty. Qed.

(** References of an entry stay good when it is marked. *)
Lemma set_dirty_lookup p n s s' q m : set_dirty p n s = Ret s' -> ud s !! q = Some (UMsg m) ->
  exists d, ud s' !! q = Some (UMsg (LMsg (message m) (root_message m) d)) /\ (q = p -> d = n).
Proof.
  unfold set_dirty. intros Hs Hq. res_inv. apply get_msg_ok in Hs0. st_proj. destruct (decide (q = p)) as [->|Hne].
  - rewrite lookup_insert_eq. rewrite Hs0 in Hq. injection Hq as ->. by eexists.
  - rewrite lookup_insert_ne by done. destruct m as [a b d]. exists d. by split.
Qed.

Lemma good_sub s p m x d : wf s -> ud s !! p = Some (UMsg m) -> good_ref s (UMsg (LMsg x (root_message m) d)).
Proof. intros [[H _] _] Hp. by destruct (H _ _ Hp) as [_ Hg]. Qed.
Lemma mark_dirty_lookup m0 s s' q m : mark_dirty m0 s = Ret s' -> ud s !! q = Some (UMsg m) ->
  exists d, ud s' !! q = Some (UMsg (LMsg (message m) (root_message m) d)).
Proof.
  unfold mark_dirty. intros H Hq. res_cases; [by destruct m; eexists|].
  destruct (set_dirty_lookup _ _ _ _ _ _ H Hq) as (d & Hd & _). by exists d.
Qed.
Lemma rep_parent_ok r s m : rep_parent r s = Ret (Some m) -> ud s !! rmessage r = Some (UMsg m).
Proof. unfold rep_parent. intros H. res_cases. by apply get_msg_ok. Qed.

(** A new part of a message [m] that was at [p], after it was marked. *)
Lemma wf_new_part m0 s s1 w p m x v s' : wf s -> mark_dirty m0 s = Ret s1 -> ud s !! p = Some (UMsg m) ->
  new_user (set_world s1 w) (UMsg (LMsg x (root_message m) 0)) = (v, s') -> wf s'.
Proof.
  intros Hwf H1 Hp Hn. pose proof (wf_mark_dirty _ _ _ Hwf H1) as Hwf1. destruct (mark_dirty_lookup _ _ _ _ _ H1 Hp) as [d Hd].
  eapply wf_new; [by apply (wf_world s1 w)| |exact Hn]. left.
  apply (good_sub (set_world s1 w) p (LMsg (message m) (root_message m) d)); [done|exact Hd].
Qed.

Lemma wf_counts s ud' nx n t d w : refs_ok s -> ud' = ud s -> nx = next_ud s -> n = t - d -> wf (St ud' nx n t d w).
Proof. intros H -> -> ->. by split. Qed.

(** The functions of the module and of its objects, that change the state. *)
Definition api : list (list lval -> st W -> res (list lval * st W)) :=
  [lmsgnew; lmsg_delete; limport; lmappath; lmsgclean; lmsg_parse_from_buf; lmsg_parse_from_string; lmsg_serialize;
   lmsg_bytesize; lmsg_isdirty; lmsg_setdirty; lmsg_debug_string; lmsg_msgname; lmsg_tostring; lmsg_mergefrom; lmsg_copyfrom;
   lmsg_get; lmsg_set; lmsg_repeated_iter; lmsg_repeated_pairs; lmsg_repeated_add; lmsg_repeated_set; lmsg_repeated_get;
   lmsg_repeated_count; lmsg_repeated_remove_last; lmsg_repeated_remove_at; lmsg_repeated_remove; lmsg_repeated_clear;
   lmsg_repeated_merge_from].

(** [wf_done]: the state of a path is one of those above. *)
Ltac wf_done :=
  first [ assumption | apply wf_world; assumption
        | apply wf_world; eapply wf_mark_dirty; eassumption | eapply wf_mark_dirty; eassumption
        | apply wf_world; eapply wf_set_dirty; eassumption | eapply wf_set_dirty; eassumption ].
Ltac wf_simple := intros Hwf H; res_cases; wf_done.

Lemma wf_load_msg name s p s' : wf s -> pblua_load_msg name s = Ret (p, s') -> wf s'.
Proof.
  intros Hwf H. unfold pblua_load_msg in H. res_cases; try wf_done. apply sint_Ret in H0 as [-> _], H1 as [-> _].
  apply (wf_counts s); [apply Hwf|done|done|]. destruct Hwf as [_ Hc]. unfold counts_ok in Hc. st_proj. lia.
Qed.
Lemma wf_msgnew L s r s' : wf s -> lmsgnew L s = Ret (r, s') -> wf s'.
Proof.
  intros Hwf H. unfold lmsgnew, nothing in H. res_cases; try wf_done.
  - by eapply wf_load_msg.
  - eapply wf_new; [by eapply wf_load_msg| |eassumption]. right. by eexists.
Qed.
Lemma wf_delete L s r s' : wf s -> lmsg_delete L s = Ret (r, s') -> wf s'.
Proof.
  intros Hwf H. unfold lmsg_delete, nothing in H. res_cases; try wf_done.
  apply check_msg_ok in H0. apply sint_Ret in H2 as [-> _], H1 as [-> _].
  destruct (wf_put s _ _ 0 (dirty l) Hwf H0) as [Hr _]. split; [exact Hr|].
  destruct Hwf as [_ Hc]. unfold counts_ok in *. st_proj. lia.
Qed.

Lemma wf_get L s r s' : wf s -> lmsg_get L s = Ret (r, s') -> wf s'.
Proof.
  intros Hwf H. unfold lmsg_get, nothing, bool_result in H. res_cases; try wf_done; apply check_msg_ok in H0.
  - eapply wf_new; [exact Hwf| |eassumption]. left. cbn. by eexists.
  - eapply wf_new; [by apply wf_world| |eassumption]. left. by eapply good_sub.
Qed.
Lemma wf_set_value L m field s r s' : wf s -> set_scalar L m field s = Ret (r, s') \/ set_message L m field s = Ret (r, s') -> wf s'.
Proof.
  intros Hwf [H|H]; [unfold set_scalar, nothing in H|unfold set_message, nothing, bool_result in H]; res_cases; wf_done.
Qed.
Lemma wf_set L s r s' : wf s -> lmsg_set L s = Ret (r, s') -> wf s'.
Proof.
  intros Hwf H. unfold lmsg_set, nothing in H. res_cases; try wf_done.
  - eapply wf_set_value; [eapply wf_mark_dirty; eassumption|by right].
  - eapply wf_set_value; [eapply wf_mark_dirty; eassumption|by left].
Qed.

Lemma wf_push_element m p field i s v s' : wf s -> ud s !! p = Some (UMsg m) -> push_element m field i s = (v, s') -> wf s'.
Proof.
  intros Hwf Hp H. unfold push_element in H. destruct (bool_decide _); [|by injection H as _ <-].
  destruct (new_user _ _) as [v' s1] eqn:E. injection H as _ <-. eapply wf_new; [exact Hwf| |exact E]. left. by eapply good_sub.
Qed.
Lemma wf_iter L s r s' : wf s -> lmsg_repeated_iter L s = Ret (r, s') \/ lmsg_repeated_get L s = Ret (r, s') -> wf s'.
Proof.
  intros Hwf [H|H]; unfold lmsg_repeated_iter, lmsg_repeated_get, nothing in H; res_cases; try wf_done;
    (eapply wf_push_element; [exact Hwf|by eapply get_msg_ok|eassumption]).
Qed.
Lemma wf_add L s r s' : wf s -> lmsg_repeated_add L s = Ret (r, s') -> wf s'.
Proof.
  intros Hwf H. unfold lmsg_repeated_add, nothing, bool_result in H. res_cases; try wf_done.
  match goal with H : rep_parent _ _ = Ret _ |- _ => apply rep_parent_ok in H end. eapply wf_new_part; eassumption.
Qed.

(** A function keeps the references good. *)
Definition keeps (f : list lval -> st W -> res (list lval * st W)) : Prop :=
  forall L s r s', wf s -> f L s = Ret (r, s') -> wf s'.
Tactic Notation "keeps_simple" reference(f) := intros L s r s' Hwf H; unfold f, nothing, bool_result in H; res_cases; wf_done.

Lemma keeps_remove_with change : keeps (remove_with change).
Proof. keeps_simple remove_with. Qed.
Lemma keeps_transfer f : keeps (lmsg_transfer f).
Proof. keeps_simple lmsg_transfer. Qed.
Lemma keeps_setdirty : keeps lmsg_setdirty.
Proof.
  intros L s r s' Hwf H. unfold lmsg_setdirty, bool_result in H. res_cases. apply wf_put; [done|by eapply check_msg_ok].
Qed.
Lemma keeps_import : keeps limport.
Proof. keeps_simple limport. Qed.
Lemma keeps_mappath : keeps lmappath.
Proof. keeps_simple lmappath. Qed.
Lemma keeps_msgclean : keeps lmsgclean.
Proof. keeps_simple lmsgclean. Qed.
Lemma keeps_parse_from_buf : keeps lmsg_parse_from_buf.
Proof. keeps_simple lmsg_parse_from_buf. Qed.
Lemma keeps_parse_from_string : keeps lmsg_parse_from_string.
Proof. keeps_simple lmsg_parse_from_string. Qed.
Lemma keeps_serialize : keeps lmsg_serialize.
Proof. keeps_simple lmsg_serialize. Qed.
Lemma keeps_bytesize : keeps lmsg_bytesize.
Proof. keeps_simple lmsg_bytesize. Qed.
Lemma keeps_isdirty : keeps lmsg_isdirty.
Proof. keeps_simple lmsg_isdirty. Qed.
Lemma keeps_debug_string : keeps lmsg_debug_string.
Proof. keeps_simple lmsg_debug_string. Qed.
Lemma keeps_msgname : keeps lmsg_msgname.
Proof. keeps_simple lmsg_msgname. Qed.
Lemma keeps_tostring : keeps lmsg_tostring.
Proof. keeps_simple lmsg_tostring. Qed.
Lemma keeps_repeated_pairs : keeps lmsg_repeated_pairs.
Proof. keeps_simple lmsg_repeated_pairs. Qed.
Lemma keeps_repeated_set : keeps lmsg_repeated_set.
Proof. keeps_simple lmsg_repeated_set. Qed.
Lemma keeps_repeated_count : keeps lmsg_repeated_count.
Proof. keeps_simple lmsg_repeated_count. Qed.
Lemma keeps_repeated_remove_last : keeps lmsg_repeated_remove_last.
Proof. keeps_simple lmsg_repeated_remove_last. Qed.
Lemma keeps_repeated_clear : keeps lmsg_repeated_clear.
Proof. keeps_simple lmsg_repeated_clear. Qed.
Lemma keeps_repeated_merge_from : keeps lmsg_repeated_merge_from.
Proof. keeps_simple lmsg_repeated_merge_from. Qed.

Lemma api_keeps : Forall keeps api.
Proof.
  repeat (apply List.Forall_cons; [first
    [ exact wf_msgnew | exact wf_delete | exact wf_get | exact wf_set | intros L s r s' H1 H2; apply (wf_iter L s r s' H1); by left
    | intros L s r s' H1 H2; apply (wf_iter L s r s' H1); by right | exact wf_add | apply keeps_remove_with | apply keeps_transfer
    | apply keeps_setdirty | apply keeps_import | apply keeps_mappath | apply keeps_msgclean | apply keeps_parse_from_buf
    | apply keeps_parse_from_string | apply keeps_serialize | apply keeps_bytesize | apply keeps_isdirty | apply keeps_debug_string
    | apply keeps_msgname | apply keeps_tostring | apply keeps_repeated_pairs | apply keeps_repeated_set | apply keeps_repeated_count
    | apply keeps_repeated_remove_last | apply keeps_repeated_clear | apply keeps_repeated_merge_from ]|]).
  apply List.Forall_nil.
Qed.

(** The object an object refers to; no other object than itself refers to the one at [p]. *)
Definition refers (u : udata) : Z := match u with UMsg m => root_message m | URep r => rmessage r end.
Definition unreferenced (p : Z) s : Prop := forall q u, ud s !! q = Some u -> q <> p -> refers u <> p.

Lemma delete_others p s r s' q : lmsg_delete [LUser p] s = Ret (r, s') -> q <> p -> ud s' !! q = ud s !! q.
Proof.
  intros H Hq. unfold lmsg_delete, nothing, check_msg in H. change (index2adr [LUser p] 1) with (LUser p) in H.
  res_cases; try done. st_proj. by rewrite lookup_insert_ne.
Qed.
Lemma wf_remove p s : wf s -> unreferenced p s ->
  wf (St (delete p (ud s)) (next_ud s) (s_msg_count s) (s_msg_new_times s) (s_msg_delete_times s) (world s)).
Proof.
  intros [[H Hn] Hc] Hp. split; [|done]. split; [|done]. intros q u. st_proj. intros [Hne Hq]%lookup_delete_Some.
  destruct (H q u Hq) as [Hr Hg]. split; [done|]. specialize (Hp q u Hq ltac:(congruence)).
  destruct u as [m|rr]; cbn in *; destruct Hg as [x Hx]; exists x; by rewrite lookup_delete_ne.
Qed.
Lemma wf_collect p s s' : wf s -> unreferenced p s -> collect p s = Ret s' -> wf s'.
Proof.
  intros Hwf Hp H. unfold collect in H. apply bind_Ret_inv in H as (s1 & H1 & H). injection H as <-.
  enough (wf s1 /\ forall q, q <> p -> ud s1 !! q = ud s !! q) as [Hwf1 Hq].
  { apply wf_remove; [done|]. intros q u Hu Hne. rewrite Hq in Hu by done. by apply (Hp q u). }
  destruct (ud s !! p) as [[m|r]|]; [|by injection H1 as <-|by injection H1 as <-].
  apply bind_Ret_inv in H1 as ([r s2] & Hd & H1). injection H1 as <-.
  split; [by eapply wf_delete|]. intros q Hne. by eapply delete_others.
Qed.

(** What happens to a script's objects: the script calls a function, or the collector takes
    an object that no other object refers to. *)
Inductive api_step s s' : Prop :=
| step_call f L r : f ∈ api -> f L s = Ret (r, s') -> api_step s s'
| step_collect p : unreferenced p s -> collect p s = Ret s' -> api_step s s'.

(** C14. The references between a script's objects stay good: whatever functions of the
    module and of its messages and repeated fields are called with whatever arguments, and
    whatever objects that no other object refers to are collected in between, in any order,
    a repeated field keeps referring to a live message object, every message object refers
    to a live root that is its own root, and the count of messages is that of the ones made
    less the ones deleted.  The condition on the collector is one on the script: the
    references are not known to Lua, so a script that drops a message and keeps a part or a
    repeated field of it has the message collected under them, and their next use is
    undefined (collected_message). *)
Theorem api_refs_ok s s' : wf s -> rtc api_step s s' -> wf s'.
Proof.
  intros Hwf Hr. induction Hr as [|s s1 s' Hstep _ IH]; [done|]. apply IH. destruct Hstep as [f L r Hf H|p Hp H].
  - pose proof (proj1 (Forall_forall _ _) api_keeps f Hf) as Hk. exact (Hk L s r s1 Hwf H).
  - by eapply wf_collect.
Qed.
End Invariant.

(** ** Fields as values

    The documented behaviour of the reflection on a scalar field and on a repeated field
    of scalars: [pb_elems] is the list of the elements. *)
Class ProtobufOk (W : Type) {PB : Protobuf W} := {
  pb_scalar : W -> Z -> FieldDescriptor -> Prop;
  pb_list : W -> Z -> FieldDescriptor -> Prop;
  pb_elems : forall k, W -> Z -> FieldDescriptor -> list (cval k);
  pb_get_set k m f v w : pb_scalar w m f -> cpp_type f = k ->
    pb_get k (pb_set k m f v w) m f = v /\ pb_descriptor (pb_set k m f v w) m = pb_descriptor w m;
  pb_get_clear m f w : pb_scalar w m f -> cpp_type f = CPPTYPE_INT32 ->
    pb_get CPPTYPE_INT32 (pb_clear_field m f w) m f = f_default_int32 f /\
    pb_descriptor (pb_clear_field m f w) m = pb_descriptor w m;
  pb_size_ok k w m f : pb_list w m f -> cpp_type f = k -> pb_field_size w m f = Z.of_nat (length (pb_elems k w m f));
  pb_get_repeated_ok k w m f (i : nat) v : pb_list w m f -> cpp_type f = k -> pb_elems k w m f !! i = Some v ->
    pb_get_repeated k w m f (Z.of_nat i) = v;
  pb_add_ok k w m f v : pb_list w m f -> cpp_type f = k ->
    pb_list (pb_add k m f v w) m f /\ pb_elems k (pb_add k m f v w) m f = pb_elems k w m f ++ [v];
  pb_set_repeated_ok k w m f (i : nat) v : pb_list w m f -> cpp_type f = k -> (i < length (pb_elems k w m f))%nat ->
    pb_list (pb_set_repeated k m f (Z.of_nat i) v w) m f /\
    pb_elems k (pb_set_repeated k m f (Z.of_nat i) v w) m f = <[i := v]> (pb_elems k w m f);
  pb_swap_ok k w m f (i j : nat) x y : pb_list w m f -> cpp_type f = k ->
    pb_elems k w m f !! i = Some x -> pb_elems k w m f !! j = Some y ->
    pb_list (pb_swap_elements m f (Z.of_nat i) (Z.of_nat j) w) m f /\
    pb_elems k (pb_swap_elements m f (Z.of_nat i) (Z.of_nat j) w) m f = <[j := x]> (<[i := y]> (pb_elems k w m f));
  pb_remove_last_ok k w m f l x : pb_list w m f -> cpp_type f = k -> pb_elems k w m f = l ++ [x] ->
    pb_list (pb_remove_last m f w) m f /\ pb_elems k (pb_remove_last m f w) m f = l;
  pb_clear_ok k w m f : pb_list w m f -> cpp_type f = k ->
    pb_list (pb_clear_field m f w) m f /\ pb_elems k (pb_clear_field m f w) m f = [];
}.

(** The value of a script for an element, and the elements that are kept as they are. *)
Definition lua_of (k : cpptype) : cval k -> lval :=
  match k with
  | CPPTYPE_FLOAT | CPPTYPE_DOUBLE => LNum
  | CPPTYPE_BOOL => LBool
  | CPPTYPE_STRING => LStr
  | _ => fun z => LNum (d_of_Z z)
  end.
Definition element_ok (k : cpptype) : cval k -> Prop :=
  match k with
  | CPPTYPE_INT32 => fun z => in_s 32 z
  | CPPTYPE_UINT32 => fun z => in_u 32 z
  | CPPTYPE_FLOAT => fun d => to_float d = d
  | CPPTYPE_DOUBLE | CPPTYPE_BOOL => fun _ => True
  | CPPTYPE_STRING => fun t => Forall (fun c => c <> 0) t
  | _ => fun _ => False
  end.

(** What the calls do with an element, behind their checks. *)
Section Element.
Context {W : Type} {PB : Protobuf W} {F : LuaFmt}.
Implicit Types s : st W.

Lemma d2u32_of_Z z : in_u 32 z -> d2u32 (d_of_Z z) = z.
Proof. unfold in_u, d2u32. intros H. rewrite d2i64_of_Z by lia. by apply wrapU_id. Qed.

Lemma add_call k (x : cval k) p r m s s1 : check_rep [LUser p; lua_of k x] 1 s = Ret r -> rep_parent r s = Ret (Some m) ->
  (message m =? 0) = false -> mark_dirty m s = Ret s1 -> cpp_type (rfield r) = k -> element_ok k x ->
  lmsg_repeated_add [LUser p; lua_of k x] s = Ret ([LBool true], set_world s1 (pb_add k (message m) (rfield r) x (world s1))).
Proof.
  intros H1 H2 H3 H4 Hk Hx. unfold lmsg_repeated_add. rewrite H1, bind_Ret_l, H2, bind_Ret_l, H3, H4, bind_Ret_l, Hk.
  destruct k; cbn [element_ok] in Hx; try done; unfold bool_result.
  - by rewrite (lua_tointeger_int _ _ x).
  - change (lua_tonumber _ 2) with (d_of_Z x). by rewrite d2u32_of_Z.
  - change (lua_tonumber _ 2) with x. by rewrite Hx.
  - by destruct x.
  - change (lua_tolstring _ 2) with (Some x). cbn [of_option]. by rewrite bind_Ret_l, cstr_nozero.
Qed.

Lemma set_call k (x : cval k) p ix r i m s s1 :
  check_rep [LUser p; ix; lua_of k x] 1 s = Ret r -> (rmessage r =? 0) = false -> index_arg [LUser p; ix; lua_of k x] (-1) = Ret i ->
  get_msg (rmessage r) s = Ret m -> (message m =? 0) = false ->
  (i <? 0) || (pb_field_size (world s) (message m) (rfield r) <=? i) = false ->
  mark_dirty m s = Ret s1 -> cpp_type (rfield r) = k -> element_ok k x ->
  lmsg_repeated_set [LUser p; ix; lua_of k x] s
    = Ret ([LNum (d_of_Z 1)], set_world s1 (pb_set_repeated k (message m) (rfield r) i x (world s1))).
Proof.
  intros H1 H2 H3 H4 H5 H6 H7 Hk Hx. unfold lmsg_repeated_set.
  rewrite H1, bind_Ret_l, H2, H3, bind_Ret_l, H4, bind_Ret_l, H5, H6, H7, bind_Ret_l, Hk.
  destruct k; cbn [element_ok] in Hx; try done;
    (change (is_LNum _) with true || change (is_LStr _) with true || change (lua_isboolean _ 3) with true); cbv iota; try done.
  - change (lua_tonumber _ 3) with (d_of_Z x). by rewrite d2i32_of_Z.
  - change (lua_tonumber _ 3) with (d_of_Z x). by rewrite d2u32_of_Z.
  - change (lua_tonumber _ 3) with x. by rewrite Hx.
  - by destruct x.
  - change (lua_tolstring _ 3) with (Some x). cbn [of_option]. by rewrite bind_Ret_l, cstr_nozero.
Qed.

Lemma push_element_scalar k (x : cval k) m field i s : cpp_type field = k -> element_ok k x ->
  pb_get_repeated k (world s) (message m) field i = x -> push_element m field i s = (Some (lua_of k x), s).
Proof.
  intros Hk Hx Hg. unfold push_element. rewrite bool_decide_eq_false_2; [|intros E; assert (k = CPPTYPE_MESSAGE) by congruence; clear Hk; subst k; exact Hx].
  unfold element_value. rewrite Hk. destruct k; cbn in Hx; try done; rewrite Hg; try done.
  cbn. unfold lua_pushstring. by rewrite cstr_nozero.
Qed.
End Element.

(** *** A repeated field is a list *)

Section Repeated.
Variable k : cpptype.

Inductive rep_op :=
| OAdd (x : cval k) | OSet (i : Z) (x : cval k) | OGet (i : Z) | OCount
| ORemove (i : Z) | ORemoveAt (i : Z) | ORemoveLast | OClear.

(** The list, whether the root is dirty, and the results. *)
Definition at_index {A} (l : list A) (i : Z) : option A := if 1 <=? i then l !! Z.to_nat (i - 1) else None.
Definition spec_op (op : rep_op) (l : list (cval k)) (d : Z) : list (cval k) * Z * list lval :=
  let one := LNum (d_of_Z 1) in
  match op with
  | OAdd x => (l ++ [x], 1, [LBool true])
  | OSet i x => match at_index l i with Some _ => (<[Z.to_nat (i - 1) := x]> l, 1, [one]) | None => (l, d, []) end
  | OGet i => (l, d, [match at_index l i with Some x => lua_of k x | None => LNil end])
  | OCount => (l, d, [LNum (d_of_Z (Z.of_nat (length l)))])
  | ORemove i =>
      match at_index l i, last l with
      | Some _, Some x => (take (length l - 1) (<[Z.to_nat (i - 1) := x]> l), 1, [one])
      | _, _ => (l, d, [])
      end
  | ORemoveAt i => match at_index l i with Some _ => (delete (Z.to_nat (i - 1)) l, 1, [one]) | None => (l, d, []) end
  | ORemoveLast => match l with [] => (l, d, [one]) | _ => (take (length l - 1) l, 1, [one]) end
  | OClear => ([], 1, [one])
  end.
Fixpoint spec_ops (ops : list rep_op) (l : list (cval k)) (d : Z) : list (cval k) * Z * list (list lval) :=
  match ops with
  | [] => (l, d, [])
  | op :: ops =>
      let '(l, d, r) := spec_op op l d in
      let '(l, d, rs) := spec_ops ops l d in (l, d, r :: rs)
  end.

(** An index is an int, with the one below it; an element is kept as it is. *)
Definition op_ok (op : rep_op) : Prop :=
  match op with
  | OAdd x => element_ok k x
  | OSet i x => INT_MIN < i <= INT_MAX /\ element_ok k x
  | OGet i | ORemove i | ORemoveAt i => INT_MIN < i <= INT_MAX
  | _ => True
  end.

Context {W : Type} {PB : Protobuf W} {F : LuaFmt}.
Definition call_op (p : Z) (op : rep_op) (s : st W) : res (list lval * st W) :=
  let ix i := LNum (d_of_Z i) in
  match op with
  | OAdd x => lmsg_repeated_add [LUser p; lua_of k x] s
  | OSet i x => lmsg_repeated_set [LUser p; ix i; lua_of k x] s
  | OGet i => lmsg_repeated_get [LUser p; ix i] s
  | OCount => lmsg_repeated_count [LUser p] s
  | ORemove i => lmsg_repeated_remove [LUser p; ix i] s
  | ORemoveAt i => lmsg_repeated_remove_at [LUser p; ix i] s
  | ORemoveLast => lmsg_repeated_remove_last [LUser p] s
  | OClear => lmsg_repeated_clear [LUser p] s
  end.
Fixpoint call_ops (p : Z) (ops : list rep_op) (s : st W) : res (list (list lval) * st W) :=
  match ops with
  | [] => Ret ([], s)
  | op :: ops =>
      '(r, s) ← call_op p op s;
      '(rs, s) ← call_ops p ops s;
      Ret (r :: rs, s)
  end.

(** The object [p] is a repeated field [f] of the message [m], whose root is [root]. *)
Definition field_of (p : Z) (f : FieldDescriptor) (m root : Z) (s : st W) : Prop :=
  exists q mq r, ud s !! p = Some (URep (Rep q f)) /\ q <> 0 /\ ud s !! q = Some (UMsg mq) /\ message mq = m /\ m <> 0 /\
    root_message mq = root /\ root <> 0 /\ ud s !! root = Some (UMsg r).
Definition is_dirty (root : Z) (s : st W) : Z := match ud s !! root with Some (UMsg r) => dirty r | _ => 0 end.

Context {OK : ProtobufOk W}.
Implicit Types s : st W.

(** The field holds the list. *)
Definition holds (p : Z) (f : FieldDescriptor) (m root : Z) s (l : list (cval k)) (d : Z) : Prop :=
  field_of p f m root s /\ cpp_type f = k /\ pb_list (world s) m f /\ pb_elems k (world s) m f = l /\
  Forall (element_ok k) l /\ is_dirty root s = d.

Lemma index_arg_ok p (i : Z) L : INT_MIN < i <= INT_MAX -> index_arg (LUser p :: LNum (d_of_Z i) :: L) (-1) = Ret (i - 1).
Proof.
  unfold INT_MIN, INT_MAX. intros Hi. unfold index_arg.
  change (lua_tonumber (LUser p :: LNum (d_of_Z i) :: L) 2) with (d_of_Z i). rewrite d2i32_of_Z by (unfold in_s; lia).
  apply sint_ok. unfold INT_MIN, INT_MAX. lia.
Qed.

Lemma at_index_cases {A} (l : list A) i :
  (exists x (n : nat), at_index l i = Some x /\ i - 1 = Z.of_nat n /\ l !! n = Some x /\ (n < length l)%nat /\
     (i - 1 <? 0) || (Z.of_nat (length l) <=? i - 1) = false) \/
  (at_index l i = None /\ (i - 1 <? 0) || (Z.of_nat (length l) <=? i - 1) = true).
Proof.
  unfold at_index. destruct (Z.leb_spec 1 i).
  - destruct (l !! Z.to_nat (i - 1)) as [x|] eqn:E.
    + left. exists x, (Z.to_nat (i - 1)). pose proof (lookup_lt_Some _ _ _ E). split_and!; [done|lia|done|done|].
      destruct (Z.ltb_spec (i - 1) 0), (Z.leb_spec (Z.of_nat (length l)) (i - 1)); first [done|lia].
    + right. apply lookup_ge_None in E. split; [done|].
      destruct (Z.ltb_spec (i - 1) 0), (Z.leb_spec (Z.of_nat (length l)) (i - 1)); first [done|lia].
  - right. split; [done|]. destruct (Z.ltb_spec (i - 1) 0); [done|lia].
Qed.

(** The parts of [holds] a call looks at. *)
Lemma holds_parts p f m root s l d : holds p f m root s l d ->
  exists q mq r, (forall L, check_rep (LUser p :: L) 1 s = Ret (Rep q f)) /\ (q =? 0) = false /\ get_msg q s = Ret mq /\
    rep_parent (Rep q f) s = Ret (Some mq) /\ message mq = m /\ (m =? 0) = false /\
    pb_field_size (world s) m f = Z.of_nat (length l) /\
    mark_dirty mq s = Ret (put_ud s root (UMsg (LMsg (message r) (root_message r) 1))) /\ ud s !! root = Some (UMsg r).
Proof.
  intros ((q & mq & r & Hp & Hq0 & Hq & Hm & Hm0 & Hroot & Hroot0 & Hr) & Hk & Hlist & Hl & _). exists q, mq, r.
  assert (Hget : get_msg q s = Ret mq) by (unfold get_msg; by rewrite Hq).
  split_and!; [|by apply Z.eqb_neq|done| |done|by apply Z.eqb_neq| | |done].
  - intros L. unfold check_rep. change (index2adr (LUser p :: L) 1) with (LUser p). cbv iota. by rewrite Hp.
  - unfold rep_parent. cbn [rmessage]. destruct (Z.eqb_spec q 0); [done|]. by rewrite Hget.
  - rewrite (pb_size_ok k) by done. by rewrite Hl.
  - unfold mark_dirty. rewrite Hroot. destruct (Z.eqb_spec root 0); [done|]. unfold set_dirty, get_msg. by rewrite Hr.
Qed.

(** The field after the root was marked and the world changed. *)
Lemma holds_changed p f m root s l d r w l' : holds p f m root s l d -> ud s !! root = Some (UMsg r) ->
  pb_list w m f /\ pb_elems k w m f = l' -> Forall (element_ok k) l' ->
  holds p f m root (set_world (put_ud s root (UMsg (LMsg (message r) (root_message r) 1))) w) l' 1.
Proof.
  intros ((q & mq & r' & Hp & Hq0 & Hq & Hm & Hm0 & Hroot & Hroot0 & Hr) & Hk & _) Hr2 [Hw1 Hw2] Hl'.
  rewrite Hr in Hr2. injection Hr2 as ->. split; [|split_and!; [done|done|done|done|]].
  - exists q. destruct (decide (q = root)) as [Hqr|Hqr].
    + exists (LMsg (message r) (root_message r) 1), (LMsg (message r) (root_message r) 1). st_proj. subst q.
      rewrite Hq in Hr. injection Hr as ->. split_and!; try done; try (by rewrite lookup_insert_eq).
      rewrite lookup_insert_ne; [done|]. intros ->. rewrite Hp in Hq. done.
    + exists mq, (LMsg (message r) (root_message r) 1). st_proj. split_and!; try done; try (by rewrite lookup_insert_eq).
      * rewrite lookup_insert_ne; [done|]. intros ->. rewrite Hp in Hr. done.
      * by rewrite lookup_insert_ne.
  - unfold is_dirty. st_proj. by rewrite lookup_insert_eq.
Qed.

(** Moving an element to the end by swaps. *)
Lemma list_last_case {A} (l : list A) : l = [] \/ exists l0 y, l = l0 ++ [y].
Proof. destruct l as [|y l _] using rev_ind; [by left|right; by exists l, y]. Qed.
Lemma swap_adjacent {A} (a b : list A) (x y : A) :
  <[S (length a) := x]> (<[length a := y]> (a ++ x :: y :: b)) = a ++ y :: x :: b.
Proof.
  replace (length a) with (length a + 0)%nat at 2 by lia. rewrite insert_app_r. cbn.
  replace (S (length a)) with (length a + 1)%nat by lia. by rewrite insert_app_r.
Qed.
Lemma swap_up_ok m f x b : forall a j idx w, cpp_type f = k -> pb_list w m f -> pb_elems k w m f = a ++ x :: b ->
  Z.of_nat (length a) = j + idx ->
  pb_list (swap_up m f (seqZ j (Z.of_nat (length b))) idx w) m f /\
  pb_elems k (swap_up m f (seqZ j (Z.of_nat (length b))) idx w) m f = (a ++ b) ++ [x].
Proof.
  induction b as [|y b IH]; intros a j idx w Hk Hlist Hl Ha.
  - cbn. rewrite app_nil_r. by split.
  - cbn [length]. rewrite seqZ_cons by lia. cbn [swap_up]. rewrite <- Ha.
    replace (Z.of_nat (length a) + 1) with (Z.of_nat (S (length a))) by lia.
    destruct (pb_swap_ok k w m f (length a) (S (length a)) x y Hlist Hk) as [H1 H2].
    + rewrite Hl. by apply list_lookup_middle.
    + rewrite Hl. rewrite lookup_app_r by lia. by replace (S (length a) - length a)%nat with 1%nat by lia.
    + rewrite Hl, swap_adjacent in H2. change (a ++ y :: x :: b) with (a ++ [y] ++ x :: b) in H2. rewrite app_assoc in H2.
      replace (Z.pred (Z.of_nat (S (length b)))) with (Z.of_nat (length b)) by lia.
      destruct (IH (a ++ [y]) (Z.succ j) idx _ Hk H1 H2) as [H3 H4]; [rewrite length_app; cbn; lia|].
      split; [exact H3|]. rewrite H4. by rewrite <- (app_assoc a [y] b).
Qed.
Lemma delete_middle_app {A} (l : list A) n x : l !! n = Some x -> l = take n l ++ x :: drop (S n) l /\ delete n l = take n l ++ drop (S n) l /\
  length (take n l) = n.
Proof.
  intros H. pose proof (lookup_lt_Some _ _ _ H). split_and!.
  - symmetry. by apply take_drop_middle.
  - apply delete_take_drop.
  - rewrite length_take. lia.
Qed.

Lemma remove_with_ok change p f m root s l d i l' : holds p f m root s l d -> INT_MIN < i <= INT_MAX ->
  (forall n x w, l !! n = Some x -> i - 1 = Z.of_nat n -> pb_list w m f -> pb_elems k w m f = l ->
     exists y, pb_list (change m f (i - 1) w) m f /\ pb_elems k (change m f (i - 1) w) m f = l' ++ [y] /\ Forall (element_ok k) l') ->
  exists s', remove_with change [LUser p; LNum (d_of_Z i)] s
      = Ret (match at_index l i with Some _ => [LNum (d_of_Z 1)] | None => [] end, s') /\
    holds p f m root s' (match at_index l i with Some _ => l' | None => l end) (match at_index l i with Some _ => 1 | None => d end).
Proof.
  intros Hh Hi Hc. destruct (holds_parts _ _ _ _ _ _ _ Hh) as (q & mq & r & H1 & H2 & H3 & H4 & H5 & H6 & H7 & H8 & H9).
  unfold remove_with. rewrite H1, bind_Ret_l, H4, bind_Ret_l, H5, H6, index_arg_ok, bind_Ret_l by done. cbn [rfield]. rewrite H7.
  destruct (at_index_cases l i) as [(x & n & Ha & Hn & Hx & Hlt & Ht)|[Ha Ht]]; rewrite Ha, Ht; [|by exists s].
  rewrite H8, bind_Ret_l. pose proof Hh as (_ & Hk & Hlist & Hl & Hall & _).
  destruct (Hc n x (world s) Hx Hn Hlist Hl) as (y & Hy1 & Hy2 & Hy3).
  eexists. split; [done|]. eapply holds_changed; [exact Hh|done| |done]. by apply (pb_remove_last_ok k _ _ _ _ y).
Qed.

Lemma call_remove_ok p f m root s l d i : holds p f m root s l d -> INT_MIN < i <= INT_MAX ->
  let '(l', d', r) := spec_op (ORemove i) l d in exists s', call_op p (ORemove i) s = Ret (r, s') /\ holds p f m root s' l' d'.
Proof.
  intros Hh Hop. pose proof Hh as (Hfo & Hk & Hlist & Hl & Hall & Hd). cbn [spec_op call_op].
  destruct (last l) as [y|] eqn:Ey.
  2:{ apply last_None in Ey. subst l. rewrite Ey in *. assert (Ha : at_index (@nil (cval k)) i = None) by (unfold at_index; by destruct (_ <=? _)).
      rewrite Ha. destruct (remove_with_ok (fun m field index w => pb_swap_elements m field index (pb_field_size w m field - 1) w)
        p f m root s [] d i [] Hh Hop) as (s' & Hs1 & Hs2); [done|]. rewrite Ha in *. by exists s'. }
  apply last_Some in Ey as [l0 Ey].
  destruct (remove_with_ok (fun m field index w => pb_swap_elements m field index (pb_field_size w m field - 1) w)
    p f m root s l d i (take (length l - 1) (<[Z.to_nat (i - 1) := y]> l)) Hh Hop) as (s' & Hs1 & Hs2).
  { intros n x w Hx Hn Hw1 Hw2. exists x. rewrite (pb_size_ok k) by done. rewrite Hw2, Hn, Nat2Z.id.
    pose proof (lookup_lt_Some _ _ _ Hx). replace (Z.of_nat (length l) - 1) with (Z.of_nat (length l - 1)) by lia.
    assert (Hlast : l !! (length l - 1)%nat = Some y).
    { rewrite Ey, length_app. cbn [length]. rewrite lookup_app_r by lia. by replace (length l0 + 1 - 1 - length l0)%nat with 0%nat by lia. }
    destruct (pb_swap_ok k w m f n (length l - 1) x y Hw1 Hk) as [Hs1 Hs2]; [by rewrite Hw2|by rewrite Hw2|].
    split; [done|]. rewrite Hs2, Hw2. split.
    - set (l1 := <[n := y]> l). assert (Hlen : length l1 = length l) by apply length_insert.
      assert (H1' : (length l - 1 < length l1)%nat) by lia.
      rewrite <- (take_drop_middle (<[(length l - 1)%nat := x]> l1) (length l - 1) x) by (by apply list_lookup_insert_eq).
      rewrite take_insert_ge by lia. f_equal. f_equal. apply drop_ge. rewrite length_insert. lia.
    - apply Forall_take, Forall_insert; [done|]. by eapply (proj1 (Forall_lookup _ _) Hall). }
  destruct (at_index l i); by exists s'.
Qed.
Lemma call_remove_at_ok p f m root s l d i : holds p f m root s l d -> INT_MIN < i <= INT_MAX ->
  let '(l', d', r) := spec_op (ORemoveAt i) l d in exists s', call_op p (ORemoveAt i) s = Ret (r, s') /\ holds p f m root s' l' d'.
Proof.
  intros Hh Hop. pose proof Hh as (Hfo & Hk & Hlist & Hl & Hall & Hd). cbn [spec_op call_op].
  destruct (remove_with_ok (fun m field index w => swap_up m field (seqZ 0 (pb_field_size w m field - index - 1)) index w)
    p f m root s l d i (delete (Z.to_nat (i - 1)) l) Hh Hop) as (s' & Hs1 & Hs2).
  { intros n x w Hx Hn Hw1 Hw2. exists x. rewrite (pb_size_ok k) by done. rewrite Hw2, Hn, Nat2Z.id.
    pose proof (lookup_lt_Some _ _ _ Hx). destruct (delete_middle_app l n x Hx) as (E1 & E2 & E3).
    destruct (swap_up_ok m f x (drop (S n) l) (take n l) 0 (Z.of_nat n) w Hk Hw1) as [Hs1 Hs2]; [by rewrite Hw2|lia|].
    rewrite length_drop in Hs1, Hs2. replace (Z.of_nat (length l) - Z.of_nat n - 1) with (Z.of_nat (length l - S n)) by lia.
    split; [done|]. rewrite Hs2, E2. split; [done|]. rewrite <- E2. by apply Forall_delete. }
  destruct (at_index l i); by exists s'.
Qed.
Lemma call_remove_last_ok p f m root s l d : holds p f m root s l d -> 
  let '(l', d', r) := spec_op ORemoveLast l d in exists s', call_op p ORemoveLast s = Ret (r, s') /\ holds p f m root s' l' d'.
Proof.
  intros Hh. pose proof Hh as (Hfo & Hk & Hlist & Hl & Hall & Hd). cbn [spec_op call_op].
  destruct (holds_parts _ _ _ _ _ _ _ Hh) as (q & mq & r & H1 & H2 & H3 & H4 & H5 & H6 & H7 & H8 & H9). subst m.
  unfold lmsg_repeated_remove_last. rewrite H1, bind_Ret_l, H4, bind_Ret_l, H6. cbn [rfield]. rewrite H7.
  destruct (list_last_case l) as [->|(l0 & y & ->)].
  + by exists s.
  + rewrite length_app. cbn [length]. destruct (Z.leb_spec (Z.of_nat (length l0 + 1)) 0); [lia|]. rewrite H8, bind_Ret_l.
    assert (E : take (length l0 + 1 - 1) (l0 ++ [y]) = l0) by (rewrite take_app_le by lia; rewrite take_ge by lia; done).
    destruct (l0 ++ [y]) eqn:E'; [by destruct l0|]. rewrite <- E' in *. eexists. split; [done|]. rewrite E.
    eapply holds_changed; [exact Hh|done| |]; [by apply (pb_remove_last_ok k _ _ _ _ y)|by apply Forall_app in Hall as [? _]].
Qed.

(** Each call does to the field what the operation does to the list. *)
Lemma call_op_ok p f m root s l d op : holds p f m root s l d -> op_ok op ->
  let '(l', d', r) := spec_op op l d in exists s', call_op p op s = Ret (r, s') /\ holds p f m root s' l' d'.
Proof.
  intros Hh Hop. destruct (holds_parts _ _ _ _ _ _ _ Hh) as (q & mq & r & H1 & H2 & H3 & H4 & H5 & H6 & H7 & H8 & H9).
  pose proof Hh as (Hfo & Hk & Hlist & Hl & Hall & Hd). subst m.
  destruct op as [x|i x|i| |i|i| |]; cbn [spec_op call_op op_ok] in *.
  - rewrite (add_call k x _ _ _ _ _ (H1 _) H4 H6 H8 Hk Hop). eexists. split; [done|]. eapply holds_changed; [exact Hh|done| |].
    + destruct (pb_add_ok k (world s) (message mq) f x Hlist Hk) as [Ha1 Ha2]. rewrite Hl in Ha2. by split.
    + apply Forall_app. split; [done|by constructor].
  - destruct Hop as [Hi Hx]. destruct (at_index_cases l i) as [(y & n & Ha & Hn & Hy & Hlt & Ht)|[Ha Ht]]; rewrite Ha.
    + rewrite (set_call k x _ _ _ _ _ _ (put_ud s root (UMsg (LMsg (message r) (root_message r) 1))) (H1 _) H2 (index_arg_ok _ _ _ Hi) H3 H6);
        [|by cbn [rfield]; rewrite H7|done|done|done].
      eexists. split; [done|]. eapply holds_changed; [exact Hh|done| |].
      * rewrite Hn. destruct (pb_set_repeated_ok k (world s) (message mq) f n x Hlist Hk) as [Ha1 Ha2]; [by rewrite Hl|].
        rewrite Hl in Ha2. rewrite Nat2Z.id. by split.
      * by apply Forall_insert.
    + exists s. split; [|done]. unfold lmsg_repeated_set. rewrite H1, bind_Ret_l. cbn [rmessage rfield].
      rewrite H2, (index_arg_ok _ _ _ Hi), bind_Ret_l, H3, bind_Ret_l, H6, H7, Ht. done.
  - unfold lmsg_repeated_get. rewrite H1, bind_Ret_l. cbn [rmessage rfield]. rewrite H2, (index_arg_ok _ _ _ Hop), bind_Ret_l, H3, bind_Ret_l, H6, H7.
    exists s. split; [|done]. destruct (at_index_cases l i) as [(y & n & Ha & Hn & Hy & Hlt & Ht)|[Ha Ht]]; rewrite Ha, Ht; [|done].
    rewrite (push_element_scalar k y); [done|done|by eapply (proj1 (Forall_lookup _ _) Hall)|].
    rewrite Hn. apply (pb_get_repeated_ok k); [done|done|by rewrite Hl].
  - exists s. split; [|done]. unfold lmsg_repeated_count. rewrite H1, bind_Ret_l, H4, bind_Ret_l, H6. cbn [rfield]. by rewrite H7.
  - exact (call_remove_ok _ _ _ _ _ _ _ _ Hh Hop).
  - exact (call_remove_at_ok _ _ _ _ _ _ _ _ Hh Hop).
  - exact (call_remove_last_ok _ _ _ _ _ _ _ Hh).
  - unfold lmsg_repeated_clear. rewrite H1, bind_Ret_l, H4, bind_Ret_l, H6, H8, bind_Ret_l. eexists. split; [done|].
    eapply holds_changed; [exact Hh|done|by apply (pb_clear_ok k)|constructor].
Qed.

(** C13. A repeated field of int32, uint32, float, double, bool or string is a list to its
    script: any sequence of add, set, get, count, remove, remove_at, remove_last and clear,
    with any index but the least int (the code subtracts one), gives exactly the results
    of the same operations on a list and leaves its elements in the field: remove puts the
    last element in the place of the one removed, remove_at keeps the order by a chain of
    swaps, an index outside is refused.  The root message is dirty as soon as something was
    changed, and not by a refused call or a read.  The elements written are values of the
    field's type, a float one that single precision holds, a string one without zero bytes
    (it is cut there otherwise).  Not so for the other types: get answers the index for an
    int64 (get_int64) and uint64, and enums and messages are no values to these calls. *)
Theorem repeated_refines_list p f m root s l d ops : holds p f m root s l d -> Forall op_ok ops ->
  let '(l', d', rs) := spec_ops ops l d in exists s', call_ops p ops s = Ret (rs, s') /\ holds p f m root s' l' d'.
Proof.
  revert s l d. induction ops as [|op ops IH]; intros s l d Hh Hops; [by exists s|].
  apply Forall_cons in Hops as [Hop Hops]. cbn [spec_ops call_ops]. pose proof (call_op_ok p f m root s l d op Hh Hop) as H1.
  destruct (spec_op op l d) as [[l1 d1] r1]. destruct H1 as (s1 & Hc1 & Hh1). rewrite Hc1, bind_Ret_l.
  pose proof (IH s1 l1 d1 Hh1 Hops) as H2. destruct (spec_ops ops l1 d1) as [[l2 d2] rs2]. destruct H2 as (s2 & Hc2 & Hh2).
  rewrite Hc2, bind_Ret_l. by exists s2.
Qed.
End Repeated.

(** *** A field is read as it was set *)

(** The values a field keeps: the numbers of its type a double can hold, floats, strings
    whose length is an int. *)
Definition field_ok (k : cpptype) : cval k -> Prop :=
  match k with
  | CPPTYPE_INT32 => fun z => in_s 32 z
  | CPPTYPE_UINT32 => fun z => in_u 32 z
  | CPPTYPE_INT64 => fun z => - 2 ^ 53 < z < 2 ^ 53
  | CPPTYPE_UINT64 => fun z => 0 <= z < 2 ^ 53
  | CPPTYPE_FLOAT => fun d => to_float d = d
  | CPPTYPE_DOUBLE | CPPTYPE_BOOL => fun _ => True
  | CPPTYPE_STRING => fun t => Z.of_nat (length t) <= INT_MAX
  | _ => fun _ => False
  end.

Lemma d2u64_of_Z z : 0 <= z < 2 ^ 53 -> d2u64 (d_of_Z z) = z.
Proof.
  intros H. unfold d2u64. rewrite d_trunc_of_Z by lia. destruct (Z.leb_spec 0 z), (Z.ltb_spec z (2 ^ 64)); try lia. done.
Qed.

Section Field.
Context {W : Type} {PB : Protobuf W} {F : LuaFmt} {OK : ProtobufOk W}.
Implicit Types s : st W.

(** Behind the checks, the world has the field with the value. *)
Lemma set_scalar_ok k (x : cval k) p name m f s : cpp_type f = k -> field_ok k x -> pb_scalar (world s) m f ->
  exists w, set_scalar [LUser p; name; lua_of k x] m f s = Ret ([LNum (d_of_Z 1)], set_world s w) /\
    pb_get k w m f = x /\ pb_descriptor w m = pb_descriptor (world s) m.
Proof.
  intros Hk Hx Hs. pose proof (pb_get_set k m f x (world s) Hs Hk) as Hgs. unfold set_scalar. rewrite Hk.
  destruct k; cbn [field_ok] in Hx; try done;
    (change (lua_isnumber _ 3) with true || change (lua_isstring _ 3) with true || change (lua_isboolean _ 3) with true); cbv iota.
  - change (lua_tonumber _ 3) with (d_of_Z x). rewrite d2i32_of_Z by done.
    destruct (f_has_default f && (f_default_int32 f =? x)) eqn:E; [|by eexists].
    apply andb_true_iff in E as [_ E%Z.eqb_eq]. destruct (pb_get_clear m f (world s) Hs Hk) as [H1 H2].
    eexists. split; [done|]. by rewrite H1.
  - change (lua_tonumber _ 3) with (d_of_Z x). rewrite d2i64_of_Z by lia. by eexists.
  - change (lua_tonumber _ 3) with (d_of_Z x). rewrite d2u32_of_Z by done. by eexists.
  - change (lua_tonumber _ 3) with (d_of_Z x). rewrite d2u64_of_Z by lia. by eexists.
  - by eexists.
  - change (lua_tonumber _ 3) with x. rewrite Hx. by eexists.
  - change (lua_toboolean _ 3) with (match LBool x with LNone | LNil | LBool false => false | _ => true end).
    destruct x; by eexists.
  - change (lua_tolstring _ 3) with (Some x). cbn [of_option]. rewrite bind_Ret_l. by eexists.
Qed.

(** C18. A scalar field that a script sets is read back as the same value: booleans,
    strings with any characters, 32-bit integers signed or not, 64-bit ones a double can
    hold, floats and doubles, also when an int32 equals the default and the field is
    cleared instead.  The root message is dirty. *)
Theorem field_set_get k (x : cval k) p m r name f s :
  ud s !! p = Some (UMsg m) -> message m <> 0 -> root_message m <> 0 -> ud s !! root_message m = Some (UMsg r) ->
  Forall (fun c => c <> 0) name -> FindFieldByName (pb_descriptor (world s) (message m)) name = Some f ->
  is_repeated f = false -> cpp_type f = k -> pb_scalar (world s) (message m) f -> field_ok k x ->
  exists s', lmsg_set [LUser p; LStr name; lua_of k x] s = Ret ([LNum (d_of_Z 1)], s') /\
    lmsg_get [LUser p; LStr name] s' = Ret ([lua_of k x], s') /\ is_dirty (root_message m) s' = 1.
Proof.
  intros Hp Hm Hr0 Hr Hname Hf Hrep Hk Hs Hx. set (L := [LUser p; LStr name; lua_of k x]).
  set (s1 := put_ud s (root_message m) (UMsg (LMsg (message r) (root_message r) 1))).
  assert (Hmark : mark_dirty m s = Ret s1).
  { unfold mark_dirty. destruct (Z.eqb_spec (root_message m) 0); [done|]. unfold set_dirty, get_msg. by rewrite Hr. }
  assert (Hnil : lua_isnil L 3 = false) by (unfold L; by destruct k).
  assert (Hmsg : cpp_type f <> CPPTYPE_MESSAGE).
  { intros E. assert (k = CPPTYPE_MESSAGE) by congruence. clear Hk. subst k. exact Hx. }
  destruct (set_scalar_ok k x p (LStr name) (message m) f s1 Hk Hx Hs) as (w & Hset & Hget & Hdesc).
  exists (set_world s1 w). split; [|split].
  - unfold lmsg_set, check_msg. change (index2adr L 1) with (LUser p). cbv iota. rewrite Hp, bind_Ret_l.
    destruct (Z.eqb_spec (message m) 0); [done|]. change (lua_tolstring L 2) with (Some name). cbn [of_option].
    rewrite bind_Ret_l, cstr_nozero, Hf, Hrep, Hmark, bind_Ret_l, Hnil by done. cbn [andb].
    rewrite bool_decide_eq_false_2 by done. exact Hset.
  - assert (Hp1 : exists d, ud s1 !! p = Some (UMsg (LMsg (message m) (root_message m) d))).
    { destruct (mark_dirty_lookup m s s1 p m Hmark Hp) as [d Hd]. by exists d. }
    destruct Hp1 as [d Hp1]. unfold lmsg_get, check_msg. change (index2adr _ 1) with (LUser p). cbv iota.
    change (ud (set_world s1 w)) with (ud s1). rewrite Hp1, bind_Ret_l. cbn [message root_message].
    destruct (Z.eqb_spec (message m) 0); [done|]. change (lua_tolstring _ 2) with (Some name). cbn [of_option].
    rewrite bind_Ret_l, cstr_nozero by done. change (world (set_world s1 w)) with w.
    rewrite Hdesc. change (world s1) with (world s). rewrite Hf, Hrep, Hk.
    destruct k; cbn [field_ok] in Hx; try done; rewrite Hget; try done.
    destruct (Z.leb_spec (Z.of_nat (length x)) INT_MAX); [done|lia].
  - unfold is_dirty, s1. st_proj. by rewrite lookup_insert_eq.
Qed.
End Field.

(** ** The table of a message *)

Section Totable.
Context {W : Type} {PB : Protobuf W}.
Variable w : W.

(** The entries in the order of the descriptor: the fields that are set, a repeated field
    always, with its elements under 1, 2, ...; the types the module does not know are left
    out. *)
Definition value_view (sub : Z -> tree) (f : FieldDescriptor) (get : forall k, cval k) : option tree :=
  match f_type f with
  | TYPE_MESSAGE => Some (sub (get CPPTYPE_MESSAGE))
  | TYPE_STRING => Some (Val (LStr (cstr (get CPPTYPE_STRING))))
  | TYPE_INT32 => Some (Val (LNum (d_of_Z (get CPPTYPE_INT32))))
  | TYPE_UINT32 => Some (Val (LNum (d_of_Z (get CPPTYPE_UINT32))))
  | TYPE_FLOAT => Some (Val (LNum (get CPPTYPE_FLOAT)))
  | TYPE_DOUBLE => Some (Val (LNum (get CPPTYPE_DOUBLE)))
  | TYPE_BOOL => Some (Val (LBool (get CPPTYPE_BOOL)))
  | _ => None
  end.
Definition elements_view (sub : Z -> tree) (m : Z) (f : FieldDescriptor) (ixs : list Z) : list (lval * tree) :=
  omap (fun i => pair (LNum (d_of_Z (i + 1))) <$> value_view sub f (fun k => pb_get_repeated k w m f i)) ixs.
Definition field_view (sub : Z -> tree) (m : Z) (f : FieldDescriptor) : option tree :=
  if is_repeated f then Some (Tab (elements_view sub m f (seqZ 0 (pb_field_size w m f))))
  else if pb_has_field w m f then value_view sub f (fun k => pb_get k w m f) else None.
Definition fields_view (sub : Z -> tree) (m : Z) (fields : list FieldDescriptor) : list (lval * tree) :=
  omap (fun f => pair (LStr (f_name f)) <$> field_view sub m f) fields.
Fixpoint tree_view (depth : nat) (m : Z) : tree :=
  match depth with O => Tab [] | S depth => Tab (fields_view (tree_view depth) m (d_fields (pb_descriptor w m))) end.

(** The slots of the stack that building the table takes, at most [depth] levels down: a table
    and its deepest entry, which is a key and its value, or a name, a table and an element. *)
Definition value_slots (sub : Z -> nat) (f : FieldDescriptor) (get : forall k, cval k) : nat :=
  match f_type f with
  | TYPE_MESSAGE => 1 + sub (get CPPTYPE_MESSAGE)
  | TYPE_STRING | TYPE_INT32 | TYPE_UINT32 | TYPE_FLOAT | TYPE_DOUBLE | TYPE_BOOL => 2
  | _ => 0
  end.
Definition elements_slots (sub : Z -> nat) (m : Z) (f : FieldDescriptor) (ixs : list Z) : nat :=
  max_list_with (fun i => value_slots sub f (fun k => pb_get_repeated k w m f i)) ixs.
Definition field_slots (sub : Z -> nat) (m : Z) (f : FieldDescriptor) : nat :=
  if is_repeated f then 2 + elements_slots sub m f (seqZ 0 (pb_field_size w m f))
  else if pb_has_field w m f then value_slots sub f (fun k => pb_get k w m f) else 0.
Fixpoint tree_slots (depth : nat) (m : Z) : nat :=
  match depth with
  | O => 1
  | S depth => 1 + max_list_with (field_slots (tree_slots depth) m) (d_fields (pb_descriptor w m))
  end.

Definition names_ok (d : Descriptor) : Prop :=
  NoDup (map f_name (d_fields d)) /\ Forall (fun f => Forall (fun c => c <> 0) (f_name f)) (d_fields d).

(** What the recursion is known to do with [room] slots. *)
Definition loads (load : nat -> Z -> res tree) (sub : Z -> tree) (need : Z -> nat) (room : nat) : Prop :=
  forall x, load room x = fits (need x) room (sub x).

Lemma load_value_view load sub need room f (get : forall k, cval k) :
  (forall k, (k < room)%nat -> loads load sub need k) ->
  load_value room load f get = fits (value_slots need f get) room (value_view sub f get).
Proof.
  intros H. unfold load_value, value_view, value_slots. destruct (f_type f); try done;
    try (apply (with_slots_fits room 2 0); intros _; by rewrite fits_ok by lia).
  apply with_slots_fits. intros Hr. apply fits_map, H. lia.
Qed.

Lemma value_view_not_nil sub f get : (forall x, sub x <> Val LNil) -> value_view sub f get <> Some (Val LNil).
Proof. intros H. unfold value_view. destruct (f_type f); try done. intros [= E]. by eapply H. Qed.

Lemma set_some_new k v l : tree_get k l = None -> v <> Some (Val LNil) -> set_some k v l = l ++ (match v with Some v => [(k, v)] | None => [] end).
Proof. intros Hk Hv. destruct v as [v|]; cbn; [|by rewrite app_nil_r]. apply settable_new; congruence. Qed.

Lemma tree_get_none k (l : list (lval * tree)) : k ∉ map fst l -> tree_get k l = None.
Proof.
  induction l as [|[x v] l IH]; [done|]. cbn. intros [H1 H2]%not_elem_of_cons. rewrite decide_False by congruence. by apply IH.
Qed.

Lemma elements_keys sub m f ixs k : k ∈ map fst (elements_view sub m f ixs) -> exists i, i ∈ ixs /\ k = LNum (d_of_Z (i + 1)).
Proof.
  intros ([x v] & -> & H)%list_elem_of_fmap. apply list_elem_of_omap in H as (i & Hi & H).
  apply fmap_Some in H as (v' & _ & [= -> ->]). by exists i.
Qed.
Lemma index_inj i j : 0 <= i < INT_MAX -> 0 <= j < INT_MAX -> d_of_Z (i + 1) = d_of_Z (j + 1) -> i = j.
Proof. unfold INT_MAX. intros Hi Hj H. apply d_of_Z_inj in H; lia. Qed.

Lemma load_elements_view load sub need room m f : (forall x, sub x <> Val LNil) -> (forall k, (k < room)%nat -> loads load sub need k) ->
  forall ixs pre, NoDup (pre ++ ixs) -> Forall (fun i => 0 <= i < INT_MAX) (pre ++ ixs) ->
  load_elements room load w m f ixs (elements_view sub m f pre) = fits (elements_slots need m f ixs) room (elements_view sub m f (pre ++ ixs)).
Proof.
  intros Hsub Hload. induction ixs as [|i ixs IH]; intros pre Hnd Hall; [by rewrite app_nil_r, fits_ok by (cbn; lia)|]. cbn [load_elements].
  apply (bind_fits (value_slots need f (fun k => pb_get_repeated k w m f i)) (elements_slots need m f ixs)
    room (value_view sub f (fun k => pb_get_repeated k w m f i))); [by apply load_value_view|]. intros _. rewrite set_some_new.
  - assert (E : elements_view sub m f pre ++ match value_view sub f (fun k => pb_get_repeated k w m f i) with
        Some v => [(LNum (d_of_Z (i + 1)), v)] | None => [] end = elements_view sub m f (pre ++ [i])).
    { unfold elements_view. rewrite omap_app. f_equal. cbn. by destruct (value_view _ _ _). }
    by rewrite E, IH; rewrite <- app_assoc.
  - apply tree_get_none. intros (j & Hj & E)%elements_keys. injection E as E.
    rewrite Forall_forall in Hall. apply index_inj in E; [|apply Hall; set_solver|apply Hall; set_solver]. subst j.
    apply NoDup_app in Hnd as (_ & Hnd & _). specialize (Hnd _ Hj). set_solver.
  - by apply value_view_not_nil.
Qed.

Lemma fields_keys sub m fs k : k ∈ map fst (fields_view sub m fs) -> exists f, f ∈ fs /\ k = LStr (f_name f).
Proof.
  intros ([x v] & -> & H)%list_elem_of_fmap. apply list_elem_of_omap in H as (f & Hf & H).
  apply fmap_Some in H as (v' & _ & [= -> ->]). by exists f.
Qed.

Lemma load_fields_view load sub need room m : (forall x, sub x <> Val LNil) -> (forall k, (k < room)%nat -> loads load sub need k) ->
  forall fs pre, NoDup (map f_name (pre ++ fs)) -> Forall (fun f => Forall (fun c => c <> 0) (f_name f)) fs ->
  (forall f, f ∈ fs -> pb_field_size w m f <= INT_MAX) ->
  load_fields room load w m fs (fields_view sub m pre) = fits (max_list_with (field_slots need m) fs) room (fields_view sub m (pre ++ fs)).
Proof.
  intros Hsub Hload. induction fs as [|f fs IH]; intros pre Hnd Hnz Hsize; [by rewrite app_nil_r, fits_ok by (cbn; lia)|]. cbn [load_fields].
  apply Forall_cons in Hnz as [Hf Hnz]. unfold lua_pushstring. rewrite cstr_nozero by done.
  assert (Hnew : tree_get (LStr (f_name f)) (fields_view sub m pre) = None).
  { apply tree_get_none. intros (g & Hg & [= E])%fields_keys. rewrite map_app in Hnd. apply NoDup_app in Hnd as (_ & Hnd & _).
    apply (Hnd (f_name g)); [by apply list_elem_of_fmap_2|]. rewrite <- E. cbn. set_solver. }
  assert (Hnext : load_fields room load w m fs
      (fields_view sub m pre ++ match field_view sub m f with Some v => [(LStr (f_name f), v)] | None => [] end)
    = fits (max_list_with (field_slots need m) fs) room (fields_view sub m (pre ++ f :: fs))).
  { replace (pre ++ f :: fs) with ((pre ++ [f]) ++ fs) by by rewrite <- app_assoc. rewrite <- IH; [|by rewrite <- app_assoc|done|set_solver].
    f_equal. unfold fields_view. rewrite omap_app. f_equal. cbn. by destruct (field_view _ _ _). }
  change (max_list_with (field_slots need m) (f :: fs)) with (Nat.max (field_slots need m f) (max_list_with (field_slots need m) fs)).
  unfold field_view in Hnext. unfold field_slots at 1. destruct (is_repeated f) eqn:Hrep.
  - apply (bind_fits _ _ room (elements_view sub m f (seqZ 0 (pb_field_size w m f)))); [|by rewrite settable_new].
    apply with_slots_fits. intros Hr. apply (load_elements_view load sub need (room - 2) m f Hsub) with (pre := []).
    + intros k Hk. apply Hload. lia.
    + apply NoDup_seqZ.
    + apply Forall_forall. intros i Hi%elem_of_seqZ. specialize (Hsize f ltac:(set_solver)). lia.
  - destruct (pb_has_field w m f) eqn:Hhas; [|by rewrite app_nil_r in Hnext].
    apply (bind_fits _ _ room (value_view sub f (fun k => pb_get k w m f))); [by apply load_value_view|].
    intros _. rewrite set_some_new by (done || by apply value_view_not_nil). exact Hnext.
Qed.

Lemma load_tree_view : (forall m, names_ok (pb_descriptor w m)) ->
  (forall m f, f ∈ d_fields (pb_descriptor w m) -> pb_field_size w m f <= INT_MAX) ->
  forall fuel room m, (room < fuel)%nat -> pb_load_tree fuel room w m = fits (tree_slots fuel m) room (tree_view fuel m).
Proof.
  intros Hnames Hsize. induction fuel as [|fuel IH]; intros room m Hr; [lia|]. cbn [pb_load_tree tree_slots tree_view].
  apply with_slots_fits. intros H1. destruct (Hnames m) as [Hnd Hnz]. apply (fits_map _ _ (fields_view (tree_view fuel) m (d_fields (pb_descriptor w m))) _ Tab).
  apply (load_fields_view (fun room x => pb_load_tree fuel room w x) (tree_view fuel) (tree_slots fuel) (room - 1) m) with (pre := []); [|..|done|done|].
  - intros y. by destruct fuel.
  - intros k Hk x. apply IH. lia.
  - intros f Hf. by apply Hsize.
Qed.
End Totable.

(** C15. totable builds the table of a message whose nesting the Lua stack has room for: its
    entries are the fields that are set, in the order of the descriptor, each under its
    name, the elements of a repeated field under 1, 2, ..., and messages as tables in turn.
    Shown are the fields of type message, string, int32, uint32, float, double and bool; of
    the others (the 64-bit, fixed, sint, enum, bytes and group types) the code has no case
    and they are left out, a repeated one as an empty table; a string ends at its first
    zero byte.  The names of a message are distinct and without zero bytes, and a field has
    at most INT_MAX elements.  Building takes two slots of the stack for each message inside
    a message, four for one in a repeated field, and lua_checkstack is not called: beyond
    the LUA_MINSTACK (20) slots of a call - always, when messages hold each other in a
    circle - the run is undefined. *)
Theorem totable_view {W : Type} {PB : Protobuf W} p m fuel s :
  (forall m, names_ok (pb_descriptor (world s) m)) ->
  (forall m f, f ∈ d_fields (pb_descriptor (world s) m) -> pb_field_size (world s) m f <= INT_MAX) ->
  ud s !! p = Some (UMsg m) -> message m <> 0 -> (LUA_MINSTACK < fuel)%nat ->
  lmsg_totable fuel [LUser p] s =
  if (tree_slots (world s) fuel (message m) <=? LUA_MINSTACK)%nat then Ret ([tree_view (world s) fuel (message m)], s) else Undef.
Proof.
  intros Hnames Hsize Hp Hm Hf. unfold lmsg_totable, check_msg. change (index2adr [LUser p] 1) with (LUser p). cbv iota.
  rewrite Hp, bind_Ret_l. destruct (Z.eqb_spec (message m) 0); [done|]. rewrite load_tree_view by done.
  unfold fits. by destruct (_ <=? _)%nat.
Qed.

(** ** A library of one message type *)

Inductive sval := SZ (z : Z) | SD (d : lnumber) | SB (b : bool) | SS (t : bytes).
Definition to_s (k : cpptype) : cval k -> sval :=
  match k with CPPTYPE_FLOAT | CPPTYPE_DOUBLE => SD | CPPTYPE_BOOL => SB | CPPTYPE_STRING => SS | _ => SZ end.
Definition of_s (k : cpptype) (v : sval) : cval k :=
  match k with
  | CPPTYPE_FLOAT | CPPTYPE_DOUBLE => match v with SD d => d | _ => S754_zero false end
  | CPPTYPE_BOOL => match v with SB b => b | _ => false end
  | CPPTYPE_STRING => match v with SS t => t | _ => [] end
  | _ => match v with SZ z => z | _ => 0 end
  end.
Lemma of_to_s k x : of_s k (to_s k x) = x.
Proof. by destruct k. Qed.

(** The elements of a field of a message; a scalar that is not set has none. *)
Definition ex_world : Type := Z * Z -> list sval.
Definition ex_desc : Descriptor :=
  Desc 1 (lit "Ex") [Field (lit "id") 1 TYPE_INT32 LABEL_OPTIONAL true 7 0 []; Field (lit "xs") 2 TYPE_STRING LABEL_REPEATED false 0 0 []].
Definition ex_default (f : FieldDescriptor) : sval := SZ (f_default_int32 f).
Definition key (m : Z) (f : FieldDescriptor) : Z * Z := (m, f_number f).
Definition swap (l : list sval) (i j : Z) : list sval :=
  match l !! Z.to_nat i, l !! Z.to_nat j with Some x, Some y => <[Z.to_nat j := x]> (<[Z.to_nat i := y]> l) | _, _ => l end.
#[export] Instance ExPb : Protobuf ex_world := {|
  pb_descriptor := fun _ _ => ex_desc;
  pb_field_size := fun w m f => Z.of_nat (length (w (key m f)));
  pb_has_field := fun w m f => negb (Nat.eqb (length (w (key m f))) 0);
  pb_get := fun k w m f => of_s k (List.hd (ex_default f) (w (key m f)));
  pb_set := fun k m f v w => upd w (key m f) [to_s k v];
  pb_get_repeated := fun k w m f i => of_s k (default (SZ 0) (w (key m f) !! Z.to_nat i));
  pb_set_repeated := fun k m f i v w => upd w (key m f) (<[Z.to_nat i := to_s k v]> (w (key m f)));
  pb_add := fun k m f v w => upd w (key m f) (w (key m f) ++ [to_s k v]);
  pb_mutable_message := fun m f w => (0, w);
  pb_add_message := fun m f w => (0, w);
  pb_clear_field := fun m f w => upd w (key m f) [];
  pb_remove_last := fun m f w => upd w (key m f) (take (length (w (key m f)) - 1) (w (key m f)));
  pb_swap_elements := fun m f i j w => upd w (key m f) (swap (w (key m f)) i j);
  pb_copy_from := fun _ _ w => w; pb_merge_from := fun _ _ w => w;
  pb_parse := fun _ _ w => (false, w); pb_parse_buf := fun _ _ _ w => (false, w);
  pb_serialize_to_string := fun _ w => (None, w); pb_serialize_to_array := fun _ _ w => (0, w);
  pb_byte_size := fun _ w => (0, w); pb_debug_string := fun _ _ => [];
  pb_find_type := fun _ _ => Some ex_desc; pb_new := fun _ w => (100, w); pb_delete := fun _ w => w;
  pb_import := fun _ w => (true, w); pb_map_path := fun _ _ w => w; pb_new_importer := fun w => w;
|}.
#[export] Instance ExPbOk : ProtobufOk ex_world.
Proof.
  refine {| pb_scalar := fun _ _ f => is_repeated f = false; pb_list := fun _ _ _ => True;
            pb_elems := fun k w m f => map (of_s k) (w (key m f)) |}; cbn.
  - intros k m f v w _ _. rewrite upd_eq. cbn. by rewrite of_to_s.
  - intros m f w _ _. by rewrite upd_eq.
  - intros k w m f _ _. by rewrite length_map.
  - intros k w m f i v _ _ H. rewrite Nat2Z.id. apply list_lookup_fmap_Some in H as (y & -> & Hy). by rewrite Hy.
  - intros k w m f v _ _. rewrite upd_eq, map_app. cbn. by rewrite of_to_s.
  - intros k w m f i v _ _ _. rewrite upd_eq, Nat2Z.id. split; [done|]. rewrite (list_fmap_insert (of_s k)). by rewrite of_to_s.
  - intros k w m f i j x y _ _ Hi Hj. rewrite upd_eq. split; [done|]. unfold swap. rewrite !Nat2Z.id.
    apply list_lookup_fmap_Some in Hi as (x' & -> & Hi), Hj as (y' & -> & Hj). rewrite Hi, Hj.
    by rewrite !(list_fmap_insert (of_s k)).
  - intros k w m f l x _ _ H. rewrite upd_eq. split; [done|].
    assert (Hlen : length (w (key m f)) = length (l ++ [x])) by (rewrite <- H; by rewrite length_map).
    rewrite (fmap_take (of_s k)). change (of_s k <$> w (key m f)) with (map (of_s k) (w (key m f))). rewrite H, Hlen, length_app. cbn.
    rewrite take_app_le by lia. apply take_ge. lia.
  - intros k w m f _ _. by rewrite upd_eq.
Defined.

(** A script with a message and its repeated field xs. *)
Definition ex_xs : FieldDescriptor := Field (lit "xs") 2 TYPE_STRING LABEL_REPEATED false 0 0 [].
Definition ex_st : st ex_world := St {[1 := UMsg (LMsg 100 1 0); 2 := URep (Rep 1 ex_xs)]} 3 1 1 0 (fun _ => []).

Lemma ex_wf : wf ex_st.
Proof.
  split; [|done]. split; [|done]. intros p u. cbn [ex_st ud]. rewrite lookup_insert_Some. intros [[<- <-]|[Hne Hp]].
  - split; [cbn; lia|]. by exists (LMsg 100 1 0).
  - apply lookup_singleton_Some in Hp as [<- <-].
    split; [cbn; lia|]. by exists (LMsg 100 1 0).
Defined.

(** The script takes its repeated field once more, and the first handle is collected. *)
Definition ex_st1 : st ex_world := snd (new_user ex_st (URep (Rep 1 ex_xs))).
Definition ex_st2 : st ex_world := St (delete 2 (ud ex_st1)) 4 1 1 0 (fun _ => []).
Lemma api_refs_ok_witness : ud ex_st2 !! 2 = None /\ ud ex_st2 !! 3 = Some (URep (Rep 1 ex_xs)) /\ wf ex_st2.
Proof.
  split; [by vm_compute|]. split; [by vm_compute|].
  apply (@api_refs_ok ex_world ExPb NoFmt ex_st ex_st2 ex_wf). apply (rtc_l _ _ ex_st1); [|apply rtc_once].
  - apply (@step_call ex_world ExPb NoFmt _ _ (lmsg_get (F := NoFmt)) [LUser 1; LStr (lit "xs")] [LUser 3]);
      [by apply list_elem_of_In; do 16 right; left|by vm_compute].
  - apply (@step_collect ex_world ExPb NoFmt _ _ 2); [|by vm_compute]. intros q u Hq Hne.
    unfold ex_st1 in Hq. cbn [new_user snd ud ex_st next_ud] in Hq.
    repeat (apply lookup_insert_Some in Hq as [[<- <-]|[_ Hq]]; [done|]). by apply lookup_singleton_Some in Hq as [<- <-].
Defined.

Definition ex_ops : list (rep_op CPPTYPE_STRING) :=
  [OAdd CPPTYPE_STRING [97]; OAdd CPPTYPE_STRING [98]; OAdd CPPTYPE_STRING [99]; ORemove CPPTYPE_STRING 1; OGet CPPTYPE_STRING 1;
   ORemoveAt CPPTYPE_STRING 2; OCount CPPTYPE_STRING; OSet CPPTYPE_STRING 5 [120]].
Lemma repeated_refines_list_witness :
  let '(l', d', rs) := spec_ops CPPTYPE_STRING ex_ops [] 0 in
  exists s', call_ops CPPTYPE_STRING (F := NoFmt) 2 ex_ops ex_st = Ret (rs, s') /\ holds CPPTYPE_STRING 2 ex_xs 100 1 s' l' d'.
Proof.
  apply (@repeated_refines_list CPPTYPE_STRING ex_world ExPb NoFmt ExPbOk 2 ex_xs 100 1 ex_st [] 0 ex_ops).
  - split; [|split_and!; try done; constructor]. exists 1, (LMsg 100 1 0), (LMsg 100 1 0). by split_and!.
  - unfold ex_ops. repeat (apply List.Forall_cons; [cbn; unfold INT_MIN, INT_MAX; first [lia|repeat constructor; lia|split; [lia|repeat constructor; lia]]|]).
    apply List.Forall_nil.
Defined.

(** id has the default 7, to which it is set. *)
Lemma field_set_get_witness : exists s',
  lmsg_set (F := NoFmt) [LUser 1; LStr (lit "id"); lua_of CPPTYPE_INT32 7] ex_st = Ret ([LNum (d_of_Z 1)], s') /\
  lmsg_get (F := NoFmt) [LUser 1; LStr (lit "id")] s' = Ret ([lua_of CPPTYPE_INT32 7], s') /\
  is_dirty (root_message (LMsg 100 1 0)) s' = 1.
Proof.
  apply (@field_set_get ex_world ExPb NoFmt ExPbOk CPPTYPE_INT32 7 1 (LMsg 100 1 0) (LMsg 100 1 0) (lit "id")
    (Field (lit "id") 1 TYPE_INT32 LABEL_OPTIONAL true 7 0 []) ex_st); try done.
  repeat constructor; done.
Defined.

Lemma totable_view_witness :
  lmsg_totable 21 [LUser 1] ex_st =
  if (tree_slots (world ex_st) 21 100 <=? LUA_MINSTACK)%nat then Ret ([tree_view (world ex_st) 21 100], ex_st) else Undef.
Proof.
  apply (@totable_view ex_world ExPb 1 (LMsg 100 1 0) 21 ex_st).
  - intros m. split; [apply (bool_decide_unpack _); by vm_compute|].
    apply (bool_decide_unpack _). by vm_compute.
  - intros m f _. by vm_compute.
  - done.
  - done.
  - unfold LUA_MINSTACK. lia.
Defined.

(** The references are pointers the collector does not follow: when the message object
    is collected, its repeated field refers to freed memory. *)
Example collected_message : (s ← collect 1 ex_st; lmsg_repeated_count [LUser 2] s) = Undef.
Proof. by vm_compute. Qed.
(** get of a repeated field of int64 returns its own index. *)
Example get_int64 :
  lmsg_repeated_get (F := NoFmt) [LUser 2; LNum (d_of_Z 1)]
    (St {[1 := UMsg (LMsg 100 1 0); 2 := URep (Rep 1 (Field (lit "ns") 3 TYPE_INT64 LABEL_REPEATED false 0 0 []))]} 3 1 1 0
       (fun _ => [SZ 42]) : st ex_world)
  = Ret ([LNum (d_of_Z 1)],
    St {[1 := UMsg (LMsg 100 1 0); 2 := URep (Rep 1 (Field (lit "ns") 3 TYPE_INT64 LABEL_REPEATED false 0 0 []))]} 3 1 1 0 (fun _ => [SZ 42])).
Proof. by vm_compute. Qed.
